(** * SwiftShader [src/Device/Renderer.cpp]: draw dispatch, batching,
      primitive index assembly, primitive setup and the ticket-ordered
      batch scheduler.

    The first part of the file is a shallow embedding of the C++ code; the
    second part states and proves properties of it.  Every definition names
    the source function (and the lines) it follows. *)

From Stdlib Require Import ZArith QArith Lia Bool List SpecFloat.
From stdpp Require Import base tactics option list numbers functions relations sorting.

Set Default Proof Using "Type".

(* ===================================================================== *)
(** * Part I. The embedding                                               *)
(* ===================================================================== *)

(** ** Machine integers *)

(** [unsigned int] arithmetic: every result is reduced modulo 2^32. *)
Definition wrap32 (z : Z) : Z := (z mod 2 ^ 32)%Z.

(** [int] results: a value that is stored in, or converted to, a 32-bit
    signed integer is reduced modulo 2^32 into the range from -2^31 to
    2^31 - 1 (incrementing [INT_MAX] gives [INT_MIN]). *)
Definition wrap_int32 (z : Z) : Z := ((z + 2 ^ 31) mod 2 ^ 32 - 2 ^ 31)%Z.

(** [for(unsigned int i = 0; i < n; i++) body], threading the variables the
    body assigns as a state [S]. *)
Definition for_upto {S : Type} (n : nat) (body : nat → S → S) (s : S) : S :=
  foldl (λ acc i, body i acc) s (seq 0 n).

(** ** Vulkan enumerations used by the renderer *)

(** The six topologies [setBatchIndices] handles; the last constructor stands
    for every other enumerator, which the [switch] sends to [default:]. *)
Inductive VkPrimitiveTopology : Set :=
  | VK_PRIMITIVE_TOPOLOGY_POINT_LIST
  | VK_PRIMITIVE_TOPOLOGY_LINE_LIST
  | VK_PRIMITIVE_TOPOLOGY_LINE_STRIP
  | VK_PRIMITIVE_TOPOLOGY_TRIANGLE_LIST
  | VK_PRIMITIVE_TOPOLOGY_TRIANGLE_STRIP
  | VK_PRIMITIVE_TOPOLOGY_TRIANGLE_FAN
  | VK_PRIMITIVE_TOPOLOGY_UNHANDLED.

Inductive VkProvokingVertexModeEXT : Set :=
  | VK_PROVOKING_VERTEX_MODE_FIRST_VERTEX_EXT
  | VK_PROVOKING_VERTEX_MODE_LAST_VERTEX_EXT.

(** The three index widths [processPrimitiveVertices] handles, and one
    constructor for every enumerator that reaches [default:]. *)
Inductive VkIndexType : Set :=
  | VK_INDEX_TYPE_UINT8_EXT
  | VK_INDEX_TYPE_UINT16
  | VK_INDEX_TYPE_UINT32
  | VK_INDEX_TYPE_UNHANDLED.

#[global] Instance VkPrimitiveTopology_eq_dec : EqDecision VkPrimitiveTopology.
Proof. solve_decision. Defined.
#[global] Instance VkProvokingVertexModeEXT_eq_dec :
  EqDecision VkProvokingVertexModeEXT.
Proof. solve_decision. Defined.

(** ** Primitive index assembly ([setBatchIndices], lines 50-145) *)

(** [unsigned int batch[..][3]] is one contiguous block: entry [batch[i][j]]
    lives at flat position [3 * i + j].  The point case walks the block with
    a raw pointer, so the flat layout is what the code relies on.  A write
    past the end of the block is undefined behaviour in the source; here it
    leaves the block as it is, and the theorems assume the block is large
    enough. *)
Abbreviation BatchIndices := (list Z).

Definition slot (i j : nat) : nat := 3 * i + j.

(** The template parameter [T indices] is anything with [operator[]]:
    a function from an (unsigned) position to the index stored there. *)
Definition IndexSource : Type := Z → Z.

Definition provokeFirstOf (provokingVertexMode : VkProvokingVertexModeEXT) : bool :=
  bool_decide (provokingVertexMode = VK_PROVOKING_VERTEX_MODE_FIRST_VERTEX_EXT).

Definition setBatchIndices (batch : BatchIndices)
    (topology : VkPrimitiveTopology)
    (provokingVertexMode : VkProvokingVertexModeEXT)
    (indices : IndexSource) (start : Z) (triangleCount : nat)
    : bool * BatchIndices :=
  let provokeFirst := provokeFirstOf provokingVertexMode in
  match topology with
  | VK_PRIMITIVE_TOPOLOGY_POINT_LIST =>
      let '(index, pointBatch, batch) :=
        for_upto triangleCount
          (λ _ '((index, pointBatch, batch) : Z * nat * BatchIndices),
             (wrap32 (index + 1), S pointBatch,
              <[pointBatch := indices index]> batch))
          (start, 0%nat, batch) in
      (* Repeat the last index to allow for SIMD width overrun. *)
      let index := wrap32 (index - 1) in
      let '(_, batch) :=
        for_upto 3
          (λ _ '((pointBatch, batch) : nat * BatchIndices),
             (S pointBatch, <[pointBatch := indices index]> batch))
          (pointBatch, batch) in
      (true, batch)
  | VK_PRIMITIVE_TOPOLOGY_LINE_LIST =>
      let '(_, batch) :=
        for_upto triangleCount
          (λ i '((index, batch) : Z * BatchIndices),
             let batch := <[slot i 0 := indices (wrap32 (index + (if provokeFirst then 0 else 1)))]> batch in
             let batch := <[slot i 1 := indices (wrap32 (index + (if provokeFirst then 1 else 0)))]> batch in
             let batch := <[slot i 2 := indices (wrap32 (index + 1))]> batch in
             (wrap32 (index + 2), batch))
          (wrap32 (2 * start), batch) in
      (true, batch)
  | VK_PRIMITIVE_TOPOLOGY_LINE_STRIP =>
      let '(_, batch) :=
        for_upto triangleCount
          (λ i '((index, batch) : Z * BatchIndices),
             let batch := <[slot i 0 := indices (wrap32 (index + (if provokeFirst then 0 else 1)))]> batch in
             let batch := <[slot i 1 := indices (wrap32 (index + (if provokeFirst then 1 else 0)))]> batch in
             let batch := <[slot i 2 := indices (wrap32 (index + 1))]> batch in
             (wrap32 (index + 1), batch))
          (start, batch) in
      (true, batch)
  | VK_PRIMITIVE_TOPOLOGY_TRIANGLE_LIST =>
      let '(_, batch) :=
        for_upto triangleCount
          (λ i '((index, batch) : Z * BatchIndices),
             let batch := <[slot i 0 := indices (wrap32 (index + (if provokeFirst then 0 else 2)))]> batch in
             let batch := <[slot i 1 := indices (wrap32 (index + (if provokeFirst then 1 else 0)))]> batch in
             let batch := <[slot i 2 := indices (wrap32 (index + (if provokeFirst then 2 else 1)))]> batch in
             (wrap32 (index + 3), batch))
          (wrap32 (3 * start), batch) in
      (true, batch)
  | VK_PRIMITIVE_TOPOLOGY_TRIANGLE_STRIP =>
      let '(_, batch) :=
        for_upto triangleCount
          (λ i '((index, batch) : Z * BatchIndices),
             let batch := <[slot i 0 := indices (wrap32 (index + (if provokeFirst then 0 else 2)))]> batch in
             let batch := <[slot i 1 :=
               indices (wrap32 (wrap32 (index + Z.land (wrap32 (start + Z.of_nat i)) 1)
                                + (if provokeFirst then 1 else 0)))]> batch in
             let batch := <[slot i 2 :=
               indices (wrap32 (wrap32 (index + Z.land (wrap32 (Z.lnot (wrap32 (start + Z.of_nat i)))) 1)
                                + (if provokeFirst then 1 else 0)))]> batch in
             (wrap32 (index + 1), batch))
          (start, batch) in
      (true, batch)
  | VK_PRIMITIVE_TOPOLOGY_TRIANGLE_FAN =>
      let '(_, batch) :=
        for_upto triangleCount
          (λ i '((index, batch) : Z * BatchIndices),
             let batch := <[slot i (if provokeFirst then 0 else 2)%nat := indices (wrap32 (index + 0))]> batch in
             let batch := <[slot i (if provokeFirst then 1 else 0)%nat := indices (wrap32 (index + 1))]> batch in
             let batch := <[slot i (if provokeFirst then 2 else 1)%nat := indices 0%Z]> batch in
             (wrap32 (index + 1), batch))
          (wrap32 (start + 1), batch) in
      (true, batch)
  | VK_PRIMITIVE_TOPOLOGY_UNHANDLED =>
      (* ASSERT(false); return false; *)
      (false, batch)
  end.

(** ** [DrawCall::processPrimitiveVertices] (lines 671-729) *)

(** [struct LinearIndex { unsigned int operator[](unsigned int i) { return i; } }] *)
Definition LinearIndex : IndexSource := λ i, i.

(** A bound index buffer, seen through the three element widths the code
    casts [primitiveIndices] to. *)
Record IndexBuffer : Type := {
  as_uint8_t : IndexSource;
  as_uint16_t : IndexSource;
  as_uint32_t : IndexSource
}.

(** Reading an entry of the block (an out-of-range read is undefined in the
    source and gives 0 here). *)
Definition batch_at (batch : BatchIndices) (k : nat) : Z := default 0%Z (batch !! k).

Definition processPrimitiveVertices (triangleIndicesOut : BatchIndices)
    (primitiveIndices : option IndexBuffer) (indexType : VkIndexType)
    (start : Z) (triangleCount : nat) (topology : VkPrimitiveTopology)
    (provokingVertexMode : VkProvokingVertexModeEXT) : BatchIndices :=
  let assembled :=
    match primitiveIndices with
    | None =>
        setBatchIndices triangleIndicesOut topology provokingVertexMode LinearIndex start triangleCount
    | Some buffer =>
        match indexType with
        | VK_INDEX_TYPE_UINT8_EXT =>
            setBatchIndices triangleIndicesOut topology provokingVertexMode (as_uint8_t buffer) start triangleCount
        | VK_INDEX_TYPE_UINT16 =>
            setBatchIndices triangleIndicesOut topology provokingVertexMode (as_uint16_t buffer) start triangleCount
        | VK_INDEX_TYPE_UINT32 =>
            setBatchIndices triangleIndicesOut topology provokingVertexMode (as_uint32_t buffer) start triangleCount
        | VK_INDEX_TYPE_UNHANDLED =>
            (* ASSERT(false); return; *)
            (false, triangleIndicesOut)
        end
    end in
  match assembled with
  | (false, out) => out
  | (true, out) =>
      (* setBatchIndices() takes care of the point case *)
      if bool_decide (topology ≠ VK_PRIMITIVE_TOPOLOGY_POINT_LIST) then
        let last := Z.to_nat (wrap32 (Z.of_nat triangleCount - 1)) in
        let out := <[slot triangleCount 0 := batch_at out (slot last 2)]> out in
        let out := <[slot triangleCount 1 := batch_at out (slot last 2)]> out in
        let out := <[slot triangleCount 2 := batch_at out (slot last 2)]> out in
        out
      else out
  end.

(** ** Reference formulas for index assembly *)

(** Row [i] of the block, when all three of its entries are inside it. *)
Definition batch_row (batch : BatchIndices) (i : nat) : option (Z * Z * Z) :=
  a ← batch !! slot i 0;
  b ← batch !! slot i 1;
  c ← batch !! slot i 2;
  Some (a, b, c).

(** The direct per-topology formula for primitive [i] of a batch that starts
    at primitive [s], for the line and triangle topologies.  Positions are
    computed in [unsigned int], like the code's.  [k] is the primitive's
    number in the draw.  Under the first-vertex convention the row lists the
    primitive's vertices from its first one; under the last-vertex convention
    it lists the same vertices cyclically from its last one (the provoking
    vertex is in slot 0 either way).  Lines carry their second endpoint once
    more in slot 2. *)
Definition reference_row (topology : VkPrimitiveTopology)
    (provokingVertexMode : VkProvokingVertexModeEXT)
    (I : IndexSource) (s : Z) (i : nat) : Z * Z * Z :=
  let k := (s + Z.of_nat i)%Z in
  let p := (k mod 2)%Z in
  let raw := λ x : Z, I (wrap32 x) in
  match topology, provokingVertexMode with
  | VK_PRIMITIVE_TOPOLOGY_TRIANGLE_LIST, VK_PROVOKING_VERTEX_MODE_FIRST_VERTEX_EXT =>
      (raw (3 * k), raw (3 * k + 1), raw (3 * k + 2))%Z
  | VK_PRIMITIVE_TOPOLOGY_TRIANGLE_LIST, VK_PROVOKING_VERTEX_MODE_LAST_VERTEX_EXT =>
      (raw (3 * k + 2), raw (3 * k), raw (3 * k + 1))%Z
  | VK_PRIMITIVE_TOPOLOGY_TRIANGLE_STRIP, VK_PROVOKING_VERTEX_MODE_FIRST_VERTEX_EXT =>
      (raw k, raw (k + 1 + p), raw (k + 2 - p))%Z
  | VK_PRIMITIVE_TOPOLOGY_TRIANGLE_STRIP, VK_PROVOKING_VERTEX_MODE_LAST_VERTEX_EXT =>
      (raw (k + 2), raw (k + p), raw (k + 1 - p))%Z
  | VK_PRIMITIVE_TOPOLOGY_TRIANGLE_FAN, VK_PROVOKING_VERTEX_MODE_FIRST_VERTEX_EXT =>
      (raw (k + 1), raw (k + 2), I 0)%Z
  | VK_PRIMITIVE_TOPOLOGY_TRIANGLE_FAN, VK_PROVOKING_VERTEX_MODE_LAST_VERTEX_EXT =>
      (raw (k + 2), I 0, raw (k + 1))%Z
  | VK_PRIMITIVE_TOPOLOGY_LINE_LIST, VK_PROVOKING_VERTEX_MODE_FIRST_VERTEX_EXT =>
      (raw (2 * k), raw (2 * k + 1), raw (2 * k + 1))%Z
  | VK_PRIMITIVE_TOPOLOGY_LINE_LIST, VK_PROVOKING_VERTEX_MODE_LAST_VERTEX_EXT =>
      (raw (2 * k + 1), raw (2 * k), raw (2 * k + 1))%Z
  | VK_PRIMITIVE_TOPOLOGY_LINE_STRIP, VK_PROVOKING_VERTEX_MODE_FIRST_VERTEX_EXT =>
      (raw k, raw (k + 1), raw (k + 1))%Z
  | VK_PRIMITIVE_TOPOLOGY_LINE_STRIP, VK_PROVOKING_VERTEX_MODE_LAST_VERTEX_EXT =>
      (raw (k + 1), raw k, raw (k + 1))%Z
  | _, _ => (0, 0, 0)%Z
  end.

(** The topologies whose primitives take one row each. *)
Definition row_topology (topology : VkPrimitiveTopology) : bool :=
  match topology with
  | VK_PRIMITIVE_TOPOLOGY_LINE_LIST | VK_PRIMITIVE_TOPOLOGY_LINE_STRIP
  | VK_PRIMITIVE_TOPOLOGY_TRIANGLE_LIST | VK_PRIMITIVE_TOPOLOGY_TRIANGLE_STRIP
  | VK_PRIMITIVE_TOPOLOGY_TRIANGLE_FAN => true
  | _ => false
  end.

(** The index source [processPrimitiveVertices] hands to [setBatchIndices],
    when it hands one. *)
Definition index_source_of (primitiveIndices : option IndexBuffer)
    (indexType : VkIndexType) : option IndexSource :=
  match primitiveIndices with
  | None => Some LinearIndex
  | Some buffer =>
      match indexType with
      | VK_INDEX_TYPE_UINT8_EXT => Some (as_uint8_t buffer)
      | VK_INDEX_TYPE_UINT16 => Some (as_uint16_t buffer)
      | VK_INDEX_TYPE_UINT32 => Some (as_uint32_t buffer)
      | VK_INDEX_TYPE_UNHANDLED => None
      end
  end.

(** ** Floating point and header constants *)

(** [float] and the operations the renderer applies to it.  The renderer's
    control flow only looks at the results of comparisons, so the arithmetic
    is kept abstract: every property below holds for any implementation of
    these operations, IEEE binary32 included. *)
Class FloatOps : Type := {
  float : Type;
  fadd : float → float → float;
  fsub : float → float → float;
  fmul : float → float → float;
  fdiv : float → float → float;
  fneg : float → float;
  fsqrt : float → float;
  (** [a == b], [a <= b], [a >= b], [a > b] *)
  feq : float → float → bool;
  fle : float → float → bool;
  fge : float → float → bool;
  fgt : float → float → bool;
  (** a literal such as [0.5f] *)
  lit : Q → float;
  (** [(float)i] for an [int] *)
  of_int : Z → float;
  (** [bit_cast<int>(f)]: the 32 bits of [f] read as a signed [int] *)
  bit_cast_int : float → Z
}.

(** Constants of [Renderer.hpp], [Clipper.hpp], [VkConfig.hpp] and the Vulkan
    headers.  The headers are not part of the examined unit, so the values
    are parameters. *)
Class Constants `{FloatOps} : Type := {
  MaxBatchSize : Z;
  MaxClusterCount : nat;
  MAX_COLOR_BUFFERS : nat;
  MAX_INTERFACE_COMPONENTS : nat;
  SUBPIXEL_PRECISION_FACTOR : float;
  CLIP_FRUSTUM : Z;
  CLIP_SIDES : Z;
  VK_CULL_MODE_FRONT_BIT : Z;
  VK_CULL_MODE_BACK_BIT : Z
}.

(** ** More Vulkan enumerations *)

Inductive VkPolygonMode : Set :=
  | VK_POLYGON_MODE_FILL
  | VK_POLYGON_MODE_LINE
  | VK_POLYGON_MODE_POINT
  | VK_POLYGON_MODE_UNHANDLED.

Inductive VkLineRasterizationModeEXT : Set :=
  | VK_LINE_RASTERIZATION_MODE_BRESENHAM_EXT
  | VK_LINE_RASTERIZATION_MODE_OTHER.

Inductive VkFrontFace : Set :=
  | VK_FRONT_FACE_COUNTER_CLOCKWISE
  | VK_FRONT_FACE_CLOCKWISE.

Inductive VkFormat : Set :=
  | VK_FORMAT_D16_UNORM
  | VK_FORMAT_D32_SFLOAT
  | VK_FORMAT_OTHER.

#[global] Instance VkLineRasterizationModeEXT_eq_dec :
  EqDecision VkLineRasterizationModeEXT.
Proof. solve_decision. Defined.
#[global] Instance VkFrontFace_eq_dec : EqDecision VkFrontFace.
Proof. solve_decision. Defined.

(** ** Objects the renderer only refers to *)

(** Pointers to objects of other units ([vk::PipelineLayout], [vk::Query],
    [CountedEvent], descriptor sets, shaders, buffers) and routine objects
    are identified by a number; a null pointer or an empty routine [{}] is
    [None]. *)
Definition Handle : Set := Z.

#[global] Instance Handle_eq_dec : EqDecision Handle := Z.eq_dec.

(** What the code asks of a [vk::ImageView] attachment. *)
Module ImageView.
Record t : Type := {
    image : Handle;
    getFormat : VkFormat;
    getOffsetPointer : Z → Z;   (* by layer *)
    rowPitchBytes : Z;
    slicePitchBytes : Z
  }.
End ImageView.

(** [SetupProcessor::State] and [PixelProcessor::State]: the fields this unit
    reads, and the rest of the state as one opaque value. *)
Module SetupState.
Record t : Type := {
    multiSampleCount : Z;
    frontFace : VkFrontFace;
    cullMode : Z;
    rest : Handle
  }.
End SetupState.

Module PixelState.
Record t : Type := {
    stencilActive : bool;
    alphaToCoverage : bool;
    occlusionEnabled : bool;
    rest : Handle
  }.
End PixelState.

(** [DrawCall::SetupFunction]: which of the five strategies a draw uses. *)
Inductive SetupFunction : Set :=
  | setupSolidTriangles_fn
  | setupWireframeTriangles_fn
  | setupPointTriangles_fn
  | setupLines_fn
  | setupPoints_fn.

(** ** Vertices, triangles, polygons *)

Module float4.
Record t `{FloatOps} : Type := { x : float; y : float; z : float; w : float }.
End float4.

Module int4.
Record t : Type := { x : Z; y : Z; z : Z; w : Z }.
End int4.

Module Vertex.
Record t `{FloatOps} : Type := {
    position : float4.t;
    pointSize : float;
    clipFlags : Z;
    cullMask : Z;
    projected : int4.t
  }.
  (** [v.w] is [v.position.w] (the two share storage). *)
Definition w `{FloatOps} (v : t) : float := float4.w (position v).
End Vertex.

Module Triangle.
Record t `{FloatOps} : Type := { v0 : Vertex.t; v1 : Vertex.t; v2 : Vertex.t }.
End Triangle.

(** [Polygon(P, n)]: the clip buffer, here the list of its vertices. *)
Abbreviation Polygon := (list float4.t).

(** ** Calls that leave the unit *)

(** The two kinds of ticket queue of the renderer. *)
Inductive QueueId : Set :=
  | DrawTickets
  | ClusterQueue (cluster : nat).

#[global] Instance QueueId_eq_dec : EqDecision QueueId.
Proof. solve_decision. Defined.

(** A cluster ticket is held in [batch->clusterTickets[cluster]]; it is
    identified by the draw's [id] and the batch's [id].  The draw-completion
    ticket of a draw has batch 0. *)
Abbreviation Ticket := (Z * nat)%type.

(** Calls to collaborators and to the scheduler, recorded in program order.
    A closure handed to the scheduler is the list of calls it will make. *)
#[warnings="-register-all"]
Inductive Call : Type :=
  | DrawCallPoolBorrow
  | PrepareForSampling (objects : Handle) (layout : Handle)
  | ContentsChanged (objects : Handle) (layout : Handle)
  | ImageContentsChanged (target : Handle)
  | QueryStart (query : Handle)
  | QueryAdd (query : Handle) (samples : Z)
  | QueryFinish (query : Handle)
  | EventsAdd (events : Handle)
  | EventsDone (events : Handle)
  | Unsupported
  | TicketTake (queue : QueueId) (ticket : Ticket)
  | TicketDone (queue : QueueId) (ticket : Ticket)
  | TicketOnCall (queue : QueueId) (ticket : Ticket) (continuation : list Call)
  | Schedule (task : list Call)
  | VertexRoutine (draw : Z) (batch : nat)
  | SetupPrimitives (draw : Z) (batch : nat)
  | PixelRoutine (draw : Z) (batch : nat) (cluster : nat).

(** ** Pipeline state as [Renderer::draw] reads it *)

Module VkViewport.
Record t `{FloatOps} : Type := {
    x : float; y : float; width : float; height : float;
    minDepth : float; maxDepth : float
  }.
End VkViewport.

Module VkRect2D.
Record t : Type := {
    offset_x : Z; offset_y : Z; extent_width : Z; extent_height : Z
  }.
End VkRect2D.

(** [VkStencilOpState]: the three fields [draw] passes on. *)
Module StencilOp.
Record t : Type := { reference : Z; compareMask : Z; writeMask : Z }.
End StencilOp.

(** [sw::Stream] *)
Module Stream.
Record t : Type := { buffer : Handle; robustnessSize : Z }.
End Stream.

(** The answers of [vk::GraphicsPipeline], of its combined state and of
    [vk::Inputs] to the queries [Renderer::draw] makes.  [isDrawTriangle] and
    [isDrawLine] are the answers for [(false, polygonMode)]. *)
Module Pipeline.
Record t `{FloatOps} : Type := {
    (* vertex input interface state *)
    getTopology : VkPrimitiveTopology;
    isDrawTriangle : bool;
    isDrawLine : bool;
    (* pre-rasterization state *)
    hasRasterizerDiscard : bool;
    preRasterizationPipelineLayout : Handle;
    getProvokingVertexMode : VkProvokingVertexModeEXT;
    getLineRasterizationMode : VkLineRasterizationModeEXT;
    getDepthClipEnable : bool;
    getDepthClipNegativeOneToOne : bool;
    getLineWidth : float;
    getViewport : VkViewport.t;
    getScissor : VkRect2D.t;
    getPolygonMode : VkPolygonMode;
    getConstantDepthBias : float;
    getSlopeDepthBias : float;
    getDepthBiasClamp : float;
    (* fragment state *)
    fragmentPipelineLayout : Handle;
    getFrontStencil : StencilOp.t;
    getBackStencil : StencilOp.t;
    (* fragment output interface state *)
    getBlendConstants : Handle;
    getSampleCount : Z;
    (* inputs *)
    getDescriptorSetObjects : Handle;
    getDescriptorSets : Handle;
    getDescriptorDynamicOffsets : Handle;
    getStream : nat → Stream.t;
    getVertexStride : nat → Z;
    (* the pipeline itself *)
    fragmentShader : Handle;
    vertexShader : Handle;
    attachments_colorBuffer : nat → option ImageView.t;
    attachments_depthBuffer : option ImageView.t;
    attachments_stencilBuffer : option ImageView.t;
    preRasterizationContainsImageWrite : bool;
    fragmentContainsImageWrite : bool;
    getIndexType : VkIndexType
  }.
End Pipeline.

(** [VertexProcessor], [SetupProcessor] and [PixelProcessor]: state update
    and routine lookup, and the factor [setBlendConstant] derives. *)
Module Processors.
Record t `{FloatOps} : Type := {
    vertexUpdate : Pipeline.t → Handle;
    vertexRoutine : Handle → Pipeline.t → Handle;
    setupUpdate : Pipeline.t → SetupState.t;
    setupRoutine : SetupState.t → Handle;
    pixelUpdate : Pipeline.t → bool → PixelState.t;
    pixelRoutine : PixelState.t → Pipeline.t → Handle;
    setBlendConstant : Handle → Handle
  }.
End Processors.

(** ** [DrawData] and [DrawCall] *)

Module DrawData.
Record t `{FloatOps} : Type := {
    lineWidth : float;
    rasterizerDiscard : bool;
    descriptorSets : Handle;
    descriptorDynamicOffsets : Handle;
    input : nat → Handle;
    robustnessSize : nat → Z;
    stride : nat → Z;
    indices : option Handle;
    layer : Z;
    instanceID : Z;
    baseVertex : Z;
    WxF : float;
    HxF : float;
    X0xF : float;
    Y0xF : float;
    halfPixelX : float;
    halfPixelY : float;
    depthRange : float;
    depthNear : float;
    constantDepthBias : float;
    slopeDepthBias : float;
    depthBiasClamp : float;
    scissorX0 : Z;
    scissorX1 : Z;
    scissorY0 : Z;
    scissorY1 : Z;
    stencil : StencilOp.t * StencilOp.t;
    factor : Handle;
    a2c0 : float;
    a2c1 : float;
    a2c2 : float;
    a2c3 : float;
    occlusion : nat → Z;
    minimumResolvableDepthDifference : float;
    colorBuffer : nat → Z;
    colorPitchB : nat → Z;
    colorSliceB : nat → Z;
    depthBuffer : Z;
    depthPitchB : Z;
    depthSliceB : Z;
    stencilBuffer : Z;
    stencilPitchB : Z;
    stencilSliceB : Z;
    pushConstants : Handle
  }.
End DrawData.

Module DrawCall.
Record t `{FloatOps} : Type := {
    id : Z;
    occlusionQuery : option Handle;
    numPrimitives : Z;
    numPrimitivesPerBatch : Z;
    numBatches : Z;
    topology : VkPrimitiveTopology;
    provokingVertexMode : VkProvokingVertexModeEXT;
    lineRasterizationMode : VkLineRasterizationModeEXT;
    descriptorSetObjects : Handle;
    preRasterizationPipelineLayout : Handle;
    fragmentPipelineLayout : Handle;
    depthClipEnable : bool;
    depthClipNegativeOneToOne : bool;
    indexType : VkIndexType;
    vertexRoutine : option Handle;
    setupState : SetupState.t;
    setupRoutine : option Handle;
    pixelRoutine : option Handle;
    setupPrimitives : option SetupFunction;
    colorBuffer : nat → option ImageView.t;
    depthBuffer : option ImageView.t;
    stencilBuffer : option ImageView.t;
    events : option Handle;
    preRasterizationContainsImageWrite : bool;
    fragmentContainsImageWrite : bool;
    data : DrawData.t
  }.
End DrawCall.

(** The members of [Renderer] that [draw] reads or writes. *)
Module Renderer.
Record t : Type := {
    nextDrawID : Z;
    vertexState : Handle;
    vertexRoutine : option Handle;
    setupState : SetupState.t;
    setupRoutine : option Handle;
    pixelState : PixelState.t;
    pixelRoutine : option Handle;
    pixelProcessor_factor : Handle;
    occlusionQuery : option Handle
  }.
End Renderer.

(** ** The batch task and its pixel continuations ([DrawCall::run],
       [DrawCall::processPixels], lines 549-660) *)

Section Scheduling.
Context `{Constants}.

  (** The closure [processPixels] attaches to the ticket of [cluster]
      (lines 652-658): the pixel routine, then [done()] on that ticket. *)
Definition pixelContinuation (draw : Z) (batch : nat) (cluster : nat) : list Call :=
    [PixelRoutine draw batch cluster;
     TicketDone (ClusterQueue cluster) (draw, batch)].

  (** [DrawCall::processPixels] (lines 636-660). *)
Definition processPixels (draw : Z) (batch : nat) : list Call :=
    map (λ cluster,
           TicketOnCall (ClusterQueue cluster) (draw, batch)
             (pixelContinuation draw batch cluster))
        (seq 0 MaxClusterCount).

  (** [DrawCall::processVertices] (lines 598-626): index assembly is local
      to the task; the call that leaves it is the vertex routine. *)
Definition processVertices (draw : Z) (batch : nat) : list Call :=
    [VertexRoutine draw batch].

  (** [DrawCall::processPrimitives] (lines 628-634). *)
Definition processPrimitives (draw : Z) (batch : nat) : list Call :=
    [SetupPrimitives draw batch].

  (** Lines 590-593. *)
Definition releaseClusterTickets (draw : Z) (batch : nat) : list Call :=
    map (λ cluster, TicketDone (ClusterQueue cluster) (draw, batch))
        (seq 0 MaxClusterCount).

  (** The closure of lines 576-594.  [numVisible] is the value
      [processPrimitives] leaves in [batch->numVisible]. *)
Definition batchTask (rasterizerDiscard : bool) (numVisible : Z)
      (draw : Z) (batch : nat) : list Call :=
    processVertices draw batch ++
    (if negb rasterizerDiscard then
       processPrimitives draw batch ++
       (if (0 <? numVisible)%Z then
          processPixels draw batch   (* return; *)
        else releaseClusterTickets draw batch)
     else releaseClusterTickets draw batch).

  (** Lines 566-569: the primitive range of batch [batchId]. *)
Definition batch_firstPrimitive (numPrimitivesPerBatch : Z) (batchId : nat) : Z :=
    wrap32 (Z.of_nat batchId * numPrimitivesPerBatch).

Definition batch_numPrimitives (numPrimitives numPrimitivesPerBatch : Z)
      (batchId : nat) : Z :=
    let firstPrimitive := batch_firstPrimitive numPrimitivesPerBatch batchId in
    wrap32 (Z.min (wrap32 (firstPrimitive + numPrimitivesPerBatch)) numPrimitives
            - firstPrimitive).

  (** [DrawCall::setup] (lines 490-501). *)
Definition DrawCall_setup (draw : DrawCall.t) : list Call :=
    match DrawCall.occlusionQuery draw with
    | Some query => [QueryStart query]
    | None => []
    end ++
    match DrawCall.events draw with
    | Some events => [EventsAdd events]
    | None => []
    end.

  (** [DrawCall::run] (lines 549-596).  [numVisible batchId] is what setup
      will find for that batch.  The shared finalizer of lines 558-562 runs
      [teardown] and releases the draw ticket when the last closure holding
      it is destroyed; that lifetime is not part of this model. *)
Definition run (draw : DrawCall.t) (numVisible : nat → Z) : list Call :=
    DrawCall_setup draw ++
    [TicketTake DrawTickets (DrawCall.id draw, 0%nat)] ++
    flat_map
      (λ batchId,
         map (λ cluster, TicketTake (ClusterQueue cluster) (DrawCall.id draw, batchId))
             (seq 0 MaxClusterCount) ++
         [Schedule (batchTask (DrawData.rasterizerDiscard (DrawCall.data draw))
                      (numVisible batchId) (DrawCall.id draw) batchId)])
      (seq 0 (Z.to_nat (DrawCall.numBatches draw))).

  (** [DrawCall::teardown] (lines 503-547): the calls it makes, and the draw
      object as it leaves it. *)
Definition teardown_calls (draw : DrawCall.t) : list Call :=
    let data := DrawCall.data draw in
    match DrawCall.events draw with
    | Some events => [EventsDone events]
    | None => []
    end ++
    (if DrawCall.preRasterizationContainsImageWrite draw then
       [ContentsChanged (DrawCall.descriptorSetObjects draw)
          (DrawCall.preRasterizationPipelineLayout draw)]
     else []) ++
    (if negb (DrawData.rasterizerDiscard data) then
       match DrawCall.occlusionQuery draw with
       | Some query =>
           map (λ cluster, QueryAdd query (DrawData.occlusion data cluster))
               (seq 0 MaxClusterCount) ++
           [QueryFinish query]
       | None => []
       end ++
       flat_map
         (λ index,
            match DrawCall.colorBuffer draw index with
            | Some target => [ImageContentsChanged (ImageView.image target)]
            | None => []
            end)
         (seq 0 MAX_COLOR_BUFFERS) ++
       (* If pre-rasterization and fragment use the same pipeline, and
          pre-rasterization also contains image writes, don't double-notify
          the descriptor set. *)
       (let descSetAlreadyNotified :=
          DrawCall.preRasterizationContainsImageWrite draw &&
          bool_decide (DrawCall.fragmentPipelineLayout draw =
                       DrawCall.preRasterizationPipelineLayout draw) in
        if DrawCall.fragmentContainsImageWrite draw && negb descSetAlreadyNotified then
          [ContentsChanged (DrawCall.descriptorSetObjects draw)
             (DrawCall.fragmentPipelineLayout draw)]
        else [])
     else []).

Definition teardown (draw : DrawCall.t) : DrawCall.t * list Call :=
    ({| DrawCall.id := DrawCall.id draw;
        DrawCall.occlusionQuery := DrawCall.occlusionQuery draw;
        DrawCall.numPrimitives := DrawCall.numPrimitives draw;
        DrawCall.numPrimitivesPerBatch := DrawCall.numPrimitivesPerBatch draw;
        DrawCall.numBatches := DrawCall.numBatches draw;
        DrawCall.topology := DrawCall.topology draw;
        DrawCall.provokingVertexMode := DrawCall.provokingVertexMode draw;
        DrawCall.lineRasterizationMode := DrawCall.lineRasterizationMode draw;
        DrawCall.descriptorSetObjects := DrawCall.descriptorSetObjects draw;
        DrawCall.preRasterizationPipelineLayout := DrawCall.preRasterizationPipelineLayout draw;
        DrawCall.fragmentPipelineLayout := DrawCall.fragmentPipelineLayout draw;
        DrawCall.depthClipEnable := DrawCall.depthClipEnable draw;
        DrawCall.depthClipNegativeOneToOne := DrawCall.depthClipNegativeOneToOne draw;
        DrawCall.indexType := DrawCall.indexType draw;
        DrawCall.vertexRoutine := None;
        DrawCall.setupState := DrawCall.setupState draw;
        DrawCall.setupRoutine := None;
        DrawCall.pixelRoutine := None;
        DrawCall.setupPrimitives := DrawCall.setupPrimitives draw;
        DrawCall.colorBuffer := DrawCall.colorBuffer draw;
        DrawCall.depthBuffer := DrawCall.depthBuffer draw;
        DrawCall.stencilBuffer := DrawCall.stencilBuffer draw;
        DrawCall.events := None;
        DrawCall.preRasterizationContainsImageWrite := DrawCall.preRasterizationContainsImageWrite draw;
        DrawCall.fragmentContainsImageWrite := DrawCall.fragmentContainsImageWrite draw;
        DrawCall.data := DrawCall.data draw |},
     teardown_calls draw).
End Scheduling.

(** ** [Renderer::draw] (lines 183-488) *)

(** Modelled from the spec: [sw::clamp] of [System/Math.hpp] is not part of
    the examined unit; the spec says the scissor rectangle is clamped to the
    render area. *)
Definition clamp (x lo hi : Z) : Z :=
  (if x <? lo then lo else if hi <? x then hi else x)%Z.

(** What a call of [Renderer::draw] leaves behind: the renderer's members,
    the draw object (the one borrowed from the pool, as populated), whether
    it was handed to [DrawCall::run], and the calls made, in order. *)
Module DrawResult.
Record t `{FloatOps} : Type := {
    renderer : Renderer.t;
    draw : DrawCall.t;
    submitted : bool;
    calls : list Call
  }.
End DrawResult.

Section Draw.
Context `{Constants}.
Variable processors : Processors.t.

  (** [draw0] is the object [drawCallPool.borrow()] hands out, with the
      contents its previous use left; [numVisible] is what setup will find
      for each batch.  [nextDrawID] is an [int] counter (the identity is
      printed with [%d]): [nextDrawID++] past [INT_MAX] wraps around.  The
      sums of the scissor block add an [int] offset and a [uint32_t] extent
      and store the result in an [int]. *)
Definition draw (this : Renderer.t) (draw0 : DrawCall.t)
      (pipeline : Pipeline.t) (count : Z) (baseVertex : Z)
      (events : option Handle) (instanceID layer : Z)
      (indexBuffer : option Handle) (renderArea : VkRect2D.t)
      (pushConstants : Handle) (update : bool)
      (numVisible : nat → Z) : DrawResult.t :=
    if (count =? 0)%Z then
      {| DrawResult.renderer := this; DrawResult.draw := draw0;
         DrawResult.submitted := false; DrawResult.calls := [] |}
    else
    let id := Renderer.nextDrawID this in
    let hasRasterizerDiscard := Pipeline.hasRasterizerDiscard pipeline in
    (* pixelProcessor.setBlendConstant(...) *)
    let factor :=
      if negb hasRasterizerDiscard then
        Processors.setBlendConstant processors (Pipeline.getBlendConstants pipeline)
      else Renderer.pixelProcessor_factor this in
    (* if(update) *)
    let vertexState :=
      if update then Processors.vertexUpdate processors pipeline
      else Renderer.vertexState this in
    let vertexRoutine :=
      if update then Some (Processors.vertexRoutine processors vertexState pipeline)
      else Renderer.vertexRoutine this in
    let setupState :=
      if update && negb hasRasterizerDiscard then Processors.setupUpdate processors pipeline
      else Renderer.setupState this in
    let setupRoutine :=
      if update && negb hasRasterizerDiscard then Some (Processors.setupRoutine processors setupState)
      else Renderer.setupRoutine this in
    let pixelState :=
      if update && negb hasRasterizerDiscard then
        Processors.pixelUpdate processors pipeline
          (bool_decide (Renderer.occlusionQuery this ≠ None))
      else Renderer.pixelState this in
    let pixelRoutine :=
      if update && negb hasRasterizerDiscard then Some (Processors.pixelRoutine processors pixelState pipeline)
      else Renderer.pixelRoutine this in
    let this' :=
      {| Renderer.nextDrawID := wrap_int32 (id + 1);
         Renderer.vertexState := vertexState;
         Renderer.vertexRoutine := vertexRoutine;
         Renderer.setupState := setupState;
         Renderer.setupRoutine := setupRoutine;
         Renderer.pixelState := pixelState;
         Renderer.pixelRoutine := pixelRoutine;
         Renderer.pixelProcessor_factor := factor;
         Renderer.occlusionQuery := Renderer.occlusionQuery this |} in
    (* The sample count affects the batch size even if rasterization is disabled. *)
    let ms := if hasRasterizerDiscard then 1%Z else Pipeline.getSampleCount pipeline in
    let numPrimitivesPerBatch := wrap32 (MaxBatchSize ÷ ms) in
    let data0 := DrawCall.data draw0 in
    let draw_numPrimitivesPerBatch := numPrimitivesPerBatch in
    let draw_numBatches :=
      (wrap32 (wrap32 (count + draw_numPrimitivesPerBatch) - 1) / draw_numPrimitivesPerBatch)%Z in
    let preLayout := Pipeline.preRasterizationPipelineLayout pipeline in
    let numStreams := (MAX_INTERFACE_COMPONENTS / 4)%nat in
    (* Viewport *)
    let viewport := Pipeline.getViewport pipeline in
    let W := fmul (lit (1 # 2)) (VkViewport.width viewport) in
    let H := fmul (lit (1 # 2)) (VkViewport.height viewport) in
    let X0 := fadd (VkViewport.x viewport) W in
    let Y0 := fadd (VkViewport.y viewport) H in
    let N := VkViewport.minDepth viewport in
    let F := VkViewport.maxDepth viewport in
    let Zr := fsub F N in   (* Z = F - N *)
    let subPixF := SUBPIXEL_PRECISION_FACTOR in
    let negativeOneToOne := Pipeline.getDepthClipNegativeOneToOne pipeline in
    (* Scissor *)
    let scissor := Pipeline.getScissor pipeline in
    let x0 := VkRect2D.offset_x renderArea in
    let y0 := VkRect2D.offset_y renderArea in
    let x1 := wrap_int32 (x0 + VkRect2D.extent_width renderArea) in
    let y1 := wrap_int32 (y0 + VkRect2D.extent_height renderArea) in
    let data1 :=
      {| DrawData.lineWidth := Pipeline.getLineWidth pipeline;
         DrawData.rasterizerDiscard := hasRasterizerDiscard;
         DrawData.descriptorSets := Pipeline.getDescriptorSets pipeline;
         DrawData.descriptorDynamicOffsets := Pipeline.getDescriptorDynamicOffsets pipeline;
         DrawData.input := λ i,
           if (i <? numStreams)%nat then Stream.buffer (Pipeline.getStream pipeline i)
           else DrawData.input data0 i;
         DrawData.robustnessSize := λ i,
           if (i <? numStreams)%nat then Stream.robustnessSize (Pipeline.getStream pipeline i)
           else DrawData.robustnessSize data0 i;
         DrawData.stride := λ i,
           if (i <? numStreams)%nat then Pipeline.getVertexStride pipeline i
           else DrawData.stride data0 i;
         DrawData.indices := indexBuffer;
         DrawData.layer := layer;
         DrawData.instanceID := instanceID;
         DrawData.baseVertex := baseVertex;
         DrawData.WxF := fmul W subPixF;
         DrawData.HxF := fmul H subPixF;
         DrawData.X0xF := fsub (fmul X0 subPixF) (fdiv subPixF (of_int 2));
         DrawData.Y0xF := fsub (fmul Y0 subPixF) (fdiv subPixF (of_int 2));
         DrawData.halfPixelX := fdiv (lit (1 # 2)) W;
         DrawData.halfPixelY := fdiv (lit (1 # 2)) H;
         DrawData.depthRange := if negativeOneToOne then fmul Zr (lit (1 # 2)) else Zr;
         DrawData.depthNear := if negativeOneToOne then fmul (fadd F N) (lit (1 # 2)) else N;
         DrawData.constantDepthBias := Pipeline.getConstantDepthBias pipeline;
         DrawData.slopeDepthBias := Pipeline.getSlopeDepthBias pipeline;
         DrawData.depthBiasClamp := Pipeline.getDepthBiasClamp pipeline;
         DrawData.scissorX0 := clamp (VkRect2D.offset_x scissor) x0 x1;
         DrawData.scissorX1 :=
           clamp (wrap_int32 (VkRect2D.offset_x scissor + VkRect2D.extent_width scissor)) x0 x1;
         DrawData.scissorY0 := clamp (VkRect2D.offset_y scissor) y0 y1;
         DrawData.scissorY1 :=
           clamp (wrap_int32 (VkRect2D.offset_y scissor + VkRect2D.extent_height scissor)) y0 y1;
         DrawData.stencil := DrawData.stencil data0;
         DrawData.factor := DrawData.factor data0;
         DrawData.a2c0 := DrawData.a2c0 data0;
         DrawData.a2c1 := DrawData.a2c1 data0;
         DrawData.a2c2 := DrawData.a2c2 data0;
         DrawData.a2c3 := DrawData.a2c3 data0;
         DrawData.occlusion := DrawData.occlusion data0;
         DrawData.minimumResolvableDepthDifference := DrawData.minimumResolvableDepthDifference data0;
         DrawData.colorBuffer := DrawData.colorBuffer data0;
         DrawData.colorPitchB := DrawData.colorPitchB data0;
         DrawData.colorSliceB := DrawData.colorSliceB data0;
         DrawData.depthBuffer := DrawData.depthBuffer data0;
         DrawData.depthPitchB := DrawData.depthPitchB data0;
         DrawData.depthSliceB := DrawData.depthSliceB data0;
         DrawData.stencilBuffer := DrawData.stencilBuffer data0;
         DrawData.stencilPitchB := DrawData.stencilPitchB data0;
         DrawData.stencilSliceB := DrawData.stencilSliceB data0;
         DrawData.pushConstants := DrawData.pushConstants data0 |} in
    let draw1 :=
      {| DrawCall.id := id;
         DrawCall.occlusionQuery := Renderer.occlusionQuery this;
         DrawCall.numPrimitives := count;
         DrawCall.numPrimitivesPerBatch := draw_numPrimitivesPerBatch;
         DrawCall.numBatches := draw_numBatches;
         DrawCall.topology := Pipeline.getTopology pipeline;
         DrawCall.provokingVertexMode := Pipeline.getProvokingVertexMode pipeline;
         DrawCall.lineRasterizationMode := Pipeline.getLineRasterizationMode pipeline;
         DrawCall.descriptorSetObjects := Pipeline.getDescriptorSetObjects pipeline;
         DrawCall.preRasterizationPipelineLayout := preLayout;
         DrawCall.fragmentPipelineLayout := DrawCall.fragmentPipelineLayout draw0;
         DrawCall.depthClipEnable := Pipeline.getDepthClipEnable pipeline;
         DrawCall.depthClipNegativeOneToOne := negativeOneToOne;
         DrawCall.indexType :=
           match indexBuffer with
           | Some _ => Pipeline.getIndexType pipeline
           | None => VK_INDEX_TYPE_UINT16
           end;
         DrawCall.vertexRoutine := vertexRoutine;
         DrawCall.setupState := DrawCall.setupState draw0;
         DrawCall.setupRoutine := DrawCall.setupRoutine draw0;
         DrawCall.pixelRoutine := DrawCall.pixelRoutine draw0;
         DrawCall.setupPrimitives := DrawCall.setupPrimitives draw0;
         DrawCall.colorBuffer := DrawCall.colorBuffer draw0;
         DrawCall.depthBuffer := DrawCall.depthBuffer draw0;
         DrawCall.stencilBuffer := DrawCall.stencilBuffer draw0;
         DrawCall.events := DrawCall.events draw0;
         DrawCall.preRasterizationContainsImageWrite := Pipeline.preRasterizationContainsImageWrite pipeline;
         DrawCall.fragmentContainsImageWrite := Pipeline.fragmentContainsImageWrite pipeline;
         DrawCall.data := data1 |} in
    let calls1 :=
      [DrawCallPoolBorrow;
       PrepareForSampling (Pipeline.getDescriptorSetObjects pipeline) preLayout] in
    let with_pushConstants (d : DrawData.t) : DrawData.t :=
      {| DrawData.lineWidth := DrawData.lineWidth d;
         DrawData.rasterizerDiscard := DrawData.rasterizerDiscard d;
         DrawData.descriptorSets := DrawData.descriptorSets d;
         DrawData.descriptorDynamicOffsets := DrawData.descriptorDynamicOffsets d;
         DrawData.input := DrawData.input d;
         DrawData.robustnessSize := DrawData.robustnessSize d;
         DrawData.stride := DrawData.stride d;
         DrawData.indices := DrawData.indices d;
         DrawData.layer := DrawData.layer d;
         DrawData.instanceID := DrawData.instanceID d;
         DrawData.baseVertex := DrawData.baseVertex d;
         DrawData.WxF := DrawData.WxF d;
         DrawData.HxF := DrawData.HxF d;
         DrawData.X0xF := DrawData.X0xF d;
         DrawData.Y0xF := DrawData.Y0xF d;
         DrawData.halfPixelX := DrawData.halfPixelX d;
         DrawData.halfPixelY := DrawData.halfPixelY d;
         DrawData.depthRange := DrawData.depthRange d;
         DrawData.depthNear := DrawData.depthNear d;
         DrawData.constantDepthBias := DrawData.constantDepthBias d;
         DrawData.slopeDepthBias := DrawData.slopeDepthBias d;
         DrawData.depthBiasClamp := DrawData.depthBiasClamp d;
         DrawData.scissorX0 := DrawData.scissorX0 d;
         DrawData.scissorX1 := DrawData.scissorX1 d;
         DrawData.scissorY0 := DrawData.scissorY0 d;
         DrawData.scissorY1 := DrawData.scissorY1 d;
         DrawData.stencil := DrawData.stencil d;
         DrawData.factor := DrawData.factor d;
         DrawData.a2c0 := DrawData.a2c0 d;
         DrawData.a2c1 := DrawData.a2c1 d;
         DrawData.a2c2 := DrawData.a2c2 d;
         DrawData.a2c3 := DrawData.a2c3 d;
         DrawData.occlusion := DrawData.occlusion d;
         DrawData.minimumResolvableDepthDifference := DrawData.minimumResolvableDepthDifference d;
         DrawData.colorBuffer := DrawData.colorBuffer d;
         DrawData.colorPitchB := DrawData.colorPitchB d;
         DrawData.colorSliceB := DrawData.colorSliceB d;
         DrawData.depthBuffer := DrawData.depthBuffer d;
         DrawData.depthPitchB := DrawData.depthPitchB d;
         DrawData.depthSliceB := DrawData.depthSliceB d;
         DrawData.stencilBuffer := DrawData.stencilBuffer d;
         DrawData.stencilPitchB := DrawData.stencilPitchB d;
         DrawData.stencilSliceB := DrawData.stencilSliceB d;
         DrawData.pushConstants := pushConstants |} in
    (* lines 480-487, with the draw object and the calls made so far *)
    let submit (d : DrawCall.t) (data : DrawData.t) (calls : list Call) : DrawResult.t :=
      let d' :=
        {| DrawCall.id := DrawCall.id d;
           DrawCall.occlusionQuery := DrawCall.occlusionQuery d;
           DrawCall.numPrimitives := DrawCall.numPrimitives d;
           DrawCall.numPrimitivesPerBatch := DrawCall.numPrimitivesPerBatch d;
           DrawCall.numBatches := DrawCall.numBatches d;
           DrawCall.topology := DrawCall.topology d;
           DrawCall.provokingVertexMode := DrawCall.provokingVertexMode d;
           DrawCall.lineRasterizationMode := DrawCall.lineRasterizationMode d;
           DrawCall.descriptorSetObjects := DrawCall.descriptorSetObjects d;
           DrawCall.preRasterizationPipelineLayout := DrawCall.preRasterizationPipelineLayout d;
           DrawCall.fragmentPipelineLayout := DrawCall.fragmentPipelineLayout d;
           DrawCall.depthClipEnable := DrawCall.depthClipEnable d;
           DrawCall.depthClipNegativeOneToOne := DrawCall.depthClipNegativeOneToOne d;
           DrawCall.indexType := DrawCall.indexType d;
           DrawCall.vertexRoutine := DrawCall.vertexRoutine d;
           DrawCall.setupState := DrawCall.setupState d;
           DrawCall.setupRoutine := DrawCall.setupRoutine d;
           DrawCall.pixelRoutine := DrawCall.pixelRoutine d;
           DrawCall.setupPrimitives := DrawCall.setupPrimitives d;
           DrawCall.colorBuffer := DrawCall.colorBuffer d;
           DrawCall.depthBuffer := DrawCall.depthBuffer d;
           DrawCall.stencilBuffer := DrawCall.stencilBuffer d;
           DrawCall.events := events;
           DrawCall.preRasterizationContainsImageWrite := DrawCall.preRasterizationContainsImageWrite d;
           DrawCall.fragmentContainsImageWrite := DrawCall.fragmentContainsImageWrite d;
           DrawCall.data := with_pushConstants data |} in
      {| DrawResult.renderer := this'; DrawResult.draw := d';
         DrawResult.submitted := true;
         DrawResult.calls := calls ++ run d' numVisible |} in
    if negb hasRasterizerDiscard then
      let polygonMode := Pipeline.getPolygonMode pipeline in
      (* The strategy, or [None] for the [default:] case; the new value of
         the local [numPrimitivesPerBatch] goes with it. *)
      let selection : option (SetupFunction * Z) :=
        if Pipeline.isDrawTriangle pipeline then
          match polygonMode with
          | VK_POLYGON_MODE_FILL =>
              Some (setupSolidTriangles_fn, numPrimitivesPerBatch)
          | VK_POLYGON_MODE_LINE =>
              Some (setupWireframeTriangles_fn, (numPrimitivesPerBatch / 3)%Z)
          | VK_POLYGON_MODE_POINT =>
              Some (setupPointTriangles_fn, (numPrimitivesPerBatch / 3)%Z)
          | VK_POLYGON_MODE_UNHANDLED => None
          end
        else if Pipeline.isDrawLine pipeline then
          Some (setupLines_fn, numPrimitivesPerBatch)
        else (* Point primitive topology *)
          Some (setupPoints_fn, numPrimitivesPerBatch) in
      match selection with
      | None =>
          (* UNSUPPORTED("polygon mode: %d", ...); return; *)
          {| DrawResult.renderer := this'; DrawResult.draw := draw1;
             DrawResult.submitted := false;
             DrawResult.calls := calls1 ++ [Unsupported] |}
      | Some (setupPrimitives, numPrimitivesPerBatch) =>
          (* the local [numPrimitivesPerBatch] is not read again *)
          let fragLayout := Pipeline.fragmentPipelineLayout pipeline in
          let colorAttachment := Pipeline.attachments_colorBuffer pipeline in
          let depthAttachment := Pipeline.attachments_depthBuffer pipeline in
          let stencilAttachment := Pipeline.attachments_stencilBuffer pipeline in
          let fromColor {A} (get : ImageView.t → A) (old : nat → A) : nat → A :=
            λ index,
              if (index <? MAX_COLOR_BUFFERS)%nat then
                match colorAttachment index with
                | Some view => get view
                | None => old index
                end
              else old index in
          let data2 :=
            {| DrawData.lineWidth := DrawData.lineWidth data1;
               DrawData.rasterizerDiscard := DrawData.rasterizerDiscard data1;
               DrawData.descriptorSets := DrawData.descriptorSets data1;
               DrawData.descriptorDynamicOffsets := DrawData.descriptorDynamicOffsets data1;
               DrawData.input := DrawData.input data1;
               DrawData.robustnessSize := DrawData.robustnessSize data1;
               DrawData.stride := DrawData.stride data1;
               DrawData.indices := DrawData.indices data1;
               DrawData.layer := DrawData.layer data1;
               DrawData.instanceID := DrawData.instanceID data1;
               DrawData.baseVertex := DrawData.baseVertex data1;
               DrawData.WxF := DrawData.WxF data1;
               DrawData.HxF := DrawData.HxF data1;
               DrawData.X0xF := DrawData.X0xF data1;
               DrawData.Y0xF := DrawData.Y0xF data1;
               DrawData.halfPixelX := DrawData.halfPixelX data1;
               DrawData.halfPixelY := DrawData.halfPixelY data1;
               DrawData.depthRange := DrawData.depthRange data1;
               DrawData.depthNear := DrawData.depthNear data1;
               DrawData.constantDepthBias := DrawData.constantDepthBias data1;
               DrawData.slopeDepthBias := DrawData.slopeDepthBias data1;
               DrawData.depthBiasClamp := DrawData.depthBiasClamp data1;
               DrawData.scissorX0 := DrawData.scissorX0 data1;
               DrawData.scissorX1 := DrawData.scissorX1 data1;
               DrawData.scissorY0 := DrawData.scissorY0 data1;
               DrawData.scissorY1 := DrawData.scissorY1 data1;
               DrawData.stencil :=
                 if PixelState.stencilActive pixelState then
                   (Pipeline.getFrontStencil pipeline, Pipeline.getBackStencil pipeline)
                 else DrawData.stencil data1;
               DrawData.factor := factor;
               DrawData.a2c0 :=
                 if PixelState.alphaToCoverage pixelState then
                   if (ms =? 4)%Z then lit (2 # 10)
                   else if (ms =? 2)%Z then lit (25 # 100)
                   else if (ms =? 1)%Z then lit (5 # 10)
                   else DrawData.a2c0 data1
                 else DrawData.a2c0 data1;
               DrawData.a2c1 :=
                 if PixelState.alphaToCoverage pixelState then
                   if (ms =? 4)%Z then lit (4 # 10)
                   else if (ms =? 2)%Z then lit (75 # 100)
                   else DrawData.a2c1 data1
                 else DrawData.a2c1 data1;
               DrawData.a2c2 :=
                 if PixelState.alphaToCoverage pixelState && (ms =? 4)%Z then lit (6 # 10)
                 else DrawData.a2c2 data1;
               DrawData.a2c3 :=
                 if PixelState.alphaToCoverage pixelState && (ms =? 4)%Z then lit (8 # 10)
                 else DrawData.a2c3 data1;
               DrawData.occlusion :=
                 if PixelState.occlusionEnabled pixelState then
                   λ cluster,
                     if (cluster <? MaxClusterCount)%nat then 0%Z
                     else DrawData.occlusion data1 cluster
                 else DrawData.occlusion data1;
               DrawData.minimumResolvableDepthDifference :=
                 match depthAttachment with
                 | Some view =>
                     match ImageView.getFormat view with
                     | VK_FORMAT_D16_UNORM =>
                         (* Minimum is 1 unit, but account for potential
                            floating-point rounding errors *)
                         fdiv (lit (101 # 100)) (of_int 65535)
                     | _ => DrawData.minimumResolvableDepthDifference data1
                     end
                 | None => DrawData.minimumResolvableDepthDifference data1
                 end;
               DrawData.colorBuffer :=
                 fromColor (λ view, ImageView.getOffsetPointer view layer)
                   (DrawData.colorBuffer data1);
               DrawData.colorPitchB :=
                 fromColor ImageView.rowPitchBytes (DrawData.colorPitchB data1);
               DrawData.colorSliceB :=
                 fromColor ImageView.slicePitchBytes (DrawData.colorSliceB data1);
               DrawData.depthBuffer :=
                 from_option (λ view, ImageView.getOffsetPointer view layer)
                   (DrawData.depthBuffer data1) depthAttachment;
               DrawData.depthPitchB :=
                 from_option ImageView.rowPitchBytes (DrawData.depthPitchB data1) depthAttachment;
               DrawData.depthSliceB :=
                 from_option ImageView.slicePitchBytes (DrawData.depthSliceB data1) depthAttachment;
               DrawData.stencilBuffer :=
                 from_option (λ view, ImageView.getOffsetPointer view layer)
                   (DrawData.stencilBuffer data1) stencilAttachment;
               DrawData.stencilPitchB :=
                 from_option ImageView.rowPitchBytes (DrawData.stencilPitchB data1) stencilAttachment;
               DrawData.stencilSliceB :=
                 from_option ImageView.slicePitchBytes (DrawData.stencilSliceB data1) stencilAttachment;
               DrawData.pushConstants := DrawData.pushConstants data1 |} in
          let draw2 :=
            {| DrawCall.id := DrawCall.id draw1;
               DrawCall.occlusionQuery := DrawCall.occlusionQuery draw1;
               DrawCall.numPrimitives := DrawCall.numPrimitives draw1;
               DrawCall.numPrimitivesPerBatch := DrawCall.numPrimitivesPerBatch draw1;
               DrawCall.numBatches := DrawCall.numBatches draw1;
               DrawCall.topology := DrawCall.topology draw1;
               DrawCall.provokingVertexMode := DrawCall.provokingVertexMode draw1;
               DrawCall.lineRasterizationMode := DrawCall.lineRasterizationMode draw1;
               DrawCall.descriptorSetObjects := DrawCall.descriptorSetObjects draw1;
               DrawCall.preRasterizationPipelineLayout := DrawCall.preRasterizationPipelineLayout draw1;
               DrawCall.fragmentPipelineLayout := fragLayout;
               DrawCall.depthClipEnable := DrawCall.depthClipEnable draw1;
               DrawCall.depthClipNegativeOneToOne := DrawCall.depthClipNegativeOneToOne draw1;
               DrawCall.indexType := DrawCall.indexType draw1;
               DrawCall.vertexRoutine := DrawCall.vertexRoutine draw1;
               DrawCall.setupState := setupState;
               DrawCall.setupRoutine := setupRoutine;
               DrawCall.pixelRoutine := pixelRoutine;
               DrawCall.setupPrimitives := Some setupPrimitives;
               DrawCall.colorBuffer := λ index,
                 if (index <? MAX_COLOR_BUFFERS)%nat then colorAttachment index
                 else DrawCall.colorBuffer draw1 index;
               DrawCall.depthBuffer := depthAttachment;
               DrawCall.stencilBuffer := stencilAttachment;
               DrawCall.events := DrawCall.events draw1;
               DrawCall.preRasterizationContainsImageWrite := DrawCall.preRasterizationContainsImageWrite draw1;
               DrawCall.fragmentContainsImageWrite := DrawCall.fragmentContainsImageWrite draw1;
               DrawCall.data := data2 |} in
          let calls2 :=
            match depthAttachment with
            | Some view =>
                match ImageView.getFormat view with
                | VK_FORMAT_OTHER => [Unsupported]
                | _ => []
                end
            | None => []
            end ++
            (if bool_decide (fragLayout ≠ preLayout) then
               [PrepareForSampling (Pipeline.getDescriptorSetObjects pipeline) fragLayout]
             else []) in
          submit draw2 data2 (calls1 ++ calls2)
      end
    else
      submit draw1 data1 calls1.
End Draw.

(** ** Vocabulary for the properties of draws *)

(** A call together with every call of the closures it hands over. *)
Fixpoint all_calls (c : Call) : list Call :=
  c ::
  match c with
  | TicketOnCall _ _ continuation => flat_map all_calls continuation
  | Schedule task => flat_map all_calls task
  | _ => []
  end.

(** Calls that belong to rasterization: primitive setup, the pixel routine
    and its attachment to a cluster ticket, occlusion-query accumulation and
    attachment notifications. *)
Definition rasterization_call (c : Call) : bool :=
  match c with
  | SetupPrimitives _ _ | PixelRoutine _ _ _ | TicketOnCall _ _ _
  | QueryAdd _ _ | QueryFinish _ | ImageContentsChanged _ => true
  | _ => false
  end.

(** The pipeline layouts [ContentsChanged] is called with, in call order. *)
Definition notifications (calls : list Call) : list Handle :=
  flat_map
    (λ c, match c with ContentsChanged _ layout => [layout] | _ => [] end)
    calls.

(** [call] releases ticket [t] of queue [q] ([done()]). *)
Definition releases (q : QueueId) (t : Ticket) (call : Call) : bool :=
  match call with
  | TicketDone q' t' => bool_decide (q' = q ∧ t' = t)
  | _ => false
  end.

(** [call] attaches a continuation to ticket [t] of queue [q] ([onCall()]). *)
Definition attaches (q : QueueId) (t : Ticket) (call : Call) : bool :=
  match call with
  | TicketOnCall q' t' _ => bool_decide (q' = q ∧ t' = t)
  | _ => false
  end.

Definition is_TicketDone (call : Call) : bool :=
  match call with TicketDone _ _ => true | _ => false end.

Definition is_TicketOnCall (call : Call) : bool :=
  match call with TicketOnCall _ _ _ => true | _ => false end.

Definition is_PixelRoutine (call : Call) : bool :=
  match call with PixelRoutine _ _ _ => true | _ => false end.

(** ** Primitive setup ([setupLines], [setupWireframeTriangles],
       [setupLine], lines 776-829, 876-895, 918-1162) *)

Section Setup.
Context `{Constants}.

  (** The contents of [batch->primitives]; the setup routine writes it
      through the cursor it is given. *)
Variable PrimMem : Type.

  (** [Clipper::Clip(polygon, clipFlags, draw)]: the result and the polygon
      as clipping leaves it. *)
Variable Clip : Polygon → Z → DrawCall.t → bool * Polygon.

  (** [draw.setupRoutine(device, &primitive, &triangle, &polygon, &data)]:
      the routine object, the primitive memory and the position in it, the
      triangle, the polygon and the data block; the result and the memory
      as the routine leaves it. *)
Variable setupRoutineCall :
    option Handle → PrimMem → Z → Triangle.t → Polygon → DrawData.t → bool * PrimMem.

  (** The contents of a [Vertex] that was declared and not assigned. *)
Variable indeterminate : Vertex.t.

Definition add_x (p : float4.t) (d : float) : float4.t :=
    {| float4.x := fadd (float4.x p) d; float4.y := float4.y p;
       float4.z := float4.z p; float4.w := float4.w p |}.

Definition add_y (p : float4.t) (d : float) : float4.t :=
    {| float4.x := float4.x p; float4.y := fadd (float4.y p) d;
       float4.z := float4.z p; float4.w := float4.w p |}.

  (** Lines 941-945: the screen-space direction [(dx, dy)] of the segment. *)
Definition lineDirection (triangle : Triangle.t) (draw : DrawCall.t) : float * float :=
    let P0 := Vertex.position (Triangle.v0 triangle) in
    let P1 := Vertex.position (Triangle.v1 triangle) in
    let data := DrawCall.data draw in
    let subPixF := SUBPIXEL_PRECISION_FACTOR in
    let W := fmul (DrawData.WxF data) (fdiv (lit 1) subPixF) in
    let H := fmul (DrawData.HxF data) (fdiv (lit 1) subPixF) in
    let dx := fmul W (fsub (fdiv (float4.x P1) (float4.w P1))
                           (fdiv (float4.x P0) (float4.w P0))) in
    let dy := fmul H (fsub (fdiv (float4.y P1) (float4.w P1))
                           (fdiv (float4.y P0) (float4.w P0))) in
    (dx, dy).

  (** [DrawCall::setupLine].  [primitive] is the position of the output
      primitive in [mem].  The branch under [else if(false)] cannot run and
      is left out. *)
Definition setupLine (mem : PrimMem) (primitive : Z) (triangle : Triangle.t)
      (draw : DrawCall.t) : bool * PrimMem :=
    let v0 := Triangle.v0 triangle in
    let v1 := Triangle.v1 triangle in
    if (Z.lor (Vertex.cullMask v0) (Vertex.cullMask v1) =? 0)%Z then (false, mem)
    else
    let P0 := Vertex.position v0 in
    let P1 := Vertex.position v1 in
    if fle (float4.w P0) (of_int 0) && fle (float4.w P1) (of_int 0) then (false, mem)
    else
    let data := DrawCall.data draw in
    let lineWidth := DrawData.lineWidth data in
    let clipFlags := if DrawCall.depthClipEnable draw then CLIP_FRUSTUM else CLIP_SIDES in
    let subPixF := SUBPIXEL_PRECISION_FACTOR in
    let W := fmul (DrawData.WxF data) (fdiv (lit 1) subPixF) in
    let H := fmul (DrawData.HxF data) (fdiv (lit 1) subPixF) in
    let '(dx, dy) := lineDirection triangle draw in
    if feq dx (of_int 0) && feq dy (of_int 0) then (false, mem)
    else
    if bool_decide (DrawCall.lineRasterizationMode draw ≠ VK_LINE_RASTERIZATION_MODE_BRESENHAM_EXT) then
      (* Rectangle centered on the line segment *)
      let scale := fdiv (fmul lineWidth (lit (1 # 2)))
                        (fsqrt (fadd (fmul dx dx) (fmul dy dy))) in
      let dx := fmul dx scale in
      let dy := fmul dy scale in
      let dx0h := fdiv (fmul dx (float4.w P0)) H in
      let dy0w := fdiv (fmul dy (float4.w P0)) W in
      let dx1h := fdiv (fmul dx (float4.w P1)) H in
      let dy1w := fdiv (fmul dy (float4.w P1)) W in
      let polygon : Polygon :=
        [ add_y (add_x P0 (fneg dy0w)) dx0h;
          add_y (add_x P1 (fneg dy1w)) dx1h;
          add_y (add_x P1 dy1w) (fneg dx1h);
          add_y (add_x P0 dy0w) (fneg dx0h) ] in
      let '(ok, polygon) := Clip polygon clipFlags draw in
      if negb ok then (false, mem)
      else setupRoutineCall (DrawCall.setupRoutine draw) mem primitive triangle polygon data
    else
      (* Parallelogram approximating Bresenham line *)
      let dx0 := fdiv (fmul (fmul lineWidth (lit (1 # 2))) (float4.w P0)) W in
      let dy0 := fdiv (fmul (fmul lineWidth (lit (1 # 2))) (float4.w P0)) H in
      let dx1 := fdiv (fmul (fmul lineWidth (lit (1 # 2))) (float4.w P1)) W in
      let dy1 := fdiv (fmul (fmul lineWidth (lit (1 # 2))) (float4.w P1)) H in
      let Q0 := add_x P0 (fneg dx0) in
      let Q1 := add_y P0 dy0 in
      let Q2 := add_x P0 dx0 in
      let Q3 := add_y P0 (fneg dy0) in
      let Q4 := add_x P1 (fneg dx1) in
      let Q5 := add_y P1 dy1 in
      let Q6 := add_x P1 dx1 in
      let Q7 := add_y P1 (fneg dy1) in
      let L : Polygon :=
        if fgt dx (fneg dy) then
          if fgt dx dy then [Q1; Q5; Q7; Q3]   (* Right *)
          else [Q0; Q4; Q6; Q2]                (* Down *)
        else
          if fgt dx dy then [Q0; Q2; Q6; Q4]   (* Up *)
          else [Q1; Q3; Q7; Q5]                (* Left *) in
      let '(ok, polygon) := Clip L clipFlags draw in
      if negb ok then (false, mem)
      else setupRoutineCall (DrawCall.setupRoutine draw) mem primitive triangle polygon data.

  (** [DrawCall::setupLines]: the visible count it returns, and with it the
      final position of the output cursor and the primitive memory. *)
Definition setupLines (mem : PrimMem) (triangles : nat → Triangle.t)
      (primitives : Z) (drawCall : DrawCall.t) (count : nat) : Z * Z * PrimMem :=
    let ms := SetupState.multiSampleCount (DrawCall.setupState drawCall) in
    for_upto count
      (λ i '((visible, primitives, mem) : Z * Z * PrimMem),
         let '(ok, mem) := setupLine mem primitives (triangles i) drawCall in
         if ok then ((visible + 1)%Z, (primitives + ms)%Z, mem)
         else (visible, primitives, mem))
      (0%Z, primitives, mem).

  (** [DrawCall::setupWireframeTriangles]. *)
Definition setupWireframeTriangles (mem : PrimMem) (triangles : nat → Triangle.t)
      (primitives : Z) (drawCall : DrawCall.t) (count : nat) : Z * Z * PrimMem :=
    let state := DrawCall.setupState drawCall in
    let ms := SetupState.multiSampleCount state in
    for_upto count
      (λ i '((visible, primitives, mem) : Z * Z * PrimMem),
         let v0 := Triangle.v0 (triangles i) in
         let v1 := Triangle.v1 (triangles i) in
         let v2 := Triangle.v2 (triangles i) in
         let px := λ v, of_int (int4.x (Vertex.projected v)) in
         let py := λ v, of_int (int4.y (Vertex.projected v)) in
         let A :=
           fadd (fadd (fmul (fsub (py v0) (py v2)) (px v1))
                      (fmul (fsub (py v2) (py v1)) (px v0)))
                (fmul (fsub (py v1) (py v0)) (px v2)) in   (* Area *)
         let w0w1w2 :=
           Z.lxor (Z.lxor (bit_cast_int (Vertex.w v0)) (bit_cast_int (Vertex.w v1)))
                  (bit_cast_int (Vertex.w v2)) in
         let A := if (w0w1w2 <? 0)%Z then fneg A else A in
         let frontFacing :=
           if bool_decide (SetupState.frontFace state = VK_FRONT_FACE_COUNTER_CLOCKWISE)
           then fge A (lit 0) else fle A (lit 0) in
         if negb (Z.land (SetupState.cullMode state) VK_CULL_MODE_FRONT_BIT =? 0)%Z
            && frontFacing then (visible, primitives, mem)          (* continue *)
         else if negb (Z.land (SetupState.cullMode state) VK_CULL_MODE_BACK_BIT =? 0)%Z
                 && negb frontFacing then (visible, primitives, mem) (* continue *)
         else
           let line := λ a b, {| Triangle.v0 := a; Triangle.v1 := b;
                                 Triangle.v2 := indeterminate |} in
           let lines := λ k : nat,
             match k with
             | 0%nat => line v0 v1
             | 1%nat => line v1 v2
             | _ => line v2 v0
             end in
           for_upto 3
             (λ k '((visible, primitives, mem) : Z * Z * PrimMem),
                let '(ok, mem) := setupLine mem primitives (lines k) drawCall in
                if ok then ((visible + 1)%Z, (primitives + ms)%Z, mem)
                else (visible, primitives, mem))
             (visible, primitives, mem))
      (0%Z, primitives, mem).

  (** *** The wireframe strategy in the words of its description *)

  (** The IEEE sign bit of a [float]. *)
Definition sign_bit (f : float) : bool := (bit_cast_int f <? 0)%Z.

  (** The shoelace formula over the projected coordinates. *)
Definition shoelace_area (v0 v1 v2 : Vertex.t) : float :=
    let px := λ v, of_int (int4.x (Vertex.projected v)) in
    let py := λ v, of_int (int4.y (Vertex.projected v)) in
    fadd (fadd (fmul (fsub (py v0) (py v2)) (px v1))
               (fmul (fsub (py v2) (py v1)) (px v0)))
         (fmul (fsub (py v1) (py v0)) (px v2)).

  (** The area, negated exactly when the XOR of the three sign bits is set. *)
Definition corrected_area (v0 v1 v2 : Vertex.t) : float :=
    let A := shoelace_area v0 v1 v2 in
    if xorb (xorb (sign_bit (Vertex.w v0)) (sign_bit (Vertex.w v1)))
            (sign_bit (Vertex.w v2))
    then fneg A else A.

Definition front_facing (state : SetupState.t) (v0 v1 v2 : Vertex.t) : bool :=
    match SetupState.frontFace state with
    | VK_FRONT_FACE_COUNTER_CLOCKWISE => fge (corrected_area v0 v1 v2) (lit 0)
    | VK_FRONT_FACE_CLOCKWISE => fle (corrected_area v0 v1 v2) (lit 0)
    end.

  (** The triangle's facing has its cull-mode bit set. *)
Definition culled (state : SetupState.t) (v0 v1 v2 : Vertex.t) : bool :=
    if front_facing state v0 v1 v2 then
      negb (Z.land (SetupState.cullMode state) VK_CULL_MODE_FRONT_BIT =? 0)%Z
    else
      negb (Z.land (SetupState.cullMode state) VK_CULL_MODE_BACK_BIT =? 0)%Z.

  (** Hand the edges to line setup in order; each accepted edge advances the
      cursor by the sample count and the visible count by one. *)
Fixpoint emit_edges (drawCall : DrawCall.t) (edges : list (Vertex.t * Vertex.t))
      (acc : Z * Z * PrimMem) : Z * Z * PrimMem :=
    match edges with
    | [] => acc
    | (a, b) :: rest =>
        let '(visible, primitives, mem) := acc in
        let '(ok, mem) :=
          setupLine mem primitives
            {| Triangle.v0 := a; Triangle.v1 := b; Triangle.v2 := indeterminate |}
            drawCall in
        emit_edges drawCall rest
          (if ok then
             ((visible + 1)%Z,
              (primitives + SetupState.multiSampleCount (DrawCall.setupState drawCall))%Z,
              mem)
           else (visible, primitives, mem))
    end.

Fixpoint wireframe_reference (drawCall : DrawCall.t) (triangles : list Triangle.t)
      (acc : Z * Z * PrimMem) : Z * Z * PrimMem :=
    match triangles with
    | [] => acc
    | t :: rest =>
        let v0 := Triangle.v0 t in
        let v1 := Triangle.v1 t in
        let v2 := Triangle.v2 t in
        wireframe_reference drawCall rest
          (if culled (DrawCall.setupState drawCall) v0 v1 v2 then acc
           else emit_edges drawCall [(v0, v1); (v1, v2); (v2, v0)] acc)
    end.
End Setup.

(** ** Concrete instances, for running the definitions *)

(** IEEE 754 binary32 (24 bits of precision, exponents up to 128), from the
    library's executable specification of floating point.  [spec_float] has
    one NaN, without sign or payload; its bit pattern is taken to be that of
    the positive quiet NaN, so on NaNs [binary32_bits] stands for one of the
    patterns a [bit_cast<int>] can give (one with the sign bit set is
    negative).  The instance is used to run the definitions on examples;
    the theorems about floating-point code are stated over [FloatOps]. *)
Definition binary32_bits (f : spec_float) : Z :=
  let magnitude :=
    match f with
    | S754_zero _ => 0
    | S754_infinity _ => 0x7F800000
    | S754_nan => 0x7FC00000
    | S754_finite _ m e =>
        if (Z.pos m <? 2 ^ 23) then Z.pos m
        else (e + 150) * 2 ^ 23 + (Z.pos m - 2 ^ 23)
    end%Z in
  let sign :=
    match f with
    | S754_zero s | S754_infinity s | S754_finite s _ _ => s
    | S754_nan => false
    end in
  if sign then (magnitude - 2 ^ 31)%Z else magnitude.

Definition binary32 : FloatOps := {|
  float := spec_float;
  fadd := SFadd 24 128;
  fsub := SFsub 24 128;
  fmul := SFmul 24 128;
  fdiv := SFdiv 24 128;
  fneg := SFopp;
  fsqrt := SFsqrt 24 128;
  feq := SFeqb;
  fle := SFleb;
  fge := λ a b, SFleb b a;
  fgt := λ a b, SFltb b a;
  lit := λ q, SFdiv 24 128 (binary_normalize 24 128 (Qnum q) 0 false)
                (binary_normalize 24 128 (Z.pos (Qden q)) 0 false);
  of_int := λ i, binary_normalize 24 128 i 0 false;
  bit_cast_int := binary32_bits
|}.

(** The values of the constants in SwiftShader's and Vulkan's headers. *)
Definition header_constants : @Constants binary32 := {|
  MaxBatchSize := 128;
  MaxClusterCount := 16;
  MAX_COLOR_BUFFERS := 8;
  MAX_INTERFACE_COMPONENTS := 128;
  SUBPIXEL_PRECISION_FACTOR := @of_int binary32 16;
  CLIP_FRUSTUM := 0x3F;
  CLIP_SIDES := 0x0F;
  VK_CULL_MODE_FRONT_BIT := 1;
  VK_CULL_MODE_BACK_BIT := 2
|}.

(** A draw object as the pool may hand it out: every field holds what an
    earlier draw left there (here recognisable values). *)
Definition stale_data : @DrawData.t binary32 := {|
  DrawData.lineWidth := @of_int binary32 1;
  DrawData.rasterizerDiscard := false;
  DrawData.descriptorSets := 0%Z;
  DrawData.descriptorDynamicOffsets := 0%Z;
  DrawData.input := λ _, 0%Z;
  DrawData.robustnessSize := λ _, 0%Z;
  DrawData.stride := λ _, 0%Z;
  DrawData.indices := None;
  DrawData.layer := 0;
  DrawData.instanceID := 0;
  DrawData.baseVertex := 0;
  DrawData.WxF := @of_int binary32 0;
  DrawData.HxF := @of_int binary32 0;
  DrawData.X0xF := @of_int binary32 0;
  DrawData.Y0xF := @of_int binary32 0;
  DrawData.halfPixelX := @of_int binary32 0;
  DrawData.halfPixelY := @of_int binary32 0;
  DrawData.depthRange := @of_int binary32 0;
  DrawData.depthNear := @of_int binary32 0;
  DrawData.constantDepthBias := @of_int binary32 0;
  DrawData.slopeDepthBias := @of_int binary32 0;
  DrawData.depthBiasClamp := @of_int binary32 0;
  DrawData.scissorX0 := 0;
  DrawData.scissorX1 := 0;
  DrawData.scissorY0 := 0;
  DrawData.scissorY1 := 0;
  DrawData.stencil :=
    ({| StencilOp.reference := 7; StencilOp.compareMask := 7; StencilOp.writeMask := 7 |},
     {| StencilOp.reference := 7; StencilOp.compareMask := 7; StencilOp.writeMask := 7 |});
  DrawData.factor := 77%Z;
  DrawData.a2c0 := @of_int binary32 0;
  DrawData.a2c1 := @of_int binary32 0;
  DrawData.a2c2 := @of_int binary32 0;
  DrawData.a2c3 := @of_int binary32 0;
  DrawData.occlusion := λ _, 55%Z;
  DrawData.minimumResolvableDepthDifference := @of_int binary32 0;
  DrawData.colorBuffer := λ _, 0%Z;
  DrawData.colorPitchB := λ _, 0%Z;
  DrawData.colorSliceB := λ _, 0%Z;
  DrawData.depthBuffer := 0;
  DrawData.depthPitchB := 0;
  DrawData.depthSliceB := 0;
  DrawData.stencilBuffer := 0;
  DrawData.stencilPitchB := 0;
  DrawData.stencilSliceB := 0;
  DrawData.pushConstants := 0%Z
|}.

Definition stale_draw : @DrawCall.t binary32 := {|
  DrawCall.id := 41;
  DrawCall.occlusionQuery := None;
  DrawCall.numPrimitives := 9;
  DrawCall.numPrimitivesPerBatch := 128;
  DrawCall.numBatches := 1;
  DrawCall.topology := VK_PRIMITIVE_TOPOLOGY_POINT_LIST;
  DrawCall.provokingVertexMode := VK_PROVOKING_VERTEX_MODE_FIRST_VERTEX_EXT;
  DrawCall.lineRasterizationMode := VK_LINE_RASTERIZATION_MODE_OTHER;
  DrawCall.descriptorSetObjects := 0%Z;
  DrawCall.preRasterizationPipelineLayout := 0%Z;
  DrawCall.fragmentPipelineLayout := 99%Z;
  DrawCall.depthClipEnable := false;
  DrawCall.depthClipNegativeOneToOne := false;
  DrawCall.indexType := VK_INDEX_TYPE_UINT16;
  DrawCall.vertexRoutine := None;
  DrawCall.setupState :=
    {| SetupState.multiSampleCount := 4;
       SetupState.frontFace := VK_FRONT_FACE_CLOCKWISE;
       SetupState.cullMode := 0;
       SetupState.rest := 0%Z |};
  DrawCall.setupRoutine := None;
  DrawCall.pixelRoutine := None;
  DrawCall.setupPrimitives := Some setupPoints_fn;
  DrawCall.colorBuffer := λ _, None;
  DrawCall.depthBuffer := None;
  DrawCall.stencilBuffer := None;
  DrawCall.events := None;
  DrawCall.preRasterizationContainsImageWrite := false;
  DrawCall.fragmentContainsImageWrite := false;
  DrawCall.data := stale_data
|}.

Definition example_renderer : Renderer.t := {|
  Renderer.nextDrawID := 42;
  Renderer.vertexState := 0%Z;
  Renderer.vertexRoutine := Some 1%Z;
  Renderer.setupState :=
    {| SetupState.multiSampleCount := 1;
       SetupState.frontFace := VK_FRONT_FACE_COUNTER_CLOCKWISE;
       SetupState.cullMode := 2;
       SetupState.rest := 0%Z |};
  Renderer.setupRoutine := Some 2%Z;
  Renderer.pixelState :=
    {| PixelState.stencilActive := false;
       PixelState.alphaToCoverage := false;
       PixelState.occlusionEnabled := true;
       PixelState.rest := 0%Z |};
  Renderer.pixelRoutine := Some 3%Z;
  Renderer.pixelProcessor_factor := 0%Z;
  Renderer.occlusionQuery := Some 500%Z
|}.

(** A pipeline over a list of triangles, one sample per pixel, with the
    given rasterizer-discard flag, polygon mode, image-write flags and
    pipeline layouts. *)
Definition example_pipeline (discard : bool) (polygonMode : VkPolygonMode)
    (preWrite fragWrite : bool) (preLayout fragLayout : Handle)
    : @Pipeline.t binary32 := {|
  Pipeline.getTopology := VK_PRIMITIVE_TOPOLOGY_TRIANGLE_LIST;
  Pipeline.isDrawTriangle := true;
  Pipeline.isDrawLine := false;
  Pipeline.hasRasterizerDiscard := discard;
  Pipeline.preRasterizationPipelineLayout := preLayout;
  Pipeline.getProvokingVertexMode := VK_PROVOKING_VERTEX_MODE_FIRST_VERTEX_EXT;
  Pipeline.getLineRasterizationMode := VK_LINE_RASTERIZATION_MODE_BRESENHAM_EXT;
  Pipeline.getDepthClipEnable := true;
  Pipeline.getDepthClipNegativeOneToOne := false;
  Pipeline.getLineWidth := @of_int binary32 1;
  Pipeline.getViewport :=
    {| VkViewport.x := @of_int binary32 0; VkViewport.y := @of_int binary32 0;
       VkViewport.width := @of_int binary32 640;
       VkViewport.height := @of_int binary32 480;
       VkViewport.minDepth := @of_int binary32 0;
       VkViewport.maxDepth := @of_int binary32 1 |};
  Pipeline.getScissor :=
    {| VkRect2D.offset_x := 0; VkRect2D.offset_y := 0;
       VkRect2D.extent_width := 640; VkRect2D.extent_height := 480 |};
  Pipeline.getPolygonMode := polygonMode;
  Pipeline.getConstantDepthBias := @of_int binary32 0;
  Pipeline.getSlopeDepthBias := @of_int binary32 0;
  Pipeline.getDepthBiasClamp := @of_int binary32 0;
  Pipeline.fragmentPipelineLayout := fragLayout;
  Pipeline.getFrontStencil :=
    {| StencilOp.reference := 0; StencilOp.compareMask := 255; StencilOp.writeMask := 255 |};
  Pipeline.getBackStencil :=
    {| StencilOp.reference := 0; StencilOp.compareMask := 255; StencilOp.writeMask := 255 |};
  Pipeline.getBlendConstants := 0%Z;
  Pipeline.getSampleCount := 1;
  Pipeline.getDescriptorSetObjects := 700%Z;
  Pipeline.getDescriptorSets := 701%Z;
  Pipeline.getDescriptorDynamicOffsets := 702%Z;
  Pipeline.getStream := λ _, {| Stream.buffer := 0%Z; Stream.robustnessSize := 0 |};
  Pipeline.getVertexStride := λ _, 0%Z;
  Pipeline.fragmentShader := 10%Z;
  Pipeline.vertexShader := 11%Z;
  Pipeline.attachments_colorBuffer := λ index,
    if (index =? 0)%nat then
      Some {| ImageView.image := 900%Z; ImageView.getFormat := VK_FORMAT_OTHER;
              ImageView.getOffsetPointer := λ layer, (4096 + layer)%Z;
              ImageView.rowPitchBytes := 2560; ImageView.slicePitchBytes := 1228800 |}
    else None;
  Pipeline.attachments_depthBuffer := None;
  Pipeline.attachments_stencilBuffer := None;
  Pipeline.preRasterizationContainsImageWrite := preWrite;
  Pipeline.fragmentContainsImageWrite := fragWrite;
  Pipeline.getIndexType := VK_INDEX_TYPE_UINT32
|}.

Definition example_processors : @Processors.t binary32 := {|
  Processors.vertexUpdate := λ _, 20%Z;
  Processors.vertexRoutine := λ _ _, 21%Z;
  Processors.setupUpdate := λ p,
    {| SetupState.multiSampleCount := Pipeline.getSampleCount p;
       SetupState.frontFace := VK_FRONT_FACE_COUNTER_CLOCKWISE;
       SetupState.cullMode := 0;
       SetupState.rest := 22%Z |};
  Processors.setupRoutine := λ _, 23%Z;
  Processors.pixelUpdate := λ _ occlusion,
    {| PixelState.stencilActive := false;
       PixelState.alphaToCoverage := false;
       PixelState.occlusionEnabled := occlusion;
       PixelState.rest := 24%Z |};
  Processors.pixelRoutine := λ _ _, 25%Z;
  Processors.setBlendConstant := λ blendConstants, blendConstants
|}.

Definition example_renderArea : VkRect2D.t :=
  {| VkRect2D.offset_x := 0; VkRect2D.offset_y := 0;
     VkRect2D.extent_width := 640; VkRect2D.extent_height := 480 |}.

(** [Renderer::draw] on the example renderer and pool object, with
    [update = true], no index buffer and no events. *)
Definition example_draw (pipeline : @Pipeline.t binary32) (count : Z)
    (numVisible : nat → Z) : @DrawResult.t binary32 :=
  @draw binary32 header_constants example_processors example_renderer
    stale_draw pipeline count 0 None 0 0 None example_renderArea 0%Z true
    numVisible.

(** A vertex at clip-space [(x, y, 0, 1)], projected to [(px, py)], with the
    given cull mask. *)
Definition example_vertex (x y : Z) (px py : Z) (cullMask : Z) : @Vertex.t binary32 := {|
  Vertex.position :=
    {| float4.x := @of_int binary32 x; float4.y := @of_int binary32 y;
       float4.z := @of_int binary32 0; float4.w := @of_int binary32 1 |};
  Vertex.pointSize := @of_int binary32 1;
  Vertex.clipFlags := 0;
  Vertex.cullMask := cullMask;
  Vertex.projected := {| int4.x := px; int4.y := py; int4.z := 0; int4.w := 0 |}
|}.

(** A clipper that keeps every polygon and a setup routine that accepts every
    primitive and records where it wrote. *)
Definition example_Clip : list (@float4.t binary32) → Z → @DrawCall.t binary32
    → bool * list (@float4.t binary32) :=
  λ polygon _ _, (true, polygon).

Definition example_setupRoutine : option Handle → list Z → Z → @Triangle.t binary32
    → list (@float4.t binary32) → @DrawData.t binary32 → bool * list Z :=
  λ _ mem primitive _ _ _, (true, mem ++ [primitive]).

(** The draw object of a submitted fill-mode draw on the example renderer. *)
Definition example_submitted_draw : @DrawCall.t binary32 :=
  DrawResult.draw
    (example_draw (example_pipeline false VK_POLYGON_MODE_FILL false false 1%Z 1%Z)
       5 (λ _, 3%Z)).

(** ** Ticket queues, the worker pool and interleaved execution *)

(** One reserved position of a ticket queue: the ticket, and the
    continuation attached to it, if any. *)
Module TicketRecord.
Record t : Type := { ticket : Ticket; onCall : option (list Call) }.
End TicketRecord.

(** Modelled from the spec: [marl::Ticket::Queue] is not part of the examined
    unit.  The spec describes it as a FIFO sequencer: "take" reserves the
    next position and returns a handle; a continuation attached to the handle
    runs when the handle becomes the head of the queue; "done" advances the
    queue.  Here a queue is the list of its reserved positions, oldest first;
    taking a ticket appends a position. *)
Definition ticket_take (queue : list TicketRecord.t) (t : Ticket) : list TicketRecord.t :=
  queue ++ [{| TicketRecord.ticket := t; TicketRecord.onCall := None |}].

(** Modelled from the spec: "done" on a ticket removes its position.  When
    that was the head, the next position becomes the head and the
    continuation attached to it, if any, is handed over to run.  The result
    is the queue and the continuations handed over. *)
Definition ticket_done (queue : list TicketRecord.t) (t : Ticket)
    : list TicketRecord.t * list (list Call) :=
  match queue with
  | [] => ([], [])
  | head :: rest =>
      if decide (TicketRecord.ticket head = t) then
        match rest with
        | next :: rest' =>
            match TicketRecord.onCall next with
            | Some continuation =>
                ({| TicketRecord.ticket := TicketRecord.ticket next;
                    TicketRecord.onCall := None |} :: rest',
                 [continuation])
            | None => (rest, [])
            end
        | [] => ([], [])
        end
      else
        (head :: List.filter (λ r, negb (bool_decide (TicketRecord.ticket r = t))) rest, [])
  end.

(** Modelled from the spec: attaching a continuation to a ticket that is the
    head of its queue hands the continuation over at once; otherwise it is
    kept with the ticket's position (after any continuation already there)
    until the position becomes the head. *)
Definition ticket_onCall (queue : list TicketRecord.t) (t : Ticket)
    (continuation : list Call) : list TicketRecord.t * list (list Call) :=
  match queue with
  | [] => ([], [])
  | head :: rest =>
      if decide (TicketRecord.ticket head = t) then (queue, [continuation])
      else
        (head ::
         map (λ r,
                if decide (TicketRecord.ticket r = t) then
                  {| TicketRecord.ticket := t;
                     TicketRecord.onCall :=
                       Some (default [] (TicketRecord.onCall r) ++ continuation) |}
                else r)
             rest,
         [])
  end.

(** What the threads share: the ticket queues, the closures handed to the
    scheduler (each with the calls it has still to make), and the calls made
    so far, in the order they were made. *)
Module World.
Record t : Type := {
    queues : QueueId → list TicketRecord.t;
    pool : list (list Call);
    trace : list Call
  }.
End World.

(** The effect of one call on the shared state.  Closures handed over by a
    ticket queue or by [marl::schedule] join the pool; they may run at any
    later time, on any thread. *)
Definition perform (call : Call) (w : World.t) : World.t :=
  match call with
  | TicketTake q t =>
      {| World.queues := <[q := ticket_take (World.queues w q) t]> (World.queues w);
         World.pool := World.pool w;
         World.trace := World.trace w ++ [call] |}
  | TicketDone q t =>
      let '(queue, woken) := ticket_done (World.queues w q) t in
      {| World.queues := <[q := queue]> (World.queues w);
         World.pool := World.pool w ++ woken;
         World.trace := World.trace w ++ [call] |}
  | TicketOnCall q t continuation =>
      let '(queue, woken) := ticket_onCall (World.queues w q) t continuation in
      {| World.queues := <[q := queue]> (World.queues w);
         World.pool := World.pool w ++ woken;
         World.trace := World.trace w ++ [call] |}
  | Schedule task =>
      {| World.queues := World.queues w;
         World.pool := World.pool w ++ [task];
         World.trace := World.trace w ++ [call] |}
  | _ =>
      {| World.queues := World.queues w;
         World.pool := World.pool w;
         World.trace := World.trace w ++ [call] |}
  end.

(** The renderer with the thread that submits draws ([main]: the calls the
    current [Renderer::draw] has still to make) and the shared state. *)
Module System.
Record t : Type := {
    renderer : Renderer.t;
    main : list Call;
    world : World.t
  }.
End System.

Definition initial (renderer : Renderer.t) : System.t :=
  {| System.renderer := renderer;
     System.main := [];
     System.world := {| World.queues := λ _, []; World.pool := []; World.trace := [] |} |}.

Section Interleaving.
Context `{Constants}.
Variable processors : Processors.t.

  (** One step of the system: the submitting thread starts the next
      [Renderer::draw] (with any arguments), or makes its next call, or some
      closure of the pool makes its next call. *)
Inductive step : System.t → System.t → Prop :=
    | step_draw (s : System.t) (draw0 : DrawCall.t) (pipeline : Pipeline.t)
        (count baseVertex : Z) (events : option Handle) (instanceID layer : Z)
        (indexBuffer : option Handle) (renderArea : VkRect2D.t)
        (pushConstants : Handle) (update : bool) (numVisible : nat → Z) :
        System.main s = [] →
        step s
          (let r := draw processors (System.renderer s) draw0 pipeline count
                      baseVertex events instanceID layer indexBuffer renderArea
                      pushConstants update numVisible in
           {| System.renderer := DrawResult.renderer r;
              System.main := DrawResult.calls r;
              System.world := System.world s |})
    | step_main (s : System.t) (call : Call) (rest : list Call) :
        System.main s = call :: rest →
        step s
          {| System.renderer := System.renderer s;
             System.main := rest;
             System.world := perform call (System.world s) |}
    | step_worker (s : System.t) (before after : list (list Call))
        (call : Call) (rest : list Call) :
        World.pool (System.world s) = before ++ (call :: rest) :: after →
        step s
          {| System.renderer := System.renderer s;
             System.main := System.main s;
             System.world :=
               perform call
                 {| World.queues := World.queues (System.world s);
                    World.pool := before ++ rest :: after;
                    World.trace := World.trace (System.world s) |} |}.

  (** A step in which the draw counter does not wrap around. *)
Definition step_without_wrap (s s' : System.t) : Prop :=
    step s s' ∧
    (Renderer.nextDrawID (System.renderer s) ≤ Renderer.nextDrawID (System.renderer s'))%Z.
End Interleaving.

(** The tickets taken from [queue], in the order of the calls. *)
Definition takes (queue : QueueId) (calls : list Call) : list Ticket :=
  flat_map
    (λ call, match call with
             | TicketTake q t => if decide (q = queue) then [t] else []
             | _ => []
             end)
    calls.

(** The batches whose pixel routine ran on [cluster], in the order of the
    calls. *)
Definition pixel_log (cluster : nat) (calls : list Call) : list Ticket :=
  flat_map
    (λ call, match call with
             | PixelRoutine d b c => if decide (c = cluster) then [(d, b)] else []
             | _ => []
             end)
    calls.

(** Reservation order: an earlier draw first, and within a draw the lower
    batch index first. *)
Definition ticket_lt (a b : Ticket) : Prop :=
  (a.1 < b.1)%Z ∨ (a.1 = b.1 ∧ (a.2 < b.2)%nat).

(** *** What is still to happen to a ticket *)

Definition touches (q : QueueId) (t : Ticket) (call : Call) : bool :=
  releases q t call || attaches q t call.

(** The calls of the closures the submitting thread has still to schedule. *)
Definition scheduled (main : list Call) : list Call :=
  flat_map (λ call, match call with Schedule task => task | _ => [] end) main.

(** The continuations kept in a queue, as the [onCall] calls that put them
    there. *)
Definition attached (q : QueueId) (queue : list TicketRecord.t) : list Call :=
  flat_map
    (λ r, match TicketRecord.onCall r with
          | Some continuation => [TicketOnCall q (TicketRecord.ticket r) continuation]
          | None => []
          end)
    queue.

(** Everything that will still release ticket [t] of queue [q] or attach a
    continuation to it -- in a closure of the pool, in a closure not yet
    scheduled, or kept in the queue -- counted. *)
Definition pending (q : QueueId) (t : Ticket) (s : System.t) : nat :=
  length
    (List.filter (touches q t)
       (concat (World.pool (System.world s)) ++
        scheduled (System.main s) ++
        attached q (World.queues (System.world s) q))).

(** The calls of a batch task: the vertex routine, primitive setup, [done()]
    on a cluster ticket, and [onCall()] with the pixel continuation of that
    ticket and cluster. *)
Definition plain (call : Call) : Prop :=
  match call with
  | VertexRoutine _ _ | SetupPrimitives _ _ => True
  | TicketDone (ClusterQueue _) _ => True
  | TicketOnCall (ClusterQueue cluster) t continuation =>
      continuation = pixelContinuation t.1 t.2 cluster
  | _ => False
  end.

(** A closure of the pool is what is left of a batch task or of a pixel
    continuation. *)
Definition thread_ok (thread : list Call) : Prop :=
  Forall plain thread ∨ ∃ d b cluster, thread = pixelContinuation d b cluster.

(** The calls [Renderer::draw] makes on the submitting thread. *)
Definition main_call (call : Call) : Prop :=
  match call with
  | TicketTake _ _ => True
  | Schedule task => Forall plain task
  | TicketDone _ _ | TicketOnCall _ _ _ | PixelRoutine _ _ _
  | VertexRoutine _ _ | SetupPrimitives _ _ => False
  | _ => True
  end.

(** Calls of the submitting thread that touch neither queue nor pool. *)
Definition collaborator_call (call : Call) : Prop :=
  match call with
  | DrawCallPoolBorrow | PrepareForSampling _ _ | ContentsChanged _ _
  | ImageContentsChanged _ | QueryStart _ | QueryAdd _ _ | QueryFinish _
  | EventsAdd _ | EventsDone _ | Unsupported => True
  | _ => False
  end.

(** The invariant of the interleaved execution. *)
Record invariant (s : System.t) : Prop := {
  inv_pool : Forall thread_ok (World.pool (System.world s));
  inv_main : Forall main_call (System.main s);
  inv_onCall : ∀ q r continuation,
    r ∈ World.queues (System.world s) q →
    TicketRecord.onCall r = Some continuation →
    ∃ cluster, q = ClusterQueue cluster ∧
      continuation = pixelContinuation (TicketRecord.ticket r).1 (TicketRecord.ticket r).2 cluster;
  inv_takes : ∀ q,
    StronglySorted ticket_lt
      (takes q (World.trace (System.world s)) ++ takes q (System.main s));
  inv_queue : ∀ q,
    StronglySorted ticket_lt (map TicketRecord.ticket (World.queues (System.world s) q));
  inv_queue_taken : ∀ q r,
    r ∈ World.queues (System.world s) q →
    TicketRecord.ticket r ∈ takes q (World.trace (System.world s));
  inv_log : ∀ cluster,
    StronglySorted ticket_lt (pixel_log cluster (World.trace (System.world s)));
  inv_log_taken : ∀ cluster x,
    x ∈ pixel_log cluster (World.trace (System.world s)) →
    x ∈ takes (ClusterQueue cluster) (World.trace (System.world s));
  inv_log_queue : ∀ cluster x r,
    x ∈ pixel_log cluster (World.trace (System.world s)) →
    r ∈ World.queues (System.world s) (ClusterQueue cluster) →
    x = TicketRecord.ticket r ∨ ticket_lt x (TicketRecord.ticket r);
  inv_pending : ∀ q t, pending q t s ≤ 1;
  inv_pixel : ∀ d b cluster,
    PixelRoutine d b cluster ∈ concat (World.pool (System.world s)) →
    (∃ r rest, World.queues (System.world s) (ClusterQueue cluster) = r :: rest ∧
               TicketRecord.ticket r = (d, b)) ∧
    ∀ x, x ∈ pixel_log cluster (World.trace (System.world s)) → ticket_lt x (d, b);
  inv_logged_queued : ∀ cluster r,
    TicketRecord.ticket r ∈ pixel_log cluster (World.trace (System.world s)) →
    r ∈ World.queues (System.world s) (ClusterQueue cluster) →
    TicketDone (ClusterQueue cluster) (TicketRecord.ticket r)
      ∈ concat (World.pool (System.world s));
  inv_fresh_takes : ∀ q t,
    t ∈ takes q (World.trace (System.world s)) ++ takes q (System.main s) →
    (t.1 < Renderer.nextDrawID (System.renderer s))%Z;
  inv_fresh_pending : ∀ q t,
    0 < pending q t s → (t.1 < Renderer.nextDrawID (System.renderer s))%Z
}.

(** *** Replaying one interleaving *)

(** A move of the scheduler: the submitting thread makes its next call, or
    the closure at position [thread] of the pool makes its next call. *)
Inductive Move : Set :=
  | MainCall
  | WorkerCall (thread : nat).

(** The state after a move; a move that is not possible leaves the state as
    it is. *)
Definition apply_move (m : Move) (s : System.t) : System.t :=
  match m with
  | MainCall =>
      match System.main s with
      | call :: rest =>
          {| System.renderer := System.renderer s;
             System.main := rest;
             System.world := perform call (System.world s) |}
      | [] => s
      end
  | WorkerCall thread =>
      let pool := World.pool (System.world s) in
      match pool !! thread with
      | Some (call :: rest) =>
          {| System.renderer := System.renderer s;
             System.main := System.main s;
             System.world :=
               perform call
                 {| World.queues := World.queues (System.world s);
                    World.pool := take thread pool ++ rest :: drop (S thread) pool;
                    World.trace := World.trace (System.world s) |} |}
      | _ => s
      end
  end.

Definition replay (moves : list Move) (s : System.t) : System.t :=
  foldl (λ s m, apply_move m s) s moves.

(** One draw of 200 triangles (two batches of at most 128), every batch with
    something visible after setup, submitted to a fresh renderer. *)
Definition example_start : System.t :=
  let r := example_draw
             (example_pipeline false VK_POLYGON_MODE_FILL false false 1%Z 1%Z)
             200 (λ _, 1%Z) in
  {| System.renderer := DrawResult.renderer r;
     System.main := DrawResult.calls r;
     System.world := System.world (initial example_renderer) |}.

(** An interleaving in which the task of batch 1 runs to its end before the
    task of batch 0 starts: the submitting thread makes all its calls; the
    closure of batch 1 (position 1) makes its 18 calls; then the closure of
    batch 0; then the 16 continuations of batch 0 (positions 2 to 17), last
    cluster first, and those of batch 1, which they release (positions 18
    to 33). *)
Definition example_schedule : list Move :=
  repeat MainCall 40 ++
  repeat (WorkerCall 1) 18 ++
  repeat (WorkerCall 0) 18 ++
  flat_map (λ i, [WorkerCall i; WorkerCall i]) (rev (seq 2 16)) ++
  flat_map (λ i, [WorkerCall i; WorkerCall i]) (seq 18 16).

Definition example_final : System.t := replay example_schedule example_start.

(** Position of the first occurrence of a call satisfying [f]. *)
Fixpoint position (f : Call → bool) (calls : list Call) : option nat :=
  match calls with
  | [] => None
  | call :: rest => if f call then Some 0 else S <$> position f rest
  end.

(** *** What a run owes its tickets *)

(** The batches for which pixel work was attached to a ticket of [cluster]
    ([onCall()] in [processPixels]), in the order of the calls. *)
Definition attached_log (cluster : nat) (calls : list Call) : list Ticket :=
  flat_map
    (λ call, match call with
             | TicketOnCall (ClusterQueue c) t _ => if decide (c = cluster) then [t] else []
             | _ => []
             end)
    calls.

(** Nothing is left to run: the submitting thread has made all the calls of
    its draws, and every closure of the pool has run to its end. *)
Definition quiescent (s : System.t) : Prop :=
  System.main s = [] ∧ Forall (λ thread, thread = []) (World.pool (System.world s)).

(** Every cluster ticket the submitting thread has still to take is touched
    (released, or given a continuation) by exactly one call of the closures
    it schedules after the take. *)
Fixpoint main_owed (main : list Call) : Prop :=
  match main with
  | [] => True
  | call :: rest =>
      match call with
      | TicketTake (ClusterQueue cluster) t =>
          length (List.filter (touches (ClusterQueue cluster) t) (scheduled rest)) = 1
      | _ => True
      end ∧ main_owed rest
  end.

(** Every closure the submitting thread has still to schedule touches only
    cluster tickets taken by then ([before]: the calls made so far). *)
Fixpoint scheduled_after_takes (before main : list Call) : Prop :=
  match main with
  | [] => True
  | call :: rest =>
      match call with
      | Schedule task =>
          ∀ cluster t c, c ∈ task → touches (ClusterQueue cluster) t c = true →
                         t ∈ takes (ClusterQueue cluster) before
      | _ => True
      end ∧ scheduled_after_takes (before ++ [call]) rest
  end.

(** The accounting of cluster tickets and pixel work, on top of [invariant]. *)
Record progress (s : System.t) : Prop := {
  pr_head : ∀ cluster h rest,
    World.queues (System.world s) (ClusterQueue cluster) = h :: rest →
    TicketRecord.onCall h = None;
  pr_queued_owed : ∀ cluster r,
    r ∈ World.queues (System.world s) (ClusterQueue cluster) →
    0 < pending (ClusterQueue cluster) (TicketRecord.ticket r) s;
  pr_owed_queued : ∀ cluster t,
    t ∈ takes (ClusterQueue cluster) (World.trace (System.world s)) →
    0 < pending (ClusterQueue cluster) t s →
    t ∈ map TicketRecord.ticket (World.queues (System.world s) (ClusterQueue cluster));
  pr_pool_taken : ∀ cluster t c,
    c ∈ concat (World.pool (System.world s)) →
    touches (ClusterQueue cluster) t c = true →
    t ∈ takes (ClusterQueue cluster) (World.trace (System.world s));
  pr_scheduled : scheduled_after_takes (World.trace (System.world s)) (System.main s);
  pr_main_owed : main_owed (System.main s);
  pr_attached : ∀ cluster t,
    t ∈ attached_log cluster (World.trace (System.world s)) →
    (∃ r c, r ∈ World.queues (System.world s) (ClusterQueue cluster) ∧
            TicketRecord.ticket r = t ∧ TicketRecord.onCall r = Some c) ∨
    PixelRoutine t.1 t.2 cluster ∈ concat (World.pool (System.world s)) ∨
    t ∈ pixel_log cluster (World.trace (System.world s));
  pr_logged : ∀ cluster t,
    t ∈ pixel_log cluster (World.trace (System.world s)) →
    t ∈ attached_log cluster (World.trace (System.world s));
  pr_pixel : ∀ d b cluster,
    PixelRoutine d b cluster ∈ concat (World.pool (System.world s)) →
    (d, b) ∈ attached_log cluster (World.trace (System.world s));
  pr_stored : ∀ cluster r c,
    r ∈ World.queues (System.world s) (ClusterQueue cluster) →
    TicketRecord.onCall r = Some c →
    TicketRecord.ticket r ∈ attached_log cluster (World.trace (System.world s))
}.

(** *** What is left to run *)

(** The calls a call of a closure stands for: itself and, for [onCall()],
    the calls of the continuation it hands over. *)
Definition call_work (call : Call) : nat :=
  match call with
  | TicketOnCall _ _ continuation => S (length continuation)
  | _ => 1
  end.

(** The same for a call of the submitting thread: [marl::schedule] stands
    for itself and the calls of the closure. *)
Definition main_work (call : Call) : nat :=
  match call with
  | Schedule task => S (list_sum (map call_work task))
  | _ => 1
  end.

(** The calls of the continuations kept in a queue. *)
Definition stored_work (queue : list TicketRecord.t) : nat :=
  list_sum (map (λ r, length (default [] (TicketRecord.onCall r))) queue).

(** The same for the queues of several clusters. *)
Definition stored_total (queues : QueueId → list TicketRecord.t) (clusters : list nat) : nat :=
  list_sum (map (λ cluster, stored_work (queues (ClusterQueue cluster))) clusters).

Section Work.
Context `{Constants}.

  (** The number of calls still to be made if no further draw is issued. *)
Definition work (s : System.t) : nat :=
    list_sum (map main_work (System.main s)) +
    list_sum (map call_work (concat (World.pool (System.world s)))) +
    stored_total (World.queues (System.world s)) (seq 0 MaxClusterCount).

  (** Only the queues of the clusters that exist are used. *)
Record bounded (s : System.t) : Prop := {
    bd_queues : ∀ cluster, MaxClusterCount ≤ cluster →
      World.queues (System.world s) (ClusterQueue cluster) = [];
    bd_main : ∀ cluster t,
      TicketTake (ClusterQueue cluster) t ∈ System.main s → cluster < MaxClusterCount
  }.
End Work.

(** ** Occlusion queries ([Renderer::addQuery], [Renderer::removeQuery],
       lines 1210-1224) *)

Definition set_occlusionQuery (this : Renderer.t) (query : option Handle)
    : Renderer.t :=
  {| Renderer.nextDrawID := Renderer.nextDrawID this;
     Renderer.vertexState := Renderer.vertexState this;
     Renderer.vertexRoutine := Renderer.vertexRoutine this;
     Renderer.setupState := Renderer.setupState this;
     Renderer.setupRoutine := Renderer.setupRoutine this;
     Renderer.pixelState := Renderer.pixelState this;
     Renderer.pixelRoutine := Renderer.pixelRoutine this;
     Renderer.pixelProcessor_factor := Renderer.pixelProcessor_factor this;
     Renderer.occlusionQuery := query |}.

(** [ASSERT(!occlusionQuery); occlusionQuery = query;] *)
Definition addQuery (this : Renderer.t) (query : Handle) : Renderer.t :=
  set_occlusionQuery this (Some query).

(** [ASSERT(occlusionQuery == query); occlusionQuery = nullptr;] *)
Definition removeQuery (this : Renderer.t) (query : Handle) : Renderer.t :=
  set_occlusionQuery this None.

Definition is_QueryStart (call : Call) : bool :=
  match call with QueryStart _ => true | _ => false end.

Definition is_query_call (call : Call) : bool :=
  match call with QueryStart _ | QueryAdd _ _ | QueryFinish _ => true | _ => false end.

Definition is_EventsDone (call : Call) : bool :=
  match call with EventsDone _ => true | _ => false end.

Definition is_TicketTake (call : Call) : bool :=
  match call with TicketTake _ _ => true | _ => false end.

Definition is_Schedule (call : Call) : bool :=
  match call with Schedule _ => true | _ => false end.

(** ** The other setup strategies ([setupSolidTriangles], lines 731-774;
       [setupPointTriangles], lines 831-874; [setupPoints], lines 897-916;
       [setupPoint], lines 1164-1208) *)

Section SetupStrategies.
Context `{Constants}.
Variable PrimMem : Type.
Variable Clip : Polygon → Z → DrawCall.t → bool * Polygon.
Variable setupRoutineCall :
    option Handle → PrimMem → Z → Triangle.t → Polygon → DrawData.t → bool * PrimMem.
Variable indeterminate : Vertex.t.

  (** [Clipper::CLIP_FINITE] and [vk::MAX_POINT_SIZE] (as a [float]), of
      headers outside this unit. *)
Variable CLIP_FINITE : Z.
Variable MAX_POINT_SIZE : float.

  (** [sw::clamp] on [float]. *)
Variable clampf : float → float → float → float.

  (** [primitive.pointSizeInv = value] for the primitive at a position of
      the primitive memory. *)
Variable set_pointSizeInv : PrimMem → Z → float → PrimMem.

Definition sub_x (p : float4.t) (d : float) : float4.t :=
    {| float4.x := fsub (float4.x p) d; float4.y := float4.y p;
       float4.z := float4.z p; float4.w := float4.w p |}.

Definition sub_y (p : float4.t) (d : float) : float4.t :=
    {| float4.x := float4.x p; float4.y := fsub (float4.y p) d;
       float4.z := float4.z p; float4.w := float4.w p |}.

  (** [DrawCall::setupPoint]. *)
Definition setupPoint (mem : PrimMem) (primitive : Z) (triangle : Triangle.t)
      (draw : DrawCall.t) : bool * PrimMem :=
    let v := Triangle.v0 triangle in
    if (Vertex.cullMask v =? 0)%Z then (false, mem)
    else
    let data := DrawCall.data draw in
    let clipFlags := if DrawCall.depthClipEnable draw then CLIP_FRUSTUM else CLIP_SIDES in
    let pSize := clampf (Vertex.pointSize v) (lit 1) MAX_POINT_SIZE in
    let X := fmul (fmul pSize (float4.w (Vertex.position v))) (DrawData.halfPixelX data) in
    let Y := fmul (fmul pSize (float4.w (Vertex.position v))) (DrawData.halfPixelY data) in
    let P : Polygon :=
      [ add_y (sub_x (Vertex.position v) X) Y;
        add_y (add_x (Vertex.position v) X) Y;
        sub_y (add_x (Vertex.position v) X) Y;
        sub_y (sub_x (Vertex.position v) X) Y ] in
    let '(ok, polygon) := Clip P clipFlags draw in
    if negb ok then (false, mem)
    else
    let mem := set_pointSizeInv mem primitive (fdiv (lit 1) pSize) in
    setupRoutineCall (DrawCall.setupRoutine draw) mem primitive triangle polygon data.

  (** What [setupPoint] asks of the clipper: the clip flags of line 1174 and
      the quad of lines 1176-1198, the square of side [pSize] (in pixels)
      around the vertex. *)
Definition setupPoint_clipFlags (draw : DrawCall.t) : Z :=
    if DrawCall.depthClipEnable draw then CLIP_FRUSTUM else CLIP_SIDES.

Definition setupPoint_quad (triangle : Triangle.t) (draw : DrawCall.t) : Polygon :=
    let v := Triangle.v0 triangle in
    let data := DrawCall.data draw in
    let pSize := clampf (Vertex.pointSize v) (lit 1) MAX_POINT_SIZE in
    let X := fmul (fmul pSize (float4.w (Vertex.position v))) (DrawData.halfPixelX data) in
    let Y := fmul (fmul pSize (float4.w (Vertex.position v))) (DrawData.halfPixelY data) in
    [ add_y (sub_x (Vertex.position v) X) Y;
      add_y (add_x (Vertex.position v) X) Y;
      sub_y (add_x (Vertex.position v) X) Y;
      sub_y (sub_x (Vertex.position v) X) Y ].

  (** [DrawCall::setupPoints]. *)
Definition setupPoints (mem : PrimMem) (triangles : nat → Triangle.t)
      (primitives : Z) (drawCall : DrawCall.t) (count : nat) : Z * Z * PrimMem :=
    let ms := SetupState.multiSampleCount (DrawCall.setupState drawCall) in
    for_upto count
      (λ i '((visible, primitives, mem) : Z * Z * PrimMem),
         let '(ok, mem) := setupPoint mem primitives (triangles i) drawCall in
         if ok then ((visible + 1)%Z, (primitives + ms)%Z, mem)
         else (visible, primitives, mem))
      (0%Z, primitives, mem).

  (** [DrawCall::setupSolidTriangles]. *)
Definition setupSolidTriangles (mem : PrimMem) (triangles : nat → Triangle.t)
      (primitives : Z) (drawCall : DrawCall.t) (count : nat) : Z * Z * PrimMem :=
    let ms := SetupState.multiSampleCount (DrawCall.setupState drawCall) in
    let data := DrawCall.data drawCall in
    for_upto count
      (λ i '((visible, primitives, mem) : Z * Z * PrimMem),
         let v0 := Triangle.v0 (triangles i) in
         let v1 := Triangle.v1 (triangles i) in
         let v2 := Triangle.v2 (triangles i) in
         let polygon : Polygon :=
           [Vertex.position v0; Vertex.position v1; Vertex.position v2] in
         if (Z.lor (Z.lor (Vertex.cullMask v0) (Vertex.cullMask v1)) (Vertex.cullMask v2) =? 0)%Z
         then (visible, primitives, mem)                             (* continue *)
         else if negb (Z.land (Z.land (Vertex.clipFlags v0) (Vertex.clipFlags v1))
                              (Vertex.clipFlags v2) =? CLIP_FINITE)%Z
         then (visible, primitives, mem)                             (* continue *)
         else
           let clipFlagsOr :=
             Z.lor (Z.lor (Vertex.clipFlags v0) (Vertex.clipFlags v1)) (Vertex.clipFlags v2) in
           let '(ok, polygon) :=
             if negb (clipFlagsOr =? CLIP_FINITE)%Z then Clip polygon clipFlagsOr drawCall
             else (true, polygon) in
           if negb ok then (visible, primitives, mem)                (* continue *)
           else
             let '(ok, mem) :=
               setupRoutineCall (DrawCall.setupRoutine drawCall) mem primitives
                 (triangles i) polygon data in
             if ok then ((visible + 1)%Z, (primitives + ms)%Z, mem)
             else (visible, primitives, mem))
      (0%Z, primitives, mem).

  (** [v.x], [v.y] are [v.position.x], [v.position.y] (shared storage, as
      for [Vertex.w]). *)
Definition Vertex_x (v : Vertex.t) : float := float4.x (Vertex.position v).
Definition Vertex_y (v : Vertex.t) : float := float4.y (Vertex.position v).

  (** [DrawCall::setupPointTriangles].  [d < 0] is the comparison [0 > d]. *)
Definition setupPointTriangles (mem : PrimMem) (triangles : nat → Triangle.t)
      (primitives : Z) (drawCall : DrawCall.t) (count : nat) : Z * Z * PrimMem :=
    let state := DrawCall.setupState drawCall in
    let ms := SetupState.multiSampleCount state in
    for_upto count
      (λ i '((visible, primitives, mem) : Z * Z * PrimMem),
         let v0 := Triangle.v0 (triangles i) in
         let v1 := Triangle.v1 (triangles i) in
         let v2 := Triangle.v2 (triangles i) in
         let d :=
           fadd (fadd (fmul (fsub (fmul (Vertex_y v0) (Vertex_x v1))
                                  (fmul (Vertex_x v0) (Vertex_y v1))) (Vertex.w v2))
                      (fmul (fsub (fmul (Vertex_x v0) (Vertex_y v2))
                                  (fmul (Vertex_y v0) (Vertex_x v2))) (Vertex.w v1)))
                (fmul (fsub (fmul (Vertex_x v2) (Vertex_y v1))
                            (fmul (Vertex_x v1) (Vertex_y v2))) (Vertex.w v0)) in
         let frontFacing :=
           if bool_decide (SetupState.frontFace state = VK_FRONT_FACE_COUNTER_CLOCKWISE)
           then fgt d (of_int 0) else fgt (of_int 0) d in
         if negb (Z.land (SetupState.cullMode state) VK_CULL_MODE_FRONT_BIT =? 0)%Z
            && frontFacing then (visible, primitives, mem)          (* continue *)
         else if negb (Z.land (SetupState.cullMode state) VK_CULL_MODE_BACK_BIT =? 0)%Z
                 && negb frontFacing then (visible, primitives, mem) (* continue *)
         else
           let point := λ a, {| Triangle.v0 := a; Triangle.v1 := indeterminate;
                                Triangle.v2 := indeterminate |} in
           let points := λ k : nat,
             match k with
             | 0%nat => point v0
             | 1%nat => point v1
             | _ => point v2
             end in
           for_upto 3
             (λ k '((visible, primitives, mem) : Z * Z * PrimMem),
                let '(ok, mem) := setupPoint mem primitives (points k) drawCall in
                if ok then ((visible + 1)%Z, (primitives + ms)%Z, mem)
                else (visible, primitives, mem))
             (visible, primitives, mem))
      (0%Z, primitives, mem).
End SetupStrategies.

(** The draw object of a submitted wireframe draw whose setup state culls
    both faces (cull mode 3). *)
Definition example_cull_both_draw : @DrawCall.t binary32 :=
  DrawResult.draw
    (@draw binary32 header_constants
       {| Processors.vertexUpdate := λ _, 20%Z;
          Processors.vertexRoutine := λ _ _, 21%Z;
          Processors.setupUpdate := λ p,
            {| SetupState.multiSampleCount := Pipeline.getSampleCount p;
               SetupState.frontFace := VK_FRONT_FACE_COUNTER_CLOCKWISE;
               SetupState.cullMode := 3;
               SetupState.rest := 22%Z |};
          Processors.setupRoutine := λ _, 23%Z;
          Processors.pixelUpdate := λ _ occlusion,
            {| PixelState.stencilActive := false;
               PixelState.alphaToCoverage := false;
               PixelState.occlusionEnabled := occlusion;
               PixelState.rest := 24%Z |};
          Processors.pixelRoutine := λ _ _, 25%Z;
          Processors.setBlendConstant := λ blendConstants, blendConstants |}
       example_renderer stale_draw
       (example_pipeline false VK_POLYGON_MODE_LINE false false 1%Z 1%Z)
       5 0 None 0 0 None example_renderArea 0%Z true (λ _, 3%Z)).

(** A clamp on binary32 and a primitive memory (the list of positions
    written) on which setting [pointSizeInv] leaves no trace. *)
Definition example_clampf (x lo hi : spec_float) : spec_float :=
  if SFltb x lo then lo else if SFltb hi x then hi else x.

Definition example_set_pointSizeInv (mem : list Z) (primitive : Z) (value : spec_float)
    : list Z := mem.

(** A clipper that rejects the polygons lying wholly left of [x = 0] and
    keeps the others as they are; a primitive memory on which setting
    [pointSizeInv] leaves a mark; a vertex at clip-space [(x, y, 0, 1)] with
    cull mask 1 and the given clip flags. *)
Definition example_left_Clip : list (@float4.t binary32) → Z → @DrawCall.t binary32
    → bool * list (@float4.t binary32) :=
  λ polygon _ _,
    (negb (forallb (λ p, SFltb (@float4.x binary32 p) (@of_int binary32 0)) polygon),
     polygon).

Definition example_note_pointSizeInv (mem : list Z) (primitive : Z) (value : spec_float)
    : list Z := mem ++ [(-1 - primitive)%Z].

Definition example_flagged_vertex (x y : Z) (clipFlags : Z) : @Vertex.t binary32 := {|
  Vertex.position :=
    {| float4.x := @of_int binary32 x; float4.y := @of_int binary32 y;
       float4.z := @of_int binary32 0; float4.w := @of_int binary32 1 |};
  Vertex.pointSize := @of_int binary32 1;
  Vertex.clipFlags := clipFlags;
  Vertex.cullMask := 1;
  Vertex.projected := {| int4.x := 0; int4.y := 0; int4.z := 0; int4.w := 0 |}
|}.

Definition is_EventsAdd (call : Call) : bool :=
  match call with EventsAdd _ => true | _ => false end.

Definition is_ImageContentsChanged (call : Call) : bool :=
  match call with ImageContentsChanged _ => true | _ => false end.

(** The calls [Renderer::draw] makes itself, before [DrawCall::run]. *)
Definition prologue_call (call : Call) : Prop :=
  match call with
  | DrawCallPoolBorrow | PrepareForSampling _ _ | Unsupported => True
  | _ => False
  end.

(** ** [DrawCall::processVertices] (lines 598-626): the vertex task *)

(** Line 618: the number of entries of the index block the vertex routine is
    asked to process. *)
Definition vertexTask_vertexCount (topology : VkPrimitiveTopology) (numPrimitives : Z) : Z :=
  wrap32 (numPrimitives *
          (if bool_decide (topology = VK_PRIMITIVE_TOPOLOGY_POINT_LIST) then 1 else 3)).

(* ===================================================================== *)
(** * Part II. Properties                                                  *)
(* ===================================================================== *)

(** ** Loops and unsigned arithmetic *)

Lemma for_upto_S {S : Type} (n : nat) (body : nat → S → S) (s : S) :
  for_upto (Datatypes.S n) body s = body n (for_upto n body s).
Proof. unfold for_upto. rewrite seq_S, foldl_app. reflexivity. Qed.

Lemma for_upto_ind {S : Type} (P : nat → S → Prop) (n : nat)
    (body : nat → S → S) (s : S) :
  P 0%nat s →
  (∀ i acc, i < n → P i acc → P (Datatypes.S i) (body i acc)) →
  P n (for_upto n body s).
Proof.
  intros H0 Hstep. induction n as [|n IH]; [exact H0|].
  rewrite for_upto_S. apply Hstep; [lia|]. apply IH.
  intros i acc Hi. apply Hstep. lia.
Qed.

Lemma wrap32_range (z : Z) : (0 ≤ wrap32 z < 2 ^ 32)%Z.
Proof. unfold wrap32. apply Z.mod_pos_bound. lia. Qed.

Lemma wrap32_small (z : Z) : (0 ≤ z < 2 ^ 32)%Z → wrap32 z = z.
Proof. unfold wrap32. apply Z.mod_small. Qed.

Lemma wrap32_add_l (a b : Z) : wrap32 (wrap32 a + b) = wrap32 (a + b).
Proof. unfold wrap32. apply Zplus_mod_idemp_l. Qed.

Lemma wrap32_add_r (a b : Z) : wrap32 (a + wrap32 b) = wrap32 (a + b).
Proof. unfold wrap32. apply Zplus_mod_idemp_r. Qed.

Lemma wrap32_parity (z : Z) : (wrap32 z mod 2 = z mod 2)%Z.
Proof.
  unfold wrap32. apply Z.mod_mod_divide. exists (2 ^ 31)%Z. reflexivity.
Qed.

Lemma wrap_int32_range (z : Z) : (- 2 ^ 31 ≤ wrap_int32 z < 2 ^ 31)%Z.
Proof.
  unfold wrap_int32. pose proof (Z.mod_pos_bound (z + 2 ^ 31) (2 ^ 32) ltac:(lia)). lia.
Qed.

Lemma wrap_int32_small (z : Z) : (- 2 ^ 31 ≤ z < 2 ^ 31)%Z → wrap_int32 z = z.
Proof. intros Hz. unfold wrap_int32. rewrite Z.mod_small by lia. lia. Qed.

(** Incrementing an [int] never gives the same value back. *)
Lemma wrap_int32_succ_ne (z : Z) : wrap_int32 (z + 1) ≠ z.
Proof.
  unfold wrap_int32. intros Heq.
  pose proof (Z.div_mod (z + 1 + 2 ^ 31) (2 ^ 32) ltac:(lia)) as Hd.
  set (q := ((z + 1 + 2 ^ 31) / 2 ^ 32)%Z) in *.
  assert (Hq : (1 = 2 ^ 32 * q)%Z) by lia.
  change (2 ^ 32)%Z with 4294967296%Z in Hq. lia.
Qed.

(** [(x & 1)] on an [unsigned int] is the parity of [x]. *)
Lemma land_1_parity (z : Z) : Z.land (wrap32 z) 1 = (z mod 2)%Z.
Proof.
  change 1%Z with (Z.ones 1) at 1. rewrite Z.land_ones by lia.
  change (2 ^ 1)%Z with 2%Z. apply wrap32_parity.
Qed.

(** [(~x & 1)] on an [unsigned int] is the opposite parity. *)
Lemma lnot_land_1_parity (z : Z) :
  Z.land (wrap32 (Z.lnot (wrap32 z))) 1 = (1 - z mod 2)%Z.
Proof.
  rewrite land_1_parity. unfold Z.lnot.
  replace (Z.pred (- wrap32 z)) with (- wrap32 z - 1)%Z by lia.
  pose proof (wrap32_parity z) as Hp.
  pose proof (Z.mod_pos_bound z 2 ltac:(lia)) as Hz.
  pose proof (Z.mod_pos_bound (wrap32 z) 2 ltac:(lia)) as Hw.
  pose proof (Z.div_mod (wrap32 z) 2 ltac:(lia)) as Hd.
  rewrite <- Hp.
  symmetry. apply (Z.mod_unique_pos _ _ (- (wrap32 z `div` 2) - 1)%Z); lia.
Qed.

(** ** Index assembly *)

(** Reading a block after a write: the written position, or any other. *)
Ltac read_block :=
  repeat first
    [ rewrite list_lookup_insert_ne by (unfold slot; lia)
    | rewrite list_lookup_insert_eq by (rewrite ?length_insert; unfold slot; lia) ].

(** The common shape of the five row-per-primitive loops: iteration [i]
    writes the three entries of row [i], in some order, from the running
    position [index], and advances [index] by [step]. *)
Lemma rows_loop (body : nat → Z * list Z → Z * list Z)
    (step : Z) (a b c : nat → Z → Z) (j0 j1 j2 : nat)
    (n : nat) (index0 : Z) (batch0 : list Z) :
  (∀ i index batch, body i (index, batch) =
     (wrap32 (index + step),
      <[slot i j2 := c i index]>
        (<[slot i j1 := b i index]> (<[slot i j0 := a i index]> batch)))) →
  j0 < 3 → j1 < 3 → j2 < 3 → j0 ≠ j1 → j0 ≠ j2 → j1 ≠ j2 →
  wrap32 index0 = index0 →
  3 * n ≤ length batch0 →
  let r := for_upto n body (index0, batch0) in
  r.1 = wrap32 (index0 + step * Z.of_nat n) ∧
  length r.2 = length batch0 ∧
  (∀ i, i < n →
     let index := wrap32 (index0 + step * Z.of_nat i) in
     r.2 !! slot i j0 = Some (a i index) ∧
     r.2 !! slot i j1 = Some (b i index) ∧
     r.2 !! slot i j2 = Some (c i index)) ∧
  (∀ k, 3 * n ≤ k → r.2 !! k = batch0 !! k).
Proof.
  intros Hbody Hj0 Hj1 Hj2 H01 H02 H12 Hidx Hlen r.
  enough (Hinv : ∀ m, m ≤ n →
    let r := for_upto m body (index0, batch0) in
    r.1 = wrap32 (index0 + step * Z.of_nat m) ∧
    length r.2 = length batch0 ∧
    (∀ i, i < m →
       let index := wrap32 (index0 + step * Z.of_nat i) in
       r.2 !! slot i j0 = Some (a i index) ∧
       r.2 !! slot i j1 = Some (b i index) ∧
       r.2 !! slot i j2 = Some (c i index)) ∧
    (∀ k, 3 * m ≤ k → r.2 !! k = batch0 !! k)) by (apply Hinv; lia).
  induction m as [|m IH]; intros Hm.
  - cbn. rewrite Z.mul_0_r, Z.add_0_r, Hidx. repeat split; auto; intros; lia.
  - rewrite for_upto_S. destruct IH as (Hi & Hl & Hrows & Hrest); [lia|].
    destruct (for_upto m body (index0, batch0)) as [index batch] eqn:Hr.
    rewrite Hbody. cbn [fst snd] in Hi, Hl, Hrows, Hrest |- *. subst index.
    split; [|split; [|split]].
    + rewrite wrap32_add_l. f_equal. lia.
    + rewrite !length_insert. exact Hl.
    + intros i Hlt. destruct (decide (i = m)) as [->|Hne].
      * read_block. auto.
      * destruct (Hrows i ltac:(lia)) as (? & ? & ?). read_block. auto.
    + intros k Hk. read_block. apply Hrest. lia.
Qed.

(** The point loop: entry [i] of the packed block is the index of point
    [start + i], and the three entries after the last point repeat it. *)
Lemma points_loop (indices : IndexSource) (start : Z) (n : nat)
    (batch0 : list Z) :
  wrap32 start = start →
  let r := for_upto n
    (λ _ '((index, pointBatch, batch) : Z * nat * BatchIndices),
       (wrap32 (index + 1), S pointBatch, <[pointBatch := indices index]> batch))
    (start, 0%nat, batch0) in
  n ≤ length batch0 →
  r.1.1 = wrap32 (start + Z.of_nat n) ∧ r.1.2 = n ∧
  length r.2 = length batch0 ∧
  (∀ i, i < n → r.2 !! i = Some (indices (wrap32 (start + Z.of_nat i)))).
Proof.
  intros Hs r Hlen. subst r.
  induction n as [|n IH].
  - cbn. rewrite Z.add_0_r, Hs. repeat split; auto; intros; lia.
  - rewrite for_upto_S. destruct IH as (Hi & Hp & Hl & Hrows); [lia|].
    destruct (for_upto n _ _) as [[index p] batch].
    cbn [fst snd] in Hi, Hp, Hl, Hrows |- *. subst index p.
    split; [|split; [|split]].
    + rewrite wrap32_add_l. f_equal. lia.
    + reflexivity.
    + rewrite length_insert. exact Hl.
    + intros i Hlt. destruct (decide (i = n)) as [->|Hne].
      * read_block. reflexivity.
      * read_block. apply Hrows. lia.
Qed.

(** Bringing an [unsigned int] position into the reference's form. *)
Ltac position_eq :=
  try reflexivity;
  match goal with |- ?f _ = ?f _ => apply (f_equal f) end;
  rewrite ?lnot_land_1_parity, ?land_1_parity;
  repeat first [ rewrite wrap32_add_l | rewrite wrap32_add_r
               | rewrite <- Z.add_assoc ];
  apply (f_equal wrap32); lia.

Ltac row_case step a b c j0 j1 j2 Hs Hlen :=
  match goal with
  | |- context [for_upto ?n ?body (?index0, ?batch0)] =>
      let Hrows := fresh "Hrows" in
      let Hl := fresh "Hl" in
      destruct (rows_loop body step a b c j0 j1 j2 n index0 batch0)
        as (_ & Hl & Hrows & _);
      [ intros; reflexivity | lia | lia | lia | lia | lia | lia
      | first [ apply wrap32_small, wrap32_range | exact Hs ]
      | lia
      | destruct (for_upto n body (index0, batch0)) as [? ?];
        cbn [fst snd] in Hl, Hrows |- *;
        split; [reflexivity|]; split; [exact Hl|];
        let i := fresh "i" in
        let Hi := fresh "Hi" in
        intros i Hi;
        destruct (Hrows _ Hi) as (H0 & H1 & H2);
        unfold batch_row; cbn [slot] in H0, H1, H2 |- *;
        rewrite ?H0, ?H1, ?H2; cbn;
        unfold reference_row; cbv zeta;
        apply (f_equal Some); apply (f_equal2 pair); [apply (f_equal2 pair)|];
        position_eq ]
  end.

(** The five row-per-primitive topologies: the block keeps its size and row
    [i] is the reference row of primitive [i]. *)
Lemma setBatchIndices_rows (capacity : nat) (batch : list Z)
    (topology : VkPrimitiveTopology) (mode : VkProvokingVertexModeEXT)
    (I : IndexSource) (start : Z) (n : nat) :
  (0 ≤ start < 2 ^ 32)%Z →
  n ≤ capacity →
  length batch = 3 * (capacity + 1) →
  row_topology topology = true →
  let r := setBatchIndices batch topology mode I start n in
  r.1 = true ∧ length r.2 = length batch ∧
  ∀ i, i < n → batch_row r.2 i = Some (reference_row topology mode I start i).
Proof.
  intros Hstart Hn Hlen Htop r. subst r.
  assert (Hs : wrap32 start = start) by (apply wrap32_small; exact Hstart).
  destruct topology; try discriminate Htop; unfold setBatchIndices.
  - destruct mode; cbn [provokeFirstOf bool_decide decide_rel].
    + row_case 2%Z (λ (_ : nat) index, I (wrap32 (index + 0))) (λ (_ : nat) index, I (wrap32 (index + 1))) (λ (_ : nat) index, I (wrap32 (index + 1))) 0%nat 1%nat 2%nat Hs Hlen.
    + row_case 2%Z (λ (_ : nat) index, I (wrap32 (index + 1))) (λ (_ : nat) index, I (wrap32 (index + 0))) (λ (_ : nat) index, I (wrap32 (index + 1))) 0%nat 1%nat 2%nat Hs Hlen.
  - destruct mode; cbn [provokeFirstOf bool_decide decide_rel].
    + row_case 1%Z (λ (_ : nat) index, I (wrap32 (index + 0))) (λ (_ : nat) index, I (wrap32 (index + 1))) (λ (_ : nat) index, I (wrap32 (index + 1))) 0%nat 1%nat 2%nat Hs Hlen.
    + row_case 1%Z (λ (_ : nat) index, I (wrap32 (index + 1))) (λ (_ : nat) index, I (wrap32 (index + 0))) (λ (_ : nat) index, I (wrap32 (index + 1))) 0%nat 1%nat 2%nat Hs Hlen.
  - destruct mode; cbn [provokeFirstOf bool_decide decide_rel].
    + row_case 3%Z (λ (_ : nat) index, I (wrap32 (index + 0))) (λ (_ : nat) index, I (wrap32 (index + 1))) (λ (_ : nat) index, I (wrap32 (index + 2))) 0%nat 1%nat 2%nat Hs Hlen.
    + row_case 3%Z (λ (_ : nat) index, I (wrap32 (index + 2))) (λ (_ : nat) index, I (wrap32 (index + 0))) (λ (_ : nat) index, I (wrap32 (index + 1))) 0%nat 1%nat 2%nat Hs Hlen.
  - destruct mode; cbn [provokeFirstOf bool_decide decide_rel].
    + row_case 1%Z
        (λ (_ : nat) index, I (wrap32 (index + 0)))
        (λ (i : nat) index, I (wrap32 (wrap32 (index + Z.land (wrap32 (start + Z.of_nat i)) 1) + 1)))
        (λ (i : nat) index, I (wrap32 (wrap32 (index + Z.land (wrap32 (Z.lnot (wrap32 (start + Z.of_nat i)))) 1) + 1)))
        0%nat 1%nat 2%nat Hs Hlen.
    + row_case 1%Z
        (λ (_ : nat) index, I (wrap32 (index + 2)))
        (λ (i : nat) index, I (wrap32 (wrap32 (index + Z.land (wrap32 (start + Z.of_nat i)) 1) + 0)))
        (λ (i : nat) index, I (wrap32 (wrap32 (index + Z.land (wrap32 (Z.lnot (wrap32 (start + Z.of_nat i)))) 1) + 0)))
        0%nat 1%nat 2%nat Hs Hlen.
  - destruct mode; cbn [provokeFirstOf bool_decide decide_rel].
    + row_case 1%Z (λ (_ : nat) index, I (wrap32 (index + 0))) (λ (_ : nat) index, I (wrap32 (index + 1))) (λ (_ : nat) (_ : Z), I 0%Z) 0%nat 1%nat 2%nat Hs Hlen.
    + row_case 1%Z (λ (_ : nat) index, I (wrap32 (index + 0))) (λ (_ : nat) index, I (wrap32 (index + 1))) (λ (_ : nat) (_ : Z), I 0%Z) 2%nat 0%nat 1%nat Hs Hlen.
Qed.

(** The point topology: entry [i] is the index of point [start + i], and the
    three entries after the [n]-th point repeat the position the loop read
    last. *)
Lemma setBatchIndices_points (batch : list Z) (mode : VkProvokingVertexModeEXT)
    (I : IndexSource) (start : Z) (n : nat) :
  (0 ≤ start < 2 ^ 32)%Z →
  n + 3 ≤ length batch →
  let r := setBatchIndices batch VK_PRIMITIVE_TOPOLOGY_POINT_LIST mode I start n in
  r.1 = true ∧ length r.2 = length batch ∧
  (∀ i, i < n → r.2 !! i = Some (I (wrap32 (start + Z.of_nat i)))) ∧
  (∀ j, j < 3 → r.2 !! (n + j)%nat = Some (I (wrap32 (start + Z.of_nat n - 1)))).
Proof.
  intros Hstart Hlen r. subst r.
  assert (Hs : wrap32 start = start) by (apply wrap32_small; exact Hstart).
  unfold setBatchIndices.
  destruct (points_loop I start n batch Hs) as (Hidx & Hp & Hl & Hrows); [lia|].
  destruct (for_upto n _ _) as [[index p] batch1].
  cbn [fst snd] in Hidx, Hp, Hl, Hrows. subst index p.
  cbn. rewrite !length_insert.
  replace (wrap32 (wrap32 (start + Z.of_nat n) - 1))
    with (wrap32 (start + Z.of_nat n - 1))
    by (symmetry; apply (wrap32_add_l (start + Z.of_nat n) (-1))).
  split; [reflexivity|]. split; [exact Hl|]. split.
  - intros i Hi. read_block. apply Hrows, Hi.
  - intros j Hj.
    destruct j as [|[|[|j]]]; [| | |lia].
    + rewrite Nat.add_0_r. read_block. reflexivity.
    + replace (n + 1)%nat with (S n) by lia. read_block. reflexivity.
    + replace (n + 2)%nat with (S (S n)) by lia. read_block. reflexivity.
Qed.

(** C3.  For a batch of [n] primitives that fits the block ([n] at most the
    block's capacity, the block holding one overrun row more) and every
    start offset, primitive [i < n] gets exactly the reference indices of
    its topology: the row [reference_row] for the line and triangle
    topologies (raw positions [3(s+i)], [3(s+i)+1], [3(s+i)+2] for triangle
    lists; [s+i], [s+i+1+p], [s+i+2-p] with [p = (s+i) mod 2] for strips;
    [s+i+1], [s+i+2] and index 0 for fans; [2(s+i)], [2(s+i)+1] for line
    lists; [s+i], [s+i+1] for line strips; the provoking vertex in slot 0),
    and the packed entry [I[s+i]] for point lists.  A topology outside the
    six makes the function return [false] and leave the block alone. *)
Theorem setBatchIndices_reference (capacity : nat) (batch : list Z)
    (topology : VkPrimitiveTopology) (mode : VkProvokingVertexModeEXT)
    (I : IndexSource) (start : Z) (n i : nat) :
  (0 ≤ start < 2 ^ 32)%Z →
  n ≤ capacity →
  length batch = 3 * (capacity + 1) →
  i < n →
  let r := setBatchIndices batch topology mode I start n in
  match topology with
  | VK_PRIMITIVE_TOPOLOGY_UNHANDLED => r = (false, batch)
  | VK_PRIMITIVE_TOPOLOGY_POINT_LIST =>
      r.1 = true ∧ r.2 !! i = Some (I (wrap32 (start + Z.of_nat i)))
  | _ =>
      r.1 = true ∧ batch_row r.2 i = Some (reference_row topology mode I start i)
  end.
Proof.
  intros Hstart Hn Hlen Hi r.
  destruct topology eqn:Htop; [| | | | | |reflexivity].
  1: { destruct (setBatchIndices_points batch mode I start n Hstart) as (H1 & _ & H2 & _);
       [lia|]. split; [exact H1|]. apply H2, Hi. }
  all: destruct (setBatchIndices_rows capacity batch topology mode I start n
                   Hstart Hn Hlen) as (H1 & _ & H2);
       [subst topology; reflexivity|];
       subst topology; split; [exact H1|apply H2, Hi].
Qed.

(** Under the last-vertex convention the triangle rows are the first-vertex
    rows turned cyclically, so the winding is the same; slot 0 holds the
    primitive's last vertex ([3k+2] for lists, [k+2] for strips and fans). *)
Lemma reference_row_last_is_rotation (topology : VkPrimitiveTopology)
    (I : IndexSource) (s : Z) (i : nat) :
  topology = VK_PRIMITIVE_TOPOLOGY_TRIANGLE_LIST ∨
  topology = VK_PRIMITIVE_TOPOLOGY_TRIANGLE_STRIP ∨
  topology = VK_PRIMITIVE_TOPOLOGY_TRIANGLE_FAN →
  let '(a, b, c) := reference_row topology VK_PROVOKING_VERTEX_MODE_FIRST_VERTEX_EXT I s i in
  let last := reference_row topology VK_PROVOKING_VERTEX_MODE_LAST_VERTEX_EXT I s i in
  last = (c, a, b) ∨ last = (b, c, a).
Proof.
  intros [-> | [-> | ->]]; unfold reference_row; cbv zeta.
  - left. reflexivity.
  - pose proof (Z.mod_pos_bound (s + Z.of_nat i) 2 ltac:(lia)) as Hp.
    destruct (decide ((s + Z.of_nat i) mod 2 = 0)%Z) as [H0 | H0].
    + left. rewrite H0.
      apply (f_equal2 pair); [apply (f_equal2 pair)|];
        apply (f_equal I); apply (f_equal wrap32); lia.
    + right. replace ((s + Z.of_nat i) mod 2)%Z with 1%Z by lia.
      apply (f_equal2 pair); [apply (f_equal2 pair)|];
        apply (f_equal I); apply (f_equal wrap32); lia.
  - right. reflexivity.
Qed.

Lemma processPrimitiveVertices_unfold (out : list Z)
    (primitiveIndices : option IndexBuffer) (indexType : VkIndexType)
    (I : IndexSource) (start : Z) (n : nat) (topology : VkPrimitiveTopology)
    (mode : VkProvokingVertexModeEXT) :
  index_source_of primitiveIndices indexType = Some I →
  processPrimitiveVertices out primitiveIndices indexType start n topology mode =
  match setBatchIndices out topology mode I start n with
  | (false, out) => out
  | (true, out) =>
      if bool_decide (topology ≠ VK_PRIMITIVE_TOPOLOGY_POINT_LIST) then
        let last := Z.to_nat (wrap32 (Z.of_nat n - 1)) in
        <[slot n 2 := batch_at (<[slot n 1 := batch_at (<[slot n 0 := batch_at out (slot last 2)]> out) (slot last 2)]>
                                  (<[slot n 0 := batch_at out (slot last 2)]> out)) (slot last 2)]>
          (<[slot n 1 := batch_at (<[slot n 0 := batch_at out (slot last 2)]> out) (slot last 2)]>
             (<[slot n 0 := batch_at out (slot last 2)]> out))
      else out
  end.
Proof.
  intros HI. unfold processPrimitiveVertices.
  destruct primitiveIndices as [buffer|]; [destruct indexType|];
    cbn in HI; try discriminate HI; injection HI as <-; reflexivity.
Qed.

(** C4.  After [processPrimitiveVertices] on a batch of [n >= 1] primitives
    that fits the block, the overrun entries repeat the last real index:
    for the line and triangle topologies all three entries of row [n] equal
    entry 2 of row [n - 1], the last primitive's last assembled index; for
    the point topology the three packed entries after the [n]-th point equal
    the last point's index.  The block's earlier contents play no part. *)
Theorem overrun_slots_repeat_last (capacity : nat) (out : list Z)
    (primitiveIndices : option IndexBuffer) (indexType : VkIndexType)
    (I : IndexSource) (start : Z) (n : nat)
    (topology : VkPrimitiveTopology) (mode : VkProvokingVertexModeEXT) :
  (0 ≤ start < 2 ^ 32)%Z →
  1 ≤ n ≤ capacity →
  (Z.of_nat n < 2 ^ 32)%Z →
  length out = 3 * (capacity + 1) →
  index_source_of primitiveIndices indexType = Some I →
  let out' := processPrimitiveVertices out primitiveIndices indexType start n topology mode in
  (row_topology topology = true →
     let last := (reference_row topology mode I start (n - 1)).2 in
     out' !! slot (n - 1) 2 = Some last ∧
     out' !! slot n 0 = Some last ∧
     out' !! slot n 1 = Some last ∧
     out' !! slot n 2 = Some last) ∧
  (topology = VK_PRIMITIVE_TOPOLOGY_POINT_LIST →
     let last := I (wrap32 (start + Z.of_nat (n - 1))) in
     out' !! (n - 1)%nat = Some last ∧
     out' !! n = Some last ∧
     out' !! (n + 1)%nat = Some last ∧
     out' !! (n + 2)%nat = Some last).
Proof.
  intros Hstart Hn Hn32 Hlen HI out'. subst out'.
  rewrite (processPrimitiveVertices_unfold _ _ _ I) by exact HI.
  split.
  - intros Htop last.
    destruct (setBatchIndices_rows capacity out topology mode I start n
                Hstart ltac:(lia) Hlen Htop) as (H1 & Hl & Hrows).
    destruct (setBatchIndices out topology mode I start n) as [ok out1].
    cbn [fst snd] in H1, Hl, Hrows. subst ok.
    rewrite bool_decide_true by (intros ->; discriminate Htop).
    rewrite wrap32_small by lia.
    replace (Z.to_nat (Z.of_nat n - 1)) with (n - 1)%nat by lia.
    specialize (Hrows (n - 1)%nat ltac:(lia)).
    unfold batch_row in Hrows.
    destruct (out1 !! slot (n - 1) 0) as [a|] eqn:Ha; [|discriminate Hrows].
    destruct (out1 !! slot (n - 1) 1) as [b|] eqn:Hb; [|discriminate Hrows].
    destruct (out1 !! slot (n - 1) 2) as [c|] eqn:Hc; [|discriminate Hrows].
    cbn in Hrows. injection Hrows as Hrow.
    assert (Hlast : last = c) by (subst last; rewrite <- Hrow; reflexivity).
    rewrite Hlast. cbv zeta. unfold batch_at.
    read_block. rewrite Hc. cbn [default from_option].
    repeat split; read_block; reflexivity.
  - intros -> last.
    destruct (setBatchIndices_points out mode I start n Hstart)
      as (H1 & Hl & Hrows & Hover); [lia|].
    destruct (setBatchIndices out _ mode I start n) as [ok out1].
    cbn [fst snd] in H1, Hl, Hrows, Hover. subst ok.
    rewrite bool_decide_false by (intros H; apply H; reflexivity).
    assert (Hlast : last = I (wrap32 (start + Z.of_nat n - 1)))
      by (subst last; do 2 f_equal; lia).
    rewrite Hlast. repeat split.
    + rewrite (Hrows (n - 1)%nat) by lia. do 3 f_equal. lia.
    + rewrite <- (Nat.add_0_r n) at 1. apply Hover. lia.
    + apply Hover. lia.
    + apply Hover. lia.
Qed.

(** The reference formula at work: triangle 3 of a strip batch that starts at
    primitive 5, last-vertex convention, no index buffer bound. *)
Lemma setBatchIndices_reference_witness :
  (0 ≤ 5 < 2 ^ 32)%Z ∧ 4 ≤ 128 ∧
  length (replicate 387 0%Z) = 3 * (128 + 1) ∧ 3 < 4 ∧
  (setBatchIndices (replicate 387 0%Z) VK_PRIMITIVE_TOPOLOGY_TRIANGLE_STRIP
     VK_PROVOKING_VERTEX_MODE_LAST_VERTEX_EXT LinearIndex 5 4).1 = true ∧
  batch_row
    (setBatchIndices (replicate 387 0%Z) VK_PRIMITIVE_TOPOLOGY_TRIANGLE_STRIP
       VK_PROVOKING_VERTEX_MODE_LAST_VERTEX_EXT LinearIndex 5 4).2 3 =
  Some (reference_row VK_PRIMITIVE_TOPOLOGY_TRIANGLE_STRIP
          VK_PROVOKING_VERTEX_MODE_LAST_VERTEX_EXT LinearIndex 5 3).
Proof.
  split; [lia|]. split; [lia|]. split; [reflexivity|]. split; [lia|].
  apply (setBatchIndices_reference 128 (replicate 387 0%Z)
           VK_PRIMITIVE_TOPOLOGY_TRIANGLE_STRIP
           VK_PROVOKING_VERTEX_MODE_LAST_VERTEX_EXT LinearIndex 5 4 3);
    [lia | lia | reflexivity | lia].
Defined.

Example reference_row_strip_5_3 :
  reference_row VK_PRIMITIVE_TOPOLOGY_TRIANGLE_STRIP
    VK_PROVOKING_VERTEX_MODE_LAST_VERTEX_EXT LinearIndex 5 3 = (10, 8, 9)%Z.
Proof. reflexivity. Qed.

Example setBatchIndices_fan_first :
  take 9 (setBatchIndices (replicate 12 77%Z) VK_PRIMITIVE_TOPOLOGY_TRIANGLE_FAN
     VK_PROVOKING_VERTEX_MODE_FIRST_VERTEX_EXT LinearIndex 0 2).2
  = [1; 2; 0; 2; 3; 0; 77; 77; 77]%Z.
Proof. reflexivity. Qed.

(** Overrun entries of a two-triangle list batch read through a 16-bit index
    buffer: row 2 repeats entry 2 of row 1. *)
Lemma overrun_slots_repeat_last_witness :
  let buffer := {| as_uint8_t := λ i, (i mod 256)%Z;
                   as_uint16_t := λ i, (100 + i)%Z;
                   as_uint32_t := λ i, i |} in
  let out' := processPrimitiveVertices (replicate 387 9%Z) (Some buffer)
                VK_INDEX_TYPE_UINT16 1 2 VK_PRIMITIVE_TOPOLOGY_TRIANGLE_LIST
                VK_PROVOKING_VERTEX_MODE_FIRST_VERTEX_EXT in
  (0 ≤ 1 < 2 ^ 32)%Z ∧ 1 ≤ 2 ≤ 128 ∧ (Z.of_nat 2 < 2 ^ 32)%Z ∧
  length (replicate 387 9%Z) = 3 * (128 + 1) ∧
  index_source_of (Some buffer) VK_INDEX_TYPE_UINT16 = Some (as_uint16_t buffer) ∧
  out' !! slot 1 2 = Some 108%Z ∧
  out' !! slot 2 0 = Some 108%Z ∧
  out' !! slot 2 1 = Some 108%Z ∧
  out' !! slot 2 2 = Some 108%Z.
Proof.
  intros buffer out'.
  split; [lia|]. split; [lia|]. split; [lia|]. split; [reflexivity|].
  split; [reflexivity|].
  destruct (overrun_slots_repeat_last 128 (replicate 387 9%Z)
    (Some buffer) VK_INDEX_TYPE_UINT16 (as_uint16_t buffer) 1 2
    VK_PRIMITIVE_TOPOLOGY_TRIANGLE_LIST
    VK_PROVOKING_VERTEX_MODE_FIRST_VERTEX_EXT
    ltac:(lia) ltac:(lia) ltac:(lia) eq_refl eq_refl) as [Hrow _].
  exact (Hrow eq_refl).
Defined.

Example overrun_points :
  take 5 (processPrimitiveVertices (replicate 387 9%Z) None
     VK_INDEX_TYPE_UINT16 1 2 VK_PRIMITIVE_TOPOLOGY_POINT_LIST
     VK_PROVOKING_VERTEX_MODE_FIRST_VERTEX_EXT) = [1; 2; 2; 2; 2]%Z.
Proof. reflexivity. Qed.

(** ** Draw submission *)

Section DrawFacts.
Context `{Constants}.
Variable processors : Processors.t.

  (** C7.  A call of [Renderer::draw] with a primitive count of 0 returns at
      once: the renderer's members (the draw-identifier counter among them)
      are as before, the pool object is untouched, nothing is handed to the
      scheduler, and no call at all is made -- no borrow, no ticket taken, no
      task scheduled, no event or query touched, no routine run. *)
Theorem draw_zero_count_is_noop (this : Renderer.t) (draw0 : DrawCall.t)
      (pipeline : Pipeline.t) (baseVertex : Z) (events : option Handle)
      (instanceID layer : Z) (indexBuffer : option Handle)
      (renderArea : VkRect2D.t) (pushConstants : Handle) (update : bool)
      (numVisible : nat → Z) :
    draw processors this draw0 pipeline 0 baseVertex events instanceID layer
      indexBuffer renderArea pushConstants update numVisible
    = {| DrawResult.renderer := this; DrawResult.draw := draw0;
         DrawResult.submitted := false; DrawResult.calls := [] |}.
  Proof. reflexivity. Qed.

  (** What every submitted draw records for batching: the batch width
      divided by the sample count, whatever the polygon mode, and the batch
      count computed from that value. *)
Lemma draw_batching (this : Renderer.t) (draw0 : DrawCall.t)
      (pipeline : Pipeline.t) (count baseVertex : Z) (events : option Handle)
      (instanceID layer : Z) (indexBuffer : option Handle)
      (renderArea : VkRect2D.t) (pushConstants : Handle) (update : bool)
      (numVisible : nat → Z) :
    let r := draw processors this draw0 pipeline count baseVertex events
               instanceID layer indexBuffer renderArea pushConstants update
               numVisible in
    let ms := if Pipeline.hasRasterizerDiscard pipeline then 1%Z
              else Pipeline.getSampleCount pipeline in
    DrawResult.submitted r = true →
    DrawCall.numPrimitivesPerBatch (DrawResult.draw r) = wrap32 (MaxBatchSize ÷ ms) ∧
    DrawCall.numBatches (DrawResult.draw r) =
      (wrap32 (wrap32 (count + wrap32 (MaxBatchSize ÷ ms)) - 1)
       / wrap32 (MaxBatchSize ÷ ms))%Z.
  Proof.
    intros r ms Hs. subst r ms.
    destruct pipeline as [top tri line disc]. cbn [Pipeline.hasRasterizerDiscard Pipeline.getSampleCount] in *.
    destruct count as [|p|p]; [exact (False_ind _ (diff_false_true Hs))| |].
    all: destruct disc; [split; reflexivity|].
    all: destruct tri; [destruct getPolygonMode|destruct line];
      first [ exact (False_ind _ (diff_false_true Hs)) | split; reflexivity ].
  Qed.
End DrawFacts.

(** C1, at the failing input: 128 triangles drawn as wireframe
    ([VK_POLYGON_MODE_LINE]) with one sample per pixel and a batch width of
    128.  The draw is handed to the scheduler with the wireframe strategy,
    128 primitives per batch and a single batch; dividing by 3 would give 42
    primitives per batch and 4 batches.  (The division by 3 is applied to the
    local variable after the draw's fields were written.) *)
Theorem draw_wireframe_batch_not_divided :
  let r := example_draw
             (example_pipeline false VK_POLYGON_MODE_LINE false false 1%Z 1%Z)
             128 (λ _, 1%Z) in
  DrawResult.submitted r = true ∧
  DrawCall.setupPrimitives (DrawResult.draw r) = Some setupWireframeTriangles_fn ∧
  DrawCall.numPrimitivesPerBatch (DrawResult.draw r) = 128%Z ∧
  DrawCall.numBatches (DrawResult.draw r) = 1%Z ∧
  (128 / 1 / 3 = 42)%Z ∧
  ((128 + 42 - 1) / 42 = 4)%Z.
Proof. vm_compute. repeat split; reflexivity. Qed.

(** ** Rasterizer discard and teardown *)

Section DiscardFacts.
Context `{Constants}.
Variable processors : Processors.t.

Lemma takes_no_rasterization (q : nat → QueueId) (t : Ticket) (l : list nat) :
    Forall (λ c, rasterization_call c = false)
      (flat_map all_calls (map (λ cluster, TicketTake (q cluster) t) l)).
  Proof.
    induction l as [|c l IH]; cbn; constructor; [reflexivity|exact IH].
  Qed.

Lemma dones_no_rasterization (q : nat → QueueId) (t : Ticket) (l : list nat) :
    Forall (λ c, rasterization_call c = false)
      (flat_map all_calls (map (λ cluster, TicketDone (q cluster) t) l)).
  Proof.
    induction l as [|c l IH]; cbn; constructor; [reflexivity|exact IH].
  Qed.

Lemma run_discard_no_rasterization (d : DrawCall.t) (numVisible : nat → Z) :
    DrawData.rasterizerDiscard (DrawCall.data d) = true →
    Forall (λ c, rasterization_call c = false)
      (flat_map all_calls (run d numVisible)).
  Proof.
    intros Hd. unfold run. rewrite Hd.
    rewrite !flat_map_app. apply Forall_app. split.
    - unfold DrawCall_setup.
      destruct (DrawCall.occlusionQuery d), (DrawCall.events d); cbn;
        repeat constructor.
    - apply Forall_app. split; [cbn; repeat constructor|].
      induction (seq 0 (Z.to_nat (DrawCall.numBatches d))) as [|b l IH];
        [constructor|].
      cbn [flat_map]. rewrite !flat_map_app.
      apply Forall_app. split; [|exact IH].
      apply Forall_app. split.
      + apply (takes_no_rasterization ClusterQueue).
      + cbn. constructor; [reflexivity|].
        rewrite app_nil_r. constructor; [reflexivity|].
        apply (dones_no_rasterization ClusterQueue).
  Qed.

  (** C6.  A draw whose pipeline has rasterizer discard enabled:
      - resolves no setup or pixel routine and sets no blend constant: the
        renderer's setup/pixel state, routines and factor are as before;
      - leaves the draw object's setup strategy, setup state, setup and pixel
        routine, fragment pipeline layout, colour/depth/stencil attachments,
        and the data block's occlusion counters, stencil, factor,
        alpha-to-coverage and attachment pointers and pitches as the pool
        object had them;
      - is handed to the scheduler, and none of the calls it makes, in any
        closure, belongs to rasterization (no setup, no pixel routine or
        continuation, no occlusion accumulation, no attachment notification);
      - at teardown signals the events and notifies the pre-rasterization
        layout if that stage writes images, and makes no other call. *)
Theorem rasterizer_discard_draw (this : Renderer.t) (draw0 : DrawCall.t)
      (pipeline : Pipeline.t) (count baseVertex : Z) (events : option Handle)
      (instanceID layer : Z) (indexBuffer : option Handle)
      (renderArea : VkRect2D.t) (pushConstants : Handle) (update : bool)
      (numVisible : nat → Z) :
    Pipeline.hasRasterizerDiscard pipeline = true →
    count ≠ 0%Z →
    let r := draw processors this draw0 pipeline count baseVertex events
               instanceID layer indexBuffer renderArea pushConstants update
               numVisible in
    let d := DrawResult.draw r in
    let data := DrawCall.data d in
    let data0 := DrawCall.data draw0 in
    (Renderer.setupState (DrawResult.renderer r) = Renderer.setupState this ∧
     Renderer.setupRoutine (DrawResult.renderer r) = Renderer.setupRoutine this ∧
     Renderer.pixelState (DrawResult.renderer r) = Renderer.pixelState this ∧
     Renderer.pixelRoutine (DrawResult.renderer r) = Renderer.pixelRoutine this ∧
     Renderer.pixelProcessor_factor (DrawResult.renderer r) =
       Renderer.pixelProcessor_factor this) ∧
    (DrawCall.setupPrimitives d = DrawCall.setupPrimitives draw0 ∧
     DrawCall.setupState d = DrawCall.setupState draw0 ∧
     DrawCall.setupRoutine d = DrawCall.setupRoutine draw0 ∧
     DrawCall.pixelRoutine d = DrawCall.pixelRoutine draw0 ∧
     DrawCall.fragmentPipelineLayout d = DrawCall.fragmentPipelineLayout draw0 ∧
     DrawCall.colorBuffer d = DrawCall.colorBuffer draw0 ∧
     DrawCall.depthBuffer d = DrawCall.depthBuffer draw0 ∧
     DrawCall.stencilBuffer d = DrawCall.stencilBuffer draw0) ∧
    (DrawData.occlusion data = DrawData.occlusion data0 ∧
     DrawData.stencil data = DrawData.stencil data0 ∧
     DrawData.factor data = DrawData.factor data0 ∧
     DrawData.a2c0 data = DrawData.a2c0 data0 ∧
     DrawData.a2c1 data = DrawData.a2c1 data0 ∧
     DrawData.a2c2 data = DrawData.a2c2 data0 ∧
     DrawData.a2c3 data = DrawData.a2c3 data0 ∧
     DrawData.minimumResolvableDepthDifference data =
       DrawData.minimumResolvableDepthDifference data0 ∧
     DrawData.colorBuffer data = DrawData.colorBuffer data0 ∧
     DrawData.colorPitchB data = DrawData.colorPitchB data0 ∧
     DrawData.colorSliceB data = DrawData.colorSliceB data0 ∧
     DrawData.depthBuffer data = DrawData.depthBuffer data0 ∧
     DrawData.depthPitchB data = DrawData.depthPitchB data0 ∧
     DrawData.depthSliceB data = DrawData.depthSliceB data0 ∧
     DrawData.stencilBuffer data = DrawData.stencilBuffer data0 ∧
     DrawData.stencilPitchB data = DrawData.stencilPitchB data0 ∧
     DrawData.stencilSliceB data = DrawData.stencilSliceB data0) ∧
    DrawResult.submitted r = true ∧
    DrawData.rasterizerDiscard data = true ∧
    Forall (λ c, rasterization_call c = false)
      (flat_map all_calls (DrawResult.calls r)) ∧
    teardown_calls d =
      match events with Some e => [EventsDone e] | None => [] end ++
      (if Pipeline.preRasterizationContainsImageWrite pipeline then
         [ContentsChanged (Pipeline.getDescriptorSetObjects pipeline)
            (Pipeline.preRasterizationPipelineLayout pipeline)]
       else []).
  Proof.
    intros Hd Hc r d data data0.
    destruct pipeline as [top tri line disc preLayout pvm lrm dce dcn lw vp sc pm
                          cdb sdb dbc fragLayout fs bs bc msc dso ds ddo gs gvs
                          fsh vsh acb adb asb preWrite fragWrite git].
    cbn [Pipeline.hasRasterizerDiscard Pipeline.preRasterizationContainsImageWrite
         Pipeline.getDescriptorSetObjects Pipeline.preRasterizationPipelineLayout] in *.
    subst disc.
    assert (Hcalls : DrawResult.calls r =
              [DrawCallPoolBorrow; PrepareForSampling dso preLayout] ++ run d numVisible)
      by (destruct count; [contradiction Hc; reflexivity|reflexivity|reflexivity]).
    assert (Hdisc : DrawData.rasterizerDiscard data = true)
      by (destruct count; [contradiction Hc; reflexivity|reflexivity|reflexivity]).
    split; [destruct count; [contradiction Hc; reflexivity| |];
            destruct update; repeat split; reflexivity|].
    split; [destruct count; [contradiction Hc; reflexivity| |];
            repeat split; reflexivity|].
    split; [destruct count; [contradiction Hc; reflexivity| |];
            repeat split; reflexivity|].
    split; [destruct count; [contradiction Hc; reflexivity|reflexivity|reflexivity]|].
    split; [exact Hdisc|]. split.
    - rewrite Hcalls, flat_map_app. apply Forall_app. split.
      + cbn. repeat constructor.
      + apply run_discard_no_rasterization. exact Hdisc.
    - destruct count; [contradiction Hc; reflexivity| |];
        destruct events, preWrite; reflexivity.
  Qed.

  (** C10.  At teardown of a draw that does not discard rasterization,
      [ContentsChanged] is called at most once per pipeline layout: once for
      the pre-rasterization layout if that stage writes images, and once for
      the fragment layout exactly when the fragment stage writes images and
      the pre-rasterization call did not already cover that same layout. *)
Theorem teardown_notifies_each_layout_once (d : DrawCall.t) :
    DrawData.rasterizerDiscard (DrawCall.data d) = false →
    let preWrite := DrawCall.preRasterizationContainsImageWrite d in
    let fragWrite := DrawCall.fragmentContainsImageWrite d in
    let preLayout := DrawCall.preRasterizationPipelineLayout d in
    let fragLayout := DrawCall.fragmentPipelineLayout d in
    notifications (teardown_calls d) =
      (if preWrite then [preLayout] else []) ++
      (if fragWrite && negb (preWrite && bool_decide (fragLayout = preLayout))
       then [fragLayout] else []) ∧
    NoDup (notifications (teardown_calls d)) ∧
    (preWrite = true → fragLayout = preLayout →
       notifications (teardown_calls d) = [preLayout]).
  Proof.
    intros Hd preWrite fragWrite preLayout fragLayout.
    assert (Hn : notifications (teardown_calls d) =
      (if preWrite then [preLayout] else []) ++
      (if fragWrite && negb (preWrite && bool_decide (fragLayout = preLayout))
       then [fragLayout] else [])).
    { unfold teardown_calls, notifications. rewrite Hd. cbn [negb].
      rewrite !flat_map_app.
      assert (He : flat_map (λ c, match c with ContentsChanged _ layout => [layout] | _ => [] end)
                 (match DrawCall.events d with Some e => [EventsDone e] | None => [] end) = [])
        by (destruct (DrawCall.events d); reflexivity).
      rewrite He. cbn [app].
      assert (Hq : flat_map (λ c, match c with ContentsChanged _ layout => [layout] | _ => [] end)
                 (match DrawCall.occlusionQuery d with
                  | Some query =>
                      map (λ cluster, QueryAdd query (DrawData.occlusion (DrawCall.data d) cluster))
                        (seq 0 MaxClusterCount) ++ [QueryFinish query]
                  | None => []
                  end) = []).
      { destruct (DrawCall.occlusionQuery d); [|reflexivity].
        rewrite flat_map_app. cbn. rewrite app_nil_r.
        induction (seq 0 MaxClusterCount) as [|c l IH]; [reflexivity|exact IH]. }
      rewrite Hq. cbn [app].
      assert (Hi : flat_map (λ c, match c with ContentsChanged _ layout => [layout] | _ => [] end)
                 (flat_map (λ index,
                    match DrawCall.colorBuffer d index with
                    | Some target => [ImageContentsChanged (ImageView.image target)]
                    | None => []
                    end) (seq 0 MAX_COLOR_BUFFERS)) = []).
      { induction (seq 0 MAX_COLOR_BUFFERS) as [|c l IH]; [reflexivity|].
        cbn [flat_map]. rewrite flat_map_app, IH.
        destruct (DrawCall.colorBuffer d c); reflexivity. }
      rewrite Hi. cbn [app].
      fold preWrite fragWrite preLayout fragLayout.
      destruct preWrite, (fragWrite && _); reflexivity. }
    split; [exact Hn|]. split.
    - rewrite Hn. destruct preWrite, fragWrite; cbn.
      + destruct (bool_decide_reflect (fragLayout = preLayout)) as [He|Hne]; cbn.
        * apply NoDup_singleton.
        * apply NoDup_cons_2; [|apply NoDup_singleton].
          intros Hin. apply list_elem_of_singleton in Hin.
          apply Hne. symmetry. exact Hin.
      + apply NoDup_singleton.
      + apply NoDup_singleton.
      + apply NoDup_nil_2.
    - intros Hp He. rewrite Hn, Hp. cbn.
      rewrite bool_decide_true by exact He. cbn.
      rewrite andb_false_r. reflexivity.
  Qed.
End DiscardFacts.

(** A discarded draw of 5 primitives on the example renderer: the stale
    setup strategy and occlusion counters of the pool object survive, and
    teardown signals the events and notifies the pre-rasterization layout
    only, although both stages write images. *)
Lemma rasterizer_discard_draw_witness :
  let pipeline := example_pipeline true VK_POLYGON_MODE_FILL true true 1%Z 2%Z in
  let r := @draw binary32 header_constants example_processors example_renderer
             stale_draw pipeline 5 0 (Some 600%Z) 0 0 None example_renderArea
             0%Z true (λ _, 3%Z) in
  Pipeline.hasRasterizerDiscard pipeline = true ∧ 5%Z ≠ 0%Z ∧
  DrawResult.submitted r = true ∧
  DrawCall.setupPrimitives (DrawResult.draw r) = Some setupPoints_fn ∧
  DrawData.occlusion (DrawCall.data (DrawResult.draw r)) = DrawData.occlusion stale_data ∧
  Forall (λ c, rasterization_call c = false)
    (flat_map all_calls (DrawResult.calls r)) ∧
  @teardown_calls binary32 header_constants (DrawResult.draw r) =
    [EventsDone 600%Z; ContentsChanged 700%Z 1%Z].
Proof.
  intros pipeline r.
  assert (Hc : 5%Z ≠ 0%Z) by lia.
  split; [reflexivity|]. split; [exact Hc|].
  destruct (@rasterizer_discard_draw binary32 header_constants
              example_processors example_renderer stale_draw pipeline 5 0
              (Some 600%Z) 0 0 None example_renderArea 0%Z true (λ _, 3%Z)
              eq_refl Hc)
    as (_ & (Hsp & _) & (Hocc & _) & Hs & _ & Hcalls & Htd).
  split; [exact Hs|]. split; [exact Hsp|]. split; [exact Hocc|].
  split; [exact Hcalls|exact Htd].
Defined.

(** Teardown of a draw whose two stages both write images through the same
    pipeline layout: one notification. *)
Lemma teardown_notifies_each_layout_once_witness :
  let r := example_draw
             (example_pipeline false VK_POLYGON_MODE_FILL true true 1%Z 1%Z)
             5 (λ _, 3%Z) in
  DrawData.rasterizerDiscard (DrawCall.data (DrawResult.draw r)) = false ∧
  notifications (@teardown_calls binary32 header_constants (DrawResult.draw r)) = [1%Z] ∧
  NoDup (notifications (@teardown_calls binary32 header_constants (DrawResult.draw r))).
Proof.
  intros r.
  split; [reflexivity|].
  destruct (@teardown_notifies_each_layout_once binary32 header_constants
              (DrawResult.draw r) eq_refl) as (_ & Hnd & Hone).
  split; [exact (Hone eq_refl eq_refl)|exact Hnd].
Defined.

Example teardown_two_layouts :
  let r := example_draw
             (example_pipeline false VK_POLYGON_MODE_FILL true true 1%Z 2%Z)
             5 (λ _, 3%Z) in
  @teardown_calls binary32 header_constants (DrawResult.draw r) =
    [ContentsChanged 700%Z 1%Z] ++
    map (λ _, QueryAdd 500%Z 0) (seq 0 16) ++
    [QueryFinish 500%Z; ImageContentsChanged 900%Z; ContentsChanged 700%Z 2%Z].
Proof. vm_compute. reflexivity. Qed.

(** ** Primitive setup *)

(** The sign of an exclusive or of two [int]s is the exclusive or of their
    signs. *)
Lemma lxor_sign (a b : Z) :
  (Z.lxor a b <? 0)%Z = xorb (a <? 0)%Z (b <? 0)%Z.
Proof.
  pose proof (Z.lxor_nonneg a b) as Hx.
  destruct (Z.ltb_spec (Z.lxor a b) 0), (Z.ltb_spec a 0), (Z.ltb_spec b 0);
    cbn; try reflexivity; exfalso; lia.
Qed.

Section SetupFacts.
Context `{Constants}.
Variable PrimMem : Type.
Variable Clip : Polygon → Z → DrawCall.t → bool * Polygon.
Variable setupRoutineCall :
    option Handle → PrimMem → Z → Triangle.t → Polygon → DrawData.t → bool * PrimMem.
Variable indeterminate : Vertex.t.

  (** C8.  [setupLine] returns [false] and leaves the primitive memory as it
      was -- it reaches neither the clipper nor the setup routine -- when the
      OR of the two endpoints' cull masks is zero, or both endpoints have
      clip-space [w <= 0], or the computed direction [(dx, dy)] compares equal
      to [(0, 0)]; and [setupLines] on such a line reports no visible
      primitive and leaves the output cursor where it was. *)
Theorem setupLine_rejects (mem : PrimMem) (primitive : Z)
      (triangle : Triangle.t) (draw : DrawCall.t) :
    let v0 := Triangle.v0 triangle in
    let v1 := Triangle.v1 triangle in
    Z.lor (Vertex.cullMask v0) (Vertex.cullMask v1) = 0%Z ∨
    (fle (Vertex.w v0) (of_int 0) = true ∧ fle (Vertex.w v1) (of_int 0) = true) ∨
    (feq (lineDirection triangle draw).1 (of_int 0) = true ∧
     feq (lineDirection triangle draw).2 (of_int 0) = true) →
    setupLine PrimMem Clip setupRoutineCall mem primitive triangle draw = (false, mem) ∧
    setupLines PrimMem Clip setupRoutineCall mem (λ _, triangle) primitive draw 1
      = (0%Z, primitive, mem).
  Proof.
    intros v0 v1 Hcase.
    assert (Hline : setupLine PrimMem Clip setupRoutineCall mem primitive triangle draw
                    = (false, mem)).
    { unfold setupLine. fold v0 v1.
      destruct (Z.lor (Vertex.cullMask v0) (Vertex.cullMask v1) =? 0)%Z eqn:Hcull;
        [reflexivity|].
      destruct Hcase as [Hc | [[Hw0 Hw1] | [Hdx Hdy]]].
      - apply Z.eqb_neq in Hcull. contradiction.
      - unfold Vertex.w in Hw0, Hw1. rewrite Hw0, Hw1. reflexivity.
      - destruct (fle (float4.w (Vertex.position v0)) (of_int 0)
                  && fle (float4.w (Vertex.position v1)) (of_int 0));
          [reflexivity|].
        destruct (lineDirection triangle draw) as [dx dy].
        cbn [fst snd] in Hdx, Hdy. rewrite Hdx, Hdy. reflexivity. }
    split; [exact Hline|].
    unfold setupLines, for_upto. cbn [seq foldl]. rewrite Hline. reflexivity.
  Qed.

Lemma wireframe_reference_snoc (drawCall : DrawCall.t)
      (triangles : list Triangle.t) (t : Triangle.t) (acc : Z * Z * PrimMem) :
    wireframe_reference PrimMem Clip setupRoutineCall indeterminate drawCall
      (triangles ++ [t]) acc =
    wireframe_reference PrimMem Clip setupRoutineCall indeterminate drawCall [t]
      (wireframe_reference PrimMem Clip setupRoutineCall indeterminate drawCall
         triangles acc).
  Proof.
    revert acc. induction triangles as [|t' l IH]; intros acc; [reflexivity|].
    cbn [app wireframe_reference]. apply IH.
  Qed.

  (** C9.  [setupWireframeTriangles] does, for each triangle in order, what
      the description says: the signed area by the shoelace formula over the
      projected coordinates, negated exactly when the XOR of the sign bits of
      the three clip-space [w] is set; front-facing iff the area is [>= 0]
      (counter-clockwise front face) or [<= 0] (clockwise); skipped when the
      cull-mode bit of its facing is set; otherwise the edges [(v0,v1)],
      [(v1,v2)], [(v2,v0)] go to line setup in that order, and each accepted
      edge advances the cursor by the sample count and the visible count by
      one. *)
Theorem setupWireframeTriangles_reference (mem : PrimMem)
      (triangles : nat → Triangle.t) (primitives : Z) (drawCall : DrawCall.t)
      (count : nat) :
    setupWireframeTriangles PrimMem Clip setupRoutineCall indeterminate mem
      triangles primitives drawCall count =
    wireframe_reference PrimMem Clip setupRoutineCall indeterminate drawCall
      (map triangles (seq 0 count)) (0%Z, primitives, mem).
  Proof.
    unfold setupWireframeTriangles.
    induction count as [|count IH]; [reflexivity|].
    rewrite for_upto_S, seq_S, map_app. cbn [map Nat.add].
    rewrite wireframe_reference_snoc, <- IH.
    destruct (for_upto count _ _) as [[visible cursor] mem'].
    cbn [wireframe_reference].
    unfold culled, front_facing, corrected_area, sign_bit.
    fold (shoelace_area (Triangle.v0 (triangles count))
            (Triangle.v1 (triangles count)) (Triangle.v2 (triangles count))).
    rewrite !lxor_sign.
    set (A := if xorb _ _ then _ else _).
    assert (Hff : (if bool_decide (SetupState.frontFace (DrawCall.setupState drawCall)
                                   = VK_FRONT_FACE_COUNTER_CLOCKWISE)
                   then fge A (lit 0) else fle A (lit 0)) =
                  match SetupState.frontFace (DrawCall.setupState drawCall) with
                  | VK_FRONT_FACE_COUNTER_CLOCKWISE => fge A (lit 0)
                  | VK_FRONT_FACE_CLOCKWISE => fle A (lit 0)
                  end)
      by (destruct (SetupState.frontFace (DrawCall.setupState drawCall)); reflexivity).
    rewrite Hff.
    set (ff := match SetupState.frontFace _ with
               | VK_FRONT_FACE_COUNTER_CLOCKWISE => _ | VK_FRONT_FACE_CLOCKWISE => _ end).
    set (front := negb (Z.land _ VK_CULL_MODE_FRONT_BIT =? 0)%Z).
    set (back := negb (Z.land _ VK_CULL_MODE_BACK_BIT =? 0)%Z).
    destruct ff, front, back; cbn [andb negb]; try reflexivity.
    all: unfold for_upto; cbn [seq foldl emit_edges];
      repeat (match goal with
              | |- context [setupLine ?a ?b ?c ?m ?p ?t ?d] =>
                  destruct (setupLine a b c m p t d) as [[] ?]
              end; cbv beta iota zeta);
      reflexivity.
  Qed.
End SetupFacts.

(** A segment whose endpoints coincide: the direction is [(0, 0)] and the
    line is rejected, although neither endpoint is culled or behind the eye. *)
Lemma setupLine_rejects_witness :
  let v := example_vertex 1 2 16 32 1 in
  let triangle := {| Triangle.v0 := v; Triangle.v1 := v; Triangle.v2 := v |} in
  (Z.lor (Vertex.cullMask v) (Vertex.cullMask v) ≠ 0%Z) ∧
  @fle binary32 (Vertex.w v) (@of_int binary32 0) = false ∧
  @feq binary32 (@lineDirection binary32 header_constants triangle example_submitted_draw).1
    (@of_int binary32 0) = true ∧
  @feq binary32 (@lineDirection binary32 header_constants triangle example_submitted_draw).2
    (@of_int binary32 0) = true ∧
  @setupLine binary32 header_constants (list Z) example_Clip example_setupRoutine
    [] 0 triangle example_submitted_draw = (false, []) ∧
  @setupLines binary32 header_constants (list Z) example_Clip example_setupRoutine
    [] (λ _, triangle) 0 example_submitted_draw 1 = (0%Z, 0%Z, []).
Proof.
  intros v triangle.
  assert (Hdx : @feq binary32
            (@lineDirection binary32 header_constants triangle example_submitted_draw).1
            (@of_int binary32 0) = true) by (vm_compute; reflexivity).
  assert (Hdy : @feq binary32
            (@lineDirection binary32 header_constants triangle example_submitted_draw).2
            (@of_int binary32 0) = true) by (vm_compute; reflexivity).
  split; [vm_compute; discriminate|]. split; [vm_compute; reflexivity|].
  split; [exact Hdx|]. split; [exact Hdy|].
  apply (@setupLine_rejects binary32 header_constants (list Z) example_Clip
           example_setupRoutine [] 0 triangle example_submitted_draw).
  right. right. split; [exact Hdx|exact Hdy].
Defined.

(** A back-facing triangle with culling off: three edges, three primitives,
    written at cursor positions 0, 1 and 2. *)
Example setupWireframeTriangles_three_edges :
  let t := {| Triangle.v0 := example_vertex 0 0 0 0 1;
              Triangle.v1 := example_vertex 1 0 16 0 1;
              Triangle.v2 := example_vertex 0 1 0 16 1 |} in
  @setupWireframeTriangles binary32 header_constants (list Z) example_Clip
    example_setupRoutine (example_vertex 9 9 9 9 9) [] (λ _, t) 0
    example_submitted_draw 1 = (3%Z, 3%Z, [0; 1; 2]%Z).
Proof. vm_compute. reflexivity. Qed.

Example setupLine_accepts :
  let triangle := {| Triangle.v0 := example_vertex 0 0 0 0 1;
                     Triangle.v1 := example_vertex 1 0 16 0 1;
                     Triangle.v2 := example_vertex 0 0 0 0 0 |} in
  @setupLine binary32 header_constants (list Z) example_Clip example_setupRoutine
    [] 7 triangle example_submitted_draw = (true, [7%Z]).
Proof. vm_compute. reflexivity. Qed.

(** ** The batch task and its tickets *)

Section TaskFacts.
Context `{Constants}.

Lemma filter_releases_dones (t : Ticket) (cluster : nat) (l : list nat) :
    NoDup l →
    List.filter (releases (ClusterQueue cluster) t)
      (map (λ c, TicketDone (ClusterQueue c) t) l) =
    if bool_decide (cluster ∈ l) then [TicketDone (ClusterQueue cluster) t] else [].
  Proof.
    induction l as [|c l IH]; intros Hnd; [reflexivity|].
    apply NoDup_cons in Hnd as [Hc Hnd]. specialize (IH Hnd).
    cbn [map List.filter releases]. rewrite IH.
    destruct (decide (c = cluster)) as [->|Hne].
    - rewrite bool_decide_true by auto.
      rewrite (bool_decide_false (cluster ∈ l)) by exact Hc.
      rewrite bool_decide_true by (apply list_elem_of_here).
      reflexivity.
    - rewrite bool_decide_false by (intros [Heq _]; congruence).
      destruct (bool_decide_reflect (cluster ∈ l)) as [Hin|Hin].
      + rewrite bool_decide_true by (apply list_elem_of_further, Hin). reflexivity.
      + rewrite bool_decide_false; [reflexivity|].
        intros Hin'. apply elem_of_cons in Hin' as [->|Hin']; [congruence|auto].
  Qed.

Lemma filter_attaches_onCalls (t : Ticket) (k : nat → list Call)
      (cluster : nat) (l : list nat) :
    NoDup l →
    List.filter (attaches (ClusterQueue cluster) t)
      (map (λ c, TicketOnCall (ClusterQueue c) t (k c)) l) =
    if bool_decide (cluster ∈ l)
    then [TicketOnCall (ClusterQueue cluster) t (k cluster)] else [].
  Proof.
    induction l as [|c l IH]; intros Hnd; [reflexivity|].
    apply NoDup_cons in Hnd as [Hc Hnd]. specialize (IH Hnd).
    cbn [map List.filter attaches]. rewrite IH.
    destruct (decide (c = cluster)) as [->|Hne].
    - rewrite bool_decide_true by auto.
      rewrite (bool_decide_false (cluster ∈ l)) by exact Hc.
      rewrite bool_decide_true by (apply list_elem_of_here).
      reflexivity.
    - rewrite bool_decide_false by (intros [Heq _]; congruence).
      destruct (bool_decide_reflect (cluster ∈ l)) as [Hin|Hin].
      + rewrite bool_decide_true by (apply list_elem_of_further, Hin). reflexivity.
      + rewrite bool_decide_false; [reflexivity|].
        intros Hin'. apply elem_of_cons in Hin' as [->|Hin']; [congruence|auto].
  Qed.

Lemma cluster_in_range (cluster : nat) :
    cluster < MaxClusterCount → cluster ∈ seq 0 MaxClusterCount.
  Proof. intros Hc. apply list_elem_of_In, in_seq. lia. Qed.

Lemma filter_none {A : Type} (f : A → bool) (l : list A) :
    Forall (λ x, f x = false) l → List.filter f l = [].
  Proof.
    induction 1 as [|x l Hx _ IH]; [reflexivity|].
    cbn. rewrite Hx. exact IH.
  Qed.

Lemma dones_attach_nothing (t : Ticket) (l : list nat) :
    Forall (λ call, is_TicketOnCall call = false ∧ is_PixelRoutine call = false)
      (flat_map all_calls (map (λ c, TicketDone (ClusterQueue c) t) l)).
  Proof.
    induction l as [|c l IH]; cbn; constructor; [split; reflexivity|exact IH].
  Qed.

Lemma onCalls_release_nothing (t : Ticket) (k : nat → list Call) (l : list nat) :
    Forall (λ call, is_TicketDone call = false)
      (map (λ c, TicketOnCall (ClusterQueue c) t (k c)) l).
  Proof.
    induction l as [|c l IH]; cbn; constructor; [reflexivity|exact IH].
  Qed.

  (** C5.  The calls of a batch task, after its vertex (and setup) stage:
      - with rasterizer discard, or with no primitive left visible by setup,
        the task calls [done()] exactly once on each of its cluster tickets,
        attaches no continuation and hands over no pixel work;
      - otherwise it calls [done()] itself on none of them and attaches to
        each cluster ticket exactly one continuation, which runs the pixel
        routine for that cluster and then calls [done()] on that ticket. *)
Theorem batchTask_ticket_discipline (rasterizerDiscard : bool) (numVisible : Z)
      (d : Z) (b : nat) (cluster : nat) :
    cluster < MaxClusterCount →
    let task := batchTask rasterizerDiscard numVisible d b in
    (rasterizerDiscard = true ∨ numVisible = 0%Z →
       List.filter (releases (ClusterQueue cluster) (d, b)) task =
         [TicketDone (ClusterQueue cluster) (d, b)] ∧
       Forall (λ call, is_TicketOnCall call = false ∧ is_PixelRoutine call = false)
         (flat_map all_calls task)) ∧
    (rasterizerDiscard = false ∧ (0 < numVisible)%Z →
       List.filter (attaches (ClusterQueue cluster) (d, b)) task =
         [TicketOnCall (ClusterQueue cluster) (d, b)
            [PixelRoutine d b cluster;
             TicketDone (ClusterQueue cluster) (d, b)]] ∧
       Forall (λ call, is_TicketDone call = false) task).
  Proof.
    intros Hc task. subst task.
    pose proof (cluster_in_range cluster Hc) as Hin.
    assert (Hrel : List.filter (releases (ClusterQueue cluster) (d, b))
                     (releaseClusterTickets d b) =
                   [TicketDone (ClusterQueue cluster) (d, b)]).
    { unfold releaseClusterTickets.
      rewrite filter_releases_dones by apply NoDup_seq.
      rewrite bool_decide_true by exact Hin. reflexivity. }
    assert (Hplain : Forall (λ call, is_TicketOnCall call = false ∧ is_PixelRoutine call = false)
                       (flat_map all_calls (releaseClusterTickets d b))).
    { apply dones_attach_nothing. }
    split.
    - intros Hcase.
      assert (Htask : batchTask rasterizerDiscard numVisible d b =
                VertexRoutine d b ::
                (if rasterizerDiscard then [] else [SetupPrimitives d b]) ++
                releaseClusterTickets d b).
      { unfold batchTask, processVertices, processPrimitives.
        destruct rasterizerDiscard; [reflexivity|].
        destruct Hcase as [Hd | ->]; [discriminate Hd|]. reflexivity. }
      rewrite Htask. split.
      + destruct rasterizerDiscard; cbn; exact Hrel.
      + destruct rasterizerDiscard; cbn;
          repeat (constructor; [split; reflexivity|]); exact Hplain.
    - intros [-> Hv].
      unfold batchTask, processVertices, processPrimitives. cbn [negb].
      replace (0 <? numVisible)%Z with true by (symmetry; apply Z.ltb_lt, Hv).
      cbn [app List.filter attaches]. unfold processPixels. split.
      + rewrite (filter_attaches_onCalls (d, b) (pixelContinuation d b))
          by apply NoDup_seq.
        rewrite bool_decide_true by exact Hin. reflexivity.
      + repeat (constructor; [reflexivity|]).
        apply (onCalls_release_nothing (d, b) (pixelContinuation d b)).
  Qed.
End TaskFacts.

(** With a cluster count of 16: the task of batch 2 of draw 7, for which
    setup left nothing visible, releases the ticket of cluster 5 once. *)
Lemma batchTask_ticket_discipline_witness :
  5 < @MaxClusterCount binary32 header_constants ∧
  (false = true ∨ 0%Z = 0%Z) ∧
  List.filter (releases (ClusterQueue 5) (7%Z, 2%nat))
    (@batchTask binary32 header_constants false 0 7 2) =
    [TicketDone (ClusterQueue 5) (7%Z, 2%nat)] ∧
  Forall (λ call, is_TicketOnCall call = false ∧ is_PixelRoutine call = false)
    (flat_map all_calls (@batchTask binary32 header_constants false 0 7 2)).
Proof.
  assert (Hc : 5 < @MaxClusterCount binary32 header_constants) by (cbn; lia).
  split; [exact Hc|]. split; [right; reflexivity|].
  exact (proj1 (@batchTask_ticket_discipline binary32 header_constants
                  false 0 7 2 5 Hc) (or_intror eq_refl)).
Defined.

(** ** Interleaved execution: pixel work follows ticket order *)

(** *** Reservation order *)

Lemma ticket_lt_irrefl (a : Ticket) : ¬ ticket_lt a a.
Proof. unfold ticket_lt. lia. Qed.

Lemma ticket_lt_trans (a b c : Ticket) :
  ticket_lt a b → ticket_lt b c → ticket_lt a c.
Proof. unfold ticket_lt. destruct a, b, c; cbn. lia. Qed.

Lemma ticket_lt_asym (a b : Ticket) : ticket_lt a b → ¬ ticket_lt b a.
Proof. unfold ticket_lt. destruct a, b; cbn. lia. Qed.

Lemma ticket_trichotomy (a b : Ticket) : ticket_lt a b ∨ a = b ∨ ticket_lt b a.
Proof.
  unfold ticket_lt. destruct a as [a1 a2], b as [b1 b2]; cbn.
  destruct (Z.lt_trichotomy a1 b1) as [?|[->|?]]; [lia| |lia].
  destruct (Nat.lt_trichotomy a2 b2) as [?|[->|?]]; [lia| |lia].
  right. left. reflexivity.
Qed.

#[local] Instance ticket_lt_transitive : Transitive ticket_lt.
Proof. intros a b c. apply ticket_lt_trans. Qed.

(** *** Sorted lists *)

Lemma sorted_snoc {A : Type} (R : relation A) (l : list A) (x : A) :
  StronglySorted R l → (∀ y, y ∈ l → R y x) → StronglySorted R (l ++ [x]).
Proof.
  intros Hl Hx. apply StronglySorted_app_2.
  - intros y z Hy Hz. apply list_elem_of_singleton in Hz as ->. apply Hx, Hy.
  - exact Hl.
  - repeat constructor.
Qed.

Lemma sorted_head_lt {A : Type} (R : relation A) (x y : A) (l : list A) :
  StronglySorted R (x :: l) → y ∈ l → R x y.
Proof.
  intros Hs Hy. apply StronglySorted_cons in Hs as [Hall _].
  rewrite Forall_forall in Hall. apply Hall, Hy.
Qed.

Lemma sorted_tail {A : Type} (R : relation A) (x : A) (l : list A) :
  StronglySorted R (x :: l) → StronglySorted R l.
Proof. intros Hs. apply StronglySorted_cons in Hs as [_ Hs]. exact Hs. Qed.

Lemma sorted_map_filter {A B : Type} (R : relation B) (f : A → B)
    (g : A → bool) (l : list A) :
  StronglySorted R (map f l) → StronglySorted R (map f (List.filter g l)).
Proof.
  induction l as [|x l IH]; intros Hs; [exact Hs|].
  cbn in Hs. apply StronglySorted_cons in Hs as [Hall Hs].
  cbn. destruct (g x); [|apply IH, Hs].
  cbn. apply StronglySorted_cons. split; [|apply IH, Hs].
  rewrite Forall_forall in Hall |- *. intros y Hy. apply Hall.
  apply list_elem_of_In, in_map_iff in Hy as (z & <- & Hz).
  apply filter_In in Hz as [Hz _].
  apply list_elem_of_In, in_map, Hz.
Qed.

(** Two lists sorted by a strict order, the first with all its elements in
    the second: the first is a subsequence of the second. *)
Lemma sorted_subset_sublist (l1 l2 : list Ticket) :
  StronglySorted ticket_lt l1 → StronglySorted ticket_lt l2 →
  (∀ x, x ∈ l1 → x ∈ l2) → sublist l1 l2.
Proof.
  revert l1. induction l2 as [|y l2 IH]; intros l1 H1 H2 Hsub.
  - destruct l1 as [|x l1]; [constructor|].
    exfalso. specialize (Hsub x (list_elem_of_here _ _)).
    apply elem_of_nil in Hsub. exact Hsub.
  - pose proof (sorted_tail _ _ _ H2) as H2'.
    destruct l1 as [|x l1]; [apply sublist_nil_l|].
    pose proof (sorted_tail _ _ _ H1) as H1'.
    destruct (decide (x = y)) as [->|Hne].
    + apply sublist_skip, IH; [exact H1'|exact H2'|].
      intros z Hz. specialize (Hsub z (list_elem_of_further _ _ _ Hz)).
      apply elem_of_cons in Hsub as [->|Hin]; [|exact Hin].
      exfalso. apply (ticket_lt_irrefl y). apply (sorted_head_lt _ _ _ _ H1 Hz).
    + apply sublist_cons, IH; [exact H1|exact H2'|].
      intros z Hz. specialize (Hsub z Hz) as Hin.
      apply elem_of_cons in Hin as [->|Hin]; [|exact Hin].
      exfalso.
      (* y ∈ x :: l1, y ≠ x, so x < y; x ∈ y :: l2, x ≠ y, so y < x *)
      apply elem_of_cons in Hz as [Heq|Hz]; [congruence|].
      pose proof (sorted_head_lt _ _ _ _ H1 Hz) as Hxy.
      specialize (Hsub x (list_elem_of_here _ _)).
      apply elem_of_cons in Hsub as [Heq|Hx]; [congruence|].
      pose proof (sorted_head_lt _ _ _ _ H2 Hx) as Hyx.
      exact (ticket_lt_asym _ _ Hxy Hyx).
Qed.

(** *** Counting calls *)

Lemma count_app {A : Type} (f : A → bool) (l1 l2 : list A) :
  length (List.filter f (l1 ++ l2)) =
  length (List.filter f l1) + length (List.filter f l2).
Proof. rewrite List.filter_app, length_app. reflexivity. Qed.

Lemma count_elem_of {A : Type} (f : A → bool) (l : list A) (x : A) :
  x ∈ l → f x = true → 1 ≤ length (List.filter f l).
Proof.
  intros Hin Hf. apply list_elem_of_split in Hin as (l1 & l2 & ->).
  rewrite count_app. cbn. rewrite Hf. cbn. lia.
Qed.

Lemma count_none {A : Type} (f : A → bool) (l : list A) :
  (∀ x, x ∈ l → f x = false) → length (List.filter f l) = 0.
Proof.
  induction l as [|x l IH]; intros Hf; [reflexivity|].
  cbn. rewrite (Hf x (list_elem_of_here _ _)).
  apply IH. intros y Hy. apply Hf, list_elem_of_further, Hy.
Qed.

(** *** Projections of call lists *)

Lemma takes_app (q : QueueId) (l1 l2 : list Call) :
  takes q (l1 ++ l2) = takes q l1 ++ takes q l2.
Proof. apply flat_map_app. Qed.

Lemma pixel_log_app (cluster : nat) (l1 l2 : list Call) :
  pixel_log cluster (l1 ++ l2) = pixel_log cluster l1 ++ pixel_log cluster l2.
Proof. apply flat_map_app. Qed.

Lemma scheduled_app (l1 l2 : list Call) :
  scheduled (l1 ++ l2) = scheduled l1 ++ scheduled l2.
Proof. apply flat_map_app. Qed.

Lemma attached_app (q : QueueId) (l1 l2 : list TicketRecord.t) :
  attached q (l1 ++ l2) = attached q l1 ++ attached q l2.
Proof. apply flat_map_app. Qed.

Lemma concat_pool_step (before after : list (list Call)) (call : Call)
    (rest : list Call) :
  concat (before ++ (call :: rest) :: after) =
  concat before ++ call :: rest ++ concat after.
Proof. rewrite concat_app. reflexivity. Qed.

Lemma concat_pool_rest (before after : list (list Call)) (rest : list Call) :
  concat (before ++ rest :: after) = concat before ++ rest ++ concat after.
Proof. rewrite concat_app. reflexivity. Qed.

Lemma plain_no_pixel (thread : list Call) (d : Z) (b cluster : nat) :
  Forall plain thread → PixelRoutine d b cluster ∉ thread.
Proof.
  intros Hp Hin. rewrite Forall_forall in Hp. exact (Hp _ Hin).
Qed.

Lemma count_pool_step (f : Call → bool) (before after : list (list Call))
    (call : Call) (rest : list Call) :
  length (List.filter f (concat (before ++ (call :: rest) :: after))) =
  length (List.filter f (concat (before ++ rest :: after))) + (if f call then 1 else 0).
Proof.
  rewrite concat_pool_step, concat_pool_rest, !count_app.
  change (call :: rest ++ concat after) with ([call] ++ rest ++ concat after).
  rewrite !count_app. cbn [List.filter]. destruct (f call); cbn [length]; lia.
Qed.

(** *** Steps that leave the queues and the logs alone *)

Lemma invariant_frame (s s' : System.t) :
  invariant s →
  Renderer.nextDrawID (System.renderer s') = Renderer.nextDrawID (System.renderer s) →
  World.queues (System.world s') = World.queues (System.world s) →
  Forall thread_ok (World.pool (System.world s')) →
  Forall main_call (System.main s') →
  (∀ q, takes q (World.trace (System.world s')) ++ takes q (System.main s') =
        takes q (World.trace (System.world s)) ++ takes q (System.main s)) →
  (∀ q x, x ∈ takes q (World.trace (System.world s)) →
          x ∈ takes q (World.trace (System.world s'))) →
  (∀ k, pixel_log k (World.trace (System.world s')) =
        pixel_log k (World.trace (System.world s))) →
  (∀ q t, pending q t s' ≤ pending q t s) →
  (∀ d b k, PixelRoutine d b k ∈ concat (World.pool (System.world s')) →
            PixelRoutine d b k ∈ concat (World.pool (System.world s))) →
  (∀ q x, TicketDone q x ∈ concat (World.pool (System.world s)) →
          TicketDone q x ∈ concat (World.pool (System.world s'))) →
  invariant s'.
Proof.
  intros Hinv Hn Hq Hpool Hmain Htakes Htaken Hlog Hpend Hpix Hdone.
  destruct Hinv as [I1 I2 I3 I4 I5 I6 I7 I8 I9 I10 I11 I12 I13 I14].
  constructor.
  - exact Hpool.
  - exact Hmain.
  - intros q r k. rewrite Hq. apply I3.
  - intros q. rewrite Htakes. apply I4.
  - intros q. rewrite Hq. apply I5.
  - intros q r Hr. rewrite Hq in Hr. apply Htaken, I6, Hr.
  - intros k. rewrite Hlog. apply I7.
  - intros k x Hx. rewrite Hlog in Hx. apply Htaken, I8, Hx.
  - intros k x r Hx Hr. rewrite Hlog in Hx. rewrite Hq in Hr. apply (I9 k x r Hx Hr).
  - intros q t. specialize (Hpend q t). specialize (I10 q t). lia.
  - intros d b k Hin. rewrite Hq, Hlog. apply I11, Hpix, Hin.
  - intros k r Hx Hr. rewrite Hlog in Hx. rewrite Hq in Hr.
    apply Hdone, (I12 k r Hx Hr).
  - intros q t Ht. rewrite Htakes in Ht. rewrite Hn. apply (I13 q t Ht).
  - intros q t Hp. rewrite Hn. apply (I14 q t). specialize (Hpend q t). lia.
Qed.

Lemma main_call_cases (call : Call) :
  main_call call →
  collaborator_call call ∨
  (∃ q t, call = TicketTake q t) ∨
  (∃ task, call = Schedule task ∧ Forall plain task).
Proof.
  destruct call; cbn; intros Hc; try contradiction; eauto.
Qed.

Lemma step_main_collaborator (s : System.t) (call : Call) (rest : list Call) :
  invariant s → System.main s = call :: rest → collaborator_call call →
  invariant {| System.renderer := System.renderer s; System.main := rest;
               System.world := perform call (System.world s) |}.
Proof.
  intros Hinv Hmain Hc.
  assert (Hperf : perform call (System.world s) =
            {| World.queues := World.queues (System.world s);
               World.pool := World.pool (System.world s);
               World.trace := World.trace (System.world s) ++ [call] |})
    by (destruct call; cbn in Hc; try contradiction; reflexivity).
  assert (Htk : ∀ q, takes q [call] = [])
    by (intros q; destruct call; cbn in Hc; try contradiction; reflexivity).
  assert (Hpx : ∀ k, pixel_log k [call] = [])
    by (intros k; destruct call; cbn in Hc; try contradiction; reflexivity).
  assert (Hsch : scheduled (call :: rest) = scheduled rest)
    by (destruct call; cbn in Hc; try contradiction; reflexivity).
  apply (invariant_frame s); cbn [System.renderer System.main System.world]; rewrite ?Hperf;
    cbn [World.queues World.pool World.trace]; try reflexivity; try exact Hinv.
  - apply Hinv.
  - pose proof (inv_main s Hinv) as Hm. rewrite Hmain in Hm.
    apply Forall_cons in Hm as [_ Hm]. exact Hm.
  - intros q. rewrite Hmain, takes_app, Htk, app_nil_r.
    change (call :: rest) with ([call] ++ rest). rewrite takes_app, Htk. reflexivity.
  - intros q x Hx. rewrite takes_app. apply elem_of_app. left. exact Hx.
  - intros k. rewrite pixel_log_app, Hpx, app_nil_r. reflexivity.
  - intros q t. unfold pending. cbn [System.main System.world World.pool World.queues].
    rewrite Hmain, Hsch. reflexivity.
  - auto.
  - auto.
Qed.

Lemma step_main_schedule (s : System.t) (task : list Call) (rest : list Call) :
  invariant s → System.main s = Schedule task :: rest → Forall plain task →
  invariant {| System.renderer := System.renderer s; System.main := rest;
               System.world := perform (Schedule task) (System.world s) |}.
Proof.
  intros Hinv Hmain Hplain.
  apply (invariant_frame s); cbn [System.renderer System.main System.world perform
                                  World.queues World.pool World.trace];
    try reflexivity; try exact Hinv.
  - apply Forall_app. split; [apply Hinv|]. constructor; [|constructor].
    left. exact Hplain.
  - pose proof (inv_main s Hinv) as Hm. rewrite Hmain in Hm.
    apply Forall_cons in Hm as [_ Hm]. exact Hm.
  - intros q. rewrite Hmain, takes_app. cbn. rewrite app_nil_r. reflexivity.
  - intros q x Hx. rewrite takes_app. apply elem_of_app. left. exact Hx.
  - intros k. rewrite pixel_log_app. cbn. rewrite app_nil_r. reflexivity.
  - intros q t. unfold pending. cbn [System.main System.world World.pool World.queues].
    rewrite Hmain. cbn [scheduled flat_map]. fold (scheduled rest).
    rewrite concat_app. cbn [concat]. rewrite app_nil_r.
    rewrite !count_app. lia.
  - intros d b k Hin. rewrite concat_app in Hin. cbn in Hin.
    rewrite app_nil_r in Hin. apply elem_of_app in Hin as [Hin|Hin]; [exact Hin|].
    exfalso. exact (plain_no_pixel _ _ _ _ Hplain Hin).
  - intros q x Hin. rewrite concat_app. apply elem_of_app. left. exact Hin.
Qed.

(** A thread that is about to make a plain call is what is left of a batch
    task, and so is what it has left after the call. *)
Lemma thread_ok_plain_head (call : Call) (rest : list Call) :
  thread_ok (call :: rest) → plain call → Forall plain rest.
Proof.
  intros [Hp | (d & b & k & Heq)] Hc.
  - apply Forall_cons in Hp as [_ Hp]. exact Hp.
  - injection Heq as -> _. contradiction Hc.
Qed.

Lemma thread_ok_cases (call : Call) (rest : list Call) :
  thread_ok (call :: rest) →
  (plain call ∧ Forall plain rest) ∨
  (∃ d b k, call = PixelRoutine d b k ∧ rest = [TicketDone (ClusterQueue k) (d, b)]).
Proof.
  intros [Hp | (d & b & k & Heq)].
  - left. apply Forall_cons in Hp. exact Hp.
  - right. exists d, b, k. injection Heq as -> ->. split; reflexivity.
Qed.

Lemma pool_step_ok (before after : list (list Call)) (call : Call) (rest : list Call) :
  Forall thread_ok (before ++ (call :: rest) :: after) →
  thread_ok rest →
  Forall thread_ok (before ++ rest :: after).
Proof.
  intros Hall Hrest. apply Forall_app in Hall as [Hb Ha].
  apply Forall_cons in Ha as [_ Ha].
  apply Forall_app. split; [exact Hb|]. constructor; [exact Hrest|exact Ha].
Qed.

Lemma step_worker_routine (s : System.t) (before after : list (list Call))
    (call : Call) (rest : list Call) :
  invariant s →
  World.pool (System.world s) = before ++ (call :: rest) :: after →
  (∃ d b, call = VertexRoutine d b ∨ call = SetupPrimitives d b) →
  invariant {| System.renderer := System.renderer s; System.main := System.main s;
               System.world :=
                 perform call
                   {| World.queues := World.queues (System.world s);
                      World.pool := before ++ rest :: after;
                      World.trace := World.trace (System.world s) |} |}.
Proof.
  intros Hinv Hpool (d & b & Hcall).
  assert (Hplain : plain call) by (destruct Hcall as [-> | ->]; exact I).
  pose proof (inv_pool s Hinv) as Hok. rewrite Hpool in Hok.
  assert (Hthread : thread_ok (call :: rest)).
  { apply Forall_app in Hok as [_ Hok]. apply Forall_cons in Hok as [Hok _]. exact Hok. }
  pose proof (thread_ok_plain_head _ _ Hthread Hplain) as Hrest.
  assert (Hperf : ∀ w, perform call w =
            {| World.queues := World.queues w; World.pool := World.pool w;
               World.trace := World.trace w ++ [call] |})
    by (intros w; destruct Hcall as [-> | ->]; reflexivity).
  assert (Htk : ∀ q, takes q [call] = [])
    by (intros q; destruct Hcall as [-> | ->]; reflexivity).
  assert (Hpx : ∀ k, pixel_log k [call] = [])
    by (intros k; destruct Hcall as [-> | ->]; reflexivity).
  assert (Htouch : ∀ q t, touches q t call = false)
    by (intros q t; destruct Hcall as [-> | ->]; reflexivity).
  rewrite Hperf.
  apply (invariant_frame s); cbn [System.renderer System.main System.world
                                  World.queues World.pool World.trace];
    try reflexivity; try exact Hinv.
  - apply (pool_step_ok _ _ _ _ Hok). left. exact Hrest.
  - apply Hinv.
  - intros q. rewrite takes_app, Htk, app_nil_r. reflexivity.
  - intros q x Hx. rewrite takes_app. apply elem_of_app. left. exact Hx.
  - intros k. rewrite pixel_log_app, Hpx, app_nil_r. reflexivity.
  - intros q t. unfold pending. cbn [System.main System.world World.pool World.queues].
    rewrite Hpool, !count_app, (count_pool_step _ before after call), Htouch. cbv iota. lia.
  - intros d' b' k Hin. rewrite Hpool, concat_pool_step.
    rewrite concat_pool_rest in Hin.
    apply elem_of_app in Hin as [Hin|Hin]; apply elem_of_app; [left; exact Hin|right].
    apply list_elem_of_further. exact Hin.
  - intros q x Hin. rewrite Hpool, concat_pool_step in Hin. rewrite concat_pool_rest.
    apply elem_of_app in Hin as [Hin|Hin]; apply elem_of_app; [left; exact Hin|right].
    apply elem_of_cons in Hin as [Heq|Hin]; [|exact Hin].
    destruct Hcall as [-> | ->]; discriminate Heq.
Qed.

(** *** Taking a ticket *)

Lemma takes_take (q q0 : QueueId) (t : Ticket) :
  takes q [TicketTake q0 t] = if decide (q0 = q) then [t] else [].
Proof. cbn. destruct (decide (q0 = q)); reflexivity. Qed.

Lemma step_main_take (s : System.t) (q0 : QueueId) (t : Ticket) (rest : list Call) :
  invariant s → System.main s = TicketTake q0 t :: rest →
  invariant {| System.renderer := System.renderer s; System.main := rest;
               System.world := perform (TicketTake q0 t) (System.world s) |}.
Proof.
  intros Hinv Hmain.
  destruct Hinv as [I1 I2 I3 I4 I5 I6 I7 I8 I9 I10 I11 I12 I13 I14].
  set (w := System.world s) in *.
  assert (Hsame : ∀ q, takes q (World.trace w ++ [TicketTake q0 t]) ++ takes q rest =
                       takes q (World.trace w) ++ takes q (System.main s)).
  { intros q. rewrite Hmain, takes_app, <- app_assoc.
    change (TicketTake q0 t :: rest) with ([TicketTake q0 t] ++ rest).
    rewrite (takes_app q [TicketTake q0 t]). reflexivity. }
  assert (Hold : ∀ y, y ∈ takes q0 (World.trace w) → ticket_lt y t).
  { intros y Hy. specialize (I4 q0). rewrite Hmain in I4.
    apply (StronglySorted_app_1_elem_of _ _ _ _ _ I4 Hy).
    cbn. rewrite decide_True by reflexivity. apply list_elem_of_here. }
  assert (Hqueue : ∀ q, (<[q0 := ticket_take (World.queues w q0) t]> (World.queues w)) q =
                        if decide (q0 = q) then World.queues w q ++
                          [{| TicketRecord.ticket := t; TicketRecord.onCall := None |}]
                        else World.queues w q).
  { intros q. destruct (decide (q0 = q)) as [<-|Hne].
    - rewrite fn_lookup_insert. reflexivity.
    - rewrite fn_lookup_insert_ne by exact Hne. reflexivity. }
  constructor; cbn [System.renderer System.main System.world perform
                    World.queues World.pool World.trace]; fold w.
  - exact I1.
  - rewrite Hmain in I2. apply Forall_cons in I2 as [_ I2]. exact I2.
  - intros q r k Hr Hk. rewrite Hqueue in Hr.
    destruct (decide (q0 = q)) as [<-|Hne]; [|exact (I3 q r k Hr Hk)].
    apply elem_of_app in Hr as [Hr|Hr]; [exact (I3 q0 r k Hr Hk)|].
    apply list_elem_of_singleton in Hr as ->. discriminate Hk.
  - intros q. rewrite Hsame. apply I4.
  - intros q. rewrite Hqueue.
    destruct (decide (q0 = q)) as [<-|Hne]; [|apply I5].
    rewrite map_app. cbn [map TicketRecord.ticket].
    apply sorted_snoc; [apply I5|].
    intros y Hy. apply Hold.
    apply list_elem_of_In, in_map_iff in Hy as (r & <- & Hr).
    apply I6, list_elem_of_In, Hr.
  - intros q r Hr. rewrite Hqueue in Hr. rewrite takes_app. apply elem_of_app.
    destruct (decide (q0 = q)) as [<-|Hne]; [|left; apply I6, Hr].
    apply elem_of_app in Hr as [Hr|Hr]; [left; apply I6, Hr|right].
    apply list_elem_of_singleton in Hr as ->. rewrite takes_take.
    rewrite decide_True by reflexivity. apply list_elem_of_here.
  - intros k. rewrite pixel_log_app. cbn. rewrite app_nil_r. apply I7.
  - intros k x Hx. rewrite pixel_log_app in Hx. cbn in Hx. rewrite app_nil_r in Hx.
    rewrite takes_app. apply elem_of_app. left. apply I8, Hx.
  - intros k x r Hx Hr. rewrite pixel_log_app in Hx. cbn in Hx. rewrite app_nil_r in Hx.
    rewrite Hqueue in Hr.
    destruct (decide (q0 = ClusterQueue k)) as [Heq|Hne]; [|exact (I9 k x r Hx Hr)].
    apply elem_of_app in Hr as [Hr|Hr]; [exact (I9 k x r Hx Hr)|].
    apply list_elem_of_singleton in Hr as ->. right. cbn.
    apply Hold. rewrite Heq. apply I8, Hx.
  - intros q tt. specialize (I10 q tt). unfold pending in I10 |- *.
    cbn [System.main System.world World.pool World.queues]. fold w in I10.
    rewrite Hmain in I10. cbn [scheduled flat_map app] in I10. fold (scheduled rest) in I10.
    rewrite Hqueue.
    destruct (decide (q0 = q)) as [<-|Hne]; [|exact I10].
    rewrite attached_app. cbn [attached flat_map TicketRecord.onCall]. rewrite !app_nil_r.
    exact I10.
  - intros d b k Hin. destruct (I11 d b k Hin) as [(r & rs & Hq & Hr) Hlt].
    split.
    + rewrite Hqueue. destruct (decide (q0 = ClusterQueue k)) as [Heq|Hne].
      * exists r, (rs ++ [{| TicketRecord.ticket := t; TicketRecord.onCall := None |}]).
        rewrite Hq. split; [reflexivity|exact Hr].
      * exists r, rs. split; [exact Hq|exact Hr].
    + intros x Hx. rewrite pixel_log_app in Hx. cbn in Hx. rewrite app_nil_r in Hx.
      apply Hlt, Hx.
  - intros k r Hx Hr. rewrite pixel_log_app in Hx. cbn in Hx. rewrite app_nil_r in Hx.
    rewrite Hqueue in Hr.
    destruct (decide (q0 = ClusterQueue k)) as [Heq|Hne]; [|exact (I12 k r Hx Hr)].
    apply elem_of_app in Hr as [Hr|Hr]; [exact (I12 k r Hx Hr)|].
    apply list_elem_of_singleton in Hr as ->. cbn in Hx. exfalso.
    apply (ticket_lt_irrefl t), Hold. rewrite Heq. apply I8, Hx.
  - intros q tt Ht. rewrite Hsame in Ht. apply (I13 q tt Ht).
  - intros q tt Hp. apply (I14 q tt).
    unfold pending in Hp |- *.
    cbn [System.main System.world World.pool World.queues] in Hp. fold w.
    rewrite Hmain. cbn [scheduled flat_map app]. fold (scheduled rest).
    rewrite Hqueue in Hp.
    destruct (decide (q0 = q)) as [<-|Hne]; [|exact Hp].
    rewrite attached_app in Hp. cbn [attached flat_map TicketRecord.onCall] in Hp.
    rewrite !app_nil_r in Hp. exact Hp.
Qed.

(** *** Running a pixel routine *)

Lemma pixel_log_pixel (k : nat) (d : Z) (b k0 : nat) :
  pixel_log k [PixelRoutine d b k0] = if decide (k0 = k) then [(d, b)] else [].
Proof. cbn. destruct (decide (k0 = k)); reflexivity. Qed.

(** A pixel routine waiting in the pool has the [done()] of its ticket behind
    it. *)
Lemma pixel_has_done (pool : list (list Call)) (d : Z) (b k : nat) :
  Forall thread_ok pool →
  PixelRoutine d b k ∈ concat pool →
  TicketDone (ClusterQueue k) (d, b) ∈ concat pool.
Proof.
  intros Hok Hin.
  apply list_elem_of_In, in_concat in Hin as (th & Hth & Hin).
  apply list_elem_of_In in Hth, Hin.
  rewrite Forall_forall in Hok. destruct (Hok th Hth) as [Hp | (d' & b' & k' & ->)].
  - exfalso. exact (plain_no_pixel _ _ _ _ Hp Hin).
  - apply list_elem_of_In, in_concat.
    exists (pixelContinuation d' b' k'). split; [apply list_elem_of_In, Hth|].
    unfold pixelContinuation in Hin |- *.
    apply elem_of_cons in Hin as [Heq|Hin].
    + injection Heq as -> -> ->. right. left. reflexivity.
    + apply list_elem_of_singleton in Hin. discriminate Hin.
Qed.

Lemma touches_done (q : QueueId) (t : Ticket) : touches q t (TicketDone q t) = true.
Proof. unfold touches. cbn. rewrite bool_decide_true by auto. reflexivity. Qed.

Lemma step_worker_pixel (s : System.t) (before after : list (list Call))
    (d : Z) (b k : nat) :
  invariant s →
  World.pool (System.world s) =
    before ++ (PixelRoutine d b k :: [TicketDone (ClusterQueue k) (d, b)]) :: after →
  invariant {| System.renderer := System.renderer s; System.main := System.main s;
               System.world :=
                 perform (PixelRoutine d b k)
                   {| World.queues := World.queues (System.world s);
                      World.pool := before ++ [TicketDone (ClusterQueue k) (d, b)] :: after;
                      World.trace := World.trace (System.world s) |} |}.
Proof.
  intros Hinv Hpool.
  destruct Hinv as [I1 I2 I3 I4 I5 I6 I7 I8 I9 I10 I11 I12 I13 I14].
  set (w := System.world s) in *.
  assert (Hhere : PixelRoutine d b k ∈ concat (World.pool w)).
  { rewrite Hpool, concat_pool_step. apply elem_of_app. right. apply list_elem_of_here. }
  destruct (I11 d b k Hhere) as [(r & rs & Hq & Hr) Hlt].
  assert (Hold : ∀ c, c ∈ concat (before ++ [TicketDone (ClusterQueue k) (d, b)] :: after) →
                      c ∈ concat (World.pool w)).
  { intros c Hc. rewrite Hpool, concat_pool_step. rewrite concat_pool_rest in Hc.
    apply elem_of_app in Hc as [Hc|Hc]; apply elem_of_app; [left; exact Hc|right].
    apply list_elem_of_further. exact Hc. }
  assert (Hok' : Forall thread_ok (before ++ [TicketDone (ClusterQueue k) (d, b)] :: after)).
  { rewrite Hpool in I1. apply (pool_step_ok _ _ _ _ I1). left.
    constructor; [exact I|constructor]. }
  assert (Hpend : ∀ q' t, pending q' t
            {| System.renderer := System.renderer s; System.main := System.main s;
               System.world :=
                 {| World.queues := World.queues w;
                    World.pool := before ++ [TicketDone (ClusterQueue k) (d, b)] :: after;
                    World.trace := World.trace w ++ [PixelRoutine d b k] |} |} =
            pending q' t s).
  { intros q' t. unfold pending. cbn [System.main System.world World.pool World.queues].
    fold w. rewrite Hpool, !count_app.
    rewrite (count_pool_step _ before after (PixelRoutine d b k)).
    change (touches q' t (PixelRoutine d b k)) with false. cbv iota. lia. }
  constructor; cbn [System.renderer System.main System.world perform
                    World.queues World.pool World.trace]; fold w.
  - exact Hok'.
  - exact I2.
  - exact I3.
  - intros q'. rewrite takes_app. cbn. rewrite app_nil_r. apply I4.
  - exact I5.
  - intros q' r' Hr'. rewrite takes_app. apply elem_of_app. left. apply I6, Hr'.
  - intros k'. rewrite pixel_log_app, pixel_log_pixel.
    destruct (decide (k = k')) as [<-|Hne]; [|rewrite app_nil_r; apply I7].
    apply sorted_snoc; [apply I7|exact Hlt].
  - intros k' x Hx. rewrite takes_app. apply elem_of_app. left.
    rewrite pixel_log_app, pixel_log_pixel in Hx.
    destruct (decide (k = k')) as [<-|Hne];
      [|rewrite app_nil_r in Hx; apply I8, Hx].
    apply elem_of_app in Hx as [Hx|Hx]; [apply I8, Hx|].
    apply list_elem_of_singleton in Hx as ->. rewrite <- Hr.
    apply I6. rewrite Hq. apply list_elem_of_here.
  - intros k' x r' Hx Hr'. rewrite pixel_log_app, pixel_log_pixel in Hx.
    destruct (decide (k = k')) as [<-|Hne];
      [|rewrite app_nil_r in Hx; exact (I9 k' x r' Hx Hr')].
    apply elem_of_app in Hx as [Hx|Hx]; [exact (I9 k x r' Hx Hr')|].
    apply list_elem_of_singleton in Hx as ->.
    rewrite Hq in Hr'.
    apply elem_of_cons in Hr' as [->|Hr']; [left; symmetry; exact Hr|right].
    specialize (I5 (ClusterQueue k)). rewrite Hq in I5. cbn [map] in I5. rewrite Hr in I5.
    apply (sorted_head_lt _ _ _ _ I5).
    apply list_elem_of_In, in_map, list_elem_of_In, Hr'.
  - intros q' t. rewrite Hpend. apply I10.
  - intros d' b' k' Hin. pose proof (Hold _ Hin) as Hin0.
    destruct (I11 d' b' k' Hin0) as [Hhead Hlt'].
    split; [exact Hhead|].
    intros x Hx. rewrite pixel_log_app, pixel_log_pixel in Hx.
    destruct (decide (k = k')) as [<-|Hne];
      [|rewrite app_nil_r in Hx; apply Hlt', Hx].
    exfalso.
    destruct Hhead as (r' & rs' & Hq' & Hr'). rewrite Hq in Hq'.
    injection Hq' as <- <-. rewrite Hr in Hr'. injection Hr' as <- <-.
    pose proof (pixel_has_done _ _ _ _ Hok' Hin) as Hdone.
    specialize (I10 (ClusterQueue k) (d, b)). unfold pending in I10. fold w in I10.
    rewrite Hpool, !count_app in I10.
    rewrite (count_pool_step _ before after (PixelRoutine d b k)) in I10.
    rewrite concat_pool_rest, !count_app in I10.
    cbn [List.filter] in I10. rewrite touches_done in I10. cbn [length] in I10.
    rewrite concat_pool_rest in Hin.
    apply elem_of_app in Hin as [Hin|Hin].
    + assert (Hd : TicketDone (ClusterQueue k) (d, b) ∈ concat before).
      { apply (pixel_has_done before); [|exact Hin].
        apply Forall_app in Hok' as [Hb _]. exact Hb. }
      pose proof (count_elem_of _ _ _ Hd (touches_done (ClusterQueue k) (d, b))). lia.
    + apply elem_of_cons in Hin as [Heq|Hin]; [discriminate Heq|].
      assert (Hd : TicketDone (ClusterQueue k) (d, b) ∈ concat after).
      { apply (pixel_has_done after); [|exact Hin].
        apply Forall_app in Hok' as [_ Ha]. apply Forall_cons in Ha as [_ Ha]. exact Ha. }
      pose proof (count_elem_of _ _ _ Hd (touches_done (ClusterQueue k) (d, b))). lia.
  - intros k' r' Hx Hr'. rewrite pixel_log_app, pixel_log_pixel in Hx.
    assert (Hkeep : ∀ c, c ∈ concat (World.pool w) → c ≠ PixelRoutine d b k →
                         c ∈ concat (before ++ [TicketDone (ClusterQueue k) (d, b)] :: after)).
    { intros c Hc Hne. rewrite Hpool, concat_pool_step in Hc. rewrite concat_pool_rest.
      apply elem_of_app in Hc as [Hc|Hc]; apply elem_of_app; [left; exact Hc|right].
      apply elem_of_cons in Hc as [Heq|Hc]; [contradiction|exact Hc]. }
    destruct (decide (k = k')) as [<-|Hne].
    + apply elem_of_app in Hx as [Hx|Hx].
      * apply Hkeep; [exact (I12 k r' Hx Hr')|discriminate].
      * apply list_elem_of_singleton in Hx. rewrite Hx.
        rewrite concat_pool_rest. apply elem_of_app. right. apply list_elem_of_here.
    + rewrite app_nil_r in Hx. apply Hkeep; [exact (I12 k' r' Hx Hr')|discriminate].
  - intros q' t Ht. rewrite takes_app in Ht. cbn in Ht. rewrite app_nil_r in Ht.
    apply (I13 q' t Ht).
  - intros q' t Hp. rewrite Hpend in Hp. apply (I14 q' t Hp).
Qed.

(** *** Steps of a batch task on a cluster queue *)

(** A plain call of a thread changes the queue of one cluster from [Q] to
    [Q'] and hands [woken] over to the pool.  The conditions say how [Q'] and
    [woken] relate to the state before. *)
Lemma invariant_queue_step (s : System.t) (before after : list (list Call))
    (call : Call) (rest : list Call) (k : nat)
    (Q' : list TicketRecord.t) (woken : list (list Call)) :
  let w := System.world s in
  let q := ClusterQueue k in
  let Q := World.queues w q in
  let L := pixel_log k (World.trace w) in
  invariant s →
  World.pool w = before ++ (call :: rest) :: after →
  Forall plain rest →
  (∀ q0, takes q0 [call] = []) →
  (∀ k0, pixel_log k0 [call] = []) →
  (∀ k0 x, k0 ≠ k → call ≠ TicketDone (ClusterQueue k0) x) →
  Forall thread_ok woken →
  (∀ r', r' ∈ Q' → ∃ r, r ∈ Q ∧ TicketRecord.ticket r' = TicketRecord.ticket r) →
  StronglySorted ticket_lt (map TicketRecord.ticket Q') →
  (∀ r' c', r' ∈ Q' → TicketRecord.onCall r' = Some c' →
     c' = pixelContinuation (TicketRecord.ticket r').1 (TicketRecord.ticket r').2 k) →
  (∀ tt, length (List.filter (touches q tt) (attached q Q')) +
         length (List.filter (touches q tt) (concat woken)) ≤
         length (List.filter (touches q tt) (attached q Q)) +
         (if touches q tt call then 1 else 0)) →
  (∀ q0 tt, q0 ≠ q → length (List.filter (touches q0 tt) (concat woken)) = 0) →
  (∀ d b k0, PixelRoutine d b k0 ∈ concat woken →
     k0 = k ∧ (∃ r rs, Q' = r :: rs ∧ TicketRecord.ticket r = (d, b)) ∧
     ∀ x, x ∈ L → ticket_lt x (d, b)) →
  (∀ d b, PixelRoutine d b k ∈ concat (before ++ rest :: after) →
     ∃ r rs, Q' = r :: rs ∧ TicketRecord.ticket r = (d, b)) →
  (∀ r', r' ∈ Q' → TicketRecord.ticket r' ∈ L →
     TicketDone q (TicketRecord.ticket r') ∈ concat (before ++ rest :: after) ++ concat woken) →
  invariant {| System.renderer := System.renderer s; System.main := System.main s;
               System.world :=
                 {| World.queues := <[q := Q']> (World.queues w);
                    World.pool := (before ++ rest :: after) ++ woken;
                    World.trace := World.trace w ++ [call] |} |}.
Proof.
  intros w q Q L Hinv Hpool Hrest Htk Hpx Hother Hwok Htick Hsort Hcont Hpend Hpend0
    Hpixw Hhead Hdone.
  destruct Hinv as [I1 I2 I3 I4 I5 I6 I7 I8 I9 I10 I11 I12 I13 I14].
  fold w in I1, I3, I4, I5, I6, I7, I8, I9, I11, I12, I13.
  assert (Hqueue : ∀ q0, (<[q := Q']> (World.queues w)) q0 =
                         if decide (q = q0) then Q' else World.queues w q0).
  { intros q0. destruct (decide (q = q0)) as [<-|Hne].
    - rewrite fn_lookup_insert. reflexivity.
    - rewrite fn_lookup_insert_ne by exact Hne. reflexivity. }
  assert (Hpart : Forall thread_ok (before ++ rest :: after)).
  { rewrite Hpool in I1. apply (pool_step_ok _ _ _ _ I1). left. exact Hrest. }
  assert (Hsub : ∀ c, c ∈ concat (before ++ rest :: after) → c ∈ concat (World.pool w)).
  { intros c Hc. rewrite Hpool, concat_pool_step. rewrite concat_pool_rest in Hc.
    apply elem_of_app in Hc as [Hc|Hc]; apply elem_of_app; [left; exact Hc|right].
    apply list_elem_of_further. exact Hc. }
  assert (Hkeep : ∀ c, c ∈ concat (World.pool w) → c ≠ call →
                       c ∈ concat (before ++ rest :: after)).
  { intros c Hc Hne. rewrite Hpool, concat_pool_step in Hc. rewrite concat_pool_rest.
    apply elem_of_app in Hc as [Hc|Hc]; apply elem_of_app; [left; exact Hc|right].
    apply elem_of_cons in Hc as [Heq|Hc]; [contradiction|exact Hc]. }
  assert (Hle : ∀ q0 tt,
            pending q0 tt
              {| System.renderer := System.renderer s; System.main := System.main s;
                 System.world :=
                   {| World.queues := <[q := Q']> (World.queues w);
                      World.pool := (before ++ rest :: after) ++ woken;
                      World.trace := World.trace w ++ [call] |} |}
            ≤ pending q0 tt s).
  { intros q0 tt. unfold pending.
    cbn [System.main System.world World.pool World.queues]. fold w.
    rewrite Hpool, Hqueue, concat_app, !count_app.
    rewrite (count_pool_step _ before after call).
    destruct (decide (q = q0)) as [<-|Hne].
    - specialize (Hpend tt). fold Q. lia.
    - rewrite (Hpend0 q0 tt) by congruence. lia. }
  constructor; cbn [System.renderer System.main System.world
                    World.queues World.pool World.trace].
  - apply Forall_app. split; [exact Hpart|exact Hwok].
  - exact I2.
  - intros q0 r' c' Hr' Hc'. rewrite Hqueue in Hr'.
    destruct (decide (q = q0)) as [<-|Hne]; [|exact (I3 q0 r' c' Hr' Hc')].
    exists k. split; [reflexivity|]. exact (Hcont r' c' Hr' Hc').
  - intros q0. rewrite takes_app, Htk, app_nil_r. apply I4.
  - intros q0. rewrite Hqueue. destruct (decide (q = q0)); [exact Hsort|apply I5].
  - intros q0 r' Hr'. rewrite takes_app, Htk, app_nil_r. rewrite Hqueue in Hr'.
    destruct (decide (q = q0)) as [<-|Hne]; [|apply I6, Hr'].
    destruct (Htick r' Hr') as (r & Hr & ->). apply I6, Hr.
  - intros k0. rewrite pixel_log_app, Hpx, app_nil_r. apply I7.
  - intros k0 x Hx. rewrite pixel_log_app, Hpx, app_nil_r in Hx.
    rewrite takes_app, Htk, app_nil_r. apply I8, Hx.
  - intros k0 x r' Hx Hr'. rewrite pixel_log_app, Hpx, app_nil_r in Hx.
    rewrite Hqueue in Hr'.
    destruct (decide (q = ClusterQueue k0)) as [Heq|Hne]; [|exact (I9 k0 x r' Hx Hr')].
    injection Heq as <-.
    destruct (Htick r' Hr') as (r & Hr & ->). exact (I9 k x r Hx Hr).
  - intros q0 tt. specialize (Hle q0 tt). specialize (I10 q0 tt). lia.
  - intros d b k0 Hin. rewrite concat_app in Hin.
    rewrite pixel_log_app, Hpx, app_nil_r, Hqueue.
    apply elem_of_app in Hin as [Hin|Hin].
    + destruct (I11 d b k0 (Hsub _ Hin)) as [Hh Hlt].
      split; [|exact Hlt].
      destruct (decide (q = ClusterQueue k0)) as [Heq|Hne]; [|exact Hh].
      injection Heq as <-. apply Hhead, Hin.
    + destruct (Hpixw d b k0 Hin) as (-> & Hh & Hlt).
      rewrite decide_True by reflexivity. split; [exact Hh|exact Hlt].
  - intros k0 r' Hx Hr'. rewrite pixel_log_app, Hpx, app_nil_r in Hx.
    rewrite Hqueue in Hr'. rewrite concat_app.
    destruct (decide (q = ClusterQueue k0)) as [Heq|Hne].
    + injection Heq as <-. apply Hdone; [exact Hr'|exact Hx].
    + apply elem_of_app. left. apply Hkeep; [exact (I12 k0 r' Hx Hr')|].
      intros Heq. apply (Hother k0 (TicketRecord.ticket r')); [|symmetry; exact Heq].
      intros ->. apply Hne. reflexivity.
  - intros q0 tt Ht. rewrite takes_app, Htk, app_nil_r in Ht. apply (I13 q0 tt Ht).
  - intros q0 tt Hp. apply (I14 q0 tt). specialize (Hle q0 tt). lia.
Qed.

(** *** Releasing a ticket *)

Lemma count_attached_filter (q : QueueId) (tt : Ticket) (g : TicketRecord.t → bool)
    (l : list TicketRecord.t) :
  length (List.filter (touches q tt) (attached q (List.filter g l))) ≤
  length (List.filter (touches q tt) (attached q l)).
Proof.
  induction l as [|r l IH]; [reflexivity|].
  cbn [List.filter].
  assert (Hr : length (List.filter (touches q tt) (attached q (r :: l))) =
               length (List.filter (touches q tt) (attached q [r])) +
               length (List.filter (touches q tt) (attached q l))).
  { change (r :: l) with ([r] ++ l). rewrite attached_app, count_app. reflexivity. }
  rewrite Hr. destruct (g r); [|lia].
  change (r :: List.filter g l) with ([r] ++ List.filter g l).
  rewrite attached_app, count_app. lia.
Qed.

Lemma ticket_done_props (Q : list TicketRecord.t) (t : Ticket) :
  StronglySorted ticket_lt (map TicketRecord.ticket Q) →
  let Q' := (ticket_done Q t).1 in
  let woken := (ticket_done Q t).2 in
  (∀ r', r' ∈ Q' →
     TicketRecord.ticket r' ≠ t ∧
     ∃ r, r ∈ Q ∧ TicketRecord.ticket r' = TicketRecord.ticket r ∧
          (TicketRecord.onCall r' = TicketRecord.onCall r ∨ TicketRecord.onCall r' = None)) ∧
  StronglySorted ticket_lt (map TicketRecord.ticket Q') ∧
  ((woken = [] ∧
    ∀ q tt, length (List.filter (touches q tt) (attached q Q')) ≤
            length (List.filter (touches q tt) (attached q Q))) ∨
   (∃ h n rs cont, Q = h :: n :: rs ∧ TicketRecord.ticket h = t ∧
      TicketRecord.onCall n = Some cont ∧ woken = [cont] ∧
      Q' = {| TicketRecord.ticket := TicketRecord.ticket n;
              TicketRecord.onCall := None |} :: rs)) ∧
  (∀ h rs, Q = h :: rs → TicketRecord.ticket h ≠ t → ∃ rs', Q' = h :: rs').
Proof.
  intros Hs Q' woken. subst Q' woken.
  destruct Q as [|h rs]; cbn [ticket_done].
  { cbn. split; [intros r' Hr'; apply elem_of_nil in Hr'; contradiction|].
    split; [constructor|]. split; [left; split; [reflexivity|intros; reflexivity]|].
    intros h rs Heq. discriminate Heq. }
  cbn [map] in Hs.
  pose proof (sorted_tail _ _ _ Hs) as Hs'.
  assert (Hgt : ∀ r, r ∈ rs → ticket_lt (TicketRecord.ticket h) (TicketRecord.ticket r)).
  { intros r Hr. apply (sorted_head_lt _ _ _ _ Hs).
    apply list_elem_of_In, in_map, list_elem_of_In, Hr. }
  destruct (decide (TicketRecord.ticket h = t)) as [Heq|Hne].
  - assert (Hnot : ∀ r, r ∈ rs → TicketRecord.ticket r ≠ t).
    { intros r Hr Hrt. specialize (Hgt r Hr). rewrite Heq, Hrt in Hgt.
      exact (ticket_lt_irrefl _ Hgt). }
    destruct rs as [|n rs'].
    + cbn. split; [intros r' Hr'; apply elem_of_nil in Hr'; contradiction|].
      split; [constructor|]. split; [left; split; [reflexivity|]|].
      * intros q tt. cbn. lia.
      * intros h' rs' Hq Hh. injection Hq as <- <-. contradiction.
    + destruct (TicketRecord.onCall n) as [cont|] eqn:Hn; cbn [fst snd].
      * split.
        { intros r' Hr'. apply elem_of_cons in Hr' as [->|Hr'].
          - cbn. split; [apply (Hnot n), list_elem_of_here|].
            exists n. split; [apply list_elem_of_further, list_elem_of_here|].
            split; [reflexivity|right; reflexivity].
          - split; [apply (Hnot r'), list_elem_of_further, Hr'|].
            exists r'. split; [do 2 apply list_elem_of_further; exact Hr'|].
            split; [reflexivity|left; reflexivity]. }
        split; [exact Hs'|]. split.
        { right. exists h, n, rs', cont. repeat split; assumption. }
        intros h' rs'' Hq Hh. injection Hq as <- <-. contradiction.
      * split.
        { intros r' Hr'. split; [apply (Hnot r'), Hr'|].
          exists r'. split; [apply list_elem_of_further, Hr'|].
          split; [reflexivity|left; reflexivity]. }
        split; [exact Hs'|]. split.
        { left. split; [reflexivity|]. intros q tt.
          change (h :: n :: rs') with ([h] ++ n :: rs').
          rewrite attached_app, count_app. lia. }
        intros h' rs'' Hq Hh. injection Hq as <- <-. contradiction.
  - cbn [fst snd]. split.
    { intros r' Hr'. apply elem_of_cons in Hr' as [->|Hr'].
      - split; [exact Hne|]. exists h. split; [apply list_elem_of_here|].
        split; [reflexivity|left; reflexivity].
      - apply list_elem_of_In, filter_In in Hr' as [Hr' Hf].
        apply negb_true_iff, bool_decide_eq_false in Hf.
        split; [exact Hf|]. exists r'.
        split; [apply list_elem_of_further, list_elem_of_In, Hr'|].
        split; [reflexivity|left; reflexivity]. }
    split.
    { cbn [map]. apply StronglySorted_cons. split.
      - rewrite Forall_forall. intros y Hy.
        apply list_elem_of_In, in_map_iff in Hy as (r & <- & Hr).
        apply filter_In in Hr as [Hr _]. apply Hgt, list_elem_of_In, Hr.
      - apply sorted_map_filter, Hs'. }
    split.
    { left. split; [reflexivity|]. intros q tt.
      change (h :: rs) with ([h] ++ rs).
      change (h :: List.filter ?g rs) with ([h] ++ List.filter g rs).
      rewrite !attached_app, !count_app.
      pose proof (count_attached_filter q tt
                    (λ r, negb (bool_decide (TicketRecord.ticket r = t))) rs). lia. }
    intros h' rs' Hq Hh. injection Hq as <- <-. eexists. reflexivity.
Qed.

Lemma touches_onCall (q q' : QueueId) (tt t' : Ticket) (c : list Call) :
  touches q tt (TicketOnCall q' t' c) = touches q tt (TicketDone q' t').
Proof. unfold touches. cbn. rewrite orb_false_r. reflexivity. Qed.

Lemma touches_other_queue (q q' : QueueId) (tt t' : Ticket) :
  q' ≠ q → touches q tt (TicketDone q' t') = false.
Proof.
  intros Hne. unfold touches. cbn. rewrite orb_false_r.
  apply bool_decide_eq_false. intros [Heq _]. contradiction.
Qed.

Lemma count_pixelContinuation (q : QueueId) (tt : Ticket) (d : Z) (b k : nat) :
  length (List.filter (touches q tt) (pixelContinuation d b k)) =
  if touches q tt (TicketDone (ClusterQueue k) (d, b)) then 1 else 0.
Proof.
  unfold pixelContinuation. cbn [List.filter].
  change (touches q tt (PixelRoutine d b k)) with false. cbv iota.
  destruct (touches q tt (TicketDone (ClusterQueue k) (d, b))); reflexivity.
Qed.

Lemma pixel_in_continuation (d d' : Z) (b b' k k' : nat) :
  PixelRoutine d b k ∈ pixelContinuation d' b' k' → d = d' ∧ b = b' ∧ k = k'.
Proof.
  unfold pixelContinuation. intros Hin.
  apply elem_of_cons in Hin as [Heq|Hin].
  - injection Heq as -> -> ->. auto.
  - apply list_elem_of_singleton in Hin. discriminate Hin.
Qed.

Lemma step_worker_done (s : System.t) (before after : list (list Call))
    (k : nat) (t : Ticket) (rest : list Call) :
  invariant s →
  World.pool (System.world s) =
    before ++ (TicketDone (ClusterQueue k) t :: rest) :: after →
  Forall plain rest →
  invariant {| System.renderer := System.renderer s; System.main := System.main s;
               System.world :=
                 perform (TicketDone (ClusterQueue k) t)
                   {| World.queues := World.queues (System.world s);
                      World.pool := before ++ rest :: after;
                      World.trace := World.trace (System.world s) |} |}.
Proof.
  intros Hinv Hpool Hrest.
  pose proof Hinv as [I1 I2 I3 I4 I5 I6 I7 I8 I9 I10 I11 I12 I13 I14].
  set (w := System.world s) in *.
  set (Q := World.queues w (ClusterQueue k)).
  cbn [perform World.queues World.pool World.trace].
  pose proof (ticket_done_props Q t (I5 (ClusterQueue k))) as (F1 & F2 & F3 & F4).
  fold Q. destruct (ticket_done Q t) as [Q' woken]. cbn [fst snd] in F1, F2, F3, F4.
  assert (Hpart : Forall thread_ok (before ++ rest :: after)).
  { rewrite Hpool in I1. apply (pool_step_ok _ _ _ _ I1). left. exact Hrest. }
  assert (Hkeep : ∀ c, c ∈ concat (World.pool w) → c ≠ TicketDone (ClusterQueue k) t →
                       c ∈ concat (before ++ rest :: after)).
  { intros c Hc Hne. rewrite Hpool, concat_pool_step in Hc. rewrite concat_pool_rest.
    apply elem_of_app in Hc as [Hc|Hc]; apply elem_of_app; [left; exact Hc|right].
    apply elem_of_cons in Hc as [Heq|Hc]; [contradiction|exact Hc]. }
  assert (Hwcont : ∀ h n rs cont, Q = h :: n :: rs → TicketRecord.onCall n = Some cont →
            cont = pixelContinuation (TicketRecord.ticket n).1 (TicketRecord.ticket n).2 k).
  { intros h n rs cont HQ Hn.
    destruct (I3 (ClusterQueue k) n cont) as (k0 & Hk0 & ->); [|exact Hn|].
    - fold Q. rewrite HQ. apply list_elem_of_further, list_elem_of_here.
    - injection Hk0 as <-. reflexivity. }
  apply (invariant_queue_step s before after _ rest k Q' woken Hinv Hpool Hrest).
  - reflexivity.
  - reflexivity.
  - intros k0 x Hne Heq. injection Heq as -> _. contradiction.
  - destruct F3 as [[-> _] | (h & n & rs & cont & HQ & Hh & Hn & -> & _)]; [constructor|].
    constructor; [|constructor]. right.
    rewrite (Hwcont h n rs cont HQ Hn). eauto.
  - intros r' Hr'. destruct (F1 r' Hr') as (_ & r & Hr & Heq & _). eauto.
  - exact F2.
  - intros r' c' Hr' Hc'. destruct (F1 r' Hr') as (_ & r & Hr & Heq & [Hsame|Hnone]).
    + rewrite Hsame in Hc'. destruct (I3 (ClusterQueue k) r c' Hr Hc') as (k0 & Hk0 & ->).
      injection Hk0 as <-. rewrite Heq. reflexivity.
    + rewrite Hnone in Hc'. discriminate Hc'.
  - intros tt. fold w. fold Q.
    destruct F3 as [[-> Hle] | (h & n & rs & cont & HQ & Hh & Hn & -> & ->)].
    + specialize (Hle (ClusterQueue k) tt). cbn [concat List.filter length].
      destruct (touches (ClusterQueue k) tt (TicketDone (ClusterQueue k) t)); lia.
    + rewrite HQ. change (h :: n :: rs) with ([h] ++ [n] ++ rs).
      change ({| TicketRecord.ticket := TicketRecord.ticket n; TicketRecord.onCall := None |} :: rs)
        with ([{| TicketRecord.ticket := TicketRecord.ticket n; TicketRecord.onCall := None |}] ++ rs).
      rewrite !attached_app, !count_app.
      cbn [attached flat_map TicketRecord.onCall TicketRecord.ticket app concat].
      rewrite Hn, app_nil_r. cbn [List.filter app].
      rewrite (Hwcont h n rs cont HQ Hn), count_pixelContinuation, touches_onCall.
      rewrite <- surjective_pairing.
      destruct (touches (ClusterQueue k) tt (TicketDone (ClusterQueue k) (TicketRecord.ticket n)));
        cbn [length]; lia.
  - intros q0 tt Hne.
    destruct F3 as [[-> _] | (h & n & rs & cont & HQ & Hh & Hn & -> & _)]; [reflexivity|].
    cbn [concat]. rewrite app_nil_r, (Hwcont h n rs cont HQ Hn), count_pixelContinuation.
    rewrite touches_other_queue by (intros Heq; apply Hne; symmetry; exact Heq).
    reflexivity.
  - intros d b k0 Hin.
    destruct F3 as [[-> _] | (h & n & rs & cont & HQ & Hh & Hn & -> & ->)].
    + cbn in Hin. apply elem_of_nil in Hin. contradiction.
    + cbn [concat] in Hin. rewrite app_nil_r, (Hwcont h n rs cont HQ Hn) in Hin.
      apply pixel_in_continuation in Hin as (-> & -> & ->).
      split; [reflexivity|]. split.
      * eexists _, rs. split; [reflexivity|]. cbn. apply surjective_pairing.
      * intros x Hx. rewrite <- surjective_pairing.
        assert (Hhn : ticket_lt (TicketRecord.ticket h) (TicketRecord.ticket n)).
        { specialize (I5 (ClusterQueue k)). fold Q in I5. rewrite HQ in I5. cbn [map] in I5.
          apply (sorted_head_lt _ _ _ _ I5), list_elem_of_here. }
        destruct (I9 k x h Hx) as [-> | Hlt].
        -- fold Q. rewrite HQ. apply list_elem_of_here.
        -- exact Hhn.
        -- exact (ticket_lt_trans _ _ _ Hlt Hhn).
  - intros d b Hin.
    assert (Hin0 : PixelRoutine d b k ∈ concat (World.pool w)).
    { rewrite Hpool, concat_pool_step. rewrite concat_pool_rest in Hin.
      apply elem_of_app in Hin as [Hin|Hin]; apply elem_of_app; [left; exact Hin|right].
      apply list_elem_of_further. exact Hin. }
    destruct (I11 d b k Hin0) as [(r & rs & HQ & Hr) _]. fold Q in HQ.
    destruct (decide (TicketRecord.ticket r = t)) as [Heq|Hne].
    + exfalso. rewrite Hr in Heq. subst t.
      pose proof (pixel_has_done _ _ _ _ Hpart Hin) as Hd.
      pose proof (count_elem_of _ _ _ Hd (touches_done (ClusterQueue k) (d, b))) as Hc.
      specialize (I10 (ClusterQueue k) (d, b)). unfold pending in I10. fold w in I10.
      rewrite Hpool, !count_app in I10.
      rewrite (count_pool_step _ before after (TicketDone (ClusterQueue k) (d, b))) in I10.
      rewrite touches_done in I10. lia.
    + destruct (F4 r rs HQ Hne) as (rs' & ->). exists r, rs'. split; [reflexivity|exact Hr].
  - intros r' Hr' Hx. destruct (F1 r' Hr') as (Hne & r & Hr & Heq & _).
    apply elem_of_app. left. apply Hkeep.
    + rewrite Heq. apply (I12 k r); [rewrite <- Heq; exact Hx|exact Hr].
    + intros Hc. injection Hc as Hc. contradiction.
Qed.

(** *** Attaching a continuation *)

Lemma ticket_onCall_props (Q : list TicketRecord.t) (t : Ticket) (cont : list Call) :
  StronglySorted ticket_lt (map TicketRecord.ticket Q) →
  let Q' := (ticket_onCall Q t cont).1 in
  let woken := (ticket_onCall Q t cont).2 in
  map TicketRecord.ticket Q' = map TicketRecord.ticket Q ∧
  ((woken = [] ∧
    (∀ r', r' ∈ Q' →
       r' ∈ Q ∨
       (TicketRecord.ticket r' = t ∧
        ∃ r, r ∈ Q ∧ TicketRecord.ticket r = t ∧
             TicketRecord.onCall r' = Some (default [] (TicketRecord.onCall r) ++ cont))) ∧
    (∀ q tt, length (List.filter (touches q tt) (attached q Q')) ≤
             length (List.filter (touches q tt) (attached q Q)) +
             (if touches q tt (TicketOnCall q t cont) then 1 else 0))) ∨
   (woken = [cont] ∧ Q' = Q ∧ ∃ h rs, Q = h :: rs ∧ TicketRecord.ticket h = t)).
Proof.
  intros Hs Q' woken. subst Q' woken.
  destruct Q as [|h rs]; cbn [ticket_onCall].
  { cbn. split; [reflexivity|]. left. split; [reflexivity|]. split.
    - intros r' Hr'. apply elem_of_nil in Hr'. contradiction.
    - intros q tt. lia. }
  destruct (decide (TicketRecord.ticket h = t)) as [Heq|Hne]; cbn [fst snd].
  { split; [reflexivity|]. right. split; [reflexivity|]. split; [reflexivity|].
    exists h, rs. split; [reflexivity|exact Heq]. }
  cbn [map] in Hs. apply sorted_tail in Hs.
  set (upd := λ r : TicketRecord.t,
         if decide (TicketRecord.ticket r = t) then
           {| TicketRecord.ticket := t;
              TicketRecord.onCall := Some (default [] (TicketRecord.onCall r) ++ cont) |}
         else r).
  assert (Htick : ∀ l, map TicketRecord.ticket (map upd l) = map TicketRecord.ticket l).
  { intros l. induction l as [|r l IH]; [reflexivity|]. cbn [map]. rewrite IH.
    f_equal. unfold upd. destruct (decide (TicketRecord.ticket r = t)) as [<-|]; reflexivity. }
  assert (Hfix : ∀ l, (∀ r, r ∈ l → TicketRecord.ticket r ≠ t) → map upd l = l).
  { intros l Hl. induction l as [|r l IH]; [reflexivity|]. cbn [map]. rewrite IH.
    - f_equal. unfold upd. rewrite decide_False; [reflexivity|].
      apply Hl, list_elem_of_here.
    - intros r0 Hr0. apply Hl, list_elem_of_further, Hr0. }
  split; [cbn [map]; rewrite Htick; reflexivity|].
  left. split; [reflexivity|]. split.
  - intros r' Hr'. apply elem_of_cons in Hr' as [->|Hr'].
    + left. apply list_elem_of_here.
    + apply list_elem_of_In, in_map_iff in Hr' as (r & <- & Hr).
      apply list_elem_of_In in Hr. unfold upd.
      destruct (decide (TicketRecord.ticket r = t)) as [Hrt|Hrt].
      * right. split; [reflexivity|]. exists r.
        split; [apply list_elem_of_further, Hr|]. split; [exact Hrt|reflexivity].
      * left. apply list_elem_of_further, Hr.
  - intros q tt.
    change (h :: map upd rs) with ([h] ++ map upd rs).
    change (h :: rs) with ([h] ++ rs).
    rewrite !attached_app, !count_app.
    enough (length (List.filter (touches q tt) (attached q (map upd rs))) ≤
            length (List.filter (touches q tt) (attached q rs)) +
            (if touches q tt (TicketOnCall q t cont) then 1 else 0)) by lia.
    clear Hne. induction rs as [|r rs IH]; [cbn; lia|].
    cbn [map] in Hs. pose proof (sorted_tail _ _ _ Hs) as Hs'.
    destruct (decide (TicketRecord.ticket r = t)) as [Hrt|Hrt].
    + cbn [map]. rewrite (Hfix rs).
      * change (upd r :: rs) with ([upd r] ++ rs).
        change (r :: rs) with ([r] ++ rs).
        rewrite !attached_app, !count_app.
        unfold upd. rewrite decide_True by exact Hrt.
        cbn [attached flat_map TicketRecord.onCall TicketRecord.ticket app List.filter].
        rewrite !touches_onCall.
        destruct (touches q tt (TicketDone q t)); cbn [length]; lia.
      * intros r0 Hr0 Hr0t.
        assert (Hlt : ticket_lt (TicketRecord.ticket r) (TicketRecord.ticket r0)).
        { apply (sorted_head_lt _ _ _ _ Hs).
          apply list_elem_of_In, in_map, list_elem_of_In, Hr0. }
        rewrite Hrt, Hr0t in Hlt. exact (ticket_lt_irrefl _ Hlt).
    + cbn [map]. change (upd r :: map upd rs) with ([upd r] ++ map upd rs).
      change (r :: rs) with ([r] ++ rs).
      rewrite !attached_app, !count_app.
      specialize (IH Hs').
      assert (Hu : upd r = r) by (unfold upd; rewrite decide_False by exact Hrt; reflexivity).
      rewrite Hu. lia.
Qed.

Lemma step_worker_onCall (s : System.t) (before after : list (list Call))
    (k : nat) (t : Ticket) (rest : list Call) :
  invariant s →
  World.pool (System.world s) =
    before ++ (TicketOnCall (ClusterQueue k) t (pixelContinuation t.1 t.2 k) :: rest) :: after →
  Forall plain rest →
  invariant {| System.renderer := System.renderer s; System.main := System.main s;
               System.world :=
                 perform (TicketOnCall (ClusterQueue k) t (pixelContinuation t.1 t.2 k))
                   {| World.queues := World.queues (System.world s);
                      World.pool := before ++ rest :: after;
                      World.trace := World.trace (System.world s) |} |}.
Proof.
  intros Hinv Hpool Hrest.
  pose proof Hinv as [I1 I2 I3 I4 I5 I6 I7 I8 I9 I10 I11 I12 I13 I14].
  set (w := System.world s) in *.
  set (Q := World.queues w (ClusterQueue k)).
  set (cont := pixelContinuation t.1 t.2 k) in *.
  cbn [perform World.queues World.pool World.trace].
  pose proof (ticket_onCall_props Q t cont (I5 (ClusterQueue k))) as (G1 & G2).
  fold Q. destruct (ticket_onCall Q t cont) as [Q' woken]. cbn [fst snd] in G1, G2.
  set (call := TicketOnCall (ClusterQueue k) t cont) in *.
  assert (Hpart : Forall thread_ok (before ++ rest :: after)).
  { rewrite Hpool in I1. apply (pool_step_ok _ _ _ _ I1). left. exact Hrest. }
  assert (Hkeep : ∀ c, c ∈ concat (World.pool w) → c ≠ call →
                       c ∈ concat (before ++ rest :: after)).
  { intros c Hc Hne. rewrite Hpool, concat_pool_step in Hc. rewrite concat_pool_rest.
    apply elem_of_app in Hc as [Hc|Hc]; apply elem_of_app; [left; exact Hc|right].
    apply elem_of_cons in Hc as [Heq|Hc]; [contradiction|exact Hc]. }
  assert (Htc : touches (ClusterQueue k) t call = true).
  { unfold call. rewrite touches_onCall. apply touches_done. }
  assert (Hpool_count :
    length (List.filter (touches (ClusterQueue k) t) (concat (before ++ rest :: after))) +
    length (List.filter (touches (ClusterQueue k) t) (attached (ClusterQueue k) Q)) = 0).
  { specialize (I10 (ClusterQueue k) t). unfold pending in I10. fold w in I10.
    rewrite Hpool, !count_app in I10.
    rewrite (count_pool_step _ before after call), Htc in I10. fold Q in I10. lia. }
  assert (Htick : ∀ r', r' ∈ Q' → ∃ r, r ∈ Q ∧ TicketRecord.ticket r' = TicketRecord.ticket r).
  { intros r' Hr'.
    assert (Hin : TicketRecord.ticket r' ∈ map TicketRecord.ticket Q).
    { rewrite <- G1. apply list_elem_of_In, in_map, list_elem_of_In, Hr'. }
    apply list_elem_of_In, in_map_iff in Hin as (r & Heq & Hr).
    exists r. split; [apply list_elem_of_In, Hr|symmetry; exact Heq]. }
  assert (Hdone_old : ∀ r, r ∈ Q → TicketRecord.ticket r ∈ pixel_log k (World.trace w) →
            TicketDone (ClusterQueue k) (TicketRecord.ticket r)
              ∈ concat (before ++ rest :: after)).
  { intros r Hr Hx. apply Hkeep; [exact (I12 k r Hx Hr)|discriminate]. }
  apply (invariant_queue_step s before after call rest k Q' woken Hinv Hpool Hrest).
  - reflexivity.
  - reflexivity.
  - intros k0 x Hne Heq. discriminate Heq.
  - destruct G2 as [(-> & _) | (-> & _)]; [constructor|].
    constructor; [|constructor]. right. unfold cont. eauto.
  - exact Htick.
  - rewrite G1. apply I5.
  - intros r' c' Hr' Hc'.
    destruct G2 as [(_ & Hrec & _) | (_ & -> & _)].
    + destruct (Hrec r' Hr') as [Hr | (Ht & r & Hr & Hrt & Hon)].
      * destruct (I3 (ClusterQueue k) r' c' Hr Hc') as (k0 & Hk0 & ->).
        injection Hk0 as <-. reflexivity.
      * rewrite Hon in Hc'. injection Hc' as <-. rewrite Ht.
        destruct (TicketRecord.onCall r) as [c0|] eqn:Hc0; [exfalso|reflexivity].
        assert (Hin : TicketOnCall (ClusterQueue k) (TicketRecord.ticket r) c0
                        ∈ attached (ClusterQueue k) Q).
        { unfold attached. apply list_elem_of_In, in_flat_map.
          exists r. split; [apply list_elem_of_In, Hr|]. rewrite Hc0. left. reflexivity. }
        assert (Htr : touches (ClusterQueue k) t
                        (TicketOnCall (ClusterQueue k) (TicketRecord.ticket r) c0) = true)
          by (rewrite touches_onCall, Hrt; apply touches_done).
        pose proof (count_elem_of _ _ _ Hin Htr). lia.
    + destruct (I3 (ClusterQueue k) r' c' Hr' Hc') as (k0 & Hk0 & ->).
      injection Hk0 as <-. reflexivity.
  - intros tt. fold w. fold Q.
    destruct G2 as [(-> & _ & Hle) | (-> & -> & _)].
    + specialize (Hle (ClusterQueue k) tt). fold call in Hle. cbn [concat List.filter length]. lia.
    + cbn [concat]. rewrite app_nil_r. unfold cont at 1. rewrite count_pixelContinuation.
      rewrite <- surjective_pairing. unfold call. rewrite touches_onCall. lia.
  - intros q0 tt Hne.
    destruct G2 as [(-> & _) | (-> & _)]; [reflexivity|].
    cbn [concat]. rewrite app_nil_r. unfold cont. rewrite count_pixelContinuation.
    rewrite touches_other_queue by (intros Heq; apply Hne; symmetry; exact Heq).
    reflexivity.
  - intros d b k0 Hin.
    destruct G2 as [(-> & _) | (-> & -> & h & rs & HQ & Hh)].
    + cbn in Hin. apply elem_of_nil in Hin. contradiction.
    + cbn [concat] in Hin. rewrite app_nil_r in Hin.
      apply pixel_in_continuation in Hin as (-> & -> & ->).
      rewrite <- surjective_pairing.
      split; [reflexivity|]. split; [exists h, rs; split; [exact HQ|exact Hh]|].
      intros x Hx.
      assert (HhQ : h ∈ Q) by (rewrite HQ; apply list_elem_of_here).
      destruct (I9 k x h Hx HhQ) as [-> | Hlt]; [exfalso|rewrite <- Hh; exact Hlt].
      pose proof (Hdone_old h HhQ Hx) as Hd. rewrite Hh in Hd.
      pose proof (count_elem_of _ _ _ Hd (touches_done (ClusterQueue k) t)). lia.
  - intros d b Hin.
    assert (Hin0 : PixelRoutine d b k ∈ concat (World.pool w)).
    { rewrite Hpool, concat_pool_step. rewrite concat_pool_rest in Hin.
      apply elem_of_app in Hin as [Hin|Hin]; apply elem_of_app; [left; exact Hin|right].
      apply list_elem_of_further. exact Hin. }
    destruct (I11 d b k Hin0) as [(r & rs & HQ & Hr) _]. fold Q in HQ.
    rewrite HQ in G1. destruct Q' as [|h' rs']; [discriminate G1|].
    cbn [map] in G1. injection G1 as Hh' _.
    exists h', rs'. split; [reflexivity|]. rewrite Hh'. exact Hr.
  - intros r' Hr' Hx. destruct (Htick r' Hr') as (r & Hr & Heq).
    apply elem_of_app. left. rewrite Heq. apply Hdone_old; [exact Hr|].
    rewrite <- Heq. exact Hx.
Qed.
(** ** The calls of a draw, and the order of pixel work *)

Section RunFacts.
Context `{Constants}.

Lemma batchTask_plain (rasterizerDiscard : bool) (numVisible : Z) (d : Z) (b : nat) :
    Forall plain (batchTask rasterizerDiscard numVisible d b).
  Proof.
    assert (Hrel : ∀ l, Forall plain (map (λ c, TicketDone (ClusterQueue c) (d, b)) l)).
    { induction l; constructor; [exact I|assumption]. }
    assert (Hpix : ∀ l, Forall plain
              (map (λ c, TicketOnCall (ClusterQueue c) (d, b) (pixelContinuation d b c)) l)).
    { induction l; constructor; [reflexivity|assumption]. }
    unfold batchTask, processVertices, processPrimitives, processPixels,
      releaseClusterTickets.
    destruct rasterizerDiscard; cbn [negb app].
    - constructor; [exact I|apply Hrel].
    - constructor; [exact I|]. constructor; [exact I|].
      destruct (0 <? numVisible)%Z; [apply Hpix|apply Hrel].
  Qed.

Lemma run_main_calls (d : DrawCall.t) (numVisible : nat → Z) :
    Forall main_call (run d numVisible).
  Proof.
    unfold run. apply Forall_app. split; [|apply Forall_app; split].
    - unfold DrawCall_setup. apply Forall_app. split.
      + destruct (DrawCall.occlusionQuery d); repeat constructor.
      + destruct (DrawCall.events d); repeat constructor.
    - repeat constructor.
    - apply Forall_flat_map, Forall_forall. intros b _.
      apply Forall_app. split.
      + apply Forall_forall. intros c Hc.
        apply list_elem_of_In, in_map_iff in Hc as (k & <- & _). exact I.
      + constructor; [|constructor]. apply batchTask_plain.
  Qed.

Lemma takes_flat_map {A : Type} (q : QueueId) (F : A → list Call) (l : list A) :
    takes q (flat_map F l) = flat_map (λ a, takes q (F a)) l.
  Proof.
    induction l as [|a l IH]; [reflexivity|].
    cbn [flat_map]. rewrite takes_app, IH. reflexivity.
  Qed.

Lemma takes_cluster_takes (q : QueueId) (t : Ticket) (l : list nat) :
    NoDup l →
    takes q (map (λ c, TicketTake (ClusterQueue c) t) l) =
    match q with
    | DrawTickets => []
    | ClusterQueue k => if bool_decide (k ∈ l) then [t] else []
    end.
  Proof.
    induction l as [|c l IH]; intros Hnd.
    { destruct q; reflexivity. }
    apply NoDup_cons in Hnd as [Hc Hnd]. specialize (IH Hnd).
    cbn [map]. change (?x :: ?l') with ([x] ++ l') at 1. rewrite takes_app, IH.
    destruct q as [|k]; [reflexivity|].
    cbn [takes flat_map app].
    destruct (decide (c = k)) as [->|Hne].
    - rewrite decide_True by reflexivity.
      rewrite (bool_decide_false (k ∈ l)) by exact Hc.
      rewrite bool_decide_true by (apply list_elem_of_here). reflexivity.
    - rewrite decide_False by congruence.
      destruct (bool_decide_reflect (k ∈ l)) as [Hin|Hin].
      + rewrite bool_decide_true by (apply list_elem_of_further, Hin). reflexivity.
      + rewrite bool_decide_false; [reflexivity|].
        intros Hin'. apply elem_of_cons in Hin' as [->|Hin']; [congruence|auto].
  Qed.

Lemma takes_setup (q : QueueId) (d : DrawCall.t) : takes q (DrawCall_setup d) = [].
  Proof.
    unfold DrawCall_setup.
    destruct (DrawCall.occlusionQuery d), (DrawCall.events d); reflexivity.
  Qed.

Lemma scheduled_setup (d : DrawCall.t) : scheduled (DrawCall_setup d) = [].
  Proof.
    unfold DrawCall_setup.
    destruct (DrawCall.occlusionQuery d), (DrawCall.events d); reflexivity.
  Qed.

  (** The reservations of a draw ([DrawCall::run], lines 553-573): one
      ticket of the draw queue, and from each cluster queue one ticket per
      batch, in batch order. *)
Lemma takes_run (d : DrawCall.t) (numVisible : nat → Z) (q : QueueId) :
    takes q (run d numVisible) =
    match q with
    | DrawTickets => [(DrawCall.id d, 0)]
    | ClusterQueue k =>
        if bool_decide (k < MaxClusterCount) then
          map (λ b, (DrawCall.id d, b)) (seq 0 (Z.to_nat (DrawCall.numBatches d)))
        else []
    end.
  Proof.
    unfold run. rewrite !takes_app, takes_setup, takes_flat_map.
    cbn [app].
    assert (Hb : ∀ b,
      takes q (map (λ c, TicketTake (ClusterQueue c) (DrawCall.id d, b))
                   (seq 0 MaxClusterCount) ++
               [Schedule (batchTask (DrawData.rasterizerDiscard (DrawCall.data d))
                            (numVisible b) (DrawCall.id d) b)]) =
      match q with
      | DrawTickets => []
      | ClusterQueue k =>
          if bool_decide (k < MaxClusterCount) then [(DrawCall.id d, b)] else []
      end).
    { intros b. rewrite takes_app, takes_cluster_takes by apply NoDup_seq.
      cbn [takes flat_map]. rewrite app_nil_r.
      destruct q as [|k]; [reflexivity|].
      destruct (decide (k < MaxClusterCount)) as [Hk|Hk].
      - rewrite !bool_decide_true; [reflexivity|exact Hk|].
        apply list_elem_of_In, in_seq. lia.
      - rewrite !bool_decide_false; [reflexivity|exact Hk|].
        intros Hin. apply list_elem_of_In, in_seq in Hin. lia. }
    erewrite flat_map_ext by (intros b; apply Hb).
    generalize (seq 0 (Z.to_nat (DrawCall.numBatches d))). intros l.
    destruct q as [|k].
    - cbn [takes flat_map]. rewrite decide_True by reflexivity.
      induction l as [|b l IH]; [reflexivity|exact IH].
    - cbn [takes flat_map]. rewrite decide_False by discriminate. cbn [app].
      destruct (bool_decide (k < MaxClusterCount)).
      + induction l as [|b l IH]; [reflexivity|]. cbn [flat_map map app]. rewrite IH. reflexivity.
      + induction l as [|b l IH]; [reflexivity|exact IH].
  Qed.

Lemma batch_tickets_sorted (id : Z) (n : nat) :
    StronglySorted ticket_lt (map (λ b, (id, b)) (seq 0 n)).
  Proof.
    induction n as [|n IH]; [constructor|].
    rewrite seq_S, map_app. apply sorted_snoc; [exact IH|].
    intros y Hy. apply list_elem_of_In, in_map_iff in Hy as (b & <- & Hb).
    apply in_seq in Hb. right. cbn. split; [reflexivity|lia].
  Qed.

Lemma takes_run_sorted (d : DrawCall.t) (numVisible : nat → Z) (q : QueueId) :
    StronglySorted ticket_lt (takes q (run d numVisible)).
  Proof.
    rewrite takes_run. destruct q as [|k]; [repeat constructor|].
    destruct (bool_decide (k < MaxClusterCount)); [apply batch_tickets_sorted|constructor].
  Qed.

Lemma takes_run_id (d : DrawCall.t) (numVisible : nat → Z) (q : QueueId) (t : Ticket) :
    t ∈ takes q (run d numVisible) → t.1 = DrawCall.id d.
  Proof.
    rewrite takes_run. destruct q as [|k].
    - intros Ht. apply list_elem_of_singleton in Ht as ->. reflexivity.
    - destruct (bool_decide (k < MaxClusterCount)).
      + intros Ht. apply list_elem_of_In, in_map_iff in Ht as (b & <- & _). reflexivity.
      + intros Ht. apply elem_of_nil in Ht. contradiction.
  Qed.

Lemma count_flat_map_none {A : Type} (f : Call → bool) (F : A → list Call) (l : list A) :
    (∀ a, a ∈ l → length (List.filter f (F a)) = 0) →
    length (List.filter f (flat_map F l)) = 0.
  Proof.
    induction l as [|a l IH]; intros Hz; [reflexivity|].
    cbn [flat_map]. rewrite count_app, (Hz a) by apply list_elem_of_here.
    apply IH. intros a' Ha'. apply Hz, list_elem_of_further, Ha'.
  Qed.

Lemma count_flat_map_unique {A : Type} (f : Call → bool) (F : A → list Call)
      (key : A) (l : list A) :
    NoDup l →
    (∀ a, a ∈ l → length (List.filter f (F a)) ≤ 1) →
    (∀ a, a ∈ l → 0 < length (List.filter f (F a)) → a = key) →
    length (List.filter f (flat_map F l)) ≤ 1.
  Proof.
    induction l as [|a l IH]; intros Hnd Hle Hkey; [cbn; lia|].
    apply NoDup_cons in Hnd as [Ha Hnd].
    cbn [flat_map]. rewrite count_app.
    pose proof (Hle a (list_elem_of_here _ _)) as Hla.
    destruct (length (List.filter f (F a))) as [|n] eqn:Hn.
    - apply IH; [exact Hnd| |].
      + intros a' Ha'. apply Hle, list_elem_of_further, Ha'.
      + intros a' Ha'. apply Hkey, list_elem_of_further, Ha'.
    - assert (Hak : a = key).
      { apply Hkey; [apply list_elem_of_here|]. rewrite Hn. lia. }
      rewrite count_flat_map_none; [lia|].
      intros a' Ha'.
      pose proof (Hle a' (list_elem_of_further _ _ _ Ha')) as Hla'.
      destruct (length (List.filter f (F a'))) as [|n'] eqn:Hn'; [reflexivity|].
      assert (Ha'k : a' = key).
      { apply Hkey; [apply list_elem_of_further, Ha'|]. rewrite Hn'. lia. }
      subst. contradiction.
  Qed.

Lemma touches_done_inv (q q' : QueueId) (t t' : Ticket) :
    touches q t (TicketDone q' t') = true → q' = q ∧ t' = t.
  Proof.
    unfold touches. cbn [releases attaches]. rewrite orb_false_r.
    intros Hb. apply bool_decide_eq_true in Hb. exact Hb.
  Qed.

  (** A batch task touches each of its cluster tickets once, and no other
      ticket. *)
Lemma count_batchTask (rasterizerDiscard : bool) (numVisible : Z) (d : Z) (b : nat)
      (q : QueueId) (t : Ticket) :
    length (List.filter (touches q t) (batchTask rasterizerDiscard numVisible d b)) ≤ 1 ∧
    (0 < length (List.filter (touches q t) (batchTask rasterizerDiscard numVisible d b)) →
     t = (d, b)).
  Proof.
    assert (Hmap : ∀ g : nat → Call,
              (∀ c, touches q t (g c) = touches q t (TicketDone (ClusterQueue c) (d, b))) →
              length (List.filter (touches q t) (map g (seq 0 MaxClusterCount))) ≤ 1 ∧
              (0 < length (List.filter (touches q t) (map g (seq 0 MaxClusterCount))) →
               t = (d, b))).
    { intros g Hg.
      assert (Hfm : map g (seq 0 MaxClusterCount) =
                    flat_map (λ c, [g c]) (seq 0 MaxClusterCount)).
      { generalize (seq 0 MaxClusterCount). intros l.
        induction l as [|c l IH]; [reflexivity|]. cbn. rewrite IH. reflexivity. }
      rewrite Hfm. split.
      - destruct q as [|k].
        + rewrite count_flat_map_none; [lia|]. intros c _.
          cbn [List.filter]. rewrite Hg.
          destruct (touches DrawTickets t (TicketDone (ClusterQueue c) (d, b))) eqn:Ht;
            [|reflexivity].
          apply touches_done_inv in Ht as [Hq _]. discriminate Hq.
        + apply (count_flat_map_unique _ _ k); [apply NoDup_seq| |].
          * intros c _. cbn [List.filter]. destruct (touches _ t (g c)); cbn; lia.
          * intros c _. cbn [List.filter]. rewrite Hg.
            destruct (touches (ClusterQueue k) t (TicketDone (ClusterQueue c) (d, b))) eqn:Ht;
              [|cbn; lia].
            apply touches_done_inv in Ht as [Hq _]. injection Hq as ->. reflexivity.
      - intros Hpos.
        destruct (List.filter (touches q t) (flat_map (λ c, [g c]) (seq 0 MaxClusterCount)))
          as [|x xs] eqn:Hx; [cbn in Hpos; lia|].
        assert (Hin : x ∈ List.filter (touches q t)
                            (flat_map (λ c, [g c]) (seq 0 MaxClusterCount)))
          by (rewrite Hx; apply list_elem_of_here).
        apply list_elem_of_In, filter_In in Hin as [Hin Htx].
        apply in_flat_map in Hin as (c & _ & Hc).
        destruct Hc as [<-|[]]. rewrite Hg in Htx.
        apply touches_done_inv in Htx as [_ Ht]. symmetry. exact Ht. }
    assert (Hrel := Hmap (λ c, TicketDone (ClusterQueue c) (d, b)) (λ c, eq_refl)).
    assert (Hpix := Hmap (λ c, TicketOnCall (ClusterQueue c) (d, b) (pixelContinuation d b c))
                      (λ c, touches_onCall _ _ _ _ _)).
    unfold batchTask, processVertices, processPrimitives.
    fold (releaseClusterTickets d b) in Hrel. fold (processPixels d b) in Hpix.
    destruct rasterizerDiscard; cbn [negb app List.filter touches releases attaches orb].
    - exact Hrel.
    - destruct (0 <? numVisible)%Z; [exact Hpix|exact Hrel].
  Qed.

Lemma scheduled_flat_map {A : Type} (F : A → list Call) (l : list A) :
    scheduled (flat_map F l) = flat_map (λ a, scheduled (F a)) l.
  Proof.
    induction l as [|a l IH]; [reflexivity|].
    cbn [flat_map]. rewrite scheduled_app, IH. reflexivity.
  Qed.

Lemma scheduled_run (d : DrawCall.t) (numVisible : nat → Z) :
    scheduled (run d numVisible) =
    flat_map (λ b, batchTask (DrawData.rasterizerDiscard (DrawCall.data d))
                     (numVisible b) (DrawCall.id d) b)
      (seq 0 (Z.to_nat (DrawCall.numBatches d))).
  Proof.
    unfold run. rewrite !scheduled_app, scheduled_setup, scheduled_flat_map.
    cbn [app scheduled flat_map].
    apply flat_map_ext. intros b.
    rewrite scheduled_app.
    assert (Hno : scheduled (map (λ cluster, TicketTake (ClusterQueue cluster) (DrawCall.id d, b))
                               (seq 0 MaxClusterCount)) = []).
    { generalize (seq 0 MaxClusterCount). intros l'.
      induction l' as [|c l' IH']; [reflexivity|exact IH']. }
    rewrite Hno. cbn [app scheduled flat_map]. apply app_nil_r.
  Qed.

Lemma count_scheduled_run (d : DrawCall.t) (numVisible : nat → Z)
      (q : QueueId) (t : Ticket) :
    length (List.filter (touches q t) (scheduled (run d numVisible))) ≤ 1 ∧
    (0 < length (List.filter (touches q t) (scheduled (run d numVisible))) →
     t.1 = DrawCall.id d).
  Proof.
    rewrite scheduled_run. split.
    - apply (count_flat_map_unique _ _ t.2); [apply NoDup_seq| |].
      + intros b _. apply count_batchTask.
      + intros b _ Hpos. apply count_batchTask in Hpos. rewrite Hpos. reflexivity.
    - intros Hpos.
      destruct (List.filter _ _) as [|x xs] eqn:Hx; [cbn in Hpos; lia|].
      assert (Hin : x ∈ x :: xs) by apply list_elem_of_here.
      rewrite <- Hx in Hin.
      apply list_elem_of_In, filter_In in Hin as [Hin Htx].
      apply in_flat_map in Hin as (b & _ & Hb).
      assert (Hc : 0 < length (List.filter (touches q t)
                     (batchTask (DrawData.rasterizerDiscard (DrawCall.data d))
                        (numVisible b) (DrawCall.id d) b))).
      { pose proof (count_elem_of (touches q t) _ x (proj2 (list_elem_of_In _ _) Hb) Htx). lia. }
      apply count_batchTask in Hc. rewrite Hc. reflexivity.
  Qed.
End RunFacts.
Section Reachability.
Context `{Constants}.
Variable processors : Processors.t.

  (** What [Renderer::draw] leaves for the submitting thread to do: nothing
      (and the renderer as it was), or calls to collaborators followed, when
      the draw is submitted, by the calls of [DrawCall::run] for a draw
      object carrying the identity just taken from [nextDrawID]. *)
Lemma draw_calls_shape (this : Renderer.t) (draw0 : DrawCall.t)
      (pipeline : Pipeline.t) (count baseVertex : Z) (events : option Handle)
      (instanceID layer : Z) (indexBuffer : option Handle)
      (renderArea : VkRect2D.t) (pushConstants : Handle) (update : bool)
      (numVisible : nat → Z) :
    let r := draw processors this draw0 pipeline count baseVertex events
               instanceID layer indexBuffer renderArea pushConstants update
               numVisible in
    (DrawResult.calls r = [] ∧ DrawResult.renderer r = this) ∨
    (Renderer.nextDrawID (DrawResult.renderer r) = wrap_int32 (Renderer.nextDrawID this + 1) ∧
     ∃ pre tail, DrawResult.calls r = pre ++ tail ∧
       Forall collaborator_call pre ∧
       (tail = [] ∨
        ∃ d, DrawCall.id d = Renderer.nextDrawID this ∧ tail = run d numVisible)).
  Proof.
    intros r.
    destruct pipeline as [top tri line disc preLayout pvm lrm dce dcn lw vp sc pm
                          cdb sdb dbc fragLayout fs bs bc msc dso ds ddo gs gvs
                          fsh vsh acb adb asb preWrite fragWrite git].
    set (calls1 := [DrawCallPoolBorrow; PrepareForSampling dso preLayout]).
    set (calls2 :=
           match adb with
           | Some view =>
               match ImageView.getFormat view with
               | VK_FORMAT_OTHER => [Unsupported]
               | _ => []
               end
           | None => []
           end ++
           (if bool_decide (fragLayout ≠ preLayout) then
              [PrepareForSampling dso fragLayout]
            else [])).
    assert (H1 : Forall collaborator_call calls1) by (repeat constructor).
    assert (H2 : Forall collaborator_call (calls1 ++ calls2)).
    { apply Forall_app. split; [exact H1|]. apply Forall_app. split.
      - destruct adb as [view|]; [destruct (ImageView.getFormat view)|]; repeat constructor.
      - destruct (bool_decide (fragLayout ≠ preLayout)); repeat constructor. }
    assert (H3 : Forall collaborator_call (calls1 ++ [Unsupported])) by (repeat constructor).
    destruct count as [|p|p]; [left; split; reflexivity| |].
    all: right.
    all: destruct disc;
      [split; [reflexivity|];
       exists calls1, (run (DrawResult.draw r) numVisible);
       split; [reflexivity|]; split; [exact H1|];
       right; exists (DrawResult.draw r); split; reflexivity|].
    all: destruct tri; [destruct pm|destruct line].
    all: split; [reflexivity|].
    all: first
      [ exists (calls1 ++ calls2), (run (DrawResult.draw r) numVisible);
        split; [reflexivity|]; split; [exact H2|];
        right; exists (DrawResult.draw r); split; reflexivity
      | exists (calls1 ++ [Unsupported]), [];
        split; [symmetry; apply app_nil_r|]; split; [exact H3|]; left; reflexivity ].
  Qed.

Lemma step_draw_invariant (s : System.t) (draw0 : DrawCall.t) (pipeline : Pipeline.t)
      (count baseVertex : Z) (events : option Handle) (instanceID layer : Z)
      (indexBuffer : option Handle) (renderArea : VkRect2D.t)
      (pushConstants : Handle) (update : bool) (numVisible : nat → Z) :
    invariant s → System.main s = [] →
    (Renderer.nextDrawID (System.renderer s) ≤
     Renderer.nextDrawID
       (DrawResult.renderer
          (draw processors (System.renderer s) draw0 pipeline count
             baseVertex events instanceID layer indexBuffer renderArea
             pushConstants update numVisible)))%Z →
    invariant
      (let r := draw processors (System.renderer s) draw0 pipeline count
                  baseVertex events instanceID layer indexBuffer renderArea
                  pushConstants update numVisible in
       {| System.renderer := DrawResult.renderer r;
          System.main := DrawResult.calls r;
          System.world := System.world s |}).
  Proof.
    intros Hinv Hmain Hmono.
    pose proof (draw_calls_shape (System.renderer s) draw0 pipeline count baseVertex
                  events instanceID layer indexBuffer renderArea pushConstants
                  update numVisible) as Hshape.
    cbv zeta in Hshape |- *.
    set (r := draw processors (System.renderer s) draw0 pipeline count baseVertex
                events instanceID layer indexBuffer renderArea pushConstants
                update numVisible) in *.
    clearbody r.
    set (id := Renderer.nextDrawID (System.renderer s)) in *.
    destruct Hshape as [[Hcalls Hren] | (Hnext & pre & tail & Hcalls & Hpre & Htail)].
    2: assert (Hfresh : (id < Renderer.nextDrawID (DrawResult.renderer r))%Z)
         by (pose proof (wrap_int32_succ_ne id) as Hne; rewrite <- Hnext in Hne; lia).
    { rewrite Hcalls, Hren.
      apply (invariant_frame s); cbn [System.renderer System.main System.world];
        try reflexivity; try exact Hinv; try apply Hinv; try rewrite Hmain; auto.
      intros q t. unfold pending. cbn [System.main System.world]. rewrite Hmain. reflexivity. }
    assert (Hpre_takes : ∀ q, takes q pre = []).
    { intros q. clear Hcalls. induction Hpre as [|c l Hc _ IH]; [reflexivity|].
      change (c :: l) with ([c] ++ l). rewrite takes_app, IH, app_nil_r.
      destruct c; cbn in Hc; try contradiction; reflexivity. }
    assert (Hpre_sched : scheduled pre = []).
    { clear Hcalls Hpre_takes. induction Hpre as [|c l Hc _ IH]; [reflexivity|].
      change (c :: l) with ([c] ++ l). rewrite scheduled_app, IH, app_nil_r.
      destruct c; cbn in Hc; try contradiction; reflexivity. }
    assert (Hpre_main : Forall main_call pre).
    { eapply Forall_impl; [exact Hpre|]. intros c Hc.
      destruct c; cbn in Hc; try contradiction; exact I. }
    assert (Htail_main : Forall main_call tail).
    { destruct Htail as [->|(d & _ & ->)]; [apply Forall_nil_2|apply run_main_calls]. }
    assert (Htail_sorted : ∀ q, StronglySorted ticket_lt (takes q tail)).
    { intros q. destruct Htail as [->|(d & _ & ->)]; [constructor|apply takes_run_sorted]. }
    assert (Htail_id : ∀ q t, t ∈ takes q tail → t.1 = id).
    { intros q t Ht. destruct Htail as [->|(d & Hd & ->)].
      - apply elem_of_nil in Ht. contradiction.
      - rewrite <- Hd. exact (takes_run_id _ _ _ _ Ht). }
    assert (Htail_count : ∀ q t,
              length (List.filter (touches q t) (scheduled tail)) ≤ 1 ∧
              (0 < length (List.filter (touches q t) (scheduled tail)) → t.1 = id)).
    { intros q t. destruct Htail as [->|(d & Hd & ->)].
      - cbn. split; lia.
      - rewrite <- Hd. apply count_scheduled_run. }
    destruct Hinv as [I1 I2 I3 I4 I5 I6 I7 I8 I9 I10 I11 I12 I13 I14].
    assert (Hold : ∀ q t, pending q t s =
              length (List.filter (touches q t) (concat (World.pool (System.world s)))) +
              length (List.filter (touches q t)
                        (attached q (World.queues (System.world s) q)))).
    { intros q t. unfold pending. rewrite Hmain. cbn [scheduled flat_map app].
      rewrite count_app. reflexivity. }
    assert (Hnew : ∀ q t,
              pending q t {| System.renderer := DrawResult.renderer r;
                             System.main := DrawResult.calls r;
                             System.world := System.world s |} =
              pending q t s + length (List.filter (touches q t) (scheduled tail))).
    { intros q t. rewrite Hold. unfold pending.
      cbn [System.main System.world]. rewrite Hcalls, scheduled_app, Hpre_sched.
      cbn [app]. rewrite !count_app. lia. }
    constructor; cbn [System.renderer System.main System.world].
    - exact I1.
    - rewrite Hcalls. apply Forall_app. split; assumption.
    - exact I3.
    - intros q. rewrite Hcalls, takes_app, Hpre_takes. cbn [app].
      apply StronglySorted_app_2.
      + intros x y Hx Hy. left. rewrite (Htail_id q y Hy).
        apply (I13 q x). apply elem_of_app. left. exact Hx.
      + specialize (I4 q). rewrite Hmain in I4. cbn in I4. rewrite app_nil_r in I4. exact I4.
      + apply Htail_sorted.
    - exact I5.
    - exact I6.
    - exact I7.
    - exact I8.
    - exact I9.
    - intros q t. rewrite Hnew. specialize (I10 q t).
      destruct (Htail_count q t) as [Hle Hpos].
      destruct (pending q t s) as [|n] eqn:Hp; [lia|].
      assert (Hlt : (t.1 < id)%Z) by (apply (I14 q t); lia).
      destruct (length (List.filter (touches q t) (scheduled tail))) as [|m]; [lia|].
      assert (t.1 = id) by (apply Hpos; lia). lia.
    - exact I11.
    - exact I12.
    - intros q t Ht.
      rewrite Hcalls, takes_app, Hpre_takes in Ht. cbn [app] in Ht.
      apply elem_of_app in Ht as [Ht|Ht].
      + assert ((t.1 < id)%Z); [|lia]. apply (I13 q t). apply elem_of_app. left. exact Ht.
      + rewrite (Htail_id q t Ht). lia.
    - intros q t Hp. rewrite Hnew in Hp.
      destruct (Htail_count q t) as [_ Hpos].
      destruct (pending q t s) as [|n] eqn:Hpd.
      + rewrite Hpos by lia. lia.
      + assert ((t.1 < id)%Z); [|lia]. apply (I14 q t). lia.
  Qed.

Lemma step_invariant (s s' : System.t) :
    step_without_wrap processors s s' → invariant s → invariant s'.
  Proof.
    intros [Hstep Hmono] Hinv. destruct Hstep as [s draw0 pipeline count baseVertex events
      instanceID layer indexBuffer renderArea pushConstants update numVisible Hmain
      | s call rest Hmain | s before after call rest Hpool].
    - apply step_draw_invariant; [assumption|assumption|exact Hmono].
    - pose proof (inv_main s Hinv) as Hm. rewrite Hmain in Hm.
      apply Forall_cons in Hm as [Hc _].
      destruct (main_call_cases call Hc) as [Hcol | [(q & t & ->) | (task & -> & Htask)]].
      + apply step_main_collaborator; assumption.
      + apply step_main_take; assumption.
      + apply step_main_schedule; assumption.
    - pose proof (inv_pool s Hinv) as Hp. rewrite Hpool in Hp.
      apply Forall_app in Hp as [_ Hp]. apply Forall_cons in Hp as [Hthread _].
      destruct (thread_ok_cases call rest Hthread)
        as [[Hcall Hrest] | (d & b & k & -> & ->)].
      + destruct call as [| | | | | | | | | | |q t|q t cont| | d b | d b |];
          cbn in Hcall; try contradiction.
        * destruct q as [|k]; [contradiction|]. apply step_worker_done; assumption.
        * destruct q as [|k]; [contradiction|]. subst cont.
          apply step_worker_onCall; assumption.
        * apply step_worker_routine; [assumption..|]. exists d, b. left. reflexivity.
        * apply step_worker_routine; [assumption..|]. exists d, b. right. reflexivity.
      + apply step_worker_pixel; assumption.
  Qed.

Lemma initial_invariant (renderer : Renderer.t) : invariant (initial renderer).
  Proof.
    constructor; cbn; intros; try constructor;
      try match goal with
          | Hin : _ ∈ [] |- _ => apply elem_of_nil in Hin; contradiction
          end; try lia.
  Qed.

Lemma reachable_invariant (renderer : Renderer.t) (s : System.t) :
    rtc (step_without_wrap processors) (initial renderer) s → invariant s.
  Proof.
    intros Hr. revert s Hr.
    apply (rtc_ind_r (λ s', invariant s') (initial renderer)).
    - apply initial_invariant.
    - intros s1 s2 _ Hstep Hi. exact (step_invariant s1 s2 Hstep Hi).
  Qed.

End Reachability.
Section Replay.
Context `{Constants}.
Variable processors : Processors.t.

Lemma apply_move_sound (m : Move) (s : System.t) :
    rtc (step_without_wrap processors) s (apply_move m s).
  Proof.
    destruct m as [|i]; cbn [apply_move].
    - destruct (System.main s) as [|call rest] eqn:Hmain; [apply rtc_refl|].
      apply rtc_once. split; [apply step_main; exact Hmain|].
      cbn [System.renderer]. lia.
    - destruct (World.pool (System.world s) !! i) as [[|call rest]|] eqn:Hi;
        try apply rtc_refl.
      apply rtc_once. split; [|cbn [System.renderer]; lia].
      apply step_worker. symmetry. apply take_drop_middle. exact Hi.
  Qed.

Lemma replay_sound (moves : list Move) (s : System.t) :
    rtc (step_without_wrap processors) s (replay moves s).
  Proof.
    revert s. induction moves as [|m moves IH]; intros s; [apply rtc_refl|].
    cbn [replay foldl]. etrans; [apply apply_move_sound|apply IH].
  Qed.
End Replay.

Lemma example_final_reachable :
  rtc (@step_without_wrap binary32 header_constants example_processors)
      (initial example_renderer) example_final.
Proof.
  apply (rtc_l _ _ example_start).
  - split; [|vm_compute; discriminate].
    exact (@step_draw binary32 header_constants example_processors
             (initial example_renderer) stale_draw
             (example_pipeline false VK_POLYGON_MODE_FILL false false 1%Z 1%Z)
             200 0 None 0 0 None example_renderArea 0%Z true (λ _, 1%Z) eq_refl).
  - apply replay_sound.
Qed.

(** ** Accounting for tickets and pixel work *)

Lemma attached_log_app (cluster : nat) (l1 l2 : list Call) :
  attached_log cluster (l1 ++ l2) = attached_log cluster l1 ++ attached_log cluster l2.
Proof. apply flat_map_app. Qed.

Lemma pending_split (q : QueueId) (t : Ticket) (s : System.t) :
  pending q t s =
  length (List.filter (touches q t) (concat (World.pool (System.world s)))) +
  length (List.filter (touches q t) (scheduled (System.main s))) +
  length (List.filter (touches q t) (attached q (World.queues (System.world s) q))).
Proof. unfold pending. rewrite !count_app. lia. Qed.

Lemma scheduled_after_takes_mono (before before' main : list Call) :
  (∀ q t, t ∈ takes q before → t ∈ takes q before') →
  scheduled_after_takes before main → scheduled_after_takes before' main.
Proof.
  revert before before'. induction main as [|c rest IH]; intros b b' Hsub Hm; [exact I|].
  destruct Hm as [Hc Hrest]. split.
  - destruct c; try exact I. intros k t c' Hin Ht. apply Hsub, (Hc k t c' Hin Ht).
  - apply (IH (b ++ [c])); [|exact Hrest].
    intros q t Hin. rewrite takes_app in Hin |- *.
    apply elem_of_app in Hin as [Hin|Hin]; apply elem_of_app; [left; apply Hsub, Hin|right; exact Hin].
Qed.

Lemma scheduled_after_takes_app (before l1 l2 : list Call) :
  scheduled_after_takes before l1 →
  scheduled_after_takes (before ++ l1) l2 →
  scheduled_after_takes before (l1 ++ l2).
Proof.
  revert before. induction l1 as [|c l1 IH]; intros b H1 H2.
  - rewrite app_nil_r in H2. exact H2.
  - destruct H1 as [Hc H1]. split; [exact Hc|].
    apply IH; [exact H1|]. rewrite <- app_assoc. exact H2.
Qed.

Lemma progress_frame (s s' : System.t) :
  progress s →
  World.queues (System.world s') = World.queues (System.world s) →
  (∀ q, takes q (World.trace (System.world s')) = takes q (World.trace (System.world s))) →
  (∀ k, attached_log k (World.trace (System.world s')) =
        attached_log k (World.trace (System.world s))) →
  (∀ k t, pending (ClusterQueue k) t s ≤ pending (ClusterQueue k) t s') →
  (∀ k t, t ∈ takes (ClusterQueue k) (World.trace (System.world s)) →
          0 < pending (ClusterQueue k) t s' → 0 < pending (ClusterQueue k) t s) →
  (∀ k t c, c ∈ concat (World.pool (System.world s')) →
            touches (ClusterQueue k) t c = true →
            t ∈ takes (ClusterQueue k) (World.trace (System.world s))) →
  scheduled_after_takes (World.trace (System.world s')) (System.main s') →
  main_owed (System.main s') →
  (∀ k x, x ∈ pixel_log k (World.trace (System.world s)) →
          x ∈ pixel_log k (World.trace (System.world s'))) →
  (∀ d b k, PixelRoutine d b k ∈ concat (World.pool (System.world s)) →
            PixelRoutine d b k ∈ concat (World.pool (System.world s')) ∨
            (d, b) ∈ pixel_log k (World.trace (System.world s'))) →
  (∀ k x, x ∈ pixel_log k (World.trace (System.world s')) →
          x ∈ pixel_log k (World.trace (System.world s)) ∨
          PixelRoutine x.1 x.2 k ∈ concat (World.pool (System.world s))) →
  (∀ d b k, PixelRoutine d b k ∈ concat (World.pool (System.world s')) →
            PixelRoutine d b k ∈ concat (World.pool (System.world s))) →
  progress s'.
Proof.
  intros [P1 P2 P3 P4 P5 P6 P7 P8 P9 P10] Hq Htakes Hatt Hge Hle Hpool Hsched Howed
    Hlog Hpix Hlog' Hpix'.
  constructor.
  - intros k h rest. rewrite Hq. apply P1.
  - intros k r Hr. rewrite Hq in Hr. specialize (P2 k r Hr).
    specialize (Hge k (TicketRecord.ticket r)). lia.
  - intros k t Ht Hp. rewrite Htakes in Ht. rewrite Hq. apply (P3 k t Ht), (Hle k t Ht Hp).
  - intros k t c Hc Ht. rewrite Htakes. exact (Hpool k t c Hc Ht).
  - exact Hsched.
  - exact Howed.
  - intros k t Ht. rewrite Hatt in Ht. rewrite Hq.
    destruct (P7 k t Ht) as [Hs | [Hp | Hl]].
    + left. exact Hs.
    + destruct (Hpix _ _ _ Hp) as [Hp' | Hl'].
      * right. left. exact Hp'.
      * right. right. rewrite <- surjective_pairing in Hl'. exact Hl'.
    + right. right. apply Hlog, Hl.
  - intros k t Ht. rewrite Hatt. destruct (Hlog' k t Ht) as [Hl | Hp].
    + apply P8, Hl.
    + rewrite (surjective_pairing t). apply P9, Hp.
  - intros d b k Hin. rewrite Hatt. apply P9, Hpix', Hin.
  - intros k r c Hr Hc. rewrite Hq in Hr. rewrite Hatt. apply (P10 k r c Hr Hc).
Qed.

Section RunAccounting.
Context `{Constants}.

Lemma scheduled_cluster_takes (t : Ticket) (l : list nat) (tail : list Call) :
    scheduled (map (λ c, TicketTake (ClusterQueue c) t) l ++ tail) = scheduled tail.
  Proof. induction l as [|c l IH]; [reflexivity|exact IH]. Qed.

Lemma batchTask_touch_inv (rasterizerDiscard : bool) (numVisible : Z) (d : Z) (b : nat)
      (k : nat) (t : Ticket) (c : Call) :
    c ∈ batchTask rasterizerDiscard numVisible d b →
    touches (ClusterQueue k) t c = true →
    t = (d, b) ∧ k < MaxClusterCount.
  Proof.
    intros Hin Ht.
    assert (Hmap : ∀ g : nat → Call,
              (∀ c0, touches (ClusterQueue k) t (g c0) =
                     touches (ClusterQueue k) t (TicketDone (ClusterQueue c0) (d, b))) →
              c ∈ map g (seq 0 MaxClusterCount) → t = (d, b) ∧ k < MaxClusterCount).
    { intros g Hg Hc. apply list_elem_of_In, in_map_iff in Hc as (c0 & <- & Hc0).
      rewrite Hg in Ht. apply touches_done_inv in Ht as [Hq Heq].
      injection Hq as ->. apply in_seq in Hc0. split; [symmetry; exact Heq|lia]. }
    unfold batchTask, processVertices, processPrimitives in Hin.
    assert (Hrel := Hmap (λ c0, TicketDone (ClusterQueue c0) (d, b)) (λ c0, eq_refl)).
    assert (Hpix := Hmap (λ c0, TicketOnCall (ClusterQueue c0) (d, b) (pixelContinuation d b c0))
                      (λ c0, touches_onCall _ _ _ _ _)).
    fold (releaseClusterTickets d b) in Hrel. fold (processPixels d b) in Hpix.
    destruct rasterizerDiscard; cbn [negb app] in Hin.
    - apply elem_of_cons in Hin as [-> | Hin]; [discriminate Ht|exact (Hrel Hin)].
    - apply elem_of_cons in Hin as [-> | Hin]; [discriminate Ht|].
      apply elem_of_cons in Hin as [-> | Hin]; [discriminate Ht|].
      destruct (0 <? numVisible)%Z; [exact (Hpix Hin)|exact (Hrel Hin)].
  Qed.

Lemma count_batchTask_own (rasterizerDiscard : bool) (numVisible : Z) (d : Z) (b : nat)
      (k : nat) :
    k < MaxClusterCount →
    length (List.filter (touches (ClusterQueue k) (d, b))
              (batchTask rasterizerDiscard numVisible d b)) = 1.
  Proof.
    intros Hk.
    pose proof (count_batchTask rasterizerDiscard numVisible d b (ClusterQueue k) (d, b))
      as [Hle _].
    assert (Hin : k ∈ seq 0 MaxClusterCount) by (apply list_elem_of_In, in_seq; lia).
    assert (Hex : ∃ c, c ∈ batchTask rasterizerDiscard numVisible d b ∧
                       touches (ClusterQueue k) (d, b) c = true).
    { assert (Hrel : TicketDone (ClusterQueue k) (d, b) ∈ releaseClusterTickets d b).
      { unfold releaseClusterTickets.
        apply list_elem_of_In, in_map_iff. exists k. split; [reflexivity|].
        apply list_elem_of_In, Hin. }
      assert (Hpix : TicketOnCall (ClusterQueue k) (d, b) (pixelContinuation d b k)
                       ∈ processPixels d b).
      { unfold processPixels.
        apply list_elem_of_In, in_map_iff. exists k. split; [reflexivity|].
        apply list_elem_of_In, Hin. }
      unfold batchTask, processVertices, processPrimitives.
      destruct rasterizerDiscard; cbn [negb app].
      - eexists. split; [apply list_elem_of_further, Hrel|apply touches_done].
      - destruct (0 <? numVisible)%Z.
        + eexists. split; [do 2 apply list_elem_of_further; exact Hpix|].
          rewrite touches_onCall. apply touches_done.
        + eexists. split; [do 2 apply list_elem_of_further; exact Hrel|apply touches_done]. }
    destruct Hex as (c & Hc & Ht).
    pose proof (count_elem_of _ _ _ Hc Ht). lia.
  Qed.

Lemma main_owed_skip (l1 l2 : list Call) :
    Forall (λ c, is_TicketTake c = false) l1 → main_owed l2 → main_owed (l1 ++ l2).
  Proof.
    induction 1 as [|c l1 Hc _ IH]; intros H2; [exact H2|].
    cbn [app main_owed]. split; [|apply IH, H2].
    destruct c; try exact I. discriminate Hc.
  Qed.

Lemma scheduled_after_takes_skip (before l : list Call) :
    Forall (λ c, is_Schedule c = false) l → scheduled_after_takes before l.
  Proof.
    intros Hl. revert before. induction Hl as [|c l Hc _ IH]; intros b; [exact I|].
    split; [|apply IH]. destruct c; try exact I. discriminate Hc.
  Qed.

Lemma cluster_takes_no_schedule (t : Ticket) (l : list nat) :
    Forall (λ c, is_Schedule c = false) (map (λ c, TicketTake (ClusterQueue c) t) l).
  Proof. induction l; constructor; [reflexivity|assumption]. Qed.

Lemma setup_no_take (d : DrawCall.t) :
    Forall (λ c, is_TicketTake c = false) (DrawCall_setup d).
  Proof.
    unfold DrawCall_setup.
    destruct (DrawCall.occlusionQuery d), (DrawCall.events d); repeat constructor.
  Qed.

Lemma setup_no_schedule (d : DrawCall.t) :
    Forall (λ c, is_Schedule c = false) (DrawCall_setup d).
  Proof.
    unfold DrawCall_setup.
    destruct (DrawCall.occlusionQuery d), (DrawCall.events d); repeat constructor.
  Qed.

Lemma main_owed_cluster_takes (t : Ticket) (l : list nat) (tail : list Call) :
    (∀ c, c ∈ l →
       length (List.filter (touches (ClusterQueue c) t) (scheduled tail)) = 1) →
    main_owed tail →
    main_owed (map (λ c, TicketTake (ClusterQueue c) t) l ++ tail).
  Proof.
    induction l as [|c l IH]; intros Hl Ht; [exact Ht|].
    cbn [map app main_owed]. split.
    - rewrite scheduled_cluster_takes. apply Hl, list_elem_of_here.
    - apply IH; [|exact Ht]. intros c' Hc'. apply Hl, list_elem_of_further, Hc'.
  Qed.

Lemma run_main_owed (d : DrawCall.t) (numVisible : nat → Z) :
    main_owed (run d numVisible).
  Proof.
    unfold run. apply main_owed_skip; [apply setup_no_take|].
    cbn [app main_owed]. split; [exact I|].
    assert (Hb : ∀ l : list nat, NoDup l →
      main_owed
        (flat_map
           (λ batchId,
              map (λ cluster, TicketTake (ClusterQueue cluster) (DrawCall.id d, batchId))
                (seq 0 MaxClusterCount) ++
              [Schedule (batchTask (DrawData.rasterizerDiscard (DrawCall.data d))
                           (numVisible batchId) (DrawCall.id d) batchId)]) l)).
    { induction l as [|b l IH]; intros Hnd; [exact I|].
      apply NoDup_cons in Hnd as [Hb Hnd].
      cbn [flat_map]. rewrite <- app_assoc.
      apply main_owed_cluster_takes.
      - intros c Hc. cbn [app scheduled flat_map].
        change (flat_map _ ?x) with (scheduled x) at 1.
        rewrite count_app, count_batchTask_own
          by (apply list_elem_of_In, in_seq in Hc; lia).
        rewrite scheduled_flat_map, count_flat_map_none; [reflexivity|].
        intros b' Hb'. rewrite scheduled_cluster_takes.
        cbn [scheduled flat_map]. rewrite app_nil_r.
        destruct (length _) as [|n] eqn:Hn; [reflexivity|exfalso].
        pose proof (count_batchTask (DrawData.rasterizerDiscard (DrawCall.data d))
                      (numVisible b') (DrawCall.id d) b' (ClusterQueue c)
                      (DrawCall.id d, b)) as [_ Hpos].
        rewrite Hn in Hpos. specialize (Hpos ltac:(lia)).
        injection Hpos as ->. contradiction.
      - cbn [app main_owed]. split; [exact I|]. apply IH, Hnd. }
    apply Hb, NoDup_seq.
  Qed.

Lemma run_scheduled_after_takes (before : list Call) (d : DrawCall.t)
      (numVisible : nat → Z) :
    scheduled_after_takes before (run d numVisible).
  Proof.
    unfold run.
    apply scheduled_after_takes_app; [apply scheduled_after_takes_skip, setup_no_schedule|].
    cbn [app scheduled_after_takes]. split; [exact I|].
    generalize ((before ++ DrawCall_setup d) ++ [TicketTake DrawTickets (DrawCall.id d, 0)]).
    generalize (seq 0 (Z.to_nat (DrawCall.numBatches d))).
    intros l. induction l as [|b l IH]; intros b0; [exact I|].
    cbn [flat_map]. rewrite <- app_assoc.
    apply scheduled_after_takes_app;
      [apply scheduled_after_takes_skip, cluster_takes_no_schedule|].
    cbn [app scheduled_after_takes]. split; [|apply IH].
    intros k t c Hc Ht.
    destruct (batchTask_touch_inv _ _ _ _ _ _ _ Hc Ht) as [-> Hk].
    rewrite takes_app. apply elem_of_app. right.
    rewrite takes_cluster_takes by apply NoDup_seq.
    rewrite bool_decide_true by (apply list_elem_of_In, in_seq; lia).
    apply list_elem_of_here.
  Qed.
End RunAccounting.

Section ProgressSteps.
Context `{Constants}.

Lemma progress_main_collaborator (s : System.t) (call : Call) (rest : list Call) :
    invariant s → progress s → System.main s = call :: rest → collaborator_call call →
    progress {| System.renderer := System.renderer s; System.main := rest;
                System.world := perform call (System.world s) |}.
  Proof.
    intros Hinv Hp Hmain Hc.
    assert (Hperf : perform call (System.world s) =
              {| World.queues := World.queues (System.world s);
                 World.pool := World.pool (System.world s);
                 World.trace := World.trace (System.world s) ++ [call] |})
      by (destruct call; cbn in Hc; try contradiction; reflexivity).
    assert (Htk : ∀ q, takes q [call] = [])
      by (intros q; destruct call; cbn in Hc; try contradiction; reflexivity).
    assert (Hpx : ∀ k, pixel_log k [call] = [])
      by (intros k; destruct call; cbn in Hc; try contradiction; reflexivity).
    assert (Hat : ∀ k, attached_log k [call] = [])
      by (intros k; destruct call; cbn in Hc; try contradiction; reflexivity).
    assert (Hsch : scheduled (call :: rest) = scheduled rest)
      by (destruct call; cbn in Hc; try contradiction; reflexivity).
    assert (Hpend : ∀ q t,
              pending q t {| System.renderer := System.renderer s; System.main := rest;
                             System.world := perform call (System.world s) |} =
              pending q t s).
    { intros q t. rewrite Hperf. unfold pending.
      cbn [System.main System.world World.pool World.queues]. rewrite Hmain, Hsch.
      reflexivity. }
    pose proof (pr_scheduled s Hp) as Hs. rewrite Hmain in Hs. destruct Hs as [_ Hs].
    pose proof (pr_main_owed s Hp) as Ho. rewrite Hmain in Ho. destruct Ho as [_ Ho].
    apply (progress_frame s); [exact Hp|..]; rewrite ?Hperf;
      cbn [System.renderer System.main System.world World.queues World.pool World.trace].
    - reflexivity.
    - intros q. rewrite takes_app, Htk, app_nil_r. reflexivity.
    - intros k. rewrite attached_log_app, Hat, app_nil_r. reflexivity.
    - intros k t. rewrite <- (Hpend (ClusterQueue k) t), Hperf. lia.
    - intros k t _ Hpos. rewrite <- (Hpend (ClusterQueue k) t), Hperf. exact Hpos.
    - apply Hp.
    - exact Hs.
    - exact Ho.
    - intros k x Hx. rewrite pixel_log_app. apply elem_of_app. left. exact Hx.
    - intros d b k Hin. left. exact Hin.
    - intros k x Hx. rewrite pixel_log_app, Hpx, app_nil_r in Hx. left. exact Hx.
    - auto.
  Qed.

Lemma progress_main_schedule (s : System.t) (task : list Call) (rest : list Call) :
    invariant s → progress s → System.main s = Schedule task :: rest → Forall plain task →
    progress {| System.renderer := System.renderer s; System.main := rest;
                System.world := perform (Schedule task) (System.world s) |}.
  Proof.
    intros Hinv Hp Hmain Hplain.
    assert (Hpend : ∀ q t,
              pending q t {| System.renderer := System.renderer s; System.main := rest;
                             System.world := perform (Schedule task) (System.world s) |} =
              pending q t s).
    { intros q t. rewrite !pending_split.
      cbn [System.main System.world perform World.pool World.queues].
      rewrite Hmain. cbn [scheduled flat_map]. fold (scheduled rest).
      rewrite concat_app. cbn [concat]. rewrite app_nil_r, !count_app. lia. }
    pose proof (pr_scheduled s Hp) as Hs. rewrite Hmain in Hs. destruct Hs as [Htask Hs].
    pose proof (pr_main_owed s Hp) as Ho. rewrite Hmain in Ho. destruct Ho as [_ Ho].
    assert (Hpool : ∀ c, c ∈ concat (World.pool (System.world s) ++ [task]) →
                         c ∈ concat (World.pool (System.world s)) ∨ c ∈ task).
    { intros c Hc. rewrite concat_app in Hc. cbn [concat] in Hc. rewrite app_nil_r in Hc.
      apply elem_of_app in Hc. exact Hc. }
    apply (progress_frame s); [exact Hp|..];
      cbn [System.renderer System.main System.world perform
           World.queues World.pool World.trace].
    - reflexivity.
    - intros q. rewrite takes_app. cbn. apply app_nil_r.
    - intros k. rewrite attached_log_app. cbn. apply app_nil_r.
    - intros k t. rewrite <- (Hpend (ClusterQueue k) t). cbn [perform]. lia.
    - intros k t _ Hpos. rewrite <- (Hpend (ClusterQueue k) t). exact Hpos.
    - intros k t c Hc Ht. destruct (Hpool c Hc) as [Hc'|Hc'].
      + exact (pr_pool_taken s Hp k t c Hc' Ht).
      + exact (Htask k t c Hc' Ht).
    - exact Hs.
    - exact Ho.
    - intros k x Hx. rewrite pixel_log_app. apply elem_of_app. left. exact Hx.
    - intros d b k Hin. left. rewrite concat_app. apply elem_of_app. left. exact Hin.
    - intros k x Hx. rewrite pixel_log_app in Hx. cbn in Hx. rewrite app_nil_r in Hx.
      left. exact Hx.
    - intros d b k Hin. destruct (Hpool _ Hin) as [Hc'|Hc']; [exact Hc'|].
      exfalso. exact (plain_no_pixel _ _ _ _ Hplain Hc').
  Qed.

  (** What the pool looks like to the other closures when one of them makes
      a call. *)
Lemma pool_rest_sub (before after : list (list Call)) (call : Call) (rest : list Call)
      (c : Call) :
    c ∈ concat (before ++ rest :: after) → c ∈ concat (before ++ (call :: rest) :: after).
  Proof.
    intros Hc. rewrite concat_pool_step. rewrite concat_pool_rest in Hc.
    apply elem_of_app in Hc as [Hc|Hc]; apply elem_of_app; [left; exact Hc|right].
    apply list_elem_of_further. exact Hc.
  Qed.

Lemma pool_rest_keep (before after : list (list Call)) (call : Call) (rest : list Call)
      (c : Call) :
    c ∈ concat (before ++ (call :: rest) :: after) → c ≠ call →
    c ∈ concat (before ++ rest :: after).
  Proof.
    intros Hc Hne. rewrite concat_pool_step in Hc. rewrite concat_pool_rest.
    apply elem_of_app in Hc as [Hc|Hc]; apply elem_of_app; [left; exact Hc|right].
    apply elem_of_cons in Hc as [Heq|Hc]; [contradiction|exact Hc].
  Qed.

Lemma progress_worker_routine (s : System.t) (before after : list (list Call))
      (call : Call) (rest : list Call) :
    invariant s → progress s →
    World.pool (System.world s) = before ++ (call :: rest) :: after →
    (∃ d b, call = VertexRoutine d b ∨ call = SetupPrimitives d b) →
    progress {| System.renderer := System.renderer s; System.main := System.main s;
                System.world :=
                  perform call
                    {| World.queues := World.queues (System.world s);
                       World.pool := before ++ rest :: after;
                       World.trace := World.trace (System.world s) |} |}.
  Proof.
    intros Hinv Hp Hpool (d & b & Hcall).
    assert (Hperf : ∀ w, perform call w =
              {| World.queues := World.queues w; World.pool := World.pool w;
                 World.trace := World.trace w ++ [call] |})
      by (intros w; destruct Hcall as [-> | ->]; reflexivity).
    assert (Htk : ∀ q, takes q [call] = [])
      by (intros q; destruct Hcall as [-> | ->]; reflexivity).
    assert (Hpx : ∀ k, pixel_log k [call] = [])
      by (intros k; destruct Hcall as [-> | ->]; reflexivity).
    assert (Hat : ∀ k, attached_log k [call] = [])
      by (intros k; destruct Hcall as [-> | ->]; reflexivity).
    assert (Htouch : ∀ q t, touches q t call = false)
      by (intros q t; destruct Hcall as [-> | ->]; reflexivity).
    assert (Hnp : ∀ d' b' k', PixelRoutine d' b' k' ≠ call)
      by (intros d' b' k'; destruct Hcall as [-> | ->]; discriminate).
    assert (Hpend : ∀ q t,
              pending q t {| System.renderer := System.renderer s;
                             System.main := System.main s;
                             System.world :=
                               {| World.queues := World.queues (System.world s);
                                  World.pool := before ++ rest :: after;
                                  World.trace := World.trace (System.world s) ++ [call] |} |} =
              pending q t s).
    { intros q t. rewrite !pending_split.
      cbn [System.main System.world World.pool World.queues].
      rewrite Hpool, (count_pool_step _ before after call), Htouch. cbv iota. lia. }
    rewrite Hperf. cbn [World.queues World.pool World.trace].
    apply (progress_frame s); [exact Hp|..];
      cbn [System.renderer System.main System.world World.queues World.pool World.trace].
    - reflexivity.
    - intros q. rewrite takes_app, Htk, app_nil_r. reflexivity.
    - intros k. rewrite attached_log_app, Hat, app_nil_r. reflexivity.
    - intros k t. rewrite Hpend. lia.
    - intros k t _ Hpos. rewrite Hpend in Hpos. exact Hpos.
    - intros k t c Hc Ht. apply (pr_pool_taken s Hp k t c); [|exact Ht].
      rewrite Hpool. apply pool_rest_sub, Hc.
    - apply (scheduled_after_takes_mono (World.trace (System.world s))); [|apply Hp].
      intros q t Ht. rewrite takes_app. apply elem_of_app. left. exact Ht.
    - apply Hp.
    - intros k x Hx. rewrite pixel_log_app. apply elem_of_app. left. exact Hx.
    - intros d' b' k' Hin. left. rewrite Hpool in Hin.
      apply (pool_rest_keep _ _ call); [exact Hin|apply Hnp].
    - intros k x Hx. rewrite pixel_log_app, Hpx, app_nil_r in Hx. left. exact Hx.
    - intros d' b' k' Hin. rewrite Hpool. apply pool_rest_sub, Hin.
  Qed.

Lemma progress_worker_pixel (s : System.t) (before after : list (list Call))
      (d : Z) (b k : nat) :
    invariant s → progress s →
    World.pool (System.world s) =
      before ++ (PixelRoutine d b k :: [TicketDone (ClusterQueue k) (d, b)]) :: after →
    progress {| System.renderer := System.renderer s; System.main := System.main s;
                System.world :=
                  perform (PixelRoutine d b k)
                    {| World.queues := World.queues (System.world s);
                       World.pool := before ++ [TicketDone (ClusterQueue k) (d, b)] :: after;
                       World.trace := World.trace (System.world s) |} |}.
  Proof.
    intros Hinv Hp Hpool.
    set (call := PixelRoutine d b k) in *.
    set (rest := [TicketDone (ClusterQueue k) (d, b)]) in *.
    assert (Hpend : ∀ q t,
              pending q t {| System.renderer := System.renderer s;
                             System.main := System.main s;
                             System.world :=
                               {| World.queues := World.queues (System.world s);
                                  World.pool := before ++ rest :: after;
                                  World.trace := World.trace (System.world s) ++ [call] |} |} =
              pending q t s).
    { intros q t. rewrite !pending_split.
      cbn [System.main System.world World.pool World.queues].
      rewrite Hpool, (count_pool_step _ before after call).
      change (touches q t call) with false. cbv iota. lia. }
    change (perform call ?w) with
      {| World.queues := World.queues w; World.pool := World.pool w;
         World.trace := World.trace w ++ [call] |}.
    cbn [World.queues World.pool World.trace].
    apply (progress_frame s); [exact Hp|..];
      cbn [System.renderer System.main System.world World.queues World.pool World.trace].
    - reflexivity.
    - intros q. rewrite takes_app. cbn. apply app_nil_r.
    - intros k0. rewrite attached_log_app. cbn. apply app_nil_r.
    - intros k0 t. rewrite Hpend. lia.
    - intros k0 t _ Hpos. rewrite Hpend in Hpos. exact Hpos.
    - intros k0 t c Hc Ht. apply (pr_pool_taken s Hp k0 t c); [|exact Ht].
      rewrite Hpool. apply pool_rest_sub, Hc.
    - apply (scheduled_after_takes_mono (World.trace (System.world s))); [|apply Hp].
      intros q t Ht. rewrite takes_app. apply elem_of_app. left. exact Ht.
    - apply Hp.
    - intros k0 x Hx. rewrite pixel_log_app. apply elem_of_app. left. exact Hx.
    - intros d' b' k' Hin.
      destruct (decide ((d', b', k') = (d, b, k))) as [Heq|Hne].
      + right. injection Heq as -> -> ->. rewrite pixel_log_app. apply elem_of_app. right.
        unfold call. rewrite pixel_log_pixel, decide_True by reflexivity.
        apply list_elem_of_here.
      + left. rewrite Hpool in Hin. apply (pool_rest_keep _ _ call); [exact Hin|].
        intros Heq. apply Hne. unfold call in Heq. injection Heq as -> -> ->. reflexivity.
    - intros k0 x Hx. rewrite pixel_log_app in Hx. apply elem_of_app in Hx as [Hx|Hx].
      + left. exact Hx.
      + right. unfold call in Hx. rewrite pixel_log_pixel in Hx.
        destruct (decide (k = k0)) as [<-|Hne]; [|apply elem_of_nil in Hx; contradiction].
        apply list_elem_of_singleton in Hx as ->. cbn [fst snd].
        rewrite Hpool, concat_pool_step. apply elem_of_app. right. apply list_elem_of_here.
    - intros d' b' k' Hin. rewrite Hpool. apply pool_rest_sub, Hin.
  Qed.
End ProgressSteps.

Section ProgressDraw.
Context `{Constants}.
Variable processors : Processors.t.

Lemma collaborator_no_take (pre : list Call) :
    Forall collaborator_call pre → Forall (λ c, is_TicketTake c = false) pre.
  Proof.
    intros Hpre. eapply Forall_impl; [exact Hpre|].
    intros c Hc. destruct c; cbn in Hc; try contradiction; reflexivity.
  Qed.

Lemma collaborator_no_schedule (pre : list Call) :
    Forall collaborator_call pre → Forall (λ c, is_Schedule c = false) pre.
  Proof.
    intros Hpre. eapply Forall_impl; [exact Hpre|].
    intros c Hc. destruct c; cbn in Hc; try contradiction; reflexivity.
  Qed.

Lemma collaborator_scheduled (pre : list Call) :
    Forall collaborator_call pre → scheduled pre = [].
  Proof.
    induction 1 as [|c l Hc _ IH]; [reflexivity|].
    change (c :: l) with ([c] ++ l). rewrite scheduled_app, IH, app_nil_r.
    destruct c; cbn in Hc; try contradiction; reflexivity.
  Qed.

Lemma progress_draw (s : System.t) (draw0 : DrawCall.t) (pipeline : Pipeline.t)
      (count baseVertex : Z) (events : option Handle) (instanceID layer : Z)
      (indexBuffer : option Handle) (renderArea : VkRect2D.t)
      (pushConstants : Handle) (update : bool) (numVisible : nat → Z) :
    invariant s → progress s → System.main s = [] →
    progress
      (let r := draw processors (System.renderer s) draw0 pipeline count
                  baseVertex events instanceID layer indexBuffer renderArea
                  pushConstants update numVisible in
       {| System.renderer := DrawResult.renderer r;
          System.main := DrawResult.calls r;
          System.world := System.world s |}).
  Proof.
    intros Hinv Hp Hmain.
    pose proof (draw_calls_shape processors (System.renderer s) draw0 pipeline count
                  baseVertex events instanceID layer indexBuffer renderArea pushConstants
                  update numVisible) as Hshape.
    cbv zeta in Hshape |- *.
    set (r := draw processors (System.renderer s) draw0 pipeline count baseVertex
                events instanceID layer indexBuffer renderArea pushConstants
                update numVisible) in *.
    clearbody r.
    set (id := Renderer.nextDrawID (System.renderer s)) in *.
    assert (Hcalls : ∃ pre tail, DrawResult.calls r = pre ++ tail ∧
              Forall collaborator_call pre ∧
              (tail = [] ∨ ∃ d, DrawCall.id d = id ∧ tail = run d numVisible)).
    { destruct Hshape as [[Hcalls _] | (_ & pre & tail & Hcalls & Hpre & Htail)].
      - exists [], []. rewrite Hcalls. repeat split; [constructor|left; reflexivity].
      - exists pre, tail. repeat split; assumption. }
    clear Hshape. destruct Hcalls as (pre & tail & Hcalls & Hpre & Htail).
    assert (Htail_count : ∀ q t,
              0 < length (List.filter (touches q t) (scheduled tail)) → t.1 = id).
    { intros q t. destruct Htail as [->|(d & Hd & ->)].
      - cbn. lia.
      - rewrite <- Hd. apply count_scheduled_run. }
    assert (Hnew : ∀ q t,
              pending q t {| System.renderer := DrawResult.renderer r;
                             System.main := DrawResult.calls r;
                             System.world := System.world s |} =
              pending q t s + length (List.filter (touches q t) (scheduled tail))).
    { intros q t. rewrite !pending_split.
      cbn [System.main System.world]. rewrite Hmain, Hcalls, scheduled_app.
      rewrite (collaborator_scheduled pre Hpre). cbn [app scheduled flat_map List.filter length].
      lia. }
    apply (progress_frame s); [exact Hp|..];
      cbn [System.renderer System.main System.world]; try reflexivity.
    - intros k t. rewrite Hnew. lia.
    - intros k t Ht Hpos. rewrite Hnew in Hpos.
      destruct (pending (ClusterQueue k) t s) as [|n]; [|lia].
      assert (Hid : t.1 = id) by (apply (Htail_count (ClusterQueue k) t); lia).
      assert (Hlt : (t.1 < id)%Z).
      { apply (inv_fresh_takes s Hinv (ClusterQueue k) t). apply elem_of_app. left. exact Ht. }
      lia.
    - apply Hp.
    - rewrite Hcalls. apply scheduled_after_takes_app.
      + apply scheduled_after_takes_skip, collaborator_no_schedule, Hpre.
      + destruct Htail as [->|(d & _ & ->)]; [exact I|apply run_scheduled_after_takes].
    - rewrite Hcalls. apply main_owed_skip; [apply collaborator_no_take, Hpre|].
      destruct Htail as [->|(d & _ & ->)]; [exact I|apply run_main_owed].
    - auto.
    - auto.
    - auto.
    - auto.
  Qed.
End ProgressDraw.

Lemma progress_main_take (s : System.t) (q0 : QueueId) (t : Ticket) (rest : list Call) :
  invariant s → progress s → System.main s = TicketTake q0 t :: rest →
  progress {| System.renderer := System.renderer s; System.main := rest;
              System.world := perform (TicketTake q0 t) (System.world s) |}.
Proof.
  intros Hinv Hp Hmain.
  destruct Hp as [P1 P2 P3 P4 P5 P6 P7 P8 P9 P10].
  set (w := System.world s) in *.
  set (new := {| TicketRecord.ticket := t; TicketRecord.onCall := None |}).
  assert (Hqueue : ∀ q, (<[q0 := ticket_take (World.queues w q0) t]> (World.queues w)) q =
                        if decide (q0 = q) then World.queues w q ++ [new]
                        else World.queues w q).
  { intros q. destruct (decide (q0 = q)) as [<-|Hne].
    - rewrite fn_lookup_insert. reflexivity.
    - rewrite fn_lookup_insert_ne by exact Hne. reflexivity. }
  assert (Hpend : ∀ q tt,
            pending q tt {| System.renderer := System.renderer s; System.main := rest;
                            System.world := perform (TicketTake q0 t) w |} =
            pending q tt s).
  { intros q tt. unfold pending.
    cbn [System.main System.world perform World.pool World.queues]. fold w.
    rewrite Hmain. cbn [scheduled flat_map app]. fold (scheduled rest).
    rewrite Hqueue.
    destruct (decide (q0 = q)) as [<-|Hne]; [|reflexivity].
    rewrite attached_app. cbn [attached flat_map TicketRecord.onCall new]. rewrite !app_nil_r.
    reflexivity. }
  assert (Hat : ∀ k, attached_log k (World.trace w ++ [TicketTake q0 t]) =
                     attached_log k (World.trace w)).
  { intros k. rewrite attached_log_app. cbn. apply app_nil_r. }
  assert (Hpx : ∀ k, pixel_log k (World.trace w ++ [TicketTake q0 t]) =
                     pixel_log k (World.trace w)).
  { intros k. rewrite pixel_log_app. cbn. apply app_nil_r. }
  rewrite Hmain in P5, P6. destruct P5 as [_ P5]. destruct P6 as [Hnew P6].
  constructor;
    cbn [System.renderer System.main System.world perform
         World.queues World.pool World.trace]; fold w;
    rewrite ?Hat, ?Hpx.
  - intros k h rs HQ. rewrite Hqueue in HQ.
    destruct (decide (q0 = ClusterQueue k)) as [Heq|Hne]; [|exact (P1 k h rs HQ)].
    destruct (World.queues w (ClusterQueue k)) as [|h' rest'] eqn:HQ0.
    + cbn in HQ. injection HQ as <- <-. reflexivity.
    + cbn in HQ. injection HQ as <- <-. exact (P1 k h' rest' HQ0).
  - intros k r Hr. rewrite Hpend. rewrite Hqueue in Hr.
    destruct (decide (q0 = ClusterQueue k)) as [Heq|Hne]; [|exact (P2 k r Hr)].
    apply elem_of_app in Hr as [Hr|Hr]; [exact (P2 k r Hr)|].
    apply list_elem_of_singleton in Hr as ->. cbn [TicketRecord.ticket new].
    rewrite pending_split, Hmain. cbn [scheduled flat_map app]. fold (scheduled rest).
    subst q0. rewrite Hnew. lia.
  - intros k tt Ht Hpos. rewrite Hpend in Hpos. rewrite Hqueue.
    rewrite takes_app, takes_take in Ht.
    destruct (decide (q0 = ClusterQueue k)) as [Heq|Hne].
    + rewrite map_app. apply elem_of_app.
      apply elem_of_app in Ht as [Ht|Ht]; [left; exact (P3 k tt Ht Hpos)|right].
      exact Ht.
    + rewrite app_nil_r in Ht. exact (P3 k tt Ht Hpos).
  - intros k tt c Hc Ht. rewrite takes_app. apply elem_of_app. left.
    exact (P4 k tt c Hc Ht).
  - exact P5.
  - exact P6.
  - intros k tt Ht. rewrite Hat in Ht. rewrite Hpx.
    destruct (P7 k tt Ht) as [(r & c & Hr & Hrt & Hc) | Hother]; [left|right; exact Hother].
    exists r, c. split; [|split; assumption]. rewrite Hqueue.
    destruct (decide (q0 = ClusterQueue k)); [apply elem_of_app; left|]; exact Hr.
  - intros k tt Ht. rewrite Hpx in Ht. rewrite Hat. exact (P8 k tt Ht).
  - intros d b k Hin. rewrite Hat. exact (P9 d b k Hin).
  - intros k r c Hr Hc. rewrite Hat. rewrite Hqueue in Hr.
    destruct (decide (q0 = ClusterQueue k)) as [Heq|Hne]; [|exact (P10 k r c Hr Hc)].
    apply elem_of_app in Hr as [Hr|Hr]; [exact (P10 k r c Hr Hc)|].
    apply list_elem_of_singleton in Hr as ->. discriminate.
Qed.

(** *** What is owed, as a statement about calls *)

Lemma count_pos {A : Type} (f : A → bool) (l : list A) :
  0 < length (List.filter f l) → ∃ x, x ∈ l ∧ f x = true.
Proof.
  induction l as [|x l IH]; cbn [List.filter]; [cbn; lia|].
  destruct (f x) eqn:Hf.
  - intros _. exists x. split; [apply list_elem_of_here|exact Hf].
  - intros Hpos. destruct (IH Hpos) as (y & Hy & Hfy).
    exists y. split; [apply list_elem_of_further, Hy|exact Hfy].
Qed.

Lemma attached_elem (q : QueueId) (Q : list TicketRecord.t) (c : Call) :
  c ∈ attached q Q ↔
  ∃ r cont, r ∈ Q ∧ TicketRecord.onCall r = Some cont ∧
            c = TicketOnCall q (TicketRecord.ticket r) cont.
Proof.
  unfold attached. rewrite list_elem_of_In, in_flat_map. split.
  - intros (r & Hr & Hc). destruct (TicketRecord.onCall r) as [cont|] eqn:Hon.
    + destruct Hc as [<-|[]]. exists r, cont.
      split; [apply list_elem_of_In, Hr|]. split; [exact Hon|reflexivity].
    + destruct Hc.
  - intros (r & cont & Hr & Hon & ->). exists r. split; [apply list_elem_of_In, Hr|].
    rewrite Hon. left. reflexivity.
Qed.

Lemma touches_stored (q : QueueId) (t t' : Ticket) (cont : list Call) :
  touches q t (TicketOnCall q t' cont) = true ↔ t' = t.
Proof.
  rewrite touches_onCall. split.
  - intros Ht. apply touches_done_inv in Ht as [_ Ht]. exact Ht.
  - intros ->. apply touches_done.
Qed.

Lemma pending_pos (q : QueueId) (t : Ticket) (s : System.t) :
  0 < pending q t s ↔
  (∃ c, c ∈ concat (World.pool (System.world s)) ∧ touches q t c = true) ∨
  (∃ c, c ∈ scheduled (System.main s) ∧ touches q t c = true) ∨
  (∃ r cont, r ∈ World.queues (System.world s) q ∧ TicketRecord.ticket r = t ∧
             TicketRecord.onCall r = Some cont).
Proof.
  rewrite pending_split. split.
  - intros Hpos.
    destruct (length (List.filter (touches q t) (concat (World.pool (System.world s)))))
      as [|n] eqn:H1.
    2: { left. apply count_pos. lia. }
    destruct (length (List.filter (touches q t) (scheduled (System.main s))))
      as [|n] eqn:H2.
    2: { right. left. apply count_pos. lia. }
    right. right.
    destruct (count_pos (touches q t) _ Hpos) as (c & Hc & Ht).
    apply attached_elem in Hc as (r & cont & Hr & Hon & ->).
    apply touches_stored in Ht. exists r, cont. repeat split; assumption.
  - intros [(c & Hc & Ht) | [(c & Hc & Ht) | (r & cont & Hr & Hrt & Hon)]].
    + pose proof (count_elem_of _ _ _ Hc Ht). lia.
    + pose proof (count_elem_of _ _ _ Hc Ht). lia.
    + assert (Hin : TicketOnCall q (TicketRecord.ticket r) cont ∈
                    attached q (World.queues (System.world s) q)).
      { apply attached_elem. exists r, cont. repeat split; assumption. }
      assert (Ht : touches q t (TicketOnCall q (TicketRecord.ticket r) cont) = true)
        by (apply touches_stored, Hrt).
      pose proof (count_elem_of _ _ _ Hin Ht). lia.
Qed.

(** *** [done()] keeps the other positions *)

Lemma ticket_done_keeps (Q : list TicketRecord.t) (t : Ticket) (r : TicketRecord.t) :
  r ∈ Q → TicketRecord.ticket r ≠ t →
  r ∈ (ticket_done Q t).1 ∨
  ∃ cont, TicketRecord.onCall r = Some cont ∧ (ticket_done Q t).2 = [cont] ∧
          {| TicketRecord.ticket := TicketRecord.ticket r; TicketRecord.onCall := None |}
            ∈ (ticket_done Q t).1.
Proof.
  intros Hr Hne. destruct Q as [|h rs]; [apply elem_of_nil in Hr; contradiction|].
  cbn [ticket_done].
  destruct (decide (TicketRecord.ticket h = t)) as [Heq|Hh].
  - apply elem_of_cons in Hr as [->|Hr]; [contradiction|].
    destruct rs as [|n rs']; [apply elem_of_nil in Hr; contradiction|].
    destruct (TicketRecord.onCall n) as [cont|] eqn:Hn; cbn [fst snd].
    + apply elem_of_cons in Hr as [->|Hr].
      * right. exists cont. split; [exact Hn|]. split; [reflexivity|apply list_elem_of_here].
      * left. apply list_elem_of_further, Hr.
    + left. exact Hr.
  - cbn [fst snd]. left. apply elem_of_cons in Hr as [->|Hr]; [apply list_elem_of_here|].
    apply list_elem_of_further, list_elem_of_In, filter_In.
    split; [apply list_elem_of_In, Hr|].
    apply negb_true_iff, bool_decide_eq_false. exact Hne.
Qed.

Lemma ticket_done_head (Q : list TicketRecord.t) (t : Ticket) (h : TicketRecord.t)
    (rs : list TicketRecord.t) :
  (ticket_done Q t).1 = h :: rs →
  TicketRecord.onCall h = None ∨ ∃ rs0, Q = h :: rs0.
Proof.
  destruct Q as [|h0 rs0]; cbn [ticket_done]; [discriminate|].
  destruct (decide (TicketRecord.ticket h0 = t)) as [Heq|Hh].
  - destruct rs0 as [|n rs']; [discriminate|].
    destruct (TicketRecord.onCall n) as [cont|] eqn:Hn; cbn [fst snd].
    + intros Heq'. injection Heq' as <- <-. left. reflexivity.
    + intros Heq'. injection Heq' as <- <-. left. exact Hn.
  - cbn [fst snd]. intros Heq'. injection Heq' as <- _. right. eexists. reflexivity.
Qed.

Lemma progress_worker_done (s : System.t) (before after : list (list Call))
    (k0 : nat) (t0 : Ticket) (rest : list Call) :
  invariant s → progress s →
  World.pool (System.world s) =
    before ++ (TicketDone (ClusterQueue k0) t0 :: rest) :: after →
  Forall plain rest →
  progress {| System.renderer := System.renderer s; System.main := System.main s;
              System.world :=
                perform (TicketDone (ClusterQueue k0) t0)
                  {| World.queues := World.queues (System.world s);
                     World.pool := before ++ rest :: after;
                     World.trace := World.trace (System.world s) |} |}.
Proof.
  intros Hinv Hp Hpool Hrest.
  pose proof Hinv as [I1 I2 I3 I4 I5 I6 I7 I8 I9 I10 I11 I12 I13 I14].
  pose proof Hp as [P1 P2 P3 P4 P5 P6 P7 P8 P9 P10].
  set (w := System.world s) in *.
  set (q0 := ClusterQueue k0) in *.
  set (Q := World.queues w q0).
  cbn [perform World.queues World.pool World.trace].
  set (call := TicketDone q0 t0) in *.
  pose proof (ticket_done_props Q t0 (I5 q0)) as (F1 & F2 & F3 & F4).
  pose proof (ticket_done_keeps Q t0) as F5.
  pose proof (ticket_done_head Q t0) as F6.
  fold q0 Q. destruct (ticket_done Q t0) as [Q' woken]. cbn [fst snd] in F1, F2, F3, F4, F5, F6.
  set (pool1 := before ++ rest :: after) in *.
  set (s' := {| System.renderer := System.renderer s; System.main := System.main s;
                System.world := {| World.queues := <[q0:=Q']> (World.queues w);
                                   World.pool := pool1 ++ woken;
                                   World.trace := World.trace w ++ [call] |} |}).
  assert (Hqueue : ∀ k, (<[q0:=Q']> (World.queues w)) (ClusterQueue k) =
                        if decide (k = k0) then Q' else World.queues w (ClusterQueue k)).
  { intros k. destruct (decide (k = k0)) as [->|Hne].
    - apply fn_lookup_insert.
    - apply fn_lookup_insert_ne. intros Heq. injection Heq as ->. contradiction. }
  assert (Hcall_in : call ∈ concat (World.pool w)).
  { rewrite Hpool, concat_pool_step. apply elem_of_app. right. apply list_elem_of_here. }
  assert (Hsub : ∀ c, c ∈ concat pool1 → c ∈ concat (World.pool w)).
  { intros c Hc. rewrite Hpool. apply pool_rest_sub, Hc. }
  assert (Hkeep : ∀ c, c ∈ concat (World.pool w) → c ≠ call → c ∈ concat pool1).
  { intros c Hc Hne. rewrite Hpool in Hc. exact (pool_rest_keep _ _ _ _ _ Hc Hne). }
  assert (Hpool' : ∀ c, c ∈ concat (pool1 ++ woken) ↔ c ∈ concat pool1 ∨ c ∈ concat woken).
  { intros c. rewrite concat_app. apply elem_of_app. }
  assert (Hone : pending q0 t0 s = 1).
  { pose proof (I10 q0 t0) as Hle.
    assert (0 < pending q0 t0 s); [|lia].
    apply pending_pos. left. exists call. split; [exact Hcall_in|apply touches_done]. }
  rewrite pending_split in Hone. fold w Q in Hone.
  rewrite Hpool, (count_pool_step _ before after call rest) in Hone. fold pool1 in Hone.
  pose proof (touches_done q0 t0) as Htd. fold call in Htd. rewrite Htd in Hone. clear Htd.
  assert (Hwoken : woken = [] ∨
            ∃ n, n ∈ Q ∧ TicketRecord.ticket n ≠ t0 ∧
                 woken = [pixelContinuation (TicketRecord.ticket n).1
                            (TicketRecord.ticket n).2 k0]).
  { destruct F3 as [[-> _] | (h & n & rs & cont & HQ & Hh & Hn & -> & HQ')];
      [left; reflexivity|right].
    assert (Hin : n ∈ Q) by (rewrite HQ; apply list_elem_of_further, list_elem_of_here).
    exists n. split; [exact Hin|]. split.
    - destruct (F1 {| TicketRecord.ticket := TicketRecord.ticket n;
                      TicketRecord.onCall := None |}) as [Hne _];
        [rewrite HQ'; apply list_elem_of_here|exact Hne].
    - destruct (I3 q0 n cont Hin Hn) as (k & Hk & ->). injection Hk as <-. reflexivity. }
  assert (Hwoken_touch : ∀ k tt c, c ∈ concat woken →
            touches (ClusterQueue k) tt c = true →
            k = k0 ∧ tt ≠ t0 ∧ ∃ n cont, n ∈ Q ∧ TicketRecord.ticket n = tt ∧
                                         TicketRecord.onCall n = Some cont).
  { intros k tt c Hc Ht.
    destruct F3 as [[-> _] | (h & n & rs & cont & HQ & Hh & Hn & -> & HQ')];
      [apply elem_of_nil in Hc; contradiction|].
    assert (Hin : n ∈ Q) by (rewrite HQ; apply list_elem_of_further, list_elem_of_here).
    destruct (I3 q0 n cont Hin Hn) as (k' & Hk & Hcont). injection Hk as <-.
    cbn [concat] in Hc. rewrite app_nil_r, Hcont in Hc.
    apply elem_of_cons in Hc as [->|Hc]; [discriminate Ht|].
    apply list_elem_of_singleton in Hc as ->.
    apply touches_done_inv in Ht as [Hk Htt]. injection Hk as ->. subst tt.
    split; [reflexivity|]. split.
    - destruct (F1 {| TicketRecord.ticket := TicketRecord.ticket n;
                      TicketRecord.onCall := None |}) as [Hne _];
        [rewrite HQ'; apply list_elem_of_here|].
      cbn in Hne. destruct (TicketRecord.ticket n). exact Hne.
    - exists n, cont. split; [exact Hin|]. split; [|exact Hn].
      destruct (TicketRecord.ticket n). reflexivity. }
  (* what is owed after the call *)
  assert (HA : ∀ k tt, 0 < pending (ClusterQueue k) tt s' →
                       0 < pending (ClusterQueue k) tt s).
  { intros k tt Hpos. apply pending_pos.
    apply pending_pos in Hpos
      as [(c & Hc & Ht) | [(c & Hc & Ht) | (r' & cont & Hr' & Hrt & Hon)]].
    - cbn [s' System.world World.pool] in Hc. apply Hpool' in Hc as [Hc|Hc].
      + left. exists c. split; [apply Hsub, Hc|exact Ht].
      + destruct (Hwoken_touch k tt c Hc Ht) as (-> & _ & n & cont & Hn & Hnt & Hon).
        right. right. exists n, cont. repeat split; assumption.
    - right. left. exists c. split; assumption.
    - right. right. cbn [s' System.world World.queues] in Hr'. rewrite Hqueue in Hr'.
      destruct (decide (k = k0)) as [->|Hne]; [|exists r', cont; repeat split; assumption].
      destruct (F1 r' Hr') as (_ & r & Hr & Hsame & [Heq|Heq]).
      + exists r, cont. split; [exact Hr|]. split; congruence.
      + congruence. }
  assert (HB : pending q0 t0 s' = 0).
  { rewrite pending_split. unfold s'. cbn [System.world System.main World.pool World.queues].
    rewrite (fn_lookup_insert (World.queues w) q0 Q').
    rewrite concat_app, count_app.
    assert (Hw0 : length (List.filter (touches q0 t0) (concat woken)) = 0).
    { apply count_none. intros c Hc. destruct (touches q0 t0 c) eqn:Ht; [|reflexivity].
      destruct (Hwoken_touch k0 t0 c Hc Ht) as (_ & Hne & _). contradiction. }
    assert (Ha0 : length (List.filter (touches q0 t0) (attached q0 Q')) = 0).
    { apply count_none. intros c Hc.
      apply attached_elem in Hc as (r' & cont & Hr' & _ & ->).
      destruct (touches q0 t0 (TicketOnCall q0 (TicketRecord.ticket r') cont)) eqn:Ht;
        [|reflexivity].
      apply touches_stored in Ht. destruct (F1 r' Hr') as [Hne _]. contradiction. }
    lia. }
  assert (HC : ∀ k tt, (k = k0 → tt ≠ t0) → 0 < pending (ClusterQueue k) tt s →
                       0 < pending (ClusterQueue k) tt s').
  { intros k tt Hne Hpos. apply pending_pos.
    apply pending_pos in Hpos
      as [(c & Hc & Ht) | [(c & Hc & Ht) | (r & cont & Hr & Hrt & Hon)]].
    - left. exists c. split; [|exact Ht].
      cbn [s' System.world World.pool]. apply Hpool'. left. apply Hkeep; [exact Hc|].
      intros ->. apply touches_done_inv in Ht as [Hk Htt]. injection Hk as ->.
      exact (Hne eq_refl (eq_sym Htt)).
    - right. left. exists c. split; assumption.
    - fold w in Hr. cbn [s' System.world World.queues World.pool]. rewrite Hqueue.
      destruct (decide (k = k0)) as [->|Hk];
        [|right; right; exists r, cont; repeat split; assumption].
      fold q0 Q in Hr.
      assert (Hrne : TicketRecord.ticket r ≠ t0) by (rewrite Hrt; apply Hne; reflexivity).
      destruct (F5 r Hr Hrne) as [Hin | (cont' & Hon' & -> & Hin)].
      + right. right. exists r, cont. repeat split; assumption.
      + left. destruct (I3 q0 r cont' Hr Hon') as (k' & Hk' & ->). injection Hk' as <-.
        exists (TicketDone q0 ((TicketRecord.ticket r).1, (TicketRecord.ticket r).2)).
        split.
        * apply Hpool'. right. cbn [concat]. rewrite app_nil_r.
          apply list_elem_of_further, list_elem_of_here.
        * rewrite <- Hrt. destruct (TicketRecord.ticket r). apply touches_done. }
  assert (Htk : ∀ q, takes q (World.trace w ++ [call]) = takes q (World.trace w)).
  { intros q. rewrite takes_app. cbn. apply app_nil_r. }
  assert (Hat : ∀ k, attached_log k (World.trace w ++ [call]) =
                     attached_log k (World.trace w)).
  { intros k. rewrite attached_log_app. cbn. apply app_nil_r. }
  assert (Hpx : ∀ k, pixel_log k (World.trace w ++ [call]) = pixel_log k (World.trace w)).
  { intros k. rewrite pixel_log_app. cbn. apply app_nil_r. }
  fold s'.
  constructor; unfold s'; cbn [System.renderer System.main System.world
                               World.queues World.pool World.trace].
  - intros k h rs HQ. rewrite Hqueue in HQ.
    destruct (decide (k = k0)) as [->|Hk]; [|exact (P1 k h rs HQ)].
    destruct (F6 h rs HQ) as [Hnone | (rs0 & HQ0)]; [exact Hnone|].
    exact (P1 k0 h rs0 HQ0).
  - intros k r' Hr'. rewrite Hqueue in Hr'.
    destruct (decide (k = k0)) as [->|Hk].
    + destruct (F1 r' Hr') as (Hne & r & Hr & Hsame & _).
      apply HC; [intros _; exact Hne|]. rewrite Hsame. apply (P2 k0 r Hr).
    + apply HC; [intros Heq; contradiction|]. apply (P2 k r' Hr').
  - intros k tt Ht Hpos. rewrite Htk in Ht. rewrite Hqueue.
    pose proof (P3 k tt Ht (HA k tt Hpos)) as Hin.
    destruct (decide (k = k0)) as [->|Hk]; [|exact Hin].
    assert (Hne : tt ≠ t0).
    { intros ->. change (0 < pending q0 t0 s') in Hpos. rewrite HB in Hpos. lia. }
    fold q0 Q in Hin.
    apply list_elem_of_In, in_map_iff in Hin as (r & Hrt & Hr).
    apply list_elem_of_In in Hr. subst tt.
    destruct (F5 r Hr Hne) as [Hin | (cont' & _ & _ & Hin)].
    + apply list_elem_of_In, in_map, list_elem_of_In, Hin.
    + apply list_elem_of_In, in_map_iff. eexists. split; [|apply list_elem_of_In, Hin].
      reflexivity.
  - intros k tt c Hc Ht. rewrite Htk. apply Hpool' in Hc as [Hc|Hc].
    + exact (P4 k tt c (Hsub c Hc) Ht).
    + destruct (Hwoken_touch k tt c Hc Ht) as (-> & _ & n & cont & Hn & <- & _).
      apply (I6 q0 n Hn).
  - apply (scheduled_after_takes_mono (World.trace w)); [|exact P5].
    intros q t Ht. rewrite Htk. exact Ht.
  - exact P6.
  - intros k tt Ht. rewrite Hat in Ht. rewrite Hpx.
    destruct (P7 k tt Ht) as [(r & c & Hr & Hrt & Hc) | [Hpix | Hlog]].
    + rewrite Hqueue. destruct (decide (k = k0)) as [->|Hk];
        [|left; exists r, c; repeat split; assumption].
      fold q0 Q in Hr.
      assert (Hrne : TicketRecord.ticket r ≠ t0).
      { intros Heq.
        assert (Hin : TicketOnCall q0 (TicketRecord.ticket r) c ∈ attached q0 Q).
        { apply attached_elem. exists r, c. repeat split; assumption. }
        assert (Htouch : touches q0 t0 (TicketOnCall q0 (TicketRecord.ticket r) c) = true)
          by (apply touches_stored, Heq).
        pose proof (count_elem_of _ _ _ Hin Htouch). lia. }
      destruct (F5 r Hr Hrne) as [Hin | (cont' & Hon' & -> & Hin)].
      * left. exists r, c. repeat split; assumption.
      * right. left. destruct (I3 q0 r cont' Hr Hon') as (k' & Hk' & ->).
        injection Hk' as <-. apply Hpool'. right. cbn [concat]. rewrite app_nil_r, Hrt.
        apply list_elem_of_here.
    + right. left. apply Hpool'. left. apply Hkeep; [exact Hpix|discriminate].
    + right. right. exact Hlog.
  - intros k tt Ht. rewrite Hpx in Ht. rewrite Hat. exact (P8 k tt Ht).
  - intros d b k Hin. rewrite Hat. apply Hpool' in Hin as [Hin|Hin].
    + exact (P9 d b k (Hsub _ Hin)).
    + destruct F3 as [[-> _] | (h & n & rs & cont & HQ & Hh & Hn & -> & HQ')];
        [apply elem_of_nil in Hin; contradiction|].
      assert (Hnin : n ∈ Q) by (rewrite HQ; apply list_elem_of_further, list_elem_of_here).
      destruct (I3 q0 n cont Hnin Hn) as (k' & Hk & Hcont). injection Hk as <-.
      cbn [concat] in Hin. rewrite app_nil_r, Hcont in Hin.
      apply pixel_in_continuation in Hin as (-> & -> & ->).
      pose proof (P10 k0 n cont Hnin Hn) as Hlog.
      destruct (TicketRecord.ticket n). exact Hlog.
  - intros k r' c Hr' Hc. rewrite Hat. rewrite Hqueue in Hr'.
    destruct (decide (k = k0)) as [->|Hk]; [|exact (P10 k r' c Hr' Hc)].
    destruct (F1 r' Hr') as (_ & r & Hr & Hsame & [Heq|Heq]).
    + rewrite Hsame. apply (P10 k0 r c Hr). congruence.
    + congruence.
Qed.

(** *** [onCall()] keeps every position and every continuation *)

Lemma ticket_onCall_head (Q : list TicketRecord.t) (t : Ticket) (cont : list Call)
    (h : TicketRecord.t) (rs : list TicketRecord.t) :
  (ticket_onCall Q t cont).1 = h :: rs → ∃ rs0, Q = h :: rs0.
Proof.
  destruct Q as [|h0 rs0]; cbn [ticket_onCall]; [discriminate|].
  destruct (decide (TicketRecord.ticket h0 = t)); cbn [fst];
    intros Heq; injection Heq as <- _; eexists; reflexivity.
Qed.

Lemma ticket_onCall_keeps (Q : list TicketRecord.t) (t : Ticket) (cont : list Call)
    (r : TicketRecord.t) (c : list Call) :
  r ∈ Q → TicketRecord.onCall r = Some c →
  ∃ r' c', r' ∈ (ticket_onCall Q t cont).1 ∧
           TicketRecord.ticket r' = TicketRecord.ticket r ∧
           TicketRecord.onCall r' = Some c'.
Proof.
  intros Hr Hc. destruct Q as [|h rs]; [apply elem_of_nil in Hr; contradiction|].
  cbn [ticket_onCall].
  destruct (decide (TicketRecord.ticket h = t)) as [Heq|Hne]; cbn [fst].
  { exists r, c. repeat split; assumption. }
  apply elem_of_cons in Hr as [->|Hr].
  { exists h, c. split; [apply list_elem_of_here|]. split; [reflexivity|exact Hc]. }
  destruct (decide (TicketRecord.ticket r = t)) as [Hrt|Hrt].
  - eexists _, _. split.
    + apply list_elem_of_further, list_elem_of_In, in_map, list_elem_of_In, Hr.
    + cbn beta. rewrite decide_True by exact Hrt. cbn. split; [symmetry; exact Hrt|reflexivity].
  - exists r, c. split; [|split; [reflexivity|exact Hc]].
    apply list_elem_of_further, list_elem_of_In, in_map_iff. exists r.
    split; [|apply list_elem_of_In, Hr]. rewrite decide_False by exact Hrt. reflexivity.
Qed.

Lemma ticket_onCall_stores (Q : list TicketRecord.t) (t : Ticket) (cont : list Call) :
  t ∈ map TicketRecord.ticket Q →
  (ticket_onCall Q t cont).2 = [cont] ∨
  ∃ r' c', r' ∈ (ticket_onCall Q t cont).1 ∧ TicketRecord.ticket r' = t ∧
           TicketRecord.onCall r' = Some c'.
Proof.
  intros Ht. destruct Q as [|h rs]; [apply elem_of_nil in Ht; contradiction|].
  cbn [ticket_onCall].
  destruct (decide (TicketRecord.ticket h = t)) as [Heq|Hne]; cbn [fst snd];
    [left; reflexivity|right].
  cbn [map] in Ht. apply elem_of_cons in Ht as [Ht|Ht]; [symmetry in Ht; contradiction|].
  apply list_elem_of_In, in_map_iff in Ht as (r & Hrt & Hr).
  eexists _, _. split.
  - apply list_elem_of_further, list_elem_of_In, in_map, Hr.
  - cbn beta. rewrite decide_True by exact Hrt. cbn. split; reflexivity.
Qed.

Lemma progress_worker_onCall (s : System.t) (before after : list (list Call))
    (k0 : nat) (t0 : Ticket) (rest : list Call) :
  invariant s → progress s →
  World.pool (System.world s) =
    before ++ (TicketOnCall (ClusterQueue k0) t0 (pixelContinuation t0.1 t0.2 k0) :: rest)
           :: after →
  Forall plain rest →
  progress {| System.renderer := System.renderer s; System.main := System.main s;
              System.world :=
                perform (TicketOnCall (ClusterQueue k0) t0 (pixelContinuation t0.1 t0.2 k0))
                  {| World.queues := World.queues (System.world s);
                     World.pool := before ++ rest :: after;
                     World.trace := World.trace (System.world s) |} |}.
Proof.
  intros Hinv Hp Hpool Hrest.
  pose proof Hinv as [I1 I2 I3 I4 I5 I6 I7 I8 I9 I10 I11 I12 I13 I14].
  pose proof Hp as [P1 P2 P3 P4 P5 P6 P7 P8 P9 P10].
  set (w := System.world s) in *.
  set (q0 := ClusterQueue k0) in *.
  set (Q := World.queues w q0).
  set (cont := pixelContinuation t0.1 t0.2 k0) in *.
  cbn [perform World.queues World.pool World.trace].
  set (call := TicketOnCall q0 t0 cont) in *.
  pose proof (ticket_onCall_props Q t0 cont (I5 q0)) as (G1 & G2).
  pose proof (ticket_onCall_head Q t0 cont) as G3.
  pose proof (ticket_onCall_keeps Q t0 cont) as G4.
  pose proof (ticket_onCall_stores Q t0 cont) as G5.
  fold q0 Q. destruct (ticket_onCall Q t0 cont) as [Q' woken].
  cbn [fst snd] in G1, G2, G3, G4, G5.
  set (pool1 := before ++ rest :: after) in *.
  set (s' := {| System.renderer := System.renderer s; System.main := System.main s;
                System.world := {| World.queues := <[q0:=Q']> (World.queues w);
                                   World.pool := pool1 ++ woken;
                                   World.trace := World.trace w ++ [call] |} |}).
  assert (Hqueue : ∀ k, (<[q0:=Q']> (World.queues w)) (ClusterQueue k) =
                        if decide (k = k0) then Q' else World.queues w (ClusterQueue k)).
  { intros k. destruct (decide (k = k0)) as [->|Hne].
    - apply fn_lookup_insert.
    - apply fn_lookup_insert_ne. intros Heq. injection Heq as ->. contradiction. }
  assert (Htouch_call : touches q0 t0 call = true) by (apply touches_stored; reflexivity).
  assert (Hcall_in : call ∈ concat (World.pool w)).
  { rewrite Hpool, concat_pool_step. apply elem_of_app. right. apply list_elem_of_here. }
  assert (Hsub : ∀ c, c ∈ concat pool1 → c ∈ concat (World.pool w)).
  { intros c Hc. rewrite Hpool. apply pool_rest_sub, Hc. }
  assert (Hkeep : ∀ c, c ∈ concat (World.pool w) → c ≠ call → c ∈ concat pool1).
  { intros c Hc Hne. rewrite Hpool in Hc. exact (pool_rest_keep _ _ _ _ _ Hc Hne). }
  assert (Hpool' : ∀ c, c ∈ concat (pool1 ++ woken) ↔ c ∈ concat pool1 ∨ c ∈ concat woken).
  { intros c. rewrite concat_app. apply elem_of_app. }
  assert (Hwoken : woken = [] ∨ woken = [cont]).
  { destruct G2 as [[-> _] | [-> _]]; [left|right]; reflexivity. }
  assert (Hpos0 : 0 < pending q0 t0 s).
  { apply pending_pos. left. exists call. split; assumption. }
  assert (Ht0_taken : t0 ∈ takes q0 (World.trace w)) by exact (P4 k0 t0 call Hcall_in Htouch_call).
  assert (Ht0_queued : t0 ∈ map TicketRecord.ticket Q) by exact (P3 k0 t0 Ht0_taken Hpos0).
  assert (Hwoken_in : ∀ c, c ∈ concat woken → c ∈ cont).
  { intros c Hc. destruct Hwoken as [->| ->]; [apply elem_of_nil in Hc; contradiction|].
    cbn [concat] in Hc. rewrite app_nil_r in Hc. exact Hc. }
  assert (Hwoken_touch : ∀ k tt c, c ∈ concat woken →
            touches (ClusterQueue k) tt c = true → k = k0 ∧ tt = t0).
  { intros k tt c Hc Ht. apply Hwoken_in in Hc. unfold cont, pixelContinuation in Hc.
    apply elem_of_cons in Hc as [->|Hc]; [discriminate Ht|].
    apply list_elem_of_singleton in Hc as ->.
    apply touches_done_inv in Ht as [Hk Htt]. injection Hk as ->.
    split; [reflexivity|]. rewrite <- Htt. destruct t0. reflexivity. }
  assert (Hpos0' : 0 < pending q0 t0 s').
  { apply pending_pos. destruct (G5 Ht0_queued) as [-> | (r' & c' & Hr' & Hrt & Hon)].
    - left. exists (TicketDone q0 (t0.1, t0.2)). split.
      + unfold s'. cbn [System.world World.pool]. apply Hpool'. right.
        cbn [concat]. rewrite app_nil_r. apply list_elem_of_further, list_elem_of_here.
      + destruct t0. apply touches_done.
    - right. right. exists r', c'. unfold s'. cbn [System.world World.queues].
      rewrite (fn_lookup_insert (World.queues w) q0 Q'). repeat split; assumption. }
  assert (HA : ∀ k tt, 0 < pending (ClusterQueue k) tt s' →
                       0 < pending (ClusterQueue k) tt s).
  { intros k tt Hpos.
    apply pending_pos in Hpos
      as [(c & Hc & Ht) | [(c & Hc & Ht) | (r' & c' & Hr' & Hrt & Hon)]].
    - unfold s' in Hc. cbn [System.world World.pool] in Hc. apply Hpool' in Hc as [Hc|Hc].
      + apply pending_pos. left. exists c. split; [apply Hsub, Hc|exact Ht].
      + destruct (Hwoken_touch k tt c Hc Ht) as [-> ->]. exact Hpos0.
    - apply pending_pos. right. left. exists c. split; assumption.
    - unfold s' in Hr'. cbn [System.world World.queues] in Hr'. rewrite Hqueue in Hr'.
      destruct (decide (k = k0)) as [->|Hne].
      2: { apply pending_pos. right. right. exists r', c'. repeat split; assumption. }
      destruct G2 as [(_ & Hin & _) | (_ & -> & _)].
      + destruct (Hin r' Hr') as [Hr | (Hrt' & _)].
        * apply pending_pos. right. right. exists r', c'. repeat split; assumption.
        * rewrite <- Hrt, Hrt'. exact Hpos0.
      + apply pending_pos. right. right. exists r', c'. repeat split; assumption. }
  assert (HC : ∀ k tt, 0 < pending (ClusterQueue k) tt s →
                       0 < pending (ClusterQueue k) tt s').
  { intros k tt Hpos.
    destruct (decide (k = k0 ∧ tt = t0)) as [[-> ->]|Hne]; [exact Hpos0'|].
    apply pending_pos.
    apply pending_pos in Hpos
      as [(c & Hc & Ht) | [(c & Hc & Ht) | (r & c & Hr & Hrt & Hon)]].
    - left. exists c. split; [|exact Ht].
      unfold s'. cbn [System.world World.pool]. apply Hpool'. left. apply Hkeep; [exact Hc|].
      intros ->. unfold call in Ht. rewrite touches_onCall in Ht.
      apply touches_done_inv in Ht as [Hk Htt]. injection Hk as ->.
      apply Hne. split; [reflexivity|symmetry; exact Htt].
    - right. left. exists c. split; assumption.
    - right. right. unfold s'. cbn [System.world World.queues]. rewrite Hqueue.
      destruct (decide (k = k0)) as [->|Hk]; [|exists r, c; repeat split; assumption].
      destruct (G4 r c Hr Hon) as (r' & c' & Hr' & Hrt' & Hon').
      exists r', c'. split; [exact Hr'|]. split; [congruence|exact Hon']. }
  assert (Htk : ∀ q, takes q (World.trace w ++ [call]) = takes q (World.trace w)).
  { intros q. rewrite takes_app. cbn. apply app_nil_r. }
  assert (Hat : ∀ k, attached_log k (World.trace w ++ [call]) =
                     attached_log k (World.trace w) ++ if decide (k0 = k) then [t0] else []).
  { intros k. rewrite attached_log_app. f_equal.
    unfold call, q0, attached_log. cbn [flat_map]. apply app_nil_r. }
  assert (Hat_old : ∀ k tt, tt ∈ attached_log k (World.trace w) →
                            tt ∈ attached_log k (World.trace w ++ [call])).
  { intros k tt Ht. rewrite Hat. apply elem_of_app. left. exact Ht. }
  assert (Hat_new : t0 ∈ attached_log k0 (World.trace w ++ [call])).
  { rewrite Hat, decide_True by reflexivity. apply elem_of_app. right.
    apply list_elem_of_here. }
  assert (Hpx : ∀ k, pixel_log k (World.trace w ++ [call]) = pixel_log k (World.trace w)).
  { intros k. rewrite pixel_log_app. cbn. apply app_nil_r. }
  fold s'.
  constructor; unfold s'; cbn [System.renderer System.main System.world
                               World.queues World.pool World.trace].
  - intros k h rs HQ. rewrite Hqueue in HQ.
    destruct (decide (k = k0)) as [->|Hk]; [|exact (P1 k h rs HQ)].
    destruct (G3 h rs HQ) as (rs0 & HQ0). exact (P1 k0 h rs0 HQ0).
  - intros k r' Hr'. apply HC. rewrite Hqueue in Hr'.
    destruct (decide (k = k0)) as [->|Hk]; [|exact (P2 k r' Hr')].
    assert (Hin : TicketRecord.ticket r' ∈ map TicketRecord.ticket Q).
    { rewrite <- G1. apply list_elem_of_In, in_map, list_elem_of_In, Hr'. }
    apply list_elem_of_In, in_map_iff in Hin as (r & Hrt & Hr).
    rewrite <- Hrt. apply (P2 k0 r), list_elem_of_In, Hr.
  - intros k tt Ht Hpos. rewrite Htk in Ht. rewrite Hqueue.
    pose proof (P3 k tt Ht (HA k tt Hpos)) as Hin.
    destruct (decide (k = k0)) as [->|Hk]; [|exact Hin].
    rewrite G1. exact Hin.
  - intros k tt c Hc Ht. rewrite Htk. apply Hpool' in Hc as [Hc|Hc].
    + exact (P4 k tt c (Hsub c Hc) Ht).
    + destruct (Hwoken_touch k tt c Hc Ht) as [-> ->]. exact Ht0_taken.
  - apply (scheduled_after_takes_mono (World.trace w)); [|exact P5].
    intros q t Ht. rewrite Htk. exact Ht.
  - exact P6.
  - intros k tt Ht. rewrite Hpx. rewrite Hat in Ht. apply elem_of_app in Ht as [Ht|Ht].
    + destruct (P7 k tt Ht) as [(r & c & Hr & Hrt & Hc) | [Hpix | Hlog]].
      * left. rewrite Hqueue.
        destruct (decide (k = k0)) as [->|Hk]; [|exists r, c; repeat split; assumption].
        destruct (G4 r c Hr Hc) as (r' & c' & Hr' & Hrt' & Hon').
        exists r', c'. split; [exact Hr'|]. split; [congruence|exact Hon'].
      * right. left. apply Hpool'. left. apply Hkeep; [exact Hpix|discriminate].
      * right. right. exact Hlog.
    + destruct (decide (k0 = k)) as [<-|Hk]; [|apply elem_of_nil in Ht; contradiction].
      apply list_elem_of_singleton in Ht as ->.
      destruct (G5 Ht0_queued) as [-> | (r' & c' & Hr' & Hrt & Hon)].
      * right. left. apply Hpool'. right. cbn [concat]. rewrite app_nil_r.
        apply list_elem_of_here.
      * left. exists r', c'. rewrite Hqueue, decide_True by reflexivity.
        repeat split; assumption.
  - intros k tt Ht. rewrite Hpx in Ht. apply Hat_old. exact (P8 k tt Ht).
  - intros d b k Hin. apply Hpool' in Hin as [Hin|Hin].
    + apply Hat_old. exact (P9 d b k (Hsub _ Hin)).
    + apply Hwoken_in, pixel_in_continuation in Hin as (-> & -> & ->).
      destruct t0. exact Hat_new.
  - intros k r' c Hr' Hc. rewrite Hqueue in Hr'.
    destruct (decide (k = k0)) as [->|Hk]; [|apply Hat_old; exact (P10 k r' c Hr' Hc)].
    destruct G2 as [(_ & Hin & _) | (_ & -> & _)].
    + destruct (Hin r' Hr') as [Hr | (Hrt' & _)].
      * apply Hat_old. exact (P10 k0 r' c Hr Hc).
      * rewrite Hrt'. exact Hat_new.
    + apply Hat_old. exact (P10 k0 r' c Hr' Hc).
Qed.

Lemma sorted_same_elements (l1 l2 : list Ticket) :
  StronglySorted ticket_lt l1 → StronglySorted ticket_lt l2 →
  (∀ x, x ∈ l1 ↔ x ∈ l2) → l1 = l2.
Proof.
  intros H1 H2 Hsame. apply (anti_symm sublist).
  - apply sorted_subset_sublist; [assumption..|]. intros x. apply Hsame.
  - apply sorted_subset_sublist; [assumption..|]. intros x. apply Hsame.
Qed.

Lemma sorted_filter (g : Ticket → bool) (l : list Ticket) :
  StronglySorted ticket_lt l → StronglySorted ticket_lt (List.filter g l).
Proof.
  intros Hs. rewrite <- (map_id (List.filter g l)). apply sorted_map_filter.
  rewrite map_id. exact Hs.
Qed.

Lemma concat_all_nil {A : Type} (pool : list (list A)) :
  Forall (λ thread, thread = []) pool → concat pool = [].
Proof. induction 1 as [|x l -> _ IH]; [reflexivity|exact IH]. Qed.

(** When nothing is left to run, every cluster ticket has been released, and
    the pixel routine has run for exactly the tickets pixel work was attached
    to. *)
Lemma quiescent_accounts (s : System.t) (cluster : nat) :
  invariant s → progress s → quiescent s →
  World.queues (System.world s) (ClusterQueue cluster) = [] ∧
  ∀ x, x ∈ pixel_log cluster (World.trace (System.world s)) ↔
       x ∈ attached_log cluster (World.trace (System.world s)).
Proof.
  intros Hinv Hp [Hmain Hpool].
  apply concat_all_nil in Hpool.
  assert (Hq : World.queues (System.world s) (ClusterQueue cluster) = []).
  { destruct (World.queues (System.world s) (ClusterQueue cluster)) as [|h rest] eqn:HQ;
      [reflexivity|exfalso].
    pose proof (pr_head s Hp cluster h rest HQ) as Hnone.
    assert (Hin : h ∈ World.queues (System.world s) (ClusterQueue cluster))
      by (rewrite HQ; apply list_elem_of_here).
    pose proof (pr_queued_owed s Hp cluster h Hin) as Hpos.
    apply pending_pos in Hpos
      as [(c & Hc & _) | [(c & Hc & _) | (r & cont & Hr & Hrt & Hon)]].
    - rewrite Hpool in Hc. apply elem_of_nil in Hc. exact Hc.
    - rewrite Hmain in Hc. apply elem_of_nil in Hc. exact Hc.
    - pose proof (inv_queue s Hinv (ClusterQueue cluster)) as Hs.
      rewrite HQ in Hs, Hr. cbn [map] in Hs.
      apply elem_of_cons in Hr as [->|Hr]; [congruence|].
      apply (ticket_lt_irrefl (TicketRecord.ticket h)). rewrite <- Hrt at 2.
      apply (sorted_head_lt _ _ _ _ Hs).
      apply list_elem_of_In, in_map, list_elem_of_In, Hr. }
  split; [exact Hq|]. intros x. split; [apply Hp|].
  intros Hx.
  destruct (pr_attached s Hp cluster x Hx) as [(r & c & Hr & _) | [Hpix | Hlog]].
  - rewrite Hq in Hr. apply elem_of_nil in Hr. contradiction.
  - rewrite Hpool in Hpix. apply elem_of_nil in Hpix. contradiction.
  - exact Hlog.
Qed.

Section Progress.
Context `{Constants}.
Variable processors : Processors.t.

Lemma initial_progress (renderer : Renderer.t) : progress (initial renderer).
  Proof.
    constructor; cbn; intros; try exact I;
      try match goal with
          | Hin : _ ∈ [] |- _ => apply elem_of_nil in Hin; contradiction
          end; try discriminate.
  Qed.

Lemma step_progress (s s' : System.t) :
    step processors s s' → invariant s → progress s → progress s'.
  Proof.
    intros Hstep Hinv Hpr. destruct Hstep as [s draw0 pipeline count baseVertex events
      instanceID layer indexBuffer renderArea pushConstants update numVisible Hmain
      | s call rest Hmain | s before after call rest Hpool].
    - apply progress_draw; assumption.
    - pose proof (inv_main s Hinv) as Hm. rewrite Hmain in Hm.
      apply Forall_cons in Hm as [Hc _].
      destruct (main_call_cases call Hc) as [Hcol | [(q & t & ->) | (task & -> & Htask)]].
      + apply progress_main_collaborator; assumption.
      + apply progress_main_take; assumption.
      + apply progress_main_schedule; assumption.
    - pose proof (inv_pool s Hinv) as Hp. rewrite Hpool in Hp.
      apply Forall_app in Hp as [_ Hp]. apply Forall_cons in Hp as [Hthread _].
      destruct (thread_ok_cases call rest Hthread)
        as [[Hcall Hrest] | (d & b & k & -> & ->)].
      + destruct call as [| | | | | | | | | | |q t|q t cont| | d b | d b |];
          cbn in Hcall; try contradiction.
        * destruct q as [|k]; [contradiction|]. apply progress_worker_done; assumption.
        * destruct q as [|k]; [contradiction|]. subst cont.
          apply progress_worker_onCall; assumption.
        * apply progress_worker_routine; [assumption..|]. exists d, b. left. reflexivity.
        * apply progress_worker_routine; [assumption..|]. exists d, b. right. reflexivity.
      + apply progress_worker_pixel; assumption.
  Qed.

Lemma reachable_progress (renderer : Renderer.t) (s : System.t) :
    rtc (step_without_wrap processors) (initial renderer) s → invariant s ∧ progress s.
  Proof.
    intros Hr. revert s Hr.
    apply (rtc_ind_r (λ s', invariant s' ∧ progress s') (initial renderer)).
    - split; [apply initial_invariant|apply initial_progress].
    - intros s1 s2 _ Hstep [Hi Hp]. split.
      + exact (step_invariant processors s1 s2 Hstep Hi).
      + destruct Hstep as [Hstep _]. exact (step_progress s1 s2 Hstep Hi Hp).
  Qed.
End Progress.

(** ** Every run comes to an end *)

Lemma list_sum_cons (x : nat) (l : list nat) : list_sum (x :: l) = x + list_sum l.
Proof. reflexivity. Qed.

Lemma stored_work_app (Q1 Q2 : list TicketRecord.t) :
  stored_work (Q1 ++ Q2) = stored_work Q1 + stored_work Q2.
Proof. unfold stored_work. rewrite map_app, list_sum_app. reflexivity. Qed.

Lemma stored_work_cons (r : TicketRecord.t) (Q : list TicketRecord.t) :
  stored_work (r :: Q) = length (default [] (TicketRecord.onCall r)) + stored_work Q.
Proof. reflexivity. Qed.

Lemma stored_work_filter (g : TicketRecord.t → bool) (Q : list TicketRecord.t) :
  stored_work (List.filter g Q) ≤ stored_work Q.
Proof.
  induction Q as [|r Q IH]; [reflexivity|].
  cbn [List.filter]. destruct (g r); rewrite !stored_work_cons; lia.
Qed.

(** [done()] hands over no more than was kept in the queue. *)
Lemma ticket_done_work (Q : list TicketRecord.t) (t : Ticket) :
  stored_work (ticket_done Q t).1 + list_sum (map length (ticket_done Q t).2) ≤ stored_work Q.
Proof.
  destruct Q as [|h rs]; cbn [ticket_done]; [reflexivity|].
  destruct (decide (TicketRecord.ticket h = t)) as [Heq|Hne].
  - destruct rs as [|n rs']; [cbn; lia|].
    destruct (TicketRecord.onCall n) as [cont|] eqn:Hn; cbn [fst snd map list_sum fold_right].
    + rewrite !stored_work_cons, Hn. cbn [from_option id TicketRecord.onCall length list_sum fold_right]. lia.
    + rewrite !stored_work_cons. lia.
  - cbn [fst snd map list_sum fold_right]. rewrite !stored_work_cons.
    pose proof (stored_work_filter
                  (λ r, negb (bool_decide (TicketRecord.ticket r = t))) rs). lia.
Qed.

(** [onCall()] keeps or hands over the continuation, once. *)
Lemma ticket_onCall_work (Q : list TicketRecord.t) (t : Ticket) (cont : list Call) :
  StronglySorted ticket_lt (map TicketRecord.ticket Q) →
  stored_work (ticket_onCall Q t cont).1 + list_sum (map length (ticket_onCall Q t cont).2)
  ≤ stored_work Q + length cont.
Proof.
  intros Hs. destruct Q as [|h rs]; cbn [ticket_onCall]; [cbn; lia|].
  destruct (decide (TicketRecord.ticket h = t)) as [Heq|Hne]; cbn [fst snd map list_sum fold_right];
    [lia|].
  rewrite !stored_work_cons. cbn [map] in Hs. apply sorted_tail in Hs.
  set (upd := λ r : TicketRecord.t,
         if decide (TicketRecord.ticket r = t) then
           {| TicketRecord.ticket := t;
              TicketRecord.onCall := Some (default [] (TicketRecord.onCall r) ++ cont) |}
         else r).
  assert (Hsame : ∀ l, (∀ r, r ∈ l → TicketRecord.ticket r ≠ t) → map upd l = l).
  { intros l Hl. induction l as [|r l IH]; [reflexivity|]. cbn [map]. rewrite IH.
    - unfold upd. rewrite decide_False; [reflexivity|]. apply Hl, list_elem_of_here.
    - intros r' Hr'. apply Hl, list_elem_of_further, Hr'. }
  assert (Hle : stored_work (map upd rs) ≤ stored_work rs + length cont); [|lia].
  clear h Hne. induction rs as [|r rs IH]; [cbn; lia|].
  cbn [map]. rewrite !stored_work_cons.
  cbn [map] in Hs. pose proof (sorted_tail _ _ _ Hs) as Hs'.
  unfold upd at 1. destruct (decide (TicketRecord.ticket r = t)) as [Hr|Hr].
  - rewrite Hsame.
    + cbn [TicketRecord.onCall from_option id]. rewrite length_app. lia.
    + intros r' Hr' Heq.
      apply (ticket_lt_irrefl t). rewrite <- Hr at 1. rewrite <- Heq.
      apply (sorted_head_lt _ _ _ _ Hs).
      apply list_elem_of_In, in_map, list_elem_of_In, Hr'.
  - specialize (IH Hs'). lia.
Qed.

Lemma stored_total_cons (queues : QueueId → list TicketRecord.t) (k : nat) (l : list nat) :
  stored_total queues (k :: l) = stored_work (queues (ClusterQueue k)) + stored_total queues l.
Proof. reflexivity. Qed.

Lemma stored_total_ext (queues queues' : QueueId → list TicketRecord.t) (l : list nat) :
  (∀ k, k ∈ l → queues' (ClusterQueue k) = queues (ClusterQueue k)) →
  stored_total queues' l = stored_total queues l.
Proof.
  induction l as [|k l IH]; intros Hq; [reflexivity|].
  rewrite !stored_total_cons, (Hq k (list_elem_of_here _ _)), IH; [reflexivity|].
  intros k' Hk'. apply Hq, list_elem_of_further, Hk'.
Qed.

Lemma insert_cluster (queues : QueueId → list TicketRecord.t) (k0 k : nat)
    (Q' : list TicketRecord.t) :
  (<[ClusterQueue k0 := Q']> queues) (ClusterQueue k) =
  if decide (k = k0) then Q' else queues (ClusterQueue k).
Proof.
  destruct (decide (k = k0)) as [->|Hne].
  - apply fn_lookup_insert.
  - apply fn_lookup_insert_ne. intros Heq. injection Heq as ->. contradiction.
Qed.

Lemma stored_total_insert_le (queues : QueueId → list TicketRecord.t) (k0 : nat)
    (Q' : list TicketRecord.t) (L : nat) (l : list nat) :
  stored_work Q' + L ≤ stored_work (queues (ClusterQueue k0)) →
  k0 ∈ l ∨ L = 0 →
  stored_total (<[ClusterQueue k0 := Q']> queues) l + L ≤ stored_total queues l.
Proof.
  intros Hle. induction l as [|k l IH]; intros Hin.
  - destruct Hin as [Hin| ->]; [apply elem_of_nil in Hin; contradiction|cbn; lia].
  - rewrite !stored_total_cons, insert_cluster.
    assert (Hall : stored_total (<[ClusterQueue k0 := Q']> queues) l ≤ stored_total queues l).
    { clear IH Hin. induction l as [|k' l IH]; [reflexivity|].
      rewrite !stored_total_cons, insert_cluster.
      destruct (decide (k' = k0)) as [->|_]; lia. }
    destruct (decide (k = k0)) as [->|Hne]; [lia|].
    assert (Hin' : k0 ∈ l ∨ L = 0).
    { destruct Hin as [Hin|Hin]; [left|right; exact Hin].
      apply elem_of_cons in Hin as [->|Hin]; [contradiction|exact Hin]. }
    specialize (IH Hin'). lia.
Qed.

Lemma stored_total_insert_ge (queues : QueueId → list TicketRecord.t) (k0 : nat)
    (Q' : list TicketRecord.t) (d : nat) (l : list nat) :
  NoDup l →
  stored_work Q' ≤ stored_work (queues (ClusterQueue k0)) + d →
  stored_total (<[ClusterQueue k0 := Q']> queues) l ≤ stored_total queues l + d.
Proof.
  intros Hnd Hle. induction Hnd as [|k l Hk Hnd IH]; [cbn; lia|].
  rewrite !stored_total_cons, insert_cluster.
  destruct (decide (k = k0)) as [->|Hne]; [|lia].
  rewrite (stored_total_ext queues (<[ClusterQueue k0 := Q']> queues) l); [lia|].
  intros k' Hk'. rewrite insert_cluster, decide_False; [reflexivity|].
  intros ->. contradiction.
Qed.

Lemma pool_work_step (before after : list (list Call)) (call : Call) (rest : list Call) :
  list_sum (map call_work (concat (before ++ (call :: rest) :: after))) =
  list_sum (map call_work (concat (before ++ rest :: after))) + call_work call.
Proof.
  rewrite concat_pool_step, concat_pool_rest, !map_app, !list_sum_app.
  cbn [map list_sum fold_right]. rewrite map_app, list_sum_app. lia.
Qed.

Lemma pool_work_woken (pool woken : list (list Call)) :
  list_sum (map call_work (concat (pool ++ woken))) =
  list_sum (map call_work (concat pool)) + list_sum (map call_work (concat woken)).
Proof. rewrite concat_app, map_app, list_sum_app. reflexivity. Qed.

Lemma pool_idle_or_ready (pool : list (list Call)) :
  Forall (λ thread, thread = []) pool ∨
  ∃ before call rest after, pool = before ++ (call :: rest) :: after.
Proof.
  induction pool as [|thread pool IH]; [left; constructor|].
  destruct thread as [|call rest].
  - destruct IH as [Hidle | (before & call & rest & after & ->)].
    + left. constructor; [reflexivity|exact Hidle].
    + right. exists ([] :: before), call, rest, after. reflexivity.
  - right. exists [], call, rest, pool. reflexivity.
Qed.

Section Drain.
Context `{Constants}.
Variable processors : Processors.t.

Lemma run_take_bound (d : DrawCall.t) (numVisible : nat → Z) (k : nat) (t : Ticket) :
    TicketTake (ClusterQueue k) t ∈ run d numVisible → k < MaxClusterCount.
  Proof.
    unfold run. intros Hin.
    apply elem_of_app in Hin as [Hin|Hin].
    { unfold DrawCall_setup in Hin. apply elem_of_app in Hin as [Hin|Hin].
      - destruct (DrawCall.occlusionQuery d); [|apply elem_of_nil in Hin; contradiction].
        apply list_elem_of_singleton in Hin. discriminate.
      - destruct (DrawCall.events d); [|apply elem_of_nil in Hin; contradiction].
        apply list_elem_of_singleton in Hin. discriminate. }
    apply elem_of_app in Hin as [Hin|Hin].
    { apply list_elem_of_singleton in Hin. discriminate. }
    apply list_elem_of_In, in_flat_map in Hin as (b & _ & Hin).
    apply in_app_or in Hin as [Hin|Hin].
    - apply in_map_iff in Hin as (c & Heq & Hc). injection Heq as -> _.
      apply in_seq in Hc. lia.
    - destruct Hin as [Heq|[]]. discriminate.
  Qed.

Lemma initial_bounded (renderer : Renderer.t) : bounded (initial renderer).
  Proof.
    constructor; cbn; [reflexivity|].
    intros k t Hin. apply elem_of_nil in Hin. contradiction.
  Qed.

Lemma step_bounded (s s' : System.t) :
    step processors s s' → invariant s → bounded s → bounded s'.
  Proof.
    intros Hstep Hinv [B1 B2]. destruct Hstep as [s draw0 pipeline count baseVertex events
      instanceID layer indexBuffer renderArea pushConstants update numVisible Hmain
      | s call rest Hmain | s before after call rest Hpool].
    - pose proof (draw_calls_shape processors (System.renderer s) draw0 pipeline count
                    baseVertex events instanceID layer indexBuffer renderArea
                    pushConstants update numVisible) as Hshape.
      cbv zeta in Hshape |- *.
      set (r := draw processors (System.renderer s) draw0 pipeline count baseVertex
                  events instanceID layer indexBuffer renderArea pushConstants
                  update numVisible) in *.
      clearbody r.
      constructor; cbn [System.main System.world]; [exact B1|].
      intros k t Hin.
      destruct Hshape as [[Hcalls _] | (_ & pre & tail & Hcalls & Hpre & Htail)];
        rewrite Hcalls in Hin; [apply elem_of_nil in Hin; contradiction|].
      apply elem_of_app in Hin as [Hin|Hin].
      + rewrite Forall_forall in Hpre. destruct (Hpre _ Hin).
      + destruct Htail as [->|(d & _ & ->)]; [apply elem_of_nil in Hin; contradiction|].
        exact (run_take_bound d numVisible k t Hin).
    - assert (Hrest : ∀ k t, TicketTake (ClusterQueue k) t ∈ rest → k < MaxClusterCount).
      { intros k t Hin. apply (B2 k t). rewrite Hmain. apply list_elem_of_further, Hin. }
      pose proof (inv_main s Hinv) as Hm. rewrite Hmain in Hm.
      apply Forall_cons in Hm as [Hc _].
      destruct (main_call_cases call Hc) as [Hcol | [(q & t & ->) | (task & -> & Htask)]].
      + constructor; cbn [System.main System.world]; [|exact Hrest].
        intros k Hk. destruct call; cbn in Hcol; try contradiction; exact (B1 k Hk).
      + constructor; cbn [System.main System.world perform World.queues]; [|exact Hrest].
        intros k Hk. rewrite fn_lookup_insert_ne; [exact (B1 k Hk)|].
        intros ->. assert (k < MaxClusterCount); [|lia].
        apply (B2 k t). rewrite Hmain. apply list_elem_of_here.
      + constructor; cbn [System.main System.world perform World.queues]; [|exact Hrest].
        exact B1.
    - pose proof (inv_pool s Hinv) as Hp. rewrite Hpool in Hp.
      apply Forall_app in Hp as [_ Hp]. apply Forall_cons in Hp as [Hthread _].
      constructor; cbn [System.main System.world]; [|exact B2].
      intros k Hk.
      destruct (thread_ok_cases call rest Hthread)
        as [[Hcall Hrest] | (d & b & k' & -> & ->)]; [|exact (B1 k Hk)].
      destruct call as [| | | | | | | | | | |q t|q t cont| | d b | d b |];
        cbn in Hcall; try contradiction; cbn [perform World.queues].
      + destruct q as [|k0]; [contradiction|].
        destruct (ticket_done (World.queues (System.world s) (ClusterQueue k0)) t)
          as [Q' woken] eqn:Hd.
        cbn [World.queues]. rewrite insert_cluster.
        destruct (decide (k = k0)) as [->|Hne]; [|exact (B1 k Hk)].
        rewrite (B1 k0 Hk) in Hd. cbn in Hd. injection Hd as <- _. reflexivity.
      + destruct q as [|k0]; [contradiction|].
        destruct (ticket_onCall (World.queues (System.world s) (ClusterQueue k0)) t cont)
          as [Q' woken] eqn:Hd.
        cbn [World.queues]. rewrite insert_cluster.
        destruct (decide (k = k0)) as [->|Hne]; [|exact (B1 k Hk)].
        rewrite (B1 k0 Hk) in Hd. cbn in Hd. injection Hd as <- _. reflexivity.
      + exact (B1 k Hk).
      + exact (B1 k Hk).
  Qed.

  (** A call of the submitting thread leaves less to do. *)
Lemma work_main (s : System.t) (call : Call) (rest : list Call) :
    invariant s → System.main s = call :: rest →
    work {| System.renderer := System.renderer s; System.main := rest;
            System.world := perform call (System.world s) |} < work s.
  Proof.
    intros Hinv Hmain. unfold work. cbn [System.main System.world]. rewrite Hmain.
    cbn [map]. rewrite list_sum_cons.
    pose proof (inv_main s Hinv) as Hm. rewrite Hmain in Hm.
    apply Forall_cons in Hm as [Hc _].
    destruct (main_call_cases call Hc) as [Hcol | [(q & t & ->) | (task & -> & Htask)]].
    - assert (Hperf : perform call (System.world s) =
                {| World.queues := World.queues (System.world s);
                   World.pool := World.pool (System.world s);
                   World.trace := World.trace (System.world s) ++ [call] |})
        by (destruct call; cbn in Hcol; try contradiction; reflexivity).
      rewrite Hperf. cbn [World.queues World.pool].
      assert (main_work call = 1)
        by (destruct call; cbn in Hcol; try contradiction; reflexivity).
      lia.
    - cbn [perform World.queues World.pool main_work].
      assert (Hq : stored_total
                (<[q := ticket_take (World.queues (System.world s) q) t]>
                   (World.queues (System.world s)))
                (seq 0 MaxClusterCount) ≤
              stored_total (World.queues (System.world s)) (seq 0 MaxClusterCount)); [|lia].
      destruct q as [|k0].
      + rewrite (stored_total_ext (World.queues (System.world s))); [reflexivity|].
        intros k _. apply fn_lookup_insert_ne. discriminate.
      + pose proof (stored_total_insert_ge (World.queues (System.world s)) k0
                      (ticket_take (World.queues (System.world s) (ClusterQueue k0)) t)
                      0 (seq 0 MaxClusterCount) (NoDup_seq _ _)) as Hge.
        rewrite !Nat.add_0_r in Hge. apply Hge.
        unfold ticket_take. rewrite stored_work_app. cbn. lia.
    - cbn [perform World.queues World.pool main_work].
      rewrite pool_work_woken. cbn [concat]. rewrite app_nil_r. lia.
  Qed.

Lemma work_pixelContinuation (d : Z) (b k : nat) :
    list_sum (map call_work (pixelContinuation d b k)) = length (pixelContinuation d b k).
  Proof. reflexivity. Qed.

  (** A call of a closure leaves less to do. *)
Lemma work_worker (s : System.t) (before after : list (list Call))
      (call : Call) (rest : list Call) :
    invariant s → bounded s →
    World.pool (System.world s) = before ++ (call :: rest) :: after →
    work {| System.renderer := System.renderer s; System.main := System.main s;
            System.world :=
              perform call
                {| World.queues := World.queues (System.world s);
                   World.pool := before ++ rest :: after;
                   World.trace := World.trace (System.world s) |} |} < work s.
  Proof.
    intros Hinv [B1 _] Hpool. unfold work at 2. rewrite Hpool, pool_work_step.
    set (pool1 := before ++ rest :: after).
    set (queues := World.queues (System.world s)).
    pose proof (inv_pool s Hinv) as Hp. rewrite Hpool in Hp.
    apply Forall_app in Hp as [_ Hp]. apply Forall_cons in Hp as [Hthread _].
    assert (Hplainstep : call_work call = 1 →
              (∀ w, perform call w =
                    {| World.queues := World.queues w; World.pool := World.pool w;
                       World.trace := World.trace w ++ [call] |}) →
              work {| System.renderer := System.renderer s; System.main := System.main s;
                      System.world := perform call
                        {| World.queues := queues; World.pool := pool1;
                           World.trace := World.trace (System.world s) |} |} <
              list_sum (map main_work (System.main s)) +
              (list_sum (map call_work (concat pool1)) + call_work call) +
              stored_total queues (seq 0 MaxClusterCount)).
    { intros Hw Hperf. rewrite Hperf, Hw. unfold work.
      cbn [System.main System.world World.queues World.pool]. lia. }
    destruct (thread_ok_cases call rest Hthread)
      as [[Hcall Hrest] | (d & b & k' & -> & ->)].
    2: { apply Hplainstep; [reflexivity|intros w; reflexivity]. }
    destruct call as [| | | | | | | | | | |q t|q t cont| | d b | d b |];
      cbn in Hcall; try contradiction.
    - destruct q as [|k0]; [contradiction|].
      unfold work. cbn [System.main System.world perform World.queues World.pool call_work].
      fold queues.
      pose proof (ticket_done_work (queues (ClusterQueue k0)) t) as Hw.
      pose proof (ticket_done_props (queues (ClusterQueue k0)) t
                    (inv_queue s Hinv (ClusterQueue k0))) as (_ & _ & F3 & _).
      destruct (ticket_done (queues (ClusterQueue k0)) t) as [Q' woken] eqn:Hd.
      cbn [fst snd World.queues World.pool] in *.
      assert (Hwoken : list_sum (map call_work (concat woken)) = list_sum (map length woken)).
      { destruct F3 as [[-> _] | (h & n & rs & cont & HQ & Hh & Hn & -> & HQ')];
          [reflexivity|].
        assert (Hin : n ∈ queues (ClusterQueue k0))
          by (rewrite HQ; apply list_elem_of_further, list_elem_of_here).
        destruct (inv_onCall s Hinv (ClusterQueue k0) n cont Hin Hn) as (k & _ & ->).
        reflexivity. }
      rewrite pool_work_woken, Hwoken.
      pose proof (stored_total_insert_le queues k0 Q' (list_sum (map length woken))
                    (seq 0 MaxClusterCount) Hw) as Hle.
      assert (Hin : k0 ∈ seq 0 MaxClusterCount ∨ list_sum (map length woken) = 0).
      { destruct (decide (k0 < MaxClusterCount)) as [Hlt|Hge].
        - left. apply list_elem_of_In, in_seq. lia.
        - right. unfold queues in Hd. rewrite (B1 k0) in Hd by lia.
          cbn in Hd. injection Hd as _ <-. reflexivity. }
      specialize (Hle Hin). lia.
    - destruct q as [|k0]; [contradiction|]. subst cont.
      unfold work. cbn [System.main System.world perform World.queues World.pool call_work].
      fold queues.
      set (cont := pixelContinuation t.1 t.2 k0).
      pose proof (ticket_onCall_work (queues (ClusterQueue k0)) t cont
                    (inv_queue s Hinv (ClusterQueue k0))) as Hw.
      pose proof (ticket_onCall_props (queues (ClusterQueue k0)) t cont
                    (inv_queue s Hinv (ClusterQueue k0))) as (_ & G2).
      destruct (ticket_onCall (queues (ClusterQueue k0)) t cont) as [Q' woken] eqn:Hd.
      cbn [fst snd World.queues World.pool] in *.
      rewrite pool_work_woken.
      destruct G2 as [(-> & _) | (-> & -> & _)].
      + cbn [concat map list_sum fold_right] in *. rewrite Nat.add_0_r in Hw.
        pose proof (stored_total_insert_ge queues k0 Q' (length cont)
                      (seq 0 MaxClusterCount) (NoDup_seq _ _) Hw) as Hge.
        lia.
      + cbn [concat]. rewrite app_nil_r.
        replace (list_sum (map call_work cont)) with (length cont) by reflexivity.
        pose proof (stored_total_insert_ge queues k0 (queues (ClusterQueue k0)) 0
                      (seq 0 MaxClusterCount) (NoDup_seq _ _)) as Hge.
        rewrite !Nat.add_0_r in Hge. specialize (Hge (le_n _)). lia.
    - apply Hplainstep; [reflexivity|intros w; reflexivity].
    - apply Hplainstep; [reflexivity|intros w; reflexivity].
  Qed.

  (** A state in which something is left to run can make a call, and the
      call leaves less to do. *)
Lemma quiescent_or_step (s : System.t) :
    invariant s → bounded s →
    quiescent s ∨ ∃ s', step_without_wrap processors s s' ∧ work s' < work s.
  Proof.
    intros Hinv Hb.
    destruct (System.main s) as [|call rest] eqn:Hmain.
    - destruct (pool_idle_or_ready (World.pool (System.world s)))
        as [Hidle | (before & call & rest & after & Hpool)].
      + left. split; assumption.
      + right. eexists. split.
        * split; [exact (step_worker processors s before after call rest Hpool)|].
          cbn. lia.
        * apply work_worker; assumption.
    - right. eexists. split.
      + split; [exact (step_main processors s call rest Hmain)|]. cbn. lia.
      + apply work_main; assumption.
  Qed.

Lemma reachable_bounded (renderer : Renderer.t) (s : System.t) :
    rtc (step_without_wrap processors) (initial renderer) s → bounded s.
  Proof.
    intros Hr.
    assert (Hboth : invariant s ∧ bounded s); [|apply Hboth].
    revert s Hr.
    apply (rtc_ind_r (λ s', invariant s' ∧ bounded s') (initial renderer)).
    - split; [apply initial_invariant|apply initial_bounded].
    - intros s1 s2 _ Hstep [Hi Hb]. split.
      + exact (step_invariant processors s1 s2 Hstep Hi).
      + destruct Hstep as [Hstep _]. exact (step_bounded s1 s2 Hstep Hi Hb).
  Qed.

  (** Left alone -- no further draw -- the system runs to its end, whatever
      the order of the calls: every call leaves less to do. *)
Lemma runs_to_quiescence (n : nat) (s : System.t) :
    work s ≤ n → invariant s → bounded s →
    ∃ s', rtc (step_without_wrap processors) s s' ∧ quiescent s'.
  Proof.
    revert s. induction n as [|n IH]; intros s Hw Hinv Hb.
    - destruct (quiescent_or_step s Hinv Hb) as [Hq | (s1 & _ & Hlt)]; [|lia].
      exists s. split; [reflexivity|exact Hq].
    - destruct (quiescent_or_step s Hinv Hb) as [Hq | (s1 & Hstep & Hlt)].
      + exists s. split; [reflexivity|exact Hq].
      + destruct (IH s1) as (s' & Hrun & Hq).
        * lia.
        * exact (step_invariant processors s s1 Hstep Hinv).
        * destruct Hstep as [Hstep _]. exact (step_bounded s s1 Hstep Hinv Hb).
        * exists s'. split; [exact (rtc_l _ _ _ _ Hstep Hrun)|exact Hq].
  Qed.
End Drain.

(** ** The order of the pixel work of a cluster *)

Section Order.
Context `{Constants}.
Variable processors : Processors.t.

  (** C2.  Take any state the system can reach -- the submitting thread
      issuing draws (the draw counter not wrapping around) and the closures
      of the pool making their calls in any interleaving -- and any cluster.
      - The cluster's tickets were reserved in the order of the draws and,
        within a draw, of the batch indices.
      - The pixel routines that have run on the cluster ran in that same
        order, each at most once: their sequence is sorted by reservation
        order and is a subsequence of the sequence of reservations.
      - Once nothing is left to run, every ticket of the cluster has been
        released, and the pixel routines that ran on the cluster are exactly
        those of the batches that attached pixel work to their ticket
        ([onCall()] in [processPixels]), in the order of the reservations.
      - From the state, the system can run on to a state in which nothing is
        left to run: the ticket queues do not block. *)
Theorem pixel_order_is_reservation_order (renderer : Renderer.t) (s : System.t)
      (cluster : nat) :
    rtc (step_without_wrap processors) (initial renderer) s →
    let trace := World.trace (System.world s) in
    StronglySorted ticket_lt (takes (ClusterQueue cluster) trace) ∧
    StronglySorted ticket_lt (pixel_log cluster trace) ∧
    sublist (pixel_log cluster trace) (takes (ClusterQueue cluster) trace) ∧
    (quiescent s →
     World.queues (System.world s) (ClusterQueue cluster) = [] ∧
     pixel_log cluster trace =
       List.filter (λ t, bool_decide (t ∈ attached_log cluster trace))
         (takes (ClusterQueue cluster) trace)) ∧
    ∃ s', rtc (step_without_wrap processors) s s' ∧ quiescent s'.
  Proof.
    intros Hr trace. pose proof (reachable_bounded processors renderer s Hr) as Hb.
    apply reachable_progress in Hr as [Hinv Hp].
    assert (Hs : StronglySorted ticket_lt (takes (ClusterQueue cluster) trace)).
    { pose proof (inv_takes s Hinv (ClusterQueue cluster)) as I4.
      apply StronglySorted_app_1_l in I4. exact I4. }
    pose proof (inv_log s Hinv cluster) as Hl.
    split; [exact Hs|]. split; [exact Hl|]. split.
    { apply sorted_subset_sublist; [exact Hl|exact Hs|].
      intros x Hx. apply (inv_log_taken s Hinv), Hx. }
    split; [|exact (runs_to_quiescence processors (work s) s (le_n _) Hinv Hb)].
    intros Hq. destruct (quiescent_accounts s cluster Hinv Hp Hq) as [Hempty Hsame].
    split; [exact Hempty|].
    apply sorted_same_elements; [exact Hl|apply sorted_filter, Hs|].
    intros x. split.
    - intros Hx. apply list_elem_of_In, filter_In. split.
      + apply list_elem_of_In, (inv_log_taken s Hinv), Hx.
      + apply bool_decide_eq_true, Hsame, Hx.
    - intros Hx. apply list_elem_of_In, filter_In in Hx as [_ Hx].
      apply bool_decide_eq_true in Hx. apply Hsame, Hx.
  Qed.
End Order.


(** In that interleaving both batches' pixel routines ran on cluster 3, in
    the order of the batches, although the vertex routine of batch 1 ran
    before that of batch 0 and the continuation of cluster 3 was started
    after those of the clusters above it. *)
Example example_final_order :
  let trace := World.trace (System.world example_final) in
  takes (ClusterQueue 3) trace = [(42%Z, 0); (42%Z, 1)] ∧
  attached_log 3 trace = [(42%Z, 1); (42%Z, 0)] ∧
  pixel_log 3 trace = [(42%Z, 0); (42%Z, 1)] ∧
  (∃ i j, position (λ c, match c with VertexRoutine 42 1 => true | _ => false end) trace = Some i ∧
          position (λ c, match c with VertexRoutine 42 0 => true | _ => false end) trace = Some j ∧
          i < j) ∧
  quiescent example_final.
Proof.
  vm_compute. split; [reflexivity|]. split; [reflexivity|]. split; [reflexivity|]. split.
  - eexists _, _. split; [reflexivity|]. split; [reflexivity|]. lia.
  - split; [reflexivity|]. repeat constructor.
Qed.

Lemma pixel_order_is_reservation_order_witness :
  rtc (@step_without_wrap binary32 header_constants example_processors)
      (initial example_renderer) example_final ∧
  quiescent example_final ∧
  StronglySorted ticket_lt
    (takes (ClusterQueue 3) (World.trace (System.world example_final))) ∧
  StronglySorted ticket_lt
    (pixel_log 3 (World.trace (System.world example_final))) ∧
  sublist (pixel_log 3 (World.trace (System.world example_final)))
          (takes (ClusterQueue 3) (World.trace (System.world example_final))) ∧
  World.queues (System.world example_final) (ClusterQueue 3) = [] ∧
  pixel_log 3 (World.trace (System.world example_final)) =
    List.filter
      (λ t, bool_decide (t ∈ attached_log 3 (World.trace (System.world example_final))))
      (takes (ClusterQueue 3) (World.trace (System.world example_final))) ∧
  ∃ s', rtc (@step_without_wrap binary32 header_constants example_processors)
            example_final s' ∧ quiescent s'.
Proof.
  assert (Hq : quiescent example_final).
  { split; [vm_compute; reflexivity|]. vm_compute. repeat constructor. }
  split; [exact example_final_reachable|]. split; [exact Hq|].
  destruct (@pixel_order_is_reservation_order binary32 header_constants
              example_processors example_renderer example_final 3
              example_final_reachable) as (H1 & H2 & H3 & H4 & H5).
  split; [exact H1|]. split; [exact H2|]. split; [exact H3|].
  destruct (H4 Hq) as [H6 H7]. split; [exact H6|]. split; [exact H7|exact H5].
Defined.
(** ** Further properties of index assembly *)

(** What one iteration of a row loop does to the entries from [bound] on:
    nothing, when it writes row [i] and [3 * (i + 1) ≤ bound]. *)
Lemma row_writes_frame (batch : list Z) (i j0 j1 j2 : nat) (x0 x1 x2 : Z) (k : nat) :
  j0 < 3 → j1 < 3 → j2 < 3 → 3 * (i + 1) ≤ k →
  (<[slot i j2 := x2]> (<[slot i j1 := x1]> (<[slot i j0 := x0]> batch))) !! k = batch !! k.
Proof. intros. read_block. reflexivity. Qed.

Lemma setBatchIndices_frame (batch : list Z) (topology : VkPrimitiveTopology)
    (mode : VkProvokingVertexModeEXT) (I : IndexSource) (start : Z) (n k : nat) :
  3 * (n + 1) ≤ k →
  (setBatchIndices batch topology mode I start n).2 !! k = batch !! k ∧
  length (setBatchIndices batch topology mode I start n).2 = length batch.
Proof.
  intros Hk.
  assert (Hrows : ∀ (body : nat → Z * list Z → Z * list Z) (index0 : Z),
    (∀ i index b, ∃ index' j0 j1 j2 x0 x1 x2,
        j0 < 3 ∧ j1 < 3 ∧ j2 < 3 ∧
        body i (index, b) =
          (index', <[slot i j2 := x2]> (<[slot i j1 := x1]> (<[slot i j0 := x0]> b)))) →
    (for_upto n body (index0, batch)).2 !! k = batch !! k ∧
    length (for_upto n body (index0, batch)).2 = length batch).
  { intros body index0 Hbody.
    apply (for_upto_ind (λ _ acc, acc.2 !! k = batch !! k ∧ length acc.2 = length batch)).
    - split; reflexivity.
    - intros i [index b] Hi [Hacc Hlen].
      destruct (Hbody i index b) as (index' & j0 & j1 & j2 & x0 & x1 & x2 & H0 & H1 & H2 & ->).
      cbn [snd] in *. split.
      + rewrite row_writes_frame by lia. exact Hacc.
      + rewrite !length_insert. exact Hlen. }
  unfold setBatchIndices.
  destruct topology.
  - pose proof (for_upto_ind
      (λ i (acc : Z * nat * list Z),
         acc.1.2 = i ∧ acc.2 !! k = batch !! k ∧ length acc.2 = length batch) n
      (λ _ '((index, pointBatch, batch) : Z * nat * BatchIndices),
         (wrap32 (index + 1), S pointBatch, <[pointBatch := I index]> batch))
      (start, 0, batch)) as Hpts.
    destruct (for_upto n _ (start, 0, batch)) as [[index pointBatch] b1] eqn:E1.
    destruct Hpts as (Hp & Hb & Hl).
    { repeat split. }
    { intros i [[ix pb] b] Hi (Hpb & Hb & Hl). cbn [fst snd] in *. subst pb.
      split; [reflexivity|]. split.
      - rewrite list_lookup_insert_ne by lia. exact Hb.
      - rewrite length_insert. exact Hl. }
    cbn [fst snd] in Hp, Hb, Hl. subst pointBatch.
    cbn [for_upto seq foldl]. cbn [snd]. split.
    + rewrite !list_lookup_insert_ne by lia. exact Hb.
    + rewrite !length_insert. exact Hl.
  - destruct (for_upto n _ _) as [ix b] eqn:E. cbn [snd].
    change b with (ix, b).2. rewrite <- E. apply Hrows.
    intros i index b0. eexists _, 0, 1, 2, _, _, _. repeat split; lia.
  - destruct (for_upto n _ _) as [ix b] eqn:E. cbn [snd].
    change b with (ix, b).2. rewrite <- E. apply Hrows.
    intros i index b0. eexists _, 0, 1, 2, _, _, _. repeat split; lia.
  - destruct (for_upto n _ _) as [ix b] eqn:E. cbn [snd].
    change b with (ix, b).2. rewrite <- E. apply Hrows.
    intros i index b0. eexists _, 0, 1, 2, _, _, _. repeat split; lia.
  - destruct (for_upto n _ _) as [ix b] eqn:E. cbn [snd].
    change b with (ix, b).2. rewrite <- E. apply Hrows.
    intros i index b0. eexists _, 0, 1, 2, _, _, _. repeat split; lia.
  - destruct (for_upto n _ _) as [ix b] eqn:E. cbn [snd].
    change b with (ix, b).2. rewrite <- E. apply Hrows.
    intros i index b0.
    eexists _, (if provokeFirstOf mode then 0 else 2), (if provokeFirstOf mode then 1 else 0),
      (if provokeFirstOf mode then 2 else 1), _, _, _.
    repeat split; destruct (provokeFirstOf mode); lia.
  - split; reflexivity.
Qed.

(** X10.  Index assembly stays inside the rows it is asked for:
    [processPrimitiveVertices] for a batch of [n] primitives changes no
    entry of the block from row [n + 1] on, whatever the topology, the index
    type and the start -- so a block of [MaxBatchSize + 1] rows is enough for
    any batch of at most [MaxBatchSize] primitives. *)
Theorem processPrimitiveVertices_frame (out : list Z)
    (primitiveIndices : option IndexBuffer) (indexType : VkIndexType)
    (start : Z) (n : nat) (topology : VkPrimitiveTopology)
    (mode : VkProvokingVertexModeEXT) (k : nat) :
  3 * (n + 1) ≤ k →
  processPrimitiveVertices out primitiveIndices indexType start n topology mode !! k
    = out !! k ∧
  length (processPrimitiveVertices out primitiveIndices indexType start n topology mode)
    = length out.
Proof.
  intros Hk.
  assert (Hpost : ∀ r : bool * list Z,
    r.2 !! k = out !! k ∧ length r.2 = length out →
    match r with
    | (false, o) => o
    | (true, o) =>
        if bool_decide (topology ≠ VK_PRIMITIVE_TOPOLOGY_POINT_LIST) then
          let last := Z.to_nat (wrap32 (Z.of_nat n - 1)) in
          let o := <[slot n 0 := batch_at o (slot last 2)]> o in
          let o := <[slot n 1 := batch_at o (slot last 2)]> o in
          let o := <[slot n 2 := batch_at o (slot last 2)]> o in
          o
        else o
    end !! k = out !! k ∧
    length match r with
    | (false, o) => o
    | (true, o) =>
        if bool_decide (topology ≠ VK_PRIMITIVE_TOPOLOGY_POINT_LIST) then
          let last := Z.to_nat (wrap32 (Z.of_nat n - 1)) in
          let o := <[slot n 0 := batch_at o (slot last 2)]> o in
          let o := <[slot n 1 := batch_at o (slot last 2)]> o in
          let o := <[slot n 2 := batch_at o (slot last 2)]> o in
          o
        else o
    end = length out).
  { intros [[|] o] [Ho Hl]; cbn [snd] in *; [|split; assumption].
    destruct (bool_decide _); [|split; assumption].
    cbv zeta. split.
    - rewrite !list_lookup_insert_ne by (unfold slot; lia). exact Ho.
    - rewrite !length_insert. exact Hl. }
  unfold processPrimitiveVertices.
  destruct primitiveIndices as [buffer|]; [destruct indexType|];
    first [ apply Hpost, setBatchIndices_frame, Hk | split; reflexivity ].
Qed.

(** X8.  The provoking-vertex convention only turns the triangle rows: for
    the three triangle topologies, row [i] assembled under the last-vertex
    convention holds the three entries of the row assembled under the
    first-vertex convention, cyclically rotated (so the winding is kept). *)
Theorem provoking_vertex_rotates_row (capacity : nat) (batch : list Z)
    (topology : VkPrimitiveTopology) (I : IndexSource) (start : Z) (n i : nat) :
  (0 ≤ start < 2 ^ 32)%Z →
  n ≤ capacity →
  length batch = 3 * (capacity + 1) →
  i < n →
  topology = VK_PRIMITIVE_TOPOLOGY_TRIANGLE_LIST ∨
  topology = VK_PRIMITIVE_TOPOLOGY_TRIANGLE_STRIP ∨
  topology = VK_PRIMITIVE_TOPOLOGY_TRIANGLE_FAN →
  ∃ a b c,
    batch_row (setBatchIndices batch topology
                 VK_PROVOKING_VERTEX_MODE_FIRST_VERTEX_EXT I start n).2 i = Some (a, b, c) ∧
    (batch_row (setBatchIndices batch topology
                  VK_PROVOKING_VERTEX_MODE_LAST_VERTEX_EXT I start n).2 i = Some (c, a, b) ∨
     batch_row (setBatchIndices batch topology
                  VK_PROVOKING_VERTEX_MODE_LAST_VERTEX_EXT I start n).2 i = Some (b, c, a)).
Proof.
  intros Hstart Hn Hlen Hi Htop.
  assert (Hrow : row_topology topology = true)
    by (destruct Htop as [->|[->| ->]]; reflexivity).
  destruct (setBatchIndices_rows capacity batch topology
              VK_PROVOKING_VERTEX_MODE_FIRST_VERTEX_EXT I start n Hstart Hn Hlen Hrow)
    as (_ & _ & Hfirst).
  destruct (setBatchIndices_rows capacity batch topology
              VK_PROVOKING_VERTEX_MODE_LAST_VERTEX_EXT I start n Hstart Hn Hlen Hrow)
    as (_ & _ & Hlast).
  rewrite (Hfirst i Hi), (Hlast i Hi).
  pose proof (reference_row_last_is_rotation topology I start i Htop) as Hrot.
  destruct (reference_row topology VK_PROVOKING_VERTEX_MODE_FIRST_VERTEX_EXT I start i)
    as [[a b] c].
  exists a, b, c. split; [reflexivity|].
  destruct Hrot as [-> | ->]; [left|right]; reflexivity.
Qed.

Lemma provoking_vertex_rotates_row_witness :
  (0 ≤ 5 < 2 ^ 32)%Z ∧ 4 ≤ 128 ∧ length (replicate 387 0%Z) = 3 * (128 + 1) ∧ 3 < 4 ∧
  ∃ a b c,
    batch_row (setBatchIndices (replicate 387 0%Z) VK_PRIMITIVE_TOPOLOGY_TRIANGLE_STRIP
                 VK_PROVOKING_VERTEX_MODE_FIRST_VERTEX_EXT LinearIndex 5 4).2 3 = Some (a, b, c) ∧
    (batch_row (setBatchIndices (replicate 387 0%Z) VK_PRIMITIVE_TOPOLOGY_TRIANGLE_STRIP
                  VK_PROVOKING_VERTEX_MODE_LAST_VERTEX_EXT LinearIndex 5 4).2 3 = Some (c, a, b) ∨
     batch_row (setBatchIndices (replicate 387 0%Z) VK_PRIMITIVE_TOPOLOGY_TRIANGLE_STRIP
                  VK_PROVOKING_VERTEX_MODE_LAST_VERTEX_EXT LinearIndex 5 4).2 3 = Some (b, c, a)).
Proof.
  split; [lia|]. split; [lia|]. split; [reflexivity|]. split; [lia|].
  apply (provoking_vertex_rotates_row 128 (replicate 387 0%Z)
           VK_PRIMITIVE_TOPOLOGY_TRIANGLE_STRIP LinearIndex 5 4 3).
  - lia.
  - lia.
  - reflexivity.
  - lia.
  - right. left. reflexivity.
Defined.

(** X9.  A topology or an index type the [switch] sends to [default:] makes
    [processPrimitiveVertices] return at once: the block is left as it was,
    overrun row included. *)
Theorem processPrimitiveVertices_unhandled (out : list Z)
    (primitiveIndices : option IndexBuffer) (indexType : VkIndexType)
    (start : Z) (n : nat) (topology : VkPrimitiveTopology)
    (mode : VkProvokingVertexModeEXT) :
  topology = VK_PRIMITIVE_TOPOLOGY_UNHANDLED ∨
  index_source_of primitiveIndices indexType = None →
  processPrimitiveVertices out primitiveIndices indexType start n topology mode = out.
Proof.
  intros [-> | Hnone].
  - destruct primitiveIndices as [buffer|]; [destruct indexType|]; reflexivity.
  - destruct primitiveIndices as [buffer|]; [destruct indexType|]; try discriminate Hnone.
    reflexivity.
Qed.

Lemma processPrimitiveVertices_unhandled_witness :
  index_source_of
    (Some {| as_uint8_t := λ i, i; as_uint16_t := λ i, i; as_uint32_t := λ i, i |})
    VK_INDEX_TYPE_UNHANDLED = None ∧
  processPrimitiveVertices [7; 8; 9; 1; 2; 3]%Z
    (Some {| as_uint8_t := λ i, i; as_uint16_t := λ i, i; as_uint32_t := λ i, i |})
    VK_INDEX_TYPE_UNHANDLED 0 1 VK_PRIMITIVE_TOPOLOGY_TRIANGLE_LIST
    VK_PROVOKING_VERTEX_MODE_FIRST_VERTEX_EXT = [7; 8; 9; 1; 2; 3]%Z.
Proof.
  split; [reflexivity|].
  apply processPrimitiveVertices_unhandled. right. reflexivity.
Defined.

Lemma processPrimitiveVertices_frame_witness :
  3 * (2 + 1) ≤ 10 ∧
  processPrimitiveVertices (replicate 12 9%Z) None VK_INDEX_TYPE_UINT16 4 2
    VK_PRIMITIVE_TOPOLOGY_TRIANGLE_STRIP VK_PROVOKING_VERTEX_MODE_LAST_VERTEX_EXT !! 10
    = replicate 12 9%Z !! 10 ∧
  length (processPrimitiveVertices (replicate 12 9%Z) None VK_INDEX_TYPE_UINT16 4 2
    VK_PRIMITIVE_TOPOLOGY_TRIANGLE_STRIP VK_PROVOKING_VERTEX_MODE_LAST_VERTEX_EXT)
    = length (replicate 12 9%Z).
Proof.
  split; [lia|]. apply processPrimitiveVertices_frame. lia.
Defined.

(** ** Further properties of draws *)

Section DrawMore.
Context `{Constants}.
Variable processors : Processors.t.

  (** X2.  A triangle draw whose polygon mode is none of fill, line and
      point takes a draw identity (the [int] counter [nextDrawID] moves on
      by one, wrapping around past [INT_MAX]) and a draw object from the
      pool, prepares the pre-rasterization descriptors, reports the mode as
      unsupported and returns: the draw is not handed to [DrawCall::run] (no
      ticket is taken, nothing is scheduled), and the object keeps the setup
      strategy its previous use left. *)
Theorem draw_unsupported_polygon_mode (this : Renderer.t) (draw0 : DrawCall.t)
      (pipeline : Pipeline.t) (count baseVertex : Z) (events : option Handle)
      (instanceID layer : Z) (indexBuffer : option Handle)
      (renderArea : VkRect2D.t) (pushConstants : Handle) (update : bool)
      (numVisible : nat → Z) :
    count ≠ 0%Z →
    Pipeline.hasRasterizerDiscard pipeline = false →
    Pipeline.isDrawTriangle pipeline = true →
    Pipeline.getPolygonMode pipeline = VK_POLYGON_MODE_UNHANDLED →
    let r := draw processors this draw0 pipeline count baseVertex events
               instanceID layer indexBuffer renderArea pushConstants update
               numVisible in
    DrawResult.submitted r = false ∧
    DrawResult.calls r =
      [DrawCallPoolBorrow;
       PrepareForSampling (Pipeline.getDescriptorSetObjects pipeline)
         (Pipeline.preRasterizationPipelineLayout pipeline);
       Unsupported] ∧
    Renderer.nextDrawID (DrawResult.renderer r) =
      wrap_int32 (Renderer.nextDrawID this + 1) ∧
    DrawCall.id (DrawResult.draw r) = Renderer.nextDrawID this ∧
    DrawCall.setupPrimitives (DrawResult.draw r) = DrawCall.setupPrimitives draw0 ∧
    DrawCall.events (DrawResult.draw r) = DrawCall.events draw0.
  Proof.
    intros Hc Hd Ht Hp r.
    destruct pipeline as [top tri line disc preLayout pvm lrm dce dcn lw vp sc pm
                          cdb sdb dbc fragLayout fs bs bc msc dso ds ddo gs gvs
                          fsh vsh acb adb asb preWrite fragWrite git].
    cbn [Pipeline.hasRasterizerDiscard Pipeline.isDrawTriangle Pipeline.getPolygonMode
         Pipeline.getDescriptorSetObjects Pipeline.preRasterizationPipelineLayout] in *.
    subst disc tri pm.
    destruct count as [|p|p]; [contradiction Hc; reflexivity| |];
      repeat split; reflexivity.
  Qed.

  (** X3.  A draw with [update] false skips the block of lines 225-243 on
      every path, also when it returns early: the renderer keeps its vertex,
      setup and pixel states and routines.  The one processor member such a
      draw still writes is the blend constant: [setBlendConstant] (line 220)
      is outside that block and runs whenever the draw gets past
      [count == 0] and rasterizer discard is off.  A draw that gets past
      [count == 0] takes the cached vertex routine (line 290); a submitted
      draw that rasterizes runs with the cached setup state and the cached
      setup and pixel routines, and with the blend factor just set. *)
Theorem draw_without_update_uses_cache (this : Renderer.t) (draw0 : DrawCall.t)
      (pipeline : Pipeline.t) (count baseVertex : Z) (events : option Handle)
      (instanceID layer : Z) (indexBuffer : option Handle)
      (renderArea : VkRect2D.t) (pushConstants : Handle)
      (numVisible : nat → Z) :
    let r := draw processors this draw0 pipeline count baseVertex events
               instanceID layer indexBuffer renderArea pushConstants false
               numVisible in
    (Renderer.vertexState (DrawResult.renderer r) = Renderer.vertexState this ∧
     Renderer.vertexRoutine (DrawResult.renderer r) = Renderer.vertexRoutine this ∧
     Renderer.setupState (DrawResult.renderer r) = Renderer.setupState this ∧
     Renderer.setupRoutine (DrawResult.renderer r) = Renderer.setupRoutine this ∧
     Renderer.pixelState (DrawResult.renderer r) = Renderer.pixelState this ∧
     Renderer.pixelRoutine (DrawResult.renderer r) = Renderer.pixelRoutine this) ∧
    Renderer.pixelProcessor_factor (DrawResult.renderer r) =
      (if (count =? 0)%Z || Pipeline.hasRasterizerDiscard pipeline then
         Renderer.pixelProcessor_factor this
       else Processors.setBlendConstant processors (Pipeline.getBlendConstants pipeline)) ∧
    (count ≠ 0%Z →
     DrawCall.vertexRoutine (DrawResult.draw r) = Renderer.vertexRoutine this) ∧
    (DrawResult.submitted r = true →
     Pipeline.hasRasterizerDiscard pipeline = false →
     DrawCall.setupState (DrawResult.draw r) = Renderer.setupState this ∧
     DrawCall.setupRoutine (DrawResult.draw r) = Renderer.setupRoutine this ∧
     DrawCall.pixelRoutine (DrawResult.draw r) = Renderer.pixelRoutine this ∧
     DrawData.factor (DrawCall.data (DrawResult.draw r)) =
       Processors.setBlendConstant processors (Pipeline.getBlendConstants pipeline)).
  Proof.
    intros r.
    destruct pipeline as [top tri line disc preLayout pvm lrm dce dcn lw vp sc pm
                          cdb sdb dbc fragLayout fs bs bc msc dso ds ddo gs gvs
                          fsh vsh acb adb asb preWrite fragWrite git].
    cbn [Pipeline.hasRasterizerDiscard Pipeline.getBlendConstants].
    destruct count as [|p|p].
    { split; [repeat split; reflexivity|]. split; [reflexivity|].
      split; [intros Hc; contradiction Hc; reflexivity|].
      intros Hs. exact (False_ind _ (diff_false_true Hs)). }
    all: destruct disc;
      [ split; [repeat split; reflexivity|]; split; [reflexivity|];
        split; [intros _; reflexivity|]; intros _ Hd; discriminate Hd |].
    all: destruct tri; [destruct pm|destruct line].
    all: split; [repeat split; reflexivity|]; split; [reflexivity|];
      split; [intros _; reflexivity|]; intros Hs _;
      first [ exact (False_ind _ (diff_false_true Hs)) | repeat split; reflexivity ].
  Qed.

Lemma run_query_start (d : DrawCall.t) (numVisible : nat → Z) :
    List.filter is_QueryStart (run d numVisible) =
    match DrawCall.occlusionQuery d with
    | Some q => [QueryStart q]
    | None => []
    end.
  Proof.
    unfold run. rewrite !List.filter_app.
    assert (Hb : List.filter is_QueryStart
              (flat_map
                 (λ batchId,
                    map (λ cluster, TicketTake (ClusterQueue cluster) (DrawCall.id d, batchId))
                      (seq 0 MaxClusterCount) ++
                    [Schedule (batchTask (DrawData.rasterizerDiscard (DrawCall.data d))
                                 (numVisible batchId) (DrawCall.id d) batchId)])
                 (seq 0 (Z.to_nat (DrawCall.numBatches d)))) = []).
    { apply filter_none. apply Forall_flat_map, Forall_forall. intros b _.
      apply Forall_app. split; [|repeat constructor].
      apply Forall_forall. intros c Hc.
      apply list_elem_of_In, in_map_iff in Hc as (k & <- & _). reflexivity. }
    rewrite Hb. unfold DrawCall_setup.
    destruct (DrawCall.occlusionQuery d), (DrawCall.events d); reflexivity.
  Qed.

Lemma draw_query_start (this : Renderer.t) (draw0 : DrawCall.t)
      (pipeline : Pipeline.t) (count baseVertex : Z) (events : option Handle)
      (instanceID layer : Z) (indexBuffer : option Handle)
      (renderArea : VkRect2D.t) (pushConstants : Handle) (update : bool)
      (numVisible : nat → Z) :
    let r := draw processors this draw0 pipeline count baseVertex events
               instanceID layer indexBuffer renderArea pushConstants update
               numVisible in
    (DrawResult.submitted r = true →
     DrawCall.occlusionQuery (DrawResult.draw r) = Renderer.occlusionQuery this) ∧
    List.filter is_QueryStart (DrawResult.calls r) =
      if DrawResult.submitted r then
        match Renderer.occlusionQuery this with
        | Some q => [QueryStart q]
        | None => []
        end
      else [].
  Proof.
    intros r. subst r.
    destruct pipeline as [top tri line disc preLayout pvm lrm dce dcn lw vp sc pm
                          cdb sdb dbc fragLayout fs bs bc msc dso ds ddo gs gvs
                          fsh vsh acb adb asb preWrite fragWrite git].
    destruct count as [|p|p];
      [split; [intros Hs; exact (False_ind _ (diff_false_true Hs))|reflexivity]| |].
    all: destruct disc;
      [split; [intros _; reflexivity|];
       match goal with
       | |- List.filter _ (DrawResult.calls ?x) = _ =>
           change (DrawResult.calls x) with
             ([DrawCallPoolBorrow; PrepareForSampling dso preLayout] ++
              run (DrawResult.draw x) numVisible);
           change (DrawResult.submitted x) with true;
           rewrite List.filter_app, run_query_start;
           change (DrawCall.occlusionQuery (DrawResult.draw x))
             with (Renderer.occlusionQuery this)
       end; reflexivity|].
    all: destruct tri; [destruct pm|destruct line].
    all: first
      [ split; [intros Hs; exact (False_ind _ (diff_false_true Hs))|reflexivity]
      | split; [intros _; reflexivity|];
        match goal with
        | |- List.filter _ (DrawResult.calls ?x) = _ =>
            change (DrawResult.calls x) with
              (([DrawCallPoolBorrow; PrepareForSampling dso preLayout] ++
                (match adb with
                 | Some view =>
                     match ImageView.getFormat view with
                     | VK_FORMAT_OTHER => [Unsupported]
                     | _ => []
                     end
                 | None => []
                 end ++
                 (if bool_decide (fragLayout ≠ preLayout) then
                    [PrepareForSampling dso fragLayout]
                  else []))) ++
               run (DrawResult.draw x) numVisible);
            change (DrawResult.submitted x) with true;
            rewrite !List.filter_app, run_query_start;
            change (DrawCall.occlusionQuery (DrawResult.draw x))
              with (Renderer.occlusionQuery this)
        end;
        destruct adb as [view|]; [destruct (ImageView.getFormat view)|];
        destruct (bool_decide (fragLayout ≠ preLayout)); reflexivity ].
  Qed.

  (** X15.  A draw submitted while an occlusion query is registered with
      [addQuery] carries that query and starts it exactly once, in
      [DrawCall::setup]; [removeQuery] puts the renderer back as it was
      before [addQuery], and a draw then starts no query. *)
Theorem registered_query_is_started (this : Renderer.t) (query : Handle)
      (draw0 : DrawCall.t)
      (pipeline : Pipeline.t) (count baseVertex : Z) (events : option Handle)
      (instanceID layer : Z) (indexBuffer : option Handle)
      (renderArea : VkRect2D.t) (pushConstants : Handle) (update : bool)
      (numVisible : nat → Z) :
    Renderer.occlusionQuery this = None →
    let r := draw processors (addQuery this query) draw0 pipeline count baseVertex
               events instanceID layer indexBuffer renderArea pushConstants update
               numVisible in
    let r' := draw processors (removeQuery (addQuery this query) query) draw0 pipeline
                count baseVertex events instanceID layer indexBuffer renderArea
                pushConstants update numVisible in
    DrawResult.submitted r = true →
    removeQuery (addQuery this query) query = this ∧
    DrawCall.occlusionQuery (DrawResult.draw r) = Some query ∧
    List.filter is_QueryStart (DrawResult.calls r) = [QueryStart query] ∧
    List.filter is_QueryStart (DrawResult.calls r') = [].
  Proof.
    intros Hnone r r' Hs.
    assert (Hback : removeQuery (addQuery this query) query = this).
    { destruct this. cbn in Hnone. subst. reflexivity. }
    split; [exact Hback|].
    destruct (draw_query_start (addQuery this query) draw0 pipeline count baseVertex
                events instanceID layer indexBuffer renderArea pushConstants update
                numVisible) as [Hq Hf].
    fold r in Hq, Hf. rewrite Hs in Hf.
    split; [exact (Hq Hs)|]. split; [exact Hf|].
    subst r'. rewrite Hback.
    destruct (draw_query_start this draw0 pipeline count baseVertex
                events instanceID layer indexBuffer renderArea pushConstants update
                numVisible) as [_ Hf0].
    cbv zeta in Hf0. rewrite Hf0, Hnone.
    match goal with |- context [if ?b then _ else _] => destruct b end; reflexivity.
  Qed.
End DrawMore.

Lemma draw_unsupported_polygon_mode_witness :
  let pipeline := example_pipeline false VK_POLYGON_MODE_UNHANDLED false false 1%Z 1%Z in
  let r := example_draw pipeline 5 (λ _, 1%Z) in
  5%Z ≠ 0%Z ∧
  Pipeline.hasRasterizerDiscard pipeline = false ∧
  Pipeline.isDrawTriangle pipeline = true ∧
  Pipeline.getPolygonMode pipeline = VK_POLYGON_MODE_UNHANDLED ∧
  DrawResult.submitted r = false ∧
  DrawResult.calls r = [DrawCallPoolBorrow; PrepareForSampling 700%Z 1%Z; Unsupported] ∧
  Renderer.nextDrawID (DrawResult.renderer r) = 43%Z.
Proof.
  intros pipeline r.
  split; [discriminate|]. do 3 (split; [reflexivity|]).
  destruct (@draw_unsupported_polygon_mode binary32 header_constants example_processors
              example_renderer stale_draw pipeline 5 0 None 0 0 None example_renderArea
              0%Z true (λ _, 1%Z) ltac:(discriminate) eq_refl eq_refl eq_refl)
    as (H1 & H2 & H3 & _).
  split; [exact H1|]. split; [exact H2|exact H3].
Defined.

Lemma draw_without_update_uses_cache_witness :
  let pipeline := example_pipeline false VK_POLYGON_MODE_FILL false false 1%Z 1%Z in
  let r := @draw binary32 header_constants example_processors example_renderer
             stale_draw pipeline 5 0 None 0 0 None example_renderArea 0%Z false
             (λ _, 1%Z) in
  5%Z ≠ 0%Z ∧
  DrawResult.submitted r = true ∧
  Pipeline.hasRasterizerDiscard pipeline = false ∧
  Renderer.pixelState (DrawResult.renderer r) = Renderer.pixelState example_renderer ∧
  Renderer.pixelProcessor_factor (DrawResult.renderer r) =
    Processors.setBlendConstant example_processors (Pipeline.getBlendConstants pipeline) ∧
  DrawCall.vertexRoutine (DrawResult.draw r) = Renderer.vertexRoutine example_renderer ∧
  DrawCall.pixelRoutine (DrawResult.draw r) = Renderer.pixelRoutine example_renderer.
Proof.
  intros pipeline r.
  destruct (@draw_without_update_uses_cache binary32 header_constants example_processors
              example_renderer stale_draw pipeline 5 0 None 0 0 None example_renderArea
              0%Z (λ _, 1%Z)) as ((_ & _ & _ & _ & H1 & _) & H2 & H3 & H4).
  split; [discriminate|]. split; [reflexivity|]. split; [reflexivity|].
  split; [exact H1|]. split; [exact H2|].
  split; [exact (H3 ltac:(discriminate))|].
  destruct (H4 eq_refl eq_refl) as (_ & _ & H5 & _). exact H5.
Defined.

Lemma registered_query_is_started_witness :
  let this := removeQuery example_renderer 0%Z in
  let pipeline := example_pipeline false VK_POLYGON_MODE_FILL false false 1%Z 1%Z in
  let r := @draw binary32 header_constants example_processors (addQuery this 77%Z)
             stale_draw pipeline 5 0 None 0 0 None example_renderArea 0%Z true
             (λ _, 1%Z) in
  Renderer.occlusionQuery this = None ∧
  DrawResult.submitted r = true ∧
  List.filter is_QueryStart (DrawResult.calls r) = [QueryStart 77%Z].
Proof.
  intros this pipeline r. split; [reflexivity|]. split; [reflexivity|].
  apply (@registered_query_is_started binary32 header_constants example_processors
           this 77%Z stale_draw pipeline 5 0 None 0 0 None example_renderArea
           0%Z true (λ _, 1%Z) eq_refl eq_refl).
Defined.

(** ** Further properties of [DrawCall::run], [setup] and [teardown] *)

Section RunMore.
Context `{Constants}.

  (** X4.  What [DrawCall::run] reserves and schedules: one ticket of the
      draw queue; from the queue of every cluster one ticket per batch, in
      batch order; and one task per batch. *)
Theorem run_reservations (d : DrawCall.t) (numVisible : nat → Z) :
    takes DrawTickets (run d numVisible) = [(DrawCall.id d, 0)] ∧
    (∀ cluster,
       takes (ClusterQueue cluster) (run d numVisible) =
       if bool_decide (cluster < MaxClusterCount) then
         map (λ b, (DrawCall.id d, b)) (seq 0 (Z.to_nat (DrawCall.numBatches d)))
       else []) ∧
    length (List.filter is_Schedule (run d numVisible)) = Z.to_nat (DrawCall.numBatches d) ∧
    length (List.filter is_TicketTake (run d numVisible)) =
      1 + Z.to_nat (DrawCall.numBatches d) * MaxClusterCount.
  Proof.
    split; [apply (takes_run d numVisible DrawTickets)|].
    split; [intros cluster; apply (takes_run d numVisible (ClusterQueue cluster))|].
    assert (Hsetup : ∀ f, (∀ q, f (QueryStart q) = false) → (∀ e, f (EventsAdd e) = false) →
              List.filter f (DrawCall_setup d) = []).
    { intros f Hq He. unfold DrawCall_setup.
      destruct (DrawCall.occlusionQuery d), (DrawCall.events d); cbn; rewrite ?Hq, ?He;
        reflexivity. }
    assert (Htakes : ∀ (t : Ticket) l,
              List.filter is_Schedule (map (λ c, TicketTake (ClusterQueue c) t) l) = [] ∧
              length (List.filter is_TicketTake (map (λ c, TicketTake (ClusterQueue c) t) l))
                = length l).
    { intros t l. induction l as [|c l [IH1 IH2]]; [split; reflexivity|].
      cbn. rewrite IH2. split; [exact IH1|reflexivity]. }
    assert (Hbatches : ∀ l : list nat,
              length (List.filter is_Schedule
                (flat_map
                   (λ batchId,
                      map (λ cluster, TicketTake (ClusterQueue cluster) (DrawCall.id d, batchId))
                        (seq 0 MaxClusterCount) ++
                      [Schedule (batchTask (DrawData.rasterizerDiscard (DrawCall.data d))
                                   (numVisible batchId) (DrawCall.id d) batchId)]) l))
                = length l ∧
              length (List.filter is_TicketTake
                (flat_map
                   (λ batchId,
                      map (λ cluster, TicketTake (ClusterQueue cluster) (DrawCall.id d, batchId))
                        (seq 0 MaxClusterCount) ++
                      [Schedule (batchTask (DrawData.rasterizerDiscard (DrawCall.data d))
                                   (numVisible batchId) (DrawCall.id d) batchId)]) l))
                = length l * MaxClusterCount).
    { induction l as [|b l [IH1 IH2]]; [split; reflexivity|].
      cbn [flat_map]. rewrite !List.filter_app, !length_app.
      destruct (Htakes (DrawCall.id d, b) (seq 0 MaxClusterCount)) as [H1 H2].
      rewrite H1, H2, IH1, IH2, length_seq.
      cbn [List.filter is_Schedule is_TicketTake length app]. split; lia. }
    destruct (Hbatches (seq 0 (Z.to_nat (DrawCall.numBatches d)))) as [Hb1 Hb2].
    rewrite length_seq in Hb1, Hb2.
    unfold run. rewrite !List.filter_app, !length_app.
    rewrite !Hsetup by reflexivity. cbn [List.filter is_Schedule is_TicketTake length].
    rewrite Hb1, Hb2. split; lia.
  Qed.

  (** X6.  The occlusion query of a draw is started by [DrawCall::setup]
      whether or not the draw rasterizes; [DrawCall::teardown] adds the
      count of every cluster, in cluster order, and finishes the query only
      when the draw does not discard rasterization. *)
Theorem occlusion_query_calls (d : DrawCall.t) :
    List.filter is_query_call (DrawCall_setup d) =
      match DrawCall.occlusionQuery d with
      | Some query => [QueryStart query]
      | None => []
      end ∧
    List.filter is_query_call (teardown_calls d) =
      match DrawCall.occlusionQuery d with
      | Some query =>
          if DrawData.rasterizerDiscard (DrawCall.data d) then []
          else
            map (λ cluster, QueryAdd query (DrawData.occlusion (DrawCall.data d) cluster))
              (seq 0 MaxClusterCount) ++
            [QueryFinish query]
      | None => []
      end.
  Proof.
    split.
    - unfold DrawCall_setup.
      destruct (DrawCall.occlusionQuery d), (DrawCall.events d); reflexivity.
    - unfold teardown_calls. rewrite !List.filter_app.
      assert (He : List.filter is_query_call
                match DrawCall.events d with
                | Some events => [EventsDone events]
                | None => []
                end = []) by (destruct (DrawCall.events d); reflexivity).
      rewrite He. cbn [app].
      assert (Hpre : List.filter is_query_call
                (if DrawCall.preRasterizationContainsImageWrite d then
                   [ContentsChanged (DrawCall.descriptorSetObjects d)
                      (DrawCall.preRasterizationPipelineLayout d)]
                 else []) = [])
        by (destruct (DrawCall.preRasterizationContainsImageWrite d); reflexivity).
      rewrite Hpre. cbn [app].
      destruct (DrawData.rasterizerDiscard (DrawCall.data d)); cbn [negb].
      { destruct (DrawCall.occlusionQuery d); reflexivity. }
      rewrite !List.filter_app.
      assert (Hcol : List.filter is_query_call
                (flat_map
                   (λ index,
                      match DrawCall.colorBuffer d index with
                      | Some target => [ImageContentsChanged (ImageView.image target)]
                      | None => []
                      end)
                   (seq 0 MAX_COLOR_BUFFERS)) = []).
      { apply filter_none, Forall_flat_map, Forall_forall. intros i _.
        destruct (DrawCall.colorBuffer d i); repeat constructor. }
      rewrite Hcol. cbn [app].
      assert (Hfrag : ∀ b : bool, List.filter is_query_call
                (if b then [ContentsChanged (DrawCall.descriptorSetObjects d)
                              (DrawCall.fragmentPipelineLayout d)] else []) = [])
        by (intros [|]; reflexivity).
      cbv zeta. rewrite Hfrag, app_nil_r.
      destruct (DrawCall.occlusionQuery d) as [query|]; [|reflexivity].
      rewrite List.filter_app. cbn [List.filter is_query_call].
      f_equal.
      generalize (seq 0 MaxClusterCount). intros l.
      induction l as [|c l IH]; [reflexivity|]. cbn. rewrite IH. reflexivity.
  Qed.

Lemma teardown_events_done (d : DrawCall.t) :
    List.filter is_EventsDone (teardown_calls d) =
    match DrawCall.events d with
    | Some events => [EventsDone events]
    | None => []
    end.
  Proof.
    unfold teardown_calls. cbv zeta. rewrite List.filter_app.
      match goal with
      | |- _ ++ List.filter _ ?rest = _ =>
          assert (Hr : Forall (λ c, is_EventsDone c = false) rest)
      end.
      { apply Forall_app. split.
        - destruct (DrawCall.preRasterizationContainsImageWrite d); repeat constructor.
        - destruct (negb _); [|constructor].
          apply Forall_app. split; [|apply Forall_app; split].
          + destruct (DrawCall.occlusionQuery d) as [query|]; [|constructor].
            apply Forall_app. split; [|repeat constructor].
            apply Forall_forall. intros c Hc.
            apply list_elem_of_In, in_map_iff in Hc as (k & <- & _). reflexivity.
          + apply Forall_flat_map, Forall_forall. intros i _.
            destruct (DrawCall.colorBuffer d i); repeat constructor.
          + destruct (_ && _); repeat constructor. }
      rewrite (filter_none _ _ Hr), app_nil_r.
      destruct (DrawCall.events d); reflexivity.
  Qed.

  (** X7.  [DrawCall::teardown] signals the draw's events at most once and
      forgets them, together with the three routines: a second teardown of
      the same object signals nothing. *)
Theorem teardown_forgets_events (d : DrawCall.t) :
    let d' := (teardown d).1 in
    List.filter is_EventsDone (teardown_calls d) =
      match DrawCall.events d with
      | Some events => [EventsDone events]
      | None => []
      end ∧
    DrawCall.events d' = None ∧
    DrawCall.vertexRoutine d' = None ∧
    DrawCall.setupRoutine d' = None ∧
    DrawCall.pixelRoutine d' = None ∧
    List.filter is_EventsDone (teardown_calls d') = [].
  Proof.
    intros d'. split; [apply teardown_events_done|].
    do 4 (split; [reflexivity|]).
    rewrite teardown_events_done. reflexivity.
  Qed.

  (** X5.  The primitive ranges [DrawCall::run] gives the batches tile the
      draw: with the batch count [Renderer::draw] computes, batch [b] starts
      at primitive [b * numPrimitivesPerBatch], holds at least one and at
      most [numPrimitivesPerBatch] primitives, the next batch starts where it
      ends, and the last one ends at [numPrimitives].  ([unsigned int]
      arithmetic; the sum [numPrimitives + numPrimitivesPerBatch] must not
      wrap.) *)
Theorem batch_ranges_tile (numPrimitives numPrimitivesPerBatch : Z) (b : nat) :
    (0 < numPrimitives)%Z → (0 < numPrimitivesPerBatch)%Z →
    (numPrimitives + numPrimitivesPerBatch ≤ 2 ^ 32)%Z →
    let numBatches :=
      (wrap32 (wrap32 (numPrimitives + numPrimitivesPerBatch) - 1)
       / numPrimitivesPerBatch)%Z in
    (Z.of_nat b < numBatches)%Z →
    let first := batch_firstPrimitive numPrimitivesPerBatch b in
    let num := batch_numPrimitives numPrimitives numPrimitivesPerBatch b in
    first = (Z.of_nat b * numPrimitivesPerBatch)%Z ∧
    (1 ≤ num ≤ numPrimitivesPerBatch)%Z ∧
    ((Z.of_nat (S b) < numBatches)%Z →
       (first + num)%Z = batch_firstPrimitive numPrimitivesPerBatch (S b)) ∧
    (Z.of_nat (S b) = numBatches → (first + num)%Z = numPrimitives).
  Proof.
    intros Hn Hp Hsum numBatches Hb first num.
    assert (Hnb : numBatches = ((numPrimitives + numPrimitivesPerBatch - 1)
                                / numPrimitivesPerBatch)%Z).
    { unfold numBatches.
      replace (wrap32 (numPrimitives + numPrimitivesPerBatch) - 1)%Z
        with (wrap32 (numPrimitives + numPrimitivesPerBatch) + -1)%Z by lia.
      rewrite wrap32_add_l, wrap32_small by lia. reflexivity. }
    clearbody numBatches. subst numBatches.
    pose proof (Z.mul_div_le (numPrimitives + numPrimitivesPerBatch - 1)
                  numPrimitivesPerBatch Hp) as Hlo.
    pose proof (Z.mul_succ_div_gt (numPrimitives + numPrimitivesPerBatch - 1)
                  numPrimitivesPerBatch Hp) as Hhi.
    set (q := ((numPrimitives + numPrimitivesPerBatch - 1) / numPrimitivesPerBatch)%Z) in *.
    assert (Hbp : (0 ≤ Z.of_nat b * numPrimitivesPerBatch ≤ numPrimitives - 1)%Z) by nia.
    assert (Hfirst : first = (Z.of_nat b * numPrimitivesPerBatch)%Z).
    { unfold first, batch_firstPrimitive. apply wrap32_small. lia. }
    assert (Hnext : wrap32 (first + numPrimitivesPerBatch) =
                    (Z.of_nat b * numPrimitivesPerBatch + numPrimitivesPerBatch)%Z).
    { rewrite Hfirst. apply wrap32_small. nia. }
    assert (Hnum : num = (Z.min (Z.of_nat b * numPrimitivesPerBatch + numPrimitivesPerBatch)
                            numPrimitives
                          - Z.of_nat b * numPrimitivesPerBatch)%Z).
    { unfold num, batch_numPrimitives. cbv zeta. fold first.
      rewrite Hnext, Hfirst. apply wrap32_small. lia. }
    split; [exact Hfirst|]. split; [lia|]. split.
    - intros Hs. unfold batch_firstPrimitive.
      rewrite wrap32_small by nia. rewrite Hfirst, Hnum. nia.
    - intros Hs. rewrite Hfirst, Hnum. nia.
  Qed.
End RunMore.

Lemma batch_ranges_tile_witness :
  (0 < 300)%Z ∧ (0 < 128)%Z ∧ (300 + 128 ≤ 2 ^ 32)%Z ∧
  (Z.of_nat 2 < wrap32 (wrap32 (300 + 128) - 1) / 128)%Z ∧
  batch_firstPrimitive 128 2 = 256%Z ∧
  (1 ≤ batch_numPrimitives 300 128 2 ≤ 128)%Z.
Proof.
  split; [lia|]. split; [lia|]. split; [lia|]. split; [reflexivity|].
  destruct (batch_ranges_tile 300 128 2 ltac:(lia) ltac:(lia) ltac:(lia) eq_refl)
    as (H1 & H2 & _).
  split; [exact H1|exact H2].
Defined.

(** ** Further properties of primitive setup *)

Section SetupMore.
Context `{Constants}.
Variable PrimMem : Type.
Variable Clip : Polygon → Z → DrawCall.t → bool * Polygon.
Variable setupRoutineCall :
    option Handle → PrimMem → Z → Triangle.t → Polygon → DrawData.t → bool * PrimMem.
Variable indeterminate : Vertex.t.
Variable CLIP_FINITE : Z.
Variable MAX_POINT_SIZE : float.
Variable clampf : float → float → float → float.
Variable set_pointSizeInv : PrimMem → Z → float → PrimMem.

  (** A loop whose every iteration accepts at most [k] primitives, moving
      the output cursor by [ms] for each: the cursor ends [ms] times the
      number accepted after its start. *)
Lemma accept_loop (ms : Z) (k : nat) (body : nat → Z * Z * PrimMem → Z * Z * PrimMem)
      (n : nat) (v0 p0 : Z) (m0 : PrimMem) :
    (∀ i v p m, ∃ j : nat, j ≤ k ∧
        (body i (v, p, m)).1.1 = (v + Z.of_nat j)%Z ∧
        (body i (v, p, m)).1.2 = (p + ms * Z.of_nat j)%Z) →
    let r := for_upto n body (v0, p0, m0) in
    ∃ j : nat, j ≤ k * n ∧
      r.1.1 = (v0 + Z.of_nat j)%Z ∧ r.1.2 = (p0 + ms * Z.of_nat j)%Z.
  Proof.
    intros Hbody r. subst r.
    apply (for_upto_ind
             (λ i (acc : Z * Z * PrimMem),
                ∃ j : nat, j ≤ k * i ∧
                  acc.1.1 = (v0 + Z.of_nat j)%Z ∧ acc.1.2 = (p0 + ms * Z.of_nat j)%Z)).
    - exists 0. cbn [fst snd]. split; [lia|]. split; lia.
    - intros i [[v p] m] Hi (j & Hj & Hv & Hp). cbn [fst snd] in Hv, Hp.
      destruct (Hbody i v p m) as (j' & Hj' & Hv' & Hp').
      exists (j + j'). split; [lia|]. rewrite Hv', Hp', Hv, Hp. split; lia.
  Qed.

Lemma accept_step (ms : Z) (ok : bool) (v p : Z) (m : PrimMem) :
    ∃ j : nat, j ≤ 1 ∧
      (if ok then ((v + 1)%Z, (p + ms)%Z, m) else (v, p, m)).1.1 = (v + Z.of_nat j)%Z ∧
      (if ok then ((v + 1)%Z, (p + ms)%Z, m) else (v, p, m)).1.2 = (p + ms * Z.of_nat j)%Z.
  Proof.
    destruct ok; [exists 1|exists 0]; cbn [fst snd]; (split; [lia|]); split; lia.
  Qed.

Lemma reject_step (ms : Z) (v p : Z) (m : PrimMem) :
    ∃ j : nat, j ≤ 1 ∧
      (v, p, m).1.1 = (v + Z.of_nat j)%Z ∧ (v, p, m).1.2 = (p + ms * Z.of_nat j)%Z.
  Proof. exists 0. cbn [fst snd]. split; [lia|]. split; lia. Qed.

  (** X11.  The three strategies that set up one primitive per input
      ([setupSolidTriangles], [setupLines], [setupPoints]) write their output
      compactly: the visible count they return is between 0 and [count], and
      the output cursor ends exactly [multiSampleCount] times that count
      after its start. *)
Theorem setup_one_per_primitive_compact (mem : PrimMem) (triangles : nat → Triangle.t)
      (primitives : Z) (drawCall : DrawCall.t) (count : nat) :
    let ms := SetupState.multiSampleCount (DrawCall.setupState drawCall) in
    let compact (r : Z * Z * PrimMem) :=
      (0 ≤ r.1.1 ≤ Z.of_nat count)%Z ∧ r.1.2 = (primitives + ms * r.1.1)%Z in
    compact (setupSolidTriangles PrimMem Clip setupRoutineCall CLIP_FINITE
               mem triangles primitives drawCall count) ∧
    compact (setupLines PrimMem Clip setupRoutineCall
               mem triangles primitives drawCall count) ∧
    compact (setupPoints PrimMem Clip setupRoutineCall MAX_POINT_SIZE clampf
               set_pointSizeInv mem triangles primitives drawCall count).
  Proof.
    intros ms compact.
    assert (Hfin : ∀ r : Z * Z * PrimMem,
              (∃ j : nat, j ≤ 1 * count ∧
                 r.1.1 = (0 + Z.of_nat j)%Z ∧ r.1.2 = (primitives + ms * Z.of_nat j)%Z) →
              compact r).
    { intros r (j & Hj & Hv & Hp). unfold compact. rewrite Hp, Hv.
      split; [lia|]. f_equal. }
    split; [|split]; apply Hfin.
    - unfold setupSolidTriangles. apply accept_loop. intros i v p m. cbv zeta.
      destruct (_ =? 0)%Z; [apply reject_step|].
      destruct (negb (_ =? CLIP_FINITE)%Z); [apply reject_step|].
      destruct (if negb _ then _ else _) as [ok polygon].
      destruct (negb ok); [apply reject_step|].
      destruct (setupRoutineCall _ _ _ _ _ _) as [ok' m']. apply accept_step.
    - unfold setupLines. apply accept_loop. intros i v p m. cbv zeta.
      destruct (setupLine _ _ _ _ _ _ _) as [ok m']. apply accept_step.
    - unfold setupPoints. apply accept_loop. intros i v p m. cbv zeta.
      destruct (setupPoint _ _ _ _ _ _ _ _ _ _) as [ok m']. apply accept_step.
  Qed.

  (** X12.  The two strategies that take a triangle apart
      ([setupWireframeTriangles] into its three edges, [setupPointTriangles]
      into its three corners) return a visible count between 0 and
      [3 * count], and leave the output cursor [multiSampleCount] times that
      count after its start. *)
Theorem setup_three_per_triangle_compact (mem : PrimMem) (triangles : nat → Triangle.t)
      (primitives : Z) (drawCall : DrawCall.t) (count : nat) :
    let ms := SetupState.multiSampleCount (DrawCall.setupState drawCall) in
    let compact (r : Z * Z * PrimMem) :=
      (0 ≤ r.1.1 ≤ 3 * Z.of_nat count)%Z ∧ r.1.2 = (primitives + ms * r.1.1)%Z in
    compact (setupWireframeTriangles PrimMem Clip setupRoutineCall indeterminate
               mem triangles primitives drawCall count) ∧
    compact (setupPointTriangles PrimMem Clip setupRoutineCall indeterminate
               MAX_POINT_SIZE clampf set_pointSizeInv
               mem triangles primitives drawCall count).
  Proof.
    intros ms compact.
    assert (Hfin : ∀ r : Z * Z * PrimMem,
              (∃ j : nat, j ≤ 3 * count ∧
                 r.1.1 = (0 + Z.of_nat j)%Z ∧ r.1.2 = (primitives + ms * Z.of_nat j)%Z) →
              compact r).
    { intros r (j & Hj & Hv & Hp). unfold compact. rewrite Hp, Hv.
      split; [lia|]. f_equal. }
    assert (Hskip : ∀ v p (m : PrimMem), ∃ j : nat, j ≤ 3 ∧
              (v, p, m).1.1 = (v + Z.of_nat j)%Z ∧ (v, p, m).1.2 = (p + ms * Z.of_nat j)%Z).
    { intros v p m. exists 0. cbn [fst snd]. split; [lia|]. split; lia. }
    split; apply Hfin.
    - unfold setupWireframeTriangles. apply accept_loop. intros i v p m. cbv zeta.
      destruct (_ && _); [apply Hskip|].
      destruct (_ && _); [apply Hskip|].
      apply (accept_loop ms 1 _ 3 v p m).
      intros k v' p' m'. destruct (setupLine _ _ _ _ _ _ _) as [ok m'']. apply accept_step.
    - unfold setupPointTriangles. apply accept_loop. intros i v p m. cbv zeta.
      destruct (_ && _); [apply Hskip|].
      destruct (_ && _); [apply Hskip|].
      apply (accept_loop ms 1 _ 3 v p m).
      intros k v' p' m'. destruct (setupPoint _ _ _ _ _ _ _ _ _ _) as [ok m''].
      apply accept_step.
  Qed.

Lemma for_upto_fixed {S : Type} (n : nat) (body : nat → S → S) (s : S) :
    (∀ i, i < n → body i s = s) → for_upto n body s = s.
  Proof.
    intros Hfix. apply (for_upto_ind (λ _ acc, acc = s)); [reflexivity|].
    intros i acc Hi ->. apply Hfix, Hi.
  Qed.

  (** X13.  With both the front and the back bit in the cull mode, the
      wireframe and the point strategy discard every triangle before any
      line or point is set up: nothing is visible, and the cursor and the
      primitive memory are as they were. *)
Theorem cull_both_faces_discards_all (mem : PrimMem) (triangles : nat → Triangle.t)
      (primitives : Z) (drawCall : DrawCall.t) (count : nat) :
    Z.land (SetupState.cullMode (DrawCall.setupState drawCall)) VK_CULL_MODE_FRONT_BIT ≠ 0%Z →
    Z.land (SetupState.cullMode (DrawCall.setupState drawCall)) VK_CULL_MODE_BACK_BIT ≠ 0%Z →
    setupWireframeTriangles PrimMem Clip setupRoutineCall indeterminate
      mem triangles primitives drawCall count = (0%Z, primitives, mem) ∧
    setupPointTriangles PrimMem Clip setupRoutineCall indeterminate
      MAX_POINT_SIZE clampf set_pointSizeInv
      mem triangles primitives drawCall count = (0%Z, primitives, mem).
  Proof.
    intros Hf Hb.
    apply Z.eqb_neq in Hf, Hb.
    split.
    - unfold setupWireframeTriangles. apply for_upto_fixed. intros i _. cbv zeta.
      rewrite Hf, Hb. cbn [negb andb].
      destruct (if bool_decide _ then _ else _); reflexivity.
    - unfold setupPointTriangles. apply for_upto_fixed. intros i _. cbv zeta.
      rewrite Hf, Hb. cbn [negb andb].
      destruct (if bool_decide _ then _ else _); reflexivity.
  Qed.

  (** X14.  Input that is rejected leaves no trace.  [setupSolidTriangles]
      skips a triangle that is culled by its vertices (all three cull masks
      zero), that lies wholly outside one clip plane (the conjunction of the
      three clip flags is not [CLIP_FINITE]), or that needs clipping and
      whose polygon the clipper rejects: a batch of such triangles yields
      nothing and leaves cursor and memory untouched.  [setupPoint] rejects
      a point whose vertex is culled, or whose quad -- the square of side
      [pSize] around the vertex -- the clipper rejects for the clip flags
      of the draw, and leaves the memory untouched: [pointSizeInv] is
      written only after clipping has succeeded. *)
Theorem rejected_input_leaves_memory (mem : PrimMem) (triangles : nat → Triangle.t)
      (primitives : Z) (drawCall : DrawCall.t) (count : nat) (point : Triangle.t) :
    (∀ i, i < count →
       let v0 := Triangle.v0 (triangles i) in
       let v1 := Triangle.v1 (triangles i) in
       let v2 := Triangle.v2 (triangles i) in
       let clipFlagsOr :=
         Z.lor (Z.lor (Vertex.clipFlags v0) (Vertex.clipFlags v1)) (Vertex.clipFlags v2) in
       Z.lor (Z.lor (Vertex.cullMask v0) (Vertex.cullMask v1)) (Vertex.cullMask v2) = 0%Z ∨
       Z.land (Z.land (Vertex.clipFlags v0) (Vertex.clipFlags v1)) (Vertex.clipFlags v2)
         ≠ CLIP_FINITE ∨
       (clipFlagsOr ≠ CLIP_FINITE ∧
        (Clip [Vertex.position v0; Vertex.position v1; Vertex.position v2]
              clipFlagsOr drawCall).1 = false)) →
    (Vertex.cullMask (Triangle.v0 point) = 0%Z ∨
     (Clip (setupPoint_quad MAX_POINT_SIZE clampf point drawCall)
           (setupPoint_clipFlags drawCall) drawCall).1 = false) →
    setupSolidTriangles PrimMem Clip setupRoutineCall CLIP_FINITE
      mem triangles primitives drawCall count = (0%Z, primitives, mem) ∧
    setupPoint PrimMem Clip setupRoutineCall MAX_POINT_SIZE clampf set_pointSizeInv
      mem primitives point drawCall = (false, mem).
  Proof.
    intros Hrej Hpoint. split.
    - unfold setupSolidTriangles. apply for_upto_fixed. intros i Hi. cbv zeta.
      destruct (Hrej i Hi) as [Hc | [Hc | [Hor Hclip]]]; cbv zeta in *.
      + rewrite Hc. reflexivity.
      + apply Z.eqb_neq in Hc. rewrite Hc. cbn [negb].
        destruct (_ =? 0)%Z; reflexivity.
      + destruct (_ =? 0)%Z; [reflexivity|].
        destruct (negb _); [reflexivity|].
        apply Z.eqb_neq in Hor. rewrite Hor. cbn [negb].
        match goal with
        | |- context [Clip ?P ?f drawCall] =>
            change (Clip P f drawCall).1 with (Clip P f drawCall).1 in Hclip;
            destruct (Clip P f drawCall) as [ok polygon]
        end.
        cbn [fst] in Hclip. subst ok. reflexivity.
    - unfold setupPoint. cbv zeta.
      destruct Hpoint as [Hc | Hclip].
      + rewrite Hc. reflexivity.
      + destruct (_ =? 0)%Z; [reflexivity|].
        unfold setupPoint_quad, setupPoint_clipFlags in Hclip. cbv zeta in Hclip.
        match goal with
        | |- context [Clip ?P ?f drawCall] =>
            change (Clip P f drawCall).1 with (Clip P f drawCall).1 in Hclip;
            destruct (Clip P f drawCall) as [ok polygon]
        end.
        cbn [fst] in Hclip. subst ok. reflexivity.
  Qed.
End SetupMore.

Section DrawBatches.
Context `{Constants}.
Variable processors : Processors.t.

  (** X1.  Batching of a submitted draw: the draw records the primitive
      count, [MaxBatchSize / ms] primitives per batch ([ms] the sample count,
      1 under rasterizer discard) whatever the polygon mode, and the number
      of batches that covers the count: at least one, with all but the last
      batch full.  ([unsigned int] arithmetic; the sum of the count and the
      batch width must not wrap.) *)
Theorem submitted_draw_batches (this : Renderer.t) (draw0 : DrawCall.t)
      (pipeline : Pipeline.t) (count baseVertex : Z) (events : option Handle)
      (instanceID layer : Z) (indexBuffer : option Handle)
      (renderArea : VkRect2D.t) (pushConstants : Handle) (update : bool)
      (numVisible : nat → Z) :
    let r := draw processors this draw0 pipeline count baseVertex events
               instanceID layer indexBuffer renderArea pushConstants update
               numVisible in
    let ms := if Pipeline.hasRasterizerDiscard pipeline then 1%Z
              else Pipeline.getSampleCount pipeline in
    let d := DrawResult.draw r in
    DrawResult.submitted r = true →
    (0 < count)%Z → (0 < MaxBatchSize ÷ ms)%Z →
    (count + MaxBatchSize ÷ ms ≤ 2 ^ 32)%Z →
    DrawCall.numPrimitives d = count ∧
    DrawCall.numPrimitivesPerBatch d = (MaxBatchSize ÷ ms)%Z ∧
    (1 ≤ DrawCall.numBatches d)%Z ∧
    ((DrawCall.numBatches d - 1) * DrawCall.numPrimitivesPerBatch d < count
       ≤ DrawCall.numBatches d * DrawCall.numPrimitivesPerBatch d)%Z.
  Proof.
    intros r ms d Hs Hc Hp Hsum.
    destruct (draw_batching processors this draw0 pipeline count baseVertex events
                instanceID layer indexBuffer renderArea pushConstants update
                numVisible Hs) as [Hw Hn].
    fold r d ms in Hw, Hn.
    assert (Hcount : DrawCall.numPrimitives d = count).
    { subst d r. clear Hw Hn Hp Hsum ms.
      destruct pipeline as [top tri line disc].
      destruct count as [|p|p]; [lia| |lia].
      destruct disc; [reflexivity|].
      destruct tri; [destruct getPolygonMode|destruct line];
        first [ exact (False_ind _ (diff_false_true Hs)) | reflexivity ]. }
    rewrite (wrap32_small (MaxBatchSize ÷ ms)) in Hw, Hn by lia.
    replace (wrap32 (count + MaxBatchSize ÷ ms) - 1)%Z
      with (wrap32 (count + MaxBatchSize ÷ ms) + -1)%Z in Hn by lia.
    rewrite wrap32_add_l, wrap32_small in Hn by lia.
    split; [exact Hcount|]. split; [exact Hw|].
    rewrite Hn, Hw.
    pose proof (Z.mul_div_le (count + MaxBatchSize ÷ ms + -1) (MaxBatchSize ÷ ms) Hp) as Hlo.
    pose proof (Z.mul_succ_div_gt (count + MaxBatchSize ÷ ms + -1) (MaxBatchSize ÷ ms) Hp)
      as Hhi.
    set (q := ((count + MaxBatchSize ÷ ms + -1) / (MaxBatchSize ÷ ms))%Z) in *.
    split; [nia|]. nia.
  Qed.

  (** X16.  In every state reached without the draw counter wrapping
      around (no draw is issued with [nextDrawID] at [INT_MAX]), the tickets
      of the draw queue were taken in the order of the draws, and every
      ticket taken from any queue belongs to a draw identity the renderer
      has already handed out. *)
Theorem draw_tickets_in_submission_order (renderer : Renderer.t) (s : System.t) :
    rtc (step_without_wrap processors) (initial renderer) s →
    StronglySorted ticket_lt (takes DrawTickets (World.trace (System.world s))) ∧
    ∀ q t, t ∈ takes q (World.trace (System.world s)) →
           (t.1 < Renderer.nextDrawID (System.renderer s))%Z.
  Proof.
    intros Hr. apply (reachable_invariant processors) in Hr.
    destruct Hr as [I1 I2 I3 I4 I5 I6 I7 I8 I9 I10 I11 I12 I13 I14].
    split.
    - specialize (I4 DrawTickets). apply StronglySorted_app_1_l in I4. exact I4.
    - intros q t Ht. apply (I13 q t). apply elem_of_app. left. exact Ht.
  Qed.
End DrawBatches.

Lemma submitted_draw_batches_witness :
  let pipeline := example_pipeline false VK_POLYGON_MODE_LINE false false 1%Z 1%Z in
  let r := example_draw pipeline 300 (λ _, 1%Z) in
  DrawResult.submitted r = true ∧ (0 < 300)%Z ∧
  (0 < @MaxBatchSize binary32 header_constants ÷ 1)%Z ∧
  (300 + @MaxBatchSize binary32 header_constants ÷ 1 ≤ 2 ^ 32)%Z ∧
  DrawCall.numPrimitives (DrawResult.draw r) = 300%Z ∧
  DrawCall.numPrimitivesPerBatch (DrawResult.draw r) = 128%Z ∧
  (1 ≤ DrawCall.numBatches (DrawResult.draw r))%Z.
Proof.
  intros pipeline r.
  split; [reflexivity|]. split; [lia|]. split; [reflexivity|].
  split; [vm_compute; discriminate|].
  destruct (@submitted_draw_batches binary32 header_constants example_processors
              example_renderer stale_draw pipeline 300 0 None 0 0 None
              example_renderArea 0%Z true (λ _, 1%Z) eq_refl eq_refl eq_refl
              ltac:(vm_compute; discriminate))
    as (H1 & H2 & H3 & _).
  split; [exact H1|]. split; [exact H2|exact H3].
Defined.

Lemma draw_tickets_in_submission_order_witness :
  rtc (@step_without_wrap binary32 header_constants example_processors)
      (initial example_renderer) example_final ∧
  StronglySorted ticket_lt (takes DrawTickets (World.trace (System.world example_final))) ∧
  ∀ q t, t ∈ takes q (World.trace (System.world example_final)) →
         (t.1 < Renderer.nextDrawID (System.renderer example_final))%Z.
Proof.
  split; [exact example_final_reachable|].
  exact (@draw_tickets_in_submission_order binary32 header_constants
           example_processors example_renderer example_final
           example_final_reachable).
Defined.

Lemma cull_both_faces_discards_all_witness :
  let t := {| Triangle.v0 := example_vertex 0 0 0 0 1;
              Triangle.v1 := example_vertex 1 0 16 0 1;
              Triangle.v2 := example_vertex 0 1 0 16 1 |} in
  Z.land (SetupState.cullMode (DrawCall.setupState example_cull_both_draw))
    (@VK_CULL_MODE_FRONT_BIT binary32 header_constants) ≠ 0%Z ∧
  Z.land (SetupState.cullMode (DrawCall.setupState example_cull_both_draw))
    (@VK_CULL_MODE_BACK_BIT binary32 header_constants) ≠ 0%Z ∧
  @setupWireframeTriangles binary32 header_constants (list Z) example_Clip
    example_setupRoutine (example_vertex 9 9 9 9 9) [] (λ _, t) 0
    example_cull_both_draw 2 = (0%Z, 0%Z, []).
Proof.
  intros t.
  split; [vm_compute; discriminate|]. split; [vm_compute; discriminate|].
  apply (@cull_both_faces_discards_all binary32 header_constants (list Z) example_Clip
           example_setupRoutine (example_vertex 9 9 9 9 9)
           (@of_int binary32 64) example_clampf example_set_pointSizeInv
           [] (λ _, t) 0 example_cull_both_draw 2).
  - vm_compute. discriminate.
  - vm_compute. discriminate.
Defined.

Lemma rejected_input_leaves_memory_witness :
  let culled := {| Triangle.v0 := example_vertex 0 0 0 0 0;
                   Triangle.v1 := example_vertex 1 0 16 0 0;
                   Triangle.v2 := example_vertex 0 1 0 16 0 |} in
  let outside := {| Triangle.v0 := example_flagged_vertex (-9) 0 1;
                    Triangle.v1 := example_flagged_vertex (-8) 0 2;
                    Triangle.v2 := example_flagged_vertex (-9) 1 0 |} in
  let triangles := λ i : nat, match i with 0%nat => culled | _ => outside end in
  let point := {| Triangle.v0 := example_flagged_vertex (-9) 0 0;
                  Triangle.v1 := example_vertex 9 9 9 9 9;
                  Triangle.v2 := example_vertex 9 9 9 9 9 |} in
  (∀ i, i < 2 →
     let v0 := Triangle.v0 (triangles i) in
     let v1 := Triangle.v1 (triangles i) in
     let v2 := Triangle.v2 (triangles i) in
     let clipFlagsOr :=
       Z.lor (Z.lor (Vertex.clipFlags v0) (Vertex.clipFlags v1)) (Vertex.clipFlags v2) in
     Z.lor (Z.lor (Vertex.cullMask v0) (Vertex.cullMask v1)) (Vertex.cullMask v2) = 0%Z ∨
     Z.land (Z.land (Vertex.clipFlags v0) (Vertex.clipFlags v1)) (Vertex.clipFlags v2)
       ≠ 0%Z ∨
     (clipFlagsOr ≠ 0%Z ∧
      (example_left_Clip [Vertex.position v0; Vertex.position v1; Vertex.position v2]
         clipFlagsOr example_submitted_draw).1 = false)) ∧
  Vertex.cullMask (Triangle.v0 point) ≠ 0%Z ∧
  (example_left_Clip
     (@setupPoint_quad binary32 (@of_int binary32 64) example_clampf point
        example_submitted_draw)
     (@setupPoint_clipFlags binary32 header_constants example_submitted_draw)
     example_submitted_draw).1 = false ∧
  @setupSolidTriangles binary32 (list Z) example_left_Clip example_setupRoutine 0
    [] triangles 0 example_submitted_draw 2 = (0%Z, 0%Z, []) ∧
  @setupPoint binary32 header_constants (list Z) example_left_Clip example_setupRoutine
    (@of_int binary32 64) example_clampf example_note_pointSizeInv
    [] 0 point example_submitted_draw = (false, []).
Proof.
  intros culled outside triangles point.
  assert (Hrej : ∀ i, i < 2 →
     let v0 := Triangle.v0 (triangles i) in
     let v1 := Triangle.v1 (triangles i) in
     let v2 := Triangle.v2 (triangles i) in
     let clipFlagsOr :=
       Z.lor (Z.lor (Vertex.clipFlags v0) (Vertex.clipFlags v1)) (Vertex.clipFlags v2) in
     Z.lor (Z.lor (Vertex.cullMask v0) (Vertex.cullMask v1)) (Vertex.cullMask v2) = 0%Z ∨
     Z.land (Z.land (Vertex.clipFlags v0) (Vertex.clipFlags v1)) (Vertex.clipFlags v2)
       ≠ 0%Z ∨
     (clipFlagsOr ≠ 0%Z ∧
      (example_left_Clip [Vertex.position v0; Vertex.position v1; Vertex.position v2]
         clipFlagsOr example_submitted_draw).1 = false)).
  { intros [|i] _; [left; reflexivity|right; right].
    split; [vm_compute; discriminate|vm_compute; reflexivity]. }
  assert (Hquad : (example_left_Clip
     (@setupPoint_quad binary32 (@of_int binary32 64) example_clampf point
        example_submitted_draw)
     (@setupPoint_clipFlags binary32 header_constants example_submitted_draw)
     example_submitted_draw).1 = false) by (vm_compute; reflexivity).
  split; [exact Hrej|]. split; [vm_compute; discriminate|]. split; [exact Hquad|].
  exact (@rejected_input_leaves_memory binary32 header_constants (list Z)
           example_left_Clip example_setupRoutine 0 (@of_int binary32 64)
           example_clampf example_note_pointSizeInv
           [] triangles 0 example_submitted_draw 2 point Hrej (or_intror Hquad)).
Defined.

(** ** From [Renderer::draw] to [DrawCall::teardown] *)

Section DrawToTeardown.
Context `{Constants}.
Variable processors : Processors.t.

Lemma run_events_add (d : DrawCall.t) (numVisible : nat → Z) :
    List.filter is_EventsAdd (run d numVisible) =
    match DrawCall.events d with
    | Some events => [EventsAdd events]
    | None => []
    end.
  Proof.
    unfold run. rewrite !List.filter_app.
    assert (Hb : List.filter is_EventsAdd
              (flat_map
                 (λ batchId,
                    map (λ cluster, TicketTake (ClusterQueue cluster) (DrawCall.id d, batchId))
                      (seq 0 MaxClusterCount) ++
                    [Schedule (batchTask (DrawData.rasterizerDiscard (DrawCall.data d))
                                 (numVisible batchId) (DrawCall.id d) batchId)])
                 (seq 0 (Z.to_nat (DrawCall.numBatches d)))) = []).
    { apply filter_none. apply Forall_flat_map, Forall_forall. intros b _.
      apply Forall_app. split; [|repeat constructor].
      apply Forall_forall. intros c Hc.
      apply list_elem_of_In, in_map_iff in Hc as (k & <- & _). reflexivity. }
    rewrite Hb. unfold DrawCall_setup.
    destruct (DrawCall.occlusionQuery d), (DrawCall.events d); reflexivity.
  Qed.

Lemma teardown_image_notifications (d : DrawCall.t) :
    List.filter is_ImageContentsChanged (teardown_calls d) =
    if DrawData.rasterizerDiscard (DrawCall.data d) then []
    else
      flat_map
        (λ index,
           match DrawCall.colorBuffer d index with
           | Some target => [ImageContentsChanged (ImageView.image target)]
           | None => []
           end)
        (seq 0 MAX_COLOR_BUFFERS).
  Proof.
    unfold teardown_calls. cbv zeta. rewrite !List.filter_app.
    assert (He : List.filter is_ImageContentsChanged
              match DrawCall.events d with
              | Some events => [EventsDone events]
              | None => []
              end = []) by (destruct (DrawCall.events d); reflexivity).
    assert (Hp : ∀ b : bool, List.filter is_ImageContentsChanged
              (if b then [ContentsChanged (DrawCall.descriptorSetObjects d)
                            (DrawCall.preRasterizationPipelineLayout d)] else []) = [])
      by (intros [|]; reflexivity).
    rewrite He, Hp. cbn [app].
    destruct (DrawData.rasterizerDiscard (DrawCall.data d)); cbn [negb]; [reflexivity|].
    rewrite !List.filter_app.
    assert (Hq : List.filter is_ImageContentsChanged
              match DrawCall.occlusionQuery d with
              | Some query =>
                  map (λ cluster, QueryAdd query (DrawData.occlusion (DrawCall.data d) cluster))
                    (seq 0 MaxClusterCount) ++ [QueryFinish query]
              | None => []
              end = []).
    { apply filter_none. destruct (DrawCall.occlusionQuery d) as [query|]; [|constructor].
      apply Forall_app. split; [|repeat constructor].
      apply Forall_forall. intros c Hc.
      apply list_elem_of_In, in_map_iff in Hc as (k & <- & _). reflexivity. }
    assert (Hf : ∀ b : bool, List.filter is_ImageContentsChanged
              (if b then [ContentsChanged (DrawCall.descriptorSetObjects d)
                            (DrawCall.fragmentPipelineLayout d)] else []) = [])
      by (intros [|]; reflexivity).
    rewrite Hq, Hf, app_nil_r. cbn [app].
    generalize (seq 0 MAX_COLOR_BUFFERS). intros l.
    induction l as [|i l IH]; [reflexivity|].
    cbn [flat_map]. rewrite List.filter_app, IH.
    destruct (DrawCall.colorBuffer d i); reflexivity.
  Qed.

Lemma flat_map_ext_in {A B : Type} (f g : A → list B) (l : list A) :
    (∀ a, a ∈ l → f a = g a) → flat_map f l = flat_map g l.
  Proof.
    induction l as [|a l IH]; intros Hfg; [reflexivity|].
    cbn [flat_map]. rewrite (Hfg a) by apply list_elem_of_here.
    rewrite IH; [reflexivity|]. intros a' Ha'. apply Hfg, list_elem_of_further, Ha'.
  Qed.

Lemma submitted_calls_shape (this : Renderer.t) (draw0 : DrawCall.t)
      (pipeline : Pipeline.t) (count baseVertex : Z) (events : option Handle)
      (instanceID layer : Z) (indexBuffer : option Handle)
      (renderArea : VkRect2D.t) (pushConstants : Handle) (update : bool)
      (numVisible : nat → Z) :
    let r := draw processors this draw0 pipeline count baseVertex events
               instanceID layer indexBuffer renderArea pushConstants update
               numVisible in
    DrawResult.submitted r = true →
    ∃ pre, DrawResult.calls r = pre ++ run (DrawResult.draw r) numVisible ∧
           Forall prologue_call pre.
  Proof.
    intros r Hs.
    destruct pipeline as [top tri line disc preLayout pvm lrm dce dcn lw vp sc pm
                          cdb sdb dbc fragLayout fs bs bc msc dso ds ddo gs gvs
                          fsh vsh acb adb asb preWrite fragWrite git].
    set (calls1 := [DrawCallPoolBorrow; PrepareForSampling dso preLayout]).
    set (calls2 :=
           match adb with
           | Some view =>
               match ImageView.getFormat view with
               | VK_FORMAT_OTHER => [Unsupported]
               | _ => []
               end
           | None => []
           end ++
           (if bool_decide (fragLayout ≠ preLayout) then
              [PrepareForSampling dso fragLayout]
            else [])).
    assert (H1 : Forall prologue_call calls1) by (repeat constructor).
    assert (H2 : Forall prologue_call (calls1 ++ calls2)).
    { apply Forall_app. split; [exact H1|]. apply Forall_app. split.
      - destruct adb as [view|]; [destruct (ImageView.getFormat view)|]; repeat constructor.
      - destruct (bool_decide (fragLayout ≠ preLayout)); repeat constructor. }
    destruct count as [|p|p]; [exact (False_ind _ (diff_false_true Hs))| |].
    all: destruct disc; [exists calls1; split; [reflexivity|exact H1]|].
    all: destruct tri; [destruct pm|destruct line];
      first [ exact (False_ind _ (diff_false_true Hs))
            | exists (calls1 ++ calls2); split; [reflexivity|exact H2] ].
  Qed.

  (** X17.  The events of a submitted draw are balanced: the calls of the
      submission add to the counted event exactly once (in
      [DrawCall::setup]), and the teardown of the draw object signals it done
      exactly once; with no events, neither call is made. *)
Theorem submitted_draw_events_balanced (this : Renderer.t) (draw0 : DrawCall.t)
      (pipeline : Pipeline.t) (count baseVertex : Z) (events : option Handle)
      (instanceID layer : Z) (indexBuffer : option Handle)
      (renderArea : VkRect2D.t) (pushConstants : Handle) (update : bool)
      (numVisible : nat → Z) :
    let r := draw processors this draw0 pipeline count baseVertex events
               instanceID layer indexBuffer renderArea pushConstants update
               numVisible in
    DrawResult.submitted r = true →
    List.filter is_EventsAdd (DrawResult.calls r) =
      match events with Some e => [EventsAdd e] | None => [] end ∧
    List.filter is_EventsDone (teardown_calls (DrawResult.draw r)) =
      match events with Some e => [EventsDone e] | None => [] end.
  Proof.
    intros r Hs.
    assert (Hev : DrawCall.events (DrawResult.draw r) = events).
    { subst r. destruct pipeline as [top tri line disc].
      destruct count as [|p|p]; [exact (False_ind _ (diff_false_true Hs))| |].
      all: destruct disc; [reflexivity|].
      all: destruct tri; [destruct getPolygonMode|destruct line];
        first [ exact (False_ind _ (diff_false_true Hs)) | reflexivity ]. }
    split; [|rewrite teardown_events_done, Hev; reflexivity].
    destruct (submitted_calls_shape this draw0 pipeline count baseVertex events
                instanceID layer indexBuffer renderArea pushConstants update
                numVisible Hs) as (pre & Hcalls & Hpre).
    fold r in Hcalls.
    rewrite Hcalls, List.filter_app, run_events_add, Hev.
    rewrite (filter_none is_EventsAdd); [reflexivity|].
    eapply Forall_impl; [exact Hpre|].
    intros c Hc. destruct c; cbn in Hc; try contradiction; reflexivity.
  Qed.

  (** X18.  The colour attachments a rasterizing draw was submitted with are
      the images its teardown reports as changed: one notification for every
      attachment of the pipeline that is bound, in attachment order, and
      none for the buffers an earlier use of the draw object had bound. *)
Theorem submitted_draw_notifies_attachments (this : Renderer.t) (draw0 : DrawCall.t)
      (pipeline : Pipeline.t) (count baseVertex : Z) (events : option Handle)
      (instanceID layer : Z) (indexBuffer : option Handle)
      (renderArea : VkRect2D.t) (pushConstants : Handle) (update : bool)
      (numVisible : nat → Z) :
    let r := draw processors this draw0 pipeline count baseVertex events
               instanceID layer indexBuffer renderArea pushConstants update
               numVisible in
    DrawResult.submitted r = true →
    Pipeline.hasRasterizerDiscard pipeline = false →
    List.filter is_ImageContentsChanged (teardown_calls (DrawResult.draw r)) =
      flat_map
        (λ index,
           match Pipeline.attachments_colorBuffer pipeline index with
           | Some view => [ImageContentsChanged (ImageView.image view)]
           | None => []
           end)
        (seq 0 MAX_COLOR_BUFFERS).
  Proof.
    intros r Hs Hd.
    assert (Hfields :
      DrawData.rasterizerDiscard (DrawCall.data (DrawResult.draw r)) = false ∧
      DrawCall.colorBuffer (DrawResult.draw r) =
        λ index, if (index <? MAX_COLOR_BUFFERS)%nat
                 then Pipeline.attachments_colorBuffer pipeline index
                 else DrawCall.colorBuffer draw0 index).
    { subst r.
      destruct pipeline as [top tri line disc preLayout pvm lrm dce dcn lw vp sc pm
                            cdb sdb dbc fragLayout fs bs bc msc dso ds ddo gs gvs
                            fsh vsh acb adb asb preWrite fragWrite git].
      cbn [Pipeline.hasRasterizerDiscard Pipeline.attachments_colorBuffer] in *.
      subst disc.
      destruct count as [|p|p]; [exact (False_ind _ (diff_false_true Hs))| |].
      all: destruct tri; [destruct pm|destruct line];
        first [ exact (False_ind _ (diff_false_true Hs)) | split; reflexivity ]. }
    destruct Hfields as [Hdisc Hcol].
    rewrite teardown_image_notifications, Hdisc, Hcol.
    apply flat_map_ext_in. intros index Hin.
    apply list_elem_of_In, in_seq in Hin.
    replace (index <? MAX_COLOR_BUFFERS)%nat with true
      by (symmetry; apply Nat.ltb_lt; lia).
    reflexivity.
  Qed.
End DrawToTeardown.

Lemma submitted_draw_events_balanced_witness :
  let pipeline := example_pipeline false VK_POLYGON_MODE_FILL false false 1%Z 1%Z in
  let r := @draw binary32 header_constants example_processors example_renderer
             stale_draw pipeline 5 0 (Some 66%Z) 0 0 None example_renderArea 0%Z true
             (λ _, 1%Z) in
  DrawResult.submitted r = true ∧
  List.filter is_EventsAdd (DrawResult.calls r) = [EventsAdd 66%Z] ∧
  List.filter is_EventsDone (@teardown_calls binary32 header_constants (DrawResult.draw r)) = [EventsDone 66%Z].
Proof.
  intros pipeline r. split; [reflexivity|].
  apply (@submitted_draw_events_balanced binary32 header_constants example_processors
           example_renderer stale_draw pipeline 5 0 (Some 66%Z) 0 0 None
           example_renderArea 0%Z true (λ _, 1%Z) eq_refl).
Defined.

Lemma submitted_draw_notifies_attachments_witness :
  let pipeline := example_pipeline false VK_POLYGON_MODE_FILL false false 1%Z 1%Z in
  let r := example_draw pipeline 5 (λ _, 1%Z) in
  DrawResult.submitted r = true ∧
  Pipeline.hasRasterizerDiscard pipeline = false ∧
  List.filter is_ImageContentsChanged (@teardown_calls binary32 header_constants (DrawResult.draw r)) =
    [ImageContentsChanged 900%Z].
Proof.
  intros pipeline r. split; [reflexivity|]. split; [reflexivity|].
  apply (@submitted_draw_notifies_attachments binary32 header_constants
           example_processors example_renderer stale_draw pipeline 5 0 None 0 0 None
           example_renderArea 0%Z true (λ _, 1%Z) eq_refl eq_refl).
Defined.
(** ** Index assembly and the vertex task *)

Lemma batch_row_lookup (batch : list Z) (i : nat) (a0 a1 a2 : Z) :
  batch_row batch i = Some (a0, a1, a2) →
  batch !! slot i 0 = Some a0 ∧ batch !! slot i 1 = Some a1 ∧ batch !! slot i 2 = Some a2.
Proof.
  unfold batch_row. intros Hrow.
  destruct (batch !! slot i 0) as [x0|]; [|discriminate Hrow].
  destruct (batch !! slot i 1) as [x1|]; [|discriminate Hrow].
  destruct (batch !! slot i 2) as [x2|]; [|discriminate Hrow].
  cbn in Hrow. injection Hrow as -> -> ->. repeat split.
Qed.

(** X19.  The vertex routine is handed [vertexCount] entries of the index
    block ([numPrimitives], or three times that for lines and triangles);
    every one of them was written by [processPrimitiveVertices] in the same
    call: whatever the block held before (it is an uninitialized local
    array), those entries come out the same. *)
Theorem vertex_task_reads_fresh_indices (capacity : nat) (out1 out2 : list Z)
    (primitiveIndices : option IndexBuffer) (indexType : VkIndexType)
    (I : IndexSource) (start : Z) (n : nat)
    (topology : VkPrimitiveTopology) (mode : VkProvokingVertexModeEXT) (k : nat) :
  (0 ≤ start < 2 ^ 32)%Z →
  1 ≤ n ≤ capacity →
  (Z.of_nat capacity < 2 ^ 30)%Z →
  length out1 = 3 * (capacity + 1) →
  length out2 = 3 * (capacity + 1) →
  index_source_of primitiveIndices indexType = Some I →
  topology ≠ VK_PRIMITIVE_TOPOLOGY_UNHANDLED →
  (Z.of_nat k < vertexTask_vertexCount topology (Z.of_nat n))%Z →
  ∃ x,
    processPrimitiveVertices out1 primitiveIndices indexType start n topology mode !! k
      = Some x ∧
    processPrimitiveVertices out2 primitiveIndices indexType start n topology mode !! k
      = Some x.
Proof.
  intros Hstart Hn Hcap Hl1 Hl2 HI Htop Hk.
  rewrite !(processPrimitiveVertices_unfold _ _ _ I) by exact HI.
  destruct (decide (topology = VK_PRIMITIVE_TOPOLOGY_POINT_LIST)) as [->|Hpt].
  - unfold vertexTask_vertexCount in Hk. rewrite bool_decide_true in Hk by reflexivity.
    rewrite wrap32_small in Hk by lia.
    destruct (setBatchIndices_points out1 mode I start n Hstart) as (H1 & _ & Hr1 & _); [lia|].
    destruct (setBatchIndices_points out2 mode I start n Hstart) as (H2 & _ & Hr2 & _); [lia|].
    destruct (setBatchIndices out1 _ mode I start n) as [b1 r1].
    destruct (setBatchIndices out2 _ mode I start n) as [b2 r2].
    cbn [fst snd] in *. subst b1 b2.
    rewrite bool_decide_false by (intros Hne; apply Hne; reflexivity).
    exists (I (wrap32 (start + Z.of_nat k))).
    split; [apply Hr1|apply Hr2]; lia.
  - unfold vertexTask_vertexCount in Hk. rewrite bool_decide_false in Hk by exact Hpt.
    rewrite wrap32_small in Hk by lia.
    assert (Hrow : row_topology topology = true)
      by (destruct topology; try reflexivity; contradiction).
    destruct (setBatchIndices_rows capacity out1 topology mode I start n Hstart
                ltac:(lia) Hl1 Hrow) as (H1 & _ & Hr1).
    destruct (setBatchIndices_rows capacity out2 topology mode I start n Hstart
                ltac:(lia) Hl2 Hrow) as (H2 & _ & Hr2).
    destruct (setBatchIndices out1 topology mode I start n) as [b1 r1].
    destruct (setBatchIndices out2 topology mode I start n) as [b2 r2].
    cbn [fst snd] in *. subst b1 b2.
    rewrite bool_decide_true by exact Hpt.
    rewrite !list_lookup_insert_ne by (unfold slot; lia).
    set (i := k / 3). set (j := k mod 3).
    assert (Hkij : k = slot i j) by (unfold slot, i, j; apply Nat.div_mod_eq).
    assert (Hj : j < 3) by (unfold j; apply Nat.mod_upper_bound; lia).
    assert (Hi : i < n) by (unfold i; apply Nat.Div0.div_lt_upper_bound; lia).
    specialize (Hr1 i Hi). specialize (Hr2 i Hi).
    destruct (reference_row topology mode I start i) as [[a0 a1] a2].
    apply batch_row_lookup in Hr1 as (H10 & H11 & H12).
    apply batch_row_lookup in Hr2 as (H20 & H21 & H22).
    rewrite Hkij.
    destruct j as [|[|[|j]]]; [exists a0|exists a1|exists a2|lia]; split; assumption.
Qed.

Lemma vertex_task_reads_fresh_indices_witness :
  (0 ≤ 5 < 2 ^ 32)%Z ∧ 1 ≤ 2 ≤ 128 ∧ (Z.of_nat 128 < 2 ^ 30)%Z ∧
  length (replicate 387 0%Z) = 3 * (128 + 1) ∧
  length (replicate 387 7%Z) = 3 * (128 + 1) ∧
  (Z.of_nat 4 < vertexTask_vertexCount VK_PRIMITIVE_TOPOLOGY_TRIANGLE_STRIP (Z.of_nat 2))%Z ∧
  ∃ x,
    processPrimitiveVertices (replicate 387 0%Z) None VK_INDEX_TYPE_UINT16 5 2
      VK_PRIMITIVE_TOPOLOGY_TRIANGLE_STRIP VK_PROVOKING_VERTEX_MODE_FIRST_VERTEX_EXT !! 4
      = Some x ∧
    processPrimitiveVertices (replicate 387 7%Z) None VK_INDEX_TYPE_UINT16 5 2
      VK_PRIMITIVE_TOPOLOGY_TRIANGLE_STRIP VK_PROVOKING_VERTEX_MODE_FIRST_VERTEX_EXT !! 4
      = Some x.
Proof.
  split; [lia|]. split; [lia|]. split; [lia|]. split; [reflexivity|].
  split; [reflexivity|]. split; [reflexivity|].
  apply (vertex_task_reads_fresh_indices 128 (replicate 387 0%Z) (replicate 387 7%Z)
           None VK_INDEX_TYPE_UINT16 LinearIndex 5 2
           VK_PRIMITIVE_TOPOLOGY_TRIANGLE_STRIP VK_PROVOKING_VERTEX_MODE_FIRST_VERTEX_EXT 4).
  - lia.
  - lia.
  - lia.
  - reflexivity.
  - reflexivity.
  - reflexivity.
  - discriminate.
  - reflexivity.
Defined.
